(** * resig.js (Signal-Sigma): a shallow embedding of the reactive core

    The development follows the TypeScript sources:
    - [core/signal.ts]   : [signal], [map], [subscribe], [_set]
    - [core/effect.ts]   : [effect], [bind], [pureEffect], [sequence]
    - [plugins/index.ts] : [filterPlugin]
    - [algebras/time.ts] : [time], [timeout]
    - [algebras/fetch.ts]: [fetch], [executeFetch], [retry], [cache]
    - [algebras/state.ts]: [fsm]

    JavaScript closures that end up in a subscriber set, a timer or a promise
    continuation are kept as first-order data (one constructor per closure of
    the sources), and the objects they capture are addresses into one shared
    store.  A call that re-enters the store ([_set] -> [notify] -> subscriber
    -> [_set] ...) is run by a fuelled interpreter: [None] stands for a call
    that does not return.

    Outside the model: numbers other than integers and [NaN], subscribers
    and mapped functions that throw, [unsubscribe] (no modelled caller keeps
    the handle), and promises that settle later than the next microtask
    checkpoint. *)

From stdpp Require Import base option list strings gmap pretty.
From Stdlib Require Import ZArith Lia Ascii.

(* ===================================================================== *)
(** ** JavaScript values and strict equality                              *)
(* ===================================================================== *)

(** Objects carry the reference they were allocated at: [===] on objects is
    reference identity.  None of the modelled code mutates an object in
    place, so the contents travel with the reference. *)
#[warnings="-register-all"]
Inductive Val : Type :=
| VUndef
| VBool (b : bool)
| VNum (n : Z)
| VNaN
| VStr (s : string)
| VErr (ref : nat) (msg : string)                         (* an Error object *)
| VArr (ref : nat) (elems : list Val)                     (* an array *)
| VAsync (ref : nat) (data : Val) (loading : bool) (error : Val).
                                   (* AsyncState: { data?, loading, error? } *)

(** [a === b] *)
Definition strict_eq (a b : Val) : bool :=
  match a, b with
  | VUndef, VUndef => true
  | VBool x, VBool y => Bool.eqb x y
  | VNum x, VNum y => Z.eqb x y
  | VNaN, VNaN => false
  | VStr x, VStr y => String.eqb x y
  | VErr r _, VErr r' _ => Nat.eqb r r'
  | VArr r _, VArr r' _ => Nat.eqb r r'
  | VAsync r _ _ _, VAsync r' _ _ _ => Nat.eqb r r'
  | _, _ => false
  end.

(** [a !== b] *)
Definition strict_neq (a b : Val) : bool := negb (strict_eq a b).


(** JavaScript truthiness, as used by [&&] and [if]. *)
Definition truthy (v : Val) : bool :=
  match v with
  | VUndef => false
  | VBool b => b
  | VNum n => negb (Z.eqb n 0%Z)
  | VNaN => false
  | VStr s => negb (String.eqb s "")
  | _ => true
  end.

(** [error instanceof Error] *)
Definition is_error (v : Val) : bool :=
  match v with VErr _ _ => true | _ => false end.

(* ===================================================================== *)
(** ** The store                                                          *)
(* ===================================================================== *)

(** A signal is the address of its cell. *)
Definition sid := nat.

(** The functions handed to [map]. *)
Inductive Fn : Type :=
| FPure (g : Val -> Val)                 (* a function of its argument only *)
| FFilter (p : Val -> bool) (src : sid)
      (* filterPlugin: value => predicate(value) ? value : signal.value() *)
| FSnoc (arr : list Val).                 (* sequence: val => [...arr, val] *)

(** Effect-valued expressions: the bodies of the functions handed to
    [bind]. *)
Inductive EffExp : Type :=
| EEffect (v : Val)                               (* effect(v) *)
| ERef (e : sid)                                  (* an effect in scope *)
| EMap (e : EffExp) (f : Fn)                      (* e.map(f) *)
| EBind (e : EffExp) (k : Val -> EffExp).         (* e.bind(k) *)

(** The result of the fetcher's promise. *)
Inductive Outcome : Type :=
| Resolve (data : Val)
| Reject (reason : Val).

(** A fetcher: the outcome of its k-th invocation (counted from 0). *)
Definition Fetcher := nat -> Outcome.

(** The closures registered with [subscribe]. *)
Inductive Sub : Type :=
| SubMap (f : Fn) (derived : sid)
      (* signal.ts, map: newValue => derived._set(f(newValue)) *)
| SubBind (k : Val -> EffExp) (result : sid)
      (* effect.ts, bind: newValue => { newEffect = f(newValue); ... } *)
| SubInner (result : sid)
      (* effect.ts, bind: boundValue => resultEffect._set(boundValue) *)
| SubLog (tag : nat)
      (* an observer: records the value it is called with *)
| SubTimeout (flag : nat) (timer : nat) (timedOut : sid)
      (* time.ts, timeout: the subscriber on the source *)
| SubCache (key : string) (cached : sid)
      (* fetch.ts, cache: the subscriber on baseEffect *)
| SubDep (fetcher : Fetcher) (target : sid).
      (* fetch.ts: () => executeFetch(fetchInstance) *)

(** The callbacks handed to [setTimeout]. *)
Inductive TimerAct : Type :=
| TTimeoutFire (flag : nat) (ms : Z) (timedOut : sid)
      (* time.ts, timeout: () => { if (!hasCompleted) ... } *)
| TAttempt (fetcher : Fetcher) (n : Z) (attemptsLeft : Z) (target : sid).
      (* fetch.ts, retry: () => attemptFetch(attemptsLeft - 1);
         [attemptsLeft] is the value captured by the closure *)

(** The continuations waiting on [await fetcher()]. *)
Inductive Micro : Type :=
| MExec (target : sid) (o : Outcome)                   (* executeFetch *)
| MAttempt (fetcher : Fetcher) (n : Z) (attemptsLeft : Z)
           (target : sid) (o : Outcome).               (* attemptFetch *)

Record Cell : Type := mkCell {
  cur : Val;             (* let current *)
  subs : list Sub        (* const subscribers = new Set(), insertion order *)
}.

Record Timer : Type := mkTimer {
  t_id : nat;
  t_due : Z;
  t_act : TimerAct
}.

Record Store : Type := mkStore {
  cells : list Cell;               (* the signals created so far *)
  next_ref : nat;                  (* next object reference *)
  trace : list (nat * Val);        (* what the observers saw, latest first *)
  flags : list bool;               (* the [hasCompleted] variables *)
  timers : list Timer;             (* pending timers *)
  next_timer : nat;
  now : Z;                         (* Date.now() *)
  micro : list Micro;              (* the microtask queue *)
  storage : gmap string string;    (* localStorage *)
  calls : nat;                     (* invocations of fetchers so far *)
  backoff : list Z                 (* delays passed to setTimeout by retry *)
}.

Definition empty_store : Store :=
  mkStore [] 0 [] [] [] 0 0%Z [] ∅ 0 [].

Definition set_cells (s : Store) (cs : list Cell) : Store :=
  mkStore cs (next_ref s) (trace s) (flags s) (timers s) (next_timer s)
          (now s) (micro s) (storage s) (calls s) (backoff s).

(** [value()] of a signal; [VUndef] for an address that was never
    allocated (the sources cannot form one). *)
Definition value (s : Store) (id : sid) : Val :=
  match cells s !! id with
  | Some c => cur c
  | None => VUndef
  end.

Definition subscribers (s : Store) (id : sid) : list Sub :=
  match cells s !! id with
  | Some c => subs c
  | None => []
  end.

(** [signal(initial)]: a fresh cell with no subscribers. *)
Definition signal (initial : Val) (s : Store) : sid * Store :=
  (length (cells s), set_cells s (cells s ++ [mkCell initial []])).

(** [subscribe(fn)]: [subscribers.add(fn)].  Every closure of the sources
    is a fresh function object, so adding appends. *)
Definition subscribe (id : sid) (fn : Sub) (s : Store) : Store :=
  match cells s !! id with
  | Some c => set_cells s (<[id := mkCell (cur c) (subs c ++ [fn])]> (cells s))
  | None => s
  end.

(** [current = value] *)
Definition write (id : sid) (v : Val) (s : Store) : Store :=
  match cells s !! id with
  | Some c => set_cells s (<[id := mkCell v (subs c)]> (cells s))
  | None => s
  end.

(** A fresh object reference. *)
Definition fresh_ref (s : Store) : nat * Store :=
  (next_ref s,
   mkStore (cells s) (S (next_ref s)) (trace s) (flags s) (timers s)
           (next_timer s) (now s) (micro s) (storage s) (calls s) (backoff s)).

(** Applying a [map] function; the array literal of [FSnoc] allocates. *)
Definition apply_fn (f : Fn) (v : Val) (s : Store) : Val * Store :=
  match f with
  | FPure g => (g v, s)
  | FFilter p src => (if p v then v else value s src, s)
  | FSnoc arr => let '(r, s1) := fresh_ref s in (VArr r (arr ++ [v]), s1)
  end.

(** [[...arr, val]] for an [arr] that is an array. *)
Definition arr_elems (v : Val) : list Val :=
  match v with VArr _ l => l | _ => [] end.

(* ===================================================================== *)
(** ** core/signal.ts and core/effect.ts: construction                    *)
(* ===================================================================== *)

(** [effect(initial)] wraps [signal(initial)] and shares its cell; so do
    [pureEffect] and [time]. *)
Definition effect (initial : Val) (s : Store) : sid * Store := signal initial s.
Definition pureEffect (v : Val) (s : Store) : sid * Store := effect v s.
Definition time (initial : Val) (s : Store) : sid * Store := effect initial s.

(** [map(f)]: [derived = signal(f(current))], then subscribe to the source. *)
Definition map_ (id : sid) (f : Fn) (s : Store) : sid * Store :=
  let '(v, s1) := apply_fn f (value s id) s in
  let '(derived, s2) := signal v s1 in
  (derived, subscribe id (SubMap f derived) s2).

(** The rest of [bind(f)] once [f(baseSignal.value())] has been evaluated to
    [inner]: [resultEffect = effect(inner.value())], then subscribe to the
    source.  [inner] itself is not subscribed to. *)
Definition bind_body (inner m : sid) (k : Val -> EffExp) (s : Store)
  : sid * Store :=
  let '(result, s1) := effect (value s inner) s in
  (result, subscribe m (SubBind k result) s1).

Fixpoint eval_exp (e : EffExp) (s : Store) : sid * Store :=
  match e with
  | EEffect v => effect v s
  | ERef x => (x, s)
  | EMap e f => let '(x, s1) := eval_exp e s in map_ x f s1
  | EBind e k =>
      let '(m, s1) := eval_exp e s in
      let '(inner, s2) := eval_exp (k (value s1 m)) s1 in
      bind_body inner m k s2
  end.

(** [m.bind(f)] *)
Definition bind (m : sid) (k : Val -> EffExp) (s : Store) : sid * Store :=
  let '(inner, s1) := eval_exp (k (value s m)) s in
  bind_body inner m k s1.

(** [sequence(effects)]:
    [effects.reduce((acc, curr) =>
        acc.bind(arr => curr.map(val => [...arr, val])), pureEffect([]))] *)
Definition sequence_step (curr : sid) : Val -> EffExp :=
  fun arr => EMap (ERef curr) (FSnoc (arr_elems arr)).

Definition sequence (effects : list sid) (s : Store) : sid * Store :=
  let '(r, s0) := fresh_ref s in
  fold_left (fun acc curr => bind (fst acc) (sequence_step curr) (snd acc))
            effects (pureEffect (VArr r []) s0).

(* ===================================================================== *)
(** ** The host: timers, flags, localStorage, JSON                        *)
(* ===================================================================== *)

Definition set_trace (s : Store) (t : list (nat * Val)) : Store :=
  mkStore (cells s) (next_ref s) t (flags s) (timers s) (next_timer s)
          (now s) (micro s) (storage s) (calls s) (backoff s).

Definition set_flags (s : Store) (f : list bool) : Store :=
  mkStore (cells s) (next_ref s) (trace s) f (timers s) (next_timer s)
          (now s) (micro s) (storage s) (calls s) (backoff s).

Definition set_timers (s : Store) (t : list Timer) (n : nat) : Store :=
  mkStore (cells s) (next_ref s) (trace s) (flags s) t n
          (now s) (micro s) (storage s) (calls s) (backoff s).

Definition set_now (s : Store) (t : Z) : Store :=
  mkStore (cells s) (next_ref s) (trace s) (flags s) (timers s) (next_timer s)
          t (micro s) (storage s) (calls s) (backoff s).

Definition set_micro (s : Store) (m : list Micro) (c : nat) : Store :=
  mkStore (cells s) (next_ref s) (trace s) (flags s) (timers s) (next_timer s)
          (now s) m (storage s) c (backoff s).

Definition set_storage (s : Store) (m : gmap string string) : Store :=
  mkStore (cells s) (next_ref s) (trace s) (flags s) (timers s) (next_timer s)
          (now s) (micro s) m (calls s) (backoff s).

Definition set_backoff (s : Store) (b : list Z) : Store :=
  mkStore (cells s) (next_ref s) (trace s) (flags s) (timers s) (next_timer s)
          (now s) (micro s) (storage s) (calls s) b.

(** An observer is called with [v]. *)
Definition log (tag : nat) (v : Val) (s : Store) : Store :=
  set_trace s ((tag, v) :: trace s).

(** How often observer [tag] has been notified. *)
Definition notifications (tag : nat) (s : Store) : nat :=
  length (filter (fun e => fst e = tag) (trace s)).

(** [let hasCompleted = false] *)
Definition new_flag (s : Store) : nat * Store :=
  (length (flags s), set_flags s (flags s ++ [false])).

Definition get_flag (s : Store) (i : nat) : bool :=
  default false (flags s !! i).

Definition put_flag (i : nat) (b : bool) (s : Store) : Store :=
  set_flags s (<[i := b]> (flags s)).

(** [setTimeout(act, ms)]: returns the timer's id. *)
Definition setTimeout (act : TimerAct) (ms : Z) (s : Store) : nat * Store :=
  (next_timer s,
   set_timers s (timers s ++ [mkTimer (next_timer s) (now s + ms)%Z act])
              (S (next_timer s))).

(** [clearTimeout(id)] *)
Definition clearTimeout (id : nat) (s : Store) : Store :=
  set_timers s (filter (fun t => t_id t ≠ id) (timers s)) (next_timer s).

(** [localStorage.getItem] / [localStorage.setItem] *)
Definition getItem (key : string) (s : Store) : option string :=
  storage s !! key.

Definition setItem (key v : string) (s : Store) : Store :=
  set_storage s (<[key := v]> (storage s)).

(** The conversions of the host that the sources call.  [JSON_parse]
    returns [None] where [JSON.parse] throws. *)
Record Host : Type := mkHost {
  JSON_stringify : Val -> string;
  JSON_parse : string -> option Val;
  js_String : Val -> string
}.

(** [parseInt(str)] for decimal input: leading blanks, a sign, then the
    longest run of digits; [VNaN] when there is no digit. *)
Definition digit_of (a : Ascii.ascii) : option Z :=
  let n := Z.of_nat (Ascii.nat_of_ascii a) in
  if ((48 <=? n) && (n <=? 57))%Z then Some (n - 48)%Z else None.

Fixpoint parse_digits (acc : option Z) (str : string) : option Z :=
  match str with
  | EmptyString => acc
  | String a rest =>
      match digit_of a with
      | Some d => parse_digits (Some (10 * default 0 acc + d)%Z) rest
      | None => acc
      end
  end.

Fixpoint skip_blanks (str : string) : string :=
  match str with
  | String a rest =>
      if Ascii.eqb a " "%char then skip_blanks rest else str
  | EmptyString => str
  end.

Definition parseInt (str : string) : Val :=
  match skip_blanks str with
  | String "-"%char rest =>
      match parse_digits None rest with
      | Some n => VNum (- n)%Z | None => VNaN end
  | String "+"%char rest =>
      match parse_digits None rest with
      | Some n => VNum n | None => VNaN end
  | rest =>
      match parse_digits None rest with
      | Some n => VNum n | None => VNaN end
  end.

(** [Date.now().toString()] *)
Definition now_string (s : Store) : string := pretty (now s).

(** [Date.now() - parseInt(cacheTime) < ttl]; false when the difference
    is [NaN]. *)
Definition younger_than (s : Store) (cacheTime : string) (ttl : Z) : bool :=
  match parseInt cacheTime with
  | VNum t => (now s - t <? ttl)%Z
  | _ => false
  end.

(** Reading the fields of an [AsyncState]. *)
Definition st_data (v : Val) : Val :=
  match v with VAsync _ d _ _ => d | _ => VUndef end.
Definition st_loading (v : Val) : Val :=
  match v with VAsync _ _ l _ => VBool l | _ => VUndef end.
Definition st_error (v : Val) : Val :=
  match v with VAsync _ _ _ e => e | _ => VUndef end.

(** The object literals of fetch.ts. *)
Definition obj_loading (s : Store) : Val * Store :=           (* { loading: true } *)
  let '(r, s1) := fresh_ref s in (VAsync r VUndef true VUndef, s1).
Definition obj_data (data : Val) (s : Store) : Val * Store := (* { data, loading: false } *)
  let '(r, s1) := fresh_ref s in (VAsync r data false VUndef, s1).
Definition obj_error (e : Val) (s : Store) : Val * Store :=   (* { error, loading: false } *)
  let '(r, s1) := fresh_ref s in (VAsync r VUndef false e, s1).

(** [fetcher()] followed by [await]: the fetcher is invoked now, and the
    continuation [k] is queued with the outcome of this invocation. *)
Definition await_fetcher (fetcher : Fetcher) (k : Outcome -> Micro) (s : Store)
  : Store :=
  set_micro s (micro s ++ [k (fetcher (calls s))]) (S (calls s)).

(* ===================================================================== *)
(** ** Running the store: [_set], [notify] and the subscribers            *)
(* ===================================================================== *)

Section Runtime.

Context (host : Host).

(** [error instanceof Error ? error : new Error(String(error))] *)
Definition wrap_error (reason : Val) (s : Store) : Val * Store :=
  if is_error reason then (reason, s)
  else let '(r, s1) := fresh_ref s in (VErr r (js_String host reason), s1).

(** fetch.ts, [executeFetch(target)] up to its [await]; [set] is the
    [_set] of the signals. *)
Definition executeFetch_with (set : sid -> Val -> Store -> option Store)
    (fetcher : Fetcher) (target : sid) (s : Store) : option Store :=
  let '(o, s1) := obj_loading s in
  s2 ← set target o s1;
  Some (await_fetcher fetcher (MExec target) s2).

(** fetch.ts, the subscriber that [cache] installs on [baseEffect]. *)
Definition cache_write (key : string) (state : Val) (s : Store) : Store :=
  if truthy (st_data state) && negb (truthy (st_loading state))
     && negb (truthy (st_error state))
  then setItem ("fetch_cache_time_" +:+ key) (now_string s)
         (setItem ("fetch_cache_" +:+ key)
                  (JSON_stringify host (st_data state)) s)
  else s.

(** What a subscriber does when it is called with [v]. *)
Definition sub_body (set : sid -> Val -> Store -> option Store)
    (fn : Sub) (v : Val) (s : Store) : option Store :=
  match fn with
  | SubMap f derived =>
      let '(w, s1) := apply_fn f v s in set derived w s1
  | SubBind k result =>
      let '(newEffect, s1) := eval_exp (k v) s in
      s2 ← set result (value s1 newEffect) s1;
      Some (subscribe newEffect (SubInner result) s2)
  | SubInner result => set result v s
  | SubLog tag => Some (log tag v s)
  | SubTimeout flag timer timedOut =>
      if get_flag s flag then Some s
      else set timedOut v (clearTimeout timer (put_flag flag true s))
  | SubCache key cached => set cached v (cache_write key v s)
  | SubDep fetcher target => executeFetch_with set fetcher target s
  end.

Inductive Call : Type :=
| CSet (id : sid) (v : Val)          (* id._set(v) *)
| CNotify (id : sid) (i : nat).      (* the rest of notify(), from the i-th
                                        subscriber on *)

(** [_set]: [if (value !== current) { current = value; notify(); }], and
    [notify]: [subscribers.forEach(fn => fn(current))].  [forEach] walks the
    live set (a subscriber added meanwhile is visited) and each call reads
    [current] anew. *)
Fixpoint exec (fuel : nat) (c : Call) (s : Store) : option Store :=
  match fuel with
  | O => None
  | S n =>
      match c with
      | CSet id v =>
          if strict_neq v (value s id)
          then exec n (CNotify id 0) (write id v s)
          else Some s
      | CNotify id i =>
          match subscribers s id !! i with
          | None => Some s
          | Some fn =>
              s' ← sub_body (fun t w => exec n (CSet t w)) fn (value s id) s;
              exec n (CNotify id (S i)) s'
          end
      end
  end.

Definition set_ (fuel : nat) (id : sid) (v : Val) (s : Store) : option Store :=
  exec fuel (CSet id v) s.

(** A sequence of updates through the setter of one signal. *)
Fixpoint set_all (fuel : nat) (id : sid) (vs : list Val) (s : Store)
  : option Store :=
  match vs with
  | [] => Some s
  | v :: rest => s' ← set_ fuel id v s; set_all fuel id rest s'
  end.

(** A sequence of updates through the setters of several signals. *)
Fixpoint set_each (fuel : nat) (us : list (sid * Val)) (s : Store)
  : option Store :=
  match us with
  | [] => Some s
  | (id, v) :: rest => s' ← set_ fuel id v s; set_each fuel rest s'
  end.

(** plugins/index.ts: [filterPlugin(predicate)(signal)] *)
Definition filterPlugin (p : Val -> bool) (src : sid) (s : Store)
  : sid * Store :=
  map_ src (FFilter p src) s.

End Runtime.

(* ===================================================================== *)
(** ** algebras/time.ts: [timeout], and the timers                        *)
(* ===================================================================== *)

(** [t.timeout(ms)] on the Time whose cell is [base]. *)
Definition time_timeout (base : sid) (ms : Z) (s : Store) : sid * Store :=
  let '(timedOut, s1) := time (value s base) s in
  let '(hasCompleted, s2) := new_flag s1 in
  let '(timeoutId, s3) := setTimeout (TTimeoutFire hasCompleted ms timedOut) ms s2 in
  (timedOut, subscribe base (SubTimeout hasCompleted timeoutId timedOut) s3).

(** The earliest pending timer; among equal due times the one set first. *)
Definition earliest (ts : list Timer) : option Timer :=
  fold_left (fun best t =>
               match best with
               | None => Some t
               | Some b => if (t_due t <? t_due b)%Z then Some t else Some b
               end) ts None.

(* ===================================================================== *)
(** ** algebras/fetch.ts                                                  *)
(* ===================================================================== *)

(** What the methods of a Fetch instance close over. *)
Record FetchObj : Type := mkFetch {
  f_cell : sid;              (* baseEffect *)
  f_fetcher : Fetcher;
  f_deps : list sid
}.

Section Async.

Context (host : Host).

(** fetch.ts, [attemptFetch(attemptsLeft)] inside [retry(n)], up to its
    [await]. *)
Definition attemptFetch_with (set : sid -> Val -> Store -> option Store)
    (fetcher : Fetcher) (n attemptsLeft : Z) (retryFetch : sid) (s : Store)
  : option Store :=
  let '(o, s1) := obj_loading s in
  s2 ← set retryFetch o s1;
  Some (await_fetcher fetcher (MAttempt fetcher n attemptsLeft retryFetch) s2).

(** The continuations after [await fetcher()]. *)
Definition run_micro (set : sid -> Val -> Store -> option Store)
    (m : Micro) (s : Store) : option Store :=
  match m with
  | MExec target (Resolve data) =>
      let '(o, s1) := obj_data data s in set target o s1
  | MExec target (Reject reason) =>
      let '(e, s1) := wrap_error host reason s in
      let '(o, s2) := obj_error e s1 in set target o s2
  | MAttempt fetcher n attemptsLeft retryFetch (Resolve data) =>
      let '(o, s1) := obj_data data s in set retryFetch o s1
  | MAttempt fetcher n attemptsLeft retryFetch (Reject reason) =>
      if (0 <? attemptsLeft)%Z then
        (* Exponential backoff *)
        let delay := (2 ^ (n - attemptsLeft) * 1000)%Z in
        let '(_, s1) :=
          setTimeout (TAttempt fetcher n attemptsLeft retryFetch) delay s in
        Some (set_backoff s1 (backoff s1 ++ [delay]))
      else
        let '(e, s1) := wrap_error host reason s in
        let '(o, s2) := obj_error e s1 in set retryFetch o s2
  end.

(** The callbacks of [setTimeout]. *)
Definition run_timer (set : sid -> Val -> Store -> option Store)
    (act : TimerAct) (s : Store) : option Store :=
  match act with
  | TTimeoutFire hasCompleted ms timedOut =>
      if get_flag s hasCompleted then Some s
      else
        let '(r, s1) := fresh_ref s in
        set timedOut (VErr r ("Timeout after " +:+ pretty ms +:+ "ms")) s1
  | TAttempt fetcher n attemptsLeft retryFetch =>
      attemptFetch_with set fetcher n (attemptsLeft - 1) retryFetch s
  end.

(** One turn of the event loop: the oldest microtask if there is one,
    otherwise the earliest timer that is due by [deadline]. [None]: nothing
    left to run. *)
Definition turn (fuel : nat) (deadline : option Z) (s : Store)
  : option (option Store) :=
  match micro s with
  | m :: rest =>
      Some (run_micro (set_ host fuel) m (set_micro s rest (calls s)))
  | [] =>
      match earliest (timers s) with
      | None => None
      | Some t =>
          if match deadline with
             | Some d => (t_due t <=? d)%Z
             | None => true
             end
          then Some (run_timer (set_ host fuel) (t_act t)
                       (set_now (clearTimeout (t_id t) s)
                                (Z.max (now s) (t_due t))))
          else None
      end
  end.

(** Run the event loop until nothing is pending. *)
Fixpoint run_loop (fuel : nat) (s : Store) : option Store :=
  match fuel with
  | O => None
  | S n =>
      match turn n None s with
      | None => Some s
      | Some r => s' ← r; run_loop n s'
      end
  end.

(** Run the event loop until the clock reads [deadline]. *)
Fixpoint run_until (fuel : nat) (deadline : Z) (s : Store) : option Store :=
  match fuel with
  | O => None
  | S n =>
      match turn n (Some deadline) s with
      | None => Some (set_now s (Z.max (now s) deadline))
      | Some r => s' ← r; run_until n deadline s'
      end
  end.

(** [executeFetch(target)] *)
Definition executeFetch (fuel : nat) (fetcher : Fetcher) (target : sid)
    (s : Store) : option Store :=
  executeFetch_with (set_ host fuel) fetcher target s.

(** [fetch(fetcher, deps)]: the result effect starts as [{ loading: true }],
    the fetcher is executed at once, then every dependency is subscribed. *)
Definition fetch (fuel : nat) (fetcher : Fetcher) (deps : list sid)
    (s : Store) : option (FetchObj * Store) :=
  let '(o, s0) := obj_loading s in
  let '(baseEffect, s1) := effect o s0 in
  s2 ← executeFetch fuel fetcher baseEffect s1;
  Some (mkFetch baseEffect fetcher deps,
        fold_left (fun st dep => subscribe dep (SubDep fetcher baseEffect) st)
                  deps s2).

(** [self.retry(n)] *)
Definition retry (fuel : nat) (self : FetchObj) (n : Z) (s : Store)
  : option (FetchObj * Store) :=
  '(retryFetch, s1) ← fetch fuel (f_fetcher self) (f_deps self) s;
  s2 ← attemptFetch_with (set_ host fuel) (f_fetcher self) n n
         (f_cell retryFetch) s1;
  Some (retryFetch, s2).

(** [self.cache(key, ttl)].  A [JSON.parse] that throws is caught and the
    miss path is taken. *)
Definition cache (fuel : nat) (self : FetchObj) (key : string) (ttl : Z)
    (s : Store) : option (FetchObj * Store) :=
  '(cached, s1) ← fetch fuel (f_fetcher self) (f_deps self) s;
  let cacheKey := "fetch_cache_" +:+ key in
  let cacheTimeKey := "fetch_cache_time_" +:+ key in
  let miss :=
    Some (cached, subscribe (f_cell self) (SubCache key (f_cell cached)) s1) in
  match getItem cacheKey s1, getItem cacheTimeKey s1 with
  | Some cachedData, Some cacheTime =>
      if truthy (VStr cachedData) && truthy (VStr cacheTime)
         && younger_than s1 cacheTime ttl
      then match JSON_parse host cachedData with
           | Some data =>
               let '(o, s2) := obj_data data s1 in
               s3 ← set_ host fuel (f_cell cached) o s2;
               Some (cached, s3)
           | None => miss
           end
      else miss
  | _, _ => miss
  end.

End Async.

(* ===================================================================== *)
(** ** algebras/state.ts: [fsm]                                           *)
(* ===================================================================== *)

Module Fsm.

Section WithEnv.

(** What the guards read when they are called. *)
Context {Env : Type}.

Record Transition : Type := mkTransition {
  from : string;
  to : string;
  on : Val;
  guard : option (Env -> bool)
}.

Record FSM : Type := mkFSM {
  transitions : list Transition;
  currentState : string;
  fsm_subscribers : list nat;           (* the observers, by tag *)
  fsm_trace : list (nat * string)       (* what they were called with *)
}.

(** [fsm(initialState, transitions)] *)
Definition fsm (initialState : string) (ts : list Transition) : FSM :=
  mkFSM ts initialState [] [].

Definition current (m : FSM) : string := currentState m.

(** [t.from === currentState && t.on === action && (!t.guard || t.guard())] *)
Definition matches (env : Env) (m : FSM) (action : Val) (t : Transition)
  : bool :=
  String.eqb (from t) (currentState m) && strict_eq (on t) action
  && match guard t with None => true | Some g => g env end.

Definition getTransition (env : Env) (m : FSM) (action : Val)
  : option Transition :=
  List.find (matches env m action) (transitions m).

(** [subscribers.forEach(fn => fn(currentState))] *)
Definition notify (m : FSM) : FSM :=
  mkFSM (transitions m) (currentState m) (fsm_subscribers m)
        (fsm_trace m ++ List.map (fun tag => (tag, currentState m))
                                 (fsm_subscribers m)).

Definition send (env : Env) (action : Val) (m : FSM) : FSM :=
  match getTransition env m action with
  | Some transition =>
      notify (mkFSM (transitions m) (to transition) (fsm_subscribers m)
                    (fsm_trace m))
  | None => m
  end.

Definition can (env : Env) (action : Val) (m : FSM) : bool :=
  match getTransition env m action with Some _ => true | None => false end.

Definition subscribe (tag : nat) (m : FSM) : FSM :=
  mkFSM (transitions m) (currentState m) (fsm_subscribers m ++ [tag])
        (fsm_trace m).

End WithEnv.

Arguments Transition : clear implicits.
Arguments FSM : clear implicits.

End Fsm.

(* ===================================================================== *)
(** ** Notions used by the statements                                     *)
(* ===================================================================== *)

(** The store only grows: cells are added, subscriber sets and the
    observers' trace are extended. *)
Definition extends (s s' : Store) : Prop :=
  length (cells s) <= length (cells s') /\
  (forall id, subscribers s id `prefix_of` subscribers s' id) /\
  trace s `suffix_of` trace s' /\
  next_ref s <= next_ref s'.

(** [Object.is(a, b)]: the equality of values that a caller of [value()]
    can observe (and that the test suite's [t.is] checks): primitives by
    value, [NaN] equal to itself, objects by reference. *)
Definition same_value (a b : Val) : bool :=
  match a, b with
  | VNaN, VNaN => true
  | _, _ => strict_eq a b
  end.

(** The signal whose [_set] a subscriber calls. *)
Definition sub_target (fn : Sub) : option sid :=
  match fn with
  | SubMap _ t | SubBind _ t | SubInner t
  | SubTimeout _ _ t | SubCache _ t | SubDep _ t => Some t
  | SubLog _ => None
  end.

(** Well-formed store: subscribers only hold signals that exist. *)
Definition targets_bounded (s : Store) : Prop :=
  forall x fn t, fn ∈ subscribers s x -> sub_target fn = Some t ->
                 t < length (cells s).

(** [f], called with the current value of [c], returns that value and
    leaves the store alone. *)
Definition tracks_source (f : Fn) (c : sid) : Prop :=
  forall st, apply_fn f (value st c) st = (value st c, st).

(** A construction step ([signal], [map], [bind], ...): the store grows,
    no existing signal changes its value, and every subscriber that is added
    calls the setter of a signal created by the step. *)
Definition quiet (s s' : Store) : Prop :=
  extends s s' /\
  (forall y, y < length (cells s) -> value s' y = value s y) /\
  (forall x fn, fn ∈ subscribers s' x ->
     fn ∈ subscribers s x \/
     exists t, sub_target fn = Some t /\
               length (cells s) <= t < length (cells s')).

(** [d] is the signal derived from [c] by [c.map(f)]: the subscriber that
    [map] installed is in place, and nothing else sets [d]. *)
Definition derived_inv (c d : sid) (f : Fn) (st : Store) : Prop :=
  c < length (cells st) /\ d < length (cells st) /\ c <> d /\
  SubMap f d ∈ subscribers st c /\
  (forall x fn, fn ∈ subscribers st x -> sub_target fn = Some d ->
                x = c /\ fn = SubMap f d).

(** The two signals agree. *)
Definition agree (c d : sid) (st : Store) : Prop :=
  same_value (value st d) (value st c) = true.

(** Over a call, either neither [c] nor [d] changed, or they agree at the
    end. *)
Definition settled (c d : sid) (st st' : Store) : Prop :=
  (value st' c = value st c /\ value st' d = value st d) \/ agree c d st'.

(** signal.ts: [id = a => a] *)
Definition identity : Fn := FPure (fun a => a).



(** What a call of [_set] guarantees about the pair [c], [d], as the
    subscribers see it. *)
Definition set_spec (c d : sid) (f : Fn)
    (set : sid -> Val -> Store -> option Store) : Prop :=
  forall t w s1 s2,
    derived_inv c d f s1 -> (t = d -> w = value s1 c) ->
    set t w s1 = Some s2 ->
    derived_inv c d f s2 /\ settled c d s1 s2 /\ (t = d -> agree c d s2).

(** What a call establishes beyond [settled]. *)
Definition call_post (c d : sid) (f : Fn) (call : Call) (st st' : Store)
  : Prop :=
  match call with
  | CSet x v =>
      (x = d -> agree c d st') /\
      (x = c -> strict_neq v (value st c) = true -> agree c d st')
  | CNotify x i =>
      x = c -> forall j, i <= j ->
      subscribers st c !! j = Some (SubMap f d) -> agree c d st'
  end.

(** [d] is only set to the current value of [c]. *)
Definition call_legal (c d : sid) (call : Call) (st : Store) : Prop :=
  match call with
  | CSet x v => x = d -> v = value st c
  | CNotify _ _ => True
  end.

(** [map]'s subscriber is the only one on [c], and [d] has none. *)
Definition lone_pair (c d : sid) (f : Fn) (st : Store) : Prop :=
  c < length (cells st) /\ d < length (cells st) /\ c <> d /\
  subscribers st c = [SubMap f d] /\ subscribers st d = [] /\
  value st d = value st c.

(** The signals of [P] exist, and no subscriber outside [P] sets one. *)
Definition isolated (P : sid -> Prop) (st : Store) : Prop :=
  (forall y, P y -> y < length (cells st)) /\
  (forall x fn t, ~ P x -> fn ∈ subscribers st x ->
                  sub_target fn = Some t -> ~ P t).

(** The signals of [P] have kept their values. *)
Definition untouched (P : sid -> Prop) (st st' : Store) : Prop :=
  forall y, P y -> value st' y = value st y.

Definition frame_spec (P : sid -> Prop)
    (set : sid -> Val -> Store -> option Store) : Prop :=
  forall t w s1 s2,
    isolated P s1 -> ~ P t -> set t w s1 = Some s2 ->
    isolated P s2 /\ untouched P s1 s2.

(** A call on a signal outside [P]. *)
Definition call_outside (P : sid -> Prop) (call : Call) : Prop :=
  match call with CSet x _ | CNotify x _ => ~ P x end.

(** The reduction of [sequence], from an accumulator on. *)
Definition sequence_fold (effects : list sid) (acc : sid * Store)
  : sid * Store :=
  fold_left (fun acc curr => bind acc.1 (sequence_step curr) acc.2) effects acc.

(** A host for the concrete runs below. *)
Definition demo_host : Host :=
  mkHost (fun _ => "null") (fun _ => None) (fun _ => "error").


(** [e = effect(1); L = pureEffect(0).bind(_ => e); e._set(2)]: the
    values of [L] and of [f(0) = e] afterwards. *)
Definition left_identity_run : option (Val * Val) :=
  let '(e, s0) := effect (VNum 1) empty_store in
  let '(p, s1) := pureEffect (VNum 0) s0 in
  let '(L, s2) := bind p (fun _ => ERef e) s1 in
  s3 ← set_ demo_host 5 e (VNum 2) s2;
  Some (value s3 L, value s3 e).

(** A fetcher whose promise rejects with [reason] on every invocation. *)
Definition always_rejects (reason : Val) : Fetcher := fun _ => Reject reason.

Record RetryRun : Type := mkRetryRun {
  rr_invocations : nat;      (* invocations of the fetcher caused by retry *)
  rr_backoff : list Z;       (* the delays between attempts *)
  rr_final : Val             (* the terminal value of the returned Fetch *)
}.

(** [f = fetch(fetcher)], left to settle; then [r = f.retry(n)] and the
    event loop run until nothing is pending. *)
Definition retry_run (host : Host) (fetcher : Fetcher) (n : Z)
  : option RetryRun :=
  '(f, s1) ← fetch host 20 fetcher [] empty_store;
  s2 ← run_loop host 100 s1;
  '(r, s3) ← retry host 20 f n s2;
  s4 ← run_loop host 100 s3;
  Some (mkRetryRun (calls s4 - calls s2) (backoff s4) (value s4 (f_cell r))).

(** [t = time(v0); timedOut = t.timeout(ms)]; the clock runs to [t1]; then
    [t._set(v)]; the clock runs to [t2]; then [t._set(w)].  The values of
    [timedOut] after each of the four steps. *)
Definition timeout_run (host : Host) (v0 : Val) (ms t1 : Z) (v : Val)
    (t2 : Z) (w : Val) : option (Val * Val * Val * Val) :=
  let '(t, s0) := time v0 empty_store in
  let '(timedOut, s1) := time_timeout t ms s0 in
  s2 ← run_until host 20 t1 s1;
  s3 ← set_ host 20 t v s2;
  s4 ← run_until host 20 t2 s3;
  s5 ← set_ host 20 t w s4;
  Some (value s2 timedOut, value s3 timedOut, value s4 timedOut,
        value s5 timedOut).



(** A host whose [JSON.parse] reads every string as the number 7. *)
Definition seven_host : Host :=
  mkHost (fun _ => "7") (fun _ => Some (VNum 7)) (fun _ => "error").

(* ===================================================================== *)
(** ** Further code of the cited files                                    *)
(* ===================================================================== *)


(** What a round over the subscribers [l] adds to the trace when each is an
    observer called with [v] (latest first). *)
Definition observer_entries (v : Val) (l : list Sub) : list (nat * Val) :=
  rev (omap (fun fn => match fn with
                       | SubLog tag => Some (tag, v)
                       | _ => None
                       end) l).

(** A step that only touches the host: no cell and no trace entry changes,
    and no [hasCompleted] goes back to false. *)
Definition host_step (st st' : Store) : Prop :=
  cells st' = cells st /\ trace st' = trace st /\
  (forall i, get_flag st i = true -> get_flag st' i = true).

(** A subscriber that returns at once: the source-side closure of a
    [timeout] that has completed. *)
Definition inert (st : Store) (fn : Sub) : Prop :=
  exists flag timer t, fn = SubTimeout flag timer t /\ get_flag st flag = true.

(** A construction step leaves the host alone: only cells and object
    references are added. *)
Definition same_host (st st' : Store) : Prop :=
  trace st' = trace st /\ flags st' = flags st /\ timers st' = timers st /\
  next_timer st' = next_timer st /\ now st' = now st /\
  micro st' = micro st /\ storage st' = storage st /\
  calls st' = calls st /\ backoff st' = backoff st.

Definition built (st st' : Store) : Prop := quiet st st' /\ same_host st st'.

(** signal.ts: [compose = (f, g) => a => f(g(a))] *)
Definition compose_ (f g : Val -> Val) : Val -> Val := fun a => f (g a).

(** signal.ts: [pure = value => signal(value)] *)
Definition pure_ (v : Val) (s : Store) : sid * Store := signal v s.

(** [f], called with the current value of [c], returns [g] of it and leaves
    the store alone. *)
Definition tracks_fn (f : Fn) (c : sid) (g : Val -> Val) : Prop :=
  forall st, apply_fn f (value st c) st = (g (value st c), st).

(** [d] holds [g] of the value of [c]. *)
Definition agree_with (g : Val -> Val) (c d : sid) (st : Store) : Prop :=
  same_value (value st d) (g (value st c)) = true.

Definition settled_with (g : Val -> Val) (c d : sid) (st st' : Store) : Prop :=
  (value st' c = value st c /\ value st' d = value st d) \/ agree_with g c d st'.

Definition set_spec_with (g : Val -> Val) (c d : sid) (f : Fn)
    (set : sid -> Val -> Store -> option Store) : Prop :=
  forall t w s1 s2,
    derived_inv c d f s1 -> (t = d -> w = g (value s1 c)) ->
    set t w s1 = Some s2 ->
    derived_inv c d f s2 /\ settled_with g c d s1 s2 /\
    (t = d -> agree_with g c d s2).

Definition call_post_with (g : Val -> Val) (c d : sid) (f : Fn) (call : Call)
    (st st' : Store) : Prop :=
  match call with
  | CSet x v =>
      (x = d -> agree_with g c d st') /\
      (x = c -> strict_neq v (value st c) = true -> agree_with g c d st')
  | CNotify x i =>
      x = c -> forall j, i <= j ->
      subscribers st c !! j = Some (SubMap f d) -> agree_with g c d st'
  end.

Definition call_legal_with (g : Val -> Val) (c d : sid) (call : Call)
    (st : Store) : Prop :=
  match call with
  | CSet x v => x = d -> v = g (value st c)
  | CNotify _ _ => True
  end.

(** A function of JavaScript values cannot tell apart two values that
    [Object.is] identifies. *)
Definition respects_identity (f : Val -> Val) : Prop :=
  forall a b, same_value a b = true -> same_value (f a) (f b) = true.

(** The functions of the test suite: [x => x * 2] and [x => x + 1]. *)
Definition double (v : Val) : Val :=
  match v with VNum n => VNum (n * 2) | _ => VNaN end.
Definition addOne (v : Val) : Val :=
  match v with VNum n => VNum (n + 1) | _ => VNaN end.

(** The functions handed to [bind] in the tests: [x => effect(g(x))];
    [pureEffect] is the case [g = id]. *)
Definition fresh_effect (g : Val -> Val) : Val -> EffExp :=
  fun v => EEffect (g v).

(** No subscriber sets [y]. *)
Definition untargeted (st : Store) (y : sid) : Prop :=
  forall x fn, fn ∈ subscribers st x -> sub_target fn <> Some y.

(** [r = m.bind(k)], called when the store had [n0] signals: [bind]'s
    subscriber is on [m]; the only other closures that set [r] are the
    inner subscribers, and they sit on effects created after the call
    that nothing sets. *)
Definition bound_inv (n0 : nat) (m r : sid) (k : Val -> EffExp) (st : Store)
  : Prop :=
  m < n0 /\ n0 <= r /\ r < length (cells st) /\ targets_bounded st /\
  SubBind k r ∈ subscribers st m /\
  (forall x fn, fn ∈ subscribers st x -> sub_target fn = Some r ->
     (x = m /\ fn = SubBind k r) \/ fn = SubInner r) /\
  (forall x, SubInner r ∈ subscribers st x -> n0 <= x /\ untargeted st x).

(** Over a call: [m] and [r] are settled, the store has grown, and no
    signal that existed has been given an inner subscriber of [r]. *)
Definition bound_rel (g : Val -> Val) (m r : sid) (st st' : Store) : Prop :=
  settled_with g m r st st' /\ extends st st' /\
  (forall y, y < length (cells st) -> SubInner r ∉ subscribers st y ->
             SubInner r ∉ subscribers st' y).

Definition set_spec_bound (n0 : nat) (m r : sid) (g : Val -> Val)
    (set : sid -> Val -> Store -> option Store) : Prop :=
  forall t w s1 s2,
    bound_inv n0 m r (fresh_effect g) s1 ->
    (t = r -> w = g (value s1 m)) -> SubInner r ∉ subscribers s1 t ->
    set t w s1 = Some s2 ->
    bound_inv n0 m r (fresh_effect g) s2 /\ bound_rel g m r s1 s2 /\
    (t = r -> agree_with g m r s2) /\
    (forall y, y < length (cells s1) -> untargeted s1 y -> t <> y ->
               untargeted s2 y).

Definition call_legal_bound (m r : sid) (g : Val -> Val) (call : Call)
    (st : Store) : Prop :=
  match call with
  | CSet x v => (x = r -> v = g (value st m)) /\ SubInner r ∉ subscribers st x
  | CNotify x _ => SubInner r ∉ subscribers st x
  end.

Definition call_post_bound (m r : sid) (g : Val -> Val) (call : Call)
    (st st' : Store) : Prop :=
  match call with
  | CSet x v =>
      (x = r -> agree_with g m r st') /\
      (x = m -> strict_neq v (value st m) = true -> agree_with g m r st')
  | CNotify x i =>
      x = m -> forall j, i <= j ->
      subscribers st m !! j = Some (SubBind (fresh_effect g) r) ->
      agree_with g m r st'
  end.

(** fetch.ts, [self.refetch()]:
    [refetched = fetch(fetcher, deps); executeFetch(refetched)] *)
Definition refetch (host : Host) (fuel : nat) (self : FetchObj) (s : Store)
  : option (FetchObj * Store) :=
  '(refetched, s1) ← fetch host fuel (f_fetcher self) (f_deps self) s;
  s2 ← executeFetch host fuel (f_fetcher self) (f_cell refetched) s1;
  Some (refetched, s2).

(** [deps.forEach(dep => dep.subscribe(() => executeFetch(fetchInstance)))] *)
Definition subscribe_deps (fetcher : Fetcher) (target : sid) (deps : list sid)
    (s : Store) : Store :=
  fold_left (fun st dep => subscribe dep (SubDep fetcher target) st) deps s.

(** The store [fetch] leaves behind once the fetcher has been invoked, before
    the dependencies are subscribed. *)
Definition fetch_started (fetcher : Fetcher) (s : Store) : Store :=
  let b := length (cells s) in
  let s1 := (signal (VAsync (next_ref s) VUndef true VUndef) (fresh_ref s).2).2 in
  await_fetcher fetcher (MExec b)
    (write b (VAsync (S (next_ref s)) VUndef true VUndef) (fresh_ref s1).2).

(** What a client does with an [fsm]: [send(action)] at a moment when the
    guards read [env], or [subscribe(observer tag)]. *)
Inductive FsmOp (Env : Type) : Type :=
| OSend (env : Env) (action : Val)
| OSubscribe (tag : nat).

Arguments OSend {Env} env action.
Arguments OSubscribe {Env} tag.

Definition fsm_op {Env : Type} (m : Fsm.FSM Env) (op : FsmOp Env)
  : Fsm.FSM Env :=
  match op with
  | OSend env action => Fsm.send env action m
  | OSubscribe tag => Fsm.subscribe tag m
  end.

Definition fsm_run {Env : Type} (ops : list (FsmOp Env)) (m : Fsm.FSM Env)
  : Fsm.FSM Env :=
  fold_left fsm_op ops m.

(** time.ts, [timeout]: the state of the race once the source has emitted:
    [hasCompleted] is set, the timer is no longer pending and [timedOut]
    holds [v]; [base] carries the subscriber of [timeout] alone. *)
Definition source_won (base timedOut : sid) (flag timer : nat) (v : Val)
    (st : Store) : Prop :=
  subscribers st base = [SubTimeout flag timer timedOut] /\
  get_flag st flag = true /\
  value st timedOut = v /\
  timedOut <> base /\
  Forall (fun t => t_id t <> timer) (timers st).

(** The effect of a Fetch while only the fetch itself writes it: nobody has
    subscribed, and it holds an [AsyncState] object allocated earlier. *)
Definition fetch_cell (b : sid) (st : Store) : Prop :=
  subscribers st b = [] /\ b < length (cells st) /\
  exists r d l e, value st b = VAsync r d l e /\ r < next_ref st.

(** fetch.ts, [retry]: the delays [Math.pow(2, n - attemptsLeft) * 1000] of
    the attempts [from], [from + 1], ... *)
Definition backoff_delays (from count : nat) : list Z :=
  List.map (fun i => (2 ^ Z.of_nat i * 1000)%Z) (seq from count).


(* ===================================================================== *)
(** ** algebras/time.ts: [throttle]                                       *)
(* ===================================================================== *)

(** What the subscriber of [throttle(ms, effect)] closes over: the result
    [throttled], [ms], and the variable [lastExecution]. *)
Record Throttle : Type := mkThrottle {
  th_cell : sid;
  th_ms : Z;
  lastExecution : Z
}.

(** [throttled = time(effect.value()); let lastExecution = 0] *)
Definition throttle (ms : Z) (eff : sid) (s : Store) : Throttle * Store :=
  let '(throttled, s1) := time (value s eff) s in
  (mkThrottle throttled ms 0, s1).

(** The subscriber that [throttle] installs on [effect], called with
    [newValue]:
    [if (now - lastExecution >= ms) { throttled._set(newValue);
                                      lastExecution = now; }] *)
Definition throttle_emit (host : Host) (fuel : nat) (newValue : Val)
    (th : Throttle) (s : Store) : option (Throttle * Store) :=
  if (th_ms th <=? now s - lastExecution th)%Z
  then s' ← set_ host fuel (th_cell th) newValue s;
       Some (mkThrottle (th_cell th) (th_ms th) (now s), s')
  else Some (th, s).

(** The source emits the values of [evs], each when the clock has reached
    the given reading. *)
Fixpoint throttle_run (host : Host) (fuel : nat) (evs : list (Z * Val))
    (th : Throttle) (s : Store) : option (Throttle * Store) :=
  match evs with
  | [] => Some (th, s)
  | (t, v) :: rest =>
      '(th', s') ← throttle_emit host fuel v th (set_now s (Z.max (now s) t));
      throttle_run host fuel rest th' s'
  end.

(** The state of a run of [throttle] that started at clock reading [t0]
    with [k0] notifications of observer [tag], the only subscriber of
    [throttled]: [k] deliveries take at least [(k - 1) * ms]. *)
Definition throttle_inv (c : sid) (ms : Z) (tag : nat) (t0 : Z) (k0 : nat)
    (th : Throttle) (st : Store) : Prop :=
  th_cell th = c /\ th_ms th = ms /\
  subscribers st c = [SubLog tag] /\ c < length (cells st) /\
  (t0 <= now st)%Z /\ k0 <= notifications tag st /\
  (notifications tag st = k0 \/
   (ms * (Z.of_nat (notifications tag st - k0) - 1) <= lastExecution th - t0
    /\ lastExecution th <= now st)%Z).

(* ===================================================================== *)
(** ** algebras/time.ts: [debounce]                                       *)
(* ===================================================================== *)

(** A pending [setTimeout(() => { debounced._set(newValue); }, ms)]. *)
Record DTimer : Type := mkDTimer {
  dt_id : nat;
  dt_due : Z;
  dt_value : Val
}.

(** What the subscriber of [debounce(ms, effect)] closes over: the result
    [debounced], [ms] and the variable [timeoutId]; with the timers it has
    set that are still pending and the next timer id of the host. *)
Record Debounce : Type := mkDebounce {
  db_cell : sid;
  db_ms : Z;
  timeoutId : option nat;
  db_timers : list DTimer;
  db_next : nat
}.

(** [debounced = time(effect.value()); let timeoutId] *)
Definition debounce (ms : Z) (eff : sid) (s : Store) : Debounce * Store :=
  let '(debounced, s1) := time (value s eff) s in
  (mkDebounce debounced ms None [] 0, s1).

(** [clearTimeout(timeoutId)]; nothing happens while [timeoutId] is
    undefined. *)
Definition debounce_clear (id : option nat) (ts : list DTimer) : list DTimer :=
  match id with
  | Some i => filter (fun t => dt_id t <> i) ts
  | None => ts
  end.

(** The subscriber that [debounce] installs on [effect], called with
    [newValue]:
    [clearTimeout(timeoutId); timeoutId = setTimeout(..., ms)] *)
Definition debounce_emit (newValue : Val) (d : Debounce) (s : Store)
  : Debounce :=
  mkDebounce (db_cell d) (db_ms d) (Some (db_next d))
    (debounce_clear (timeoutId d) (db_timers d)
       ++ [mkDTimer (db_next d) (now s + db_ms d) newValue])
    (S (db_next d)).

(** The earliest pending timer; among equal due times the one set first. *)
Definition dt_earliest (ts : list DTimer) : option DTimer :=
  fold_left (fun best t =>
               match best with
               | None => Some t
               | Some b => if (dt_due t <? dt_due b)%Z then Some t else Some b
               end) ts None.

(** The clock runs to [deadline]: the timers that are due fire in order,
    each calling [debounced._set(newValue)].  [gas] bounds the number of
    timers that fire. *)
Fixpoint debounce_advance (host : Host) (fuel gas : nat) (deadline : Z)
    (d : Debounce) (s : Store) : option (Debounce * Store) :=
  match dt_earliest (db_timers d) with
  | Some t =>
      if (dt_due t <=? deadline)%Z then
        match gas with
        | O => None
        | S g =>
            s' ← set_ host fuel (db_cell d) (dt_value t)
                   (set_now s (Z.max (now s) (dt_due t)));
            debounce_advance host fuel g deadline
              (mkDebounce (db_cell d) (db_ms d) (timeoutId d)
                 (filter (fun t' => dt_id t' <> dt_id t) (db_timers d))
                 (db_next d))
              s'
        end
      else Some (d, set_now s (Z.max (now s) deadline))
  | None => Some (d, set_now s (Z.max (now s) deadline))
  end.

(** The source emits the values of [evs], each when the clock has reached
    the given reading. *)
Fixpoint debounce_run (host : Host) (fuel gas : nat) (evs : list (Z * Val))
    (d : Debounce) (s : Store) : option (Debounce * Store) :=
  match evs with
  | [] => Some (d, s)
  | (t, v) :: rest =>
      '(d1, s1) ← debounce_advance host fuel gas t d s;
      debounce_run host fuel gas rest (debounce_emit v d1 s1) s1
  end.

(** A burst: every emission comes less than [ms] after the one before. *)
Fixpoint burst (ms prev : Z) (evs : list (Z * Val)) : Prop :=
  match evs with
  | [] => True
  | (t, _) :: rest => (prev <= t < prev + ms)%Z /\ burst ms t rest
  end.

(** During a burst whose latest emission was [vp] at [tp]: one timer is
    pending, for [vp] at [tp + ms]; [debounced], observed by [tag] alone,
    holds [v0] and the trace is [tr0]. *)
Definition burst_inv (c : sid) (ms : Z) (tag : nat) (v0 : Val)
    (tr0 : list (nat * Val)) (tp : Z) (vp : Val) (d : Debounce) (st : Store)
  : Prop :=
  db_cell d = c /\ db_ms d = ms /\
  (exists id, timeoutId d = Some id /\
              db_timers d = [mkDTimer id (tp + ms) vp]) /\
  now st = tp /\ subscribers st c = [SubLog tag] /\ c < length (cells st) /\
  value st c = v0 /\ trace st = tr0.

(* ===================================================================== *)
(** ** algebras/state.ts: [state]                                         *)
(* ===================================================================== *)

(** A State instance: its [baseEffect] and its variable [currentState]. *)
Record StateObj : Type := mkStateObj {
  so_cell : sid;
  so_var : nat
}.

(** The store together with the [currentState] variables of the State
    instances. *)
Record SWorld : Type := mkSWorld {
  sw_store : Store;
  sw_vars : list Val
}.

(** [state(initialState, initialValue)] *)
Definition state (initialState initialValue : Val) (w : SWorld)
  : StateObj * SWorld :=
  let '(baseEffect, s1) := effect initialValue (sw_store w) in
  (mkStateObj baseEffect (length (sw_vars w)),
   mkSWorld s1 (sw_vars w ++ [initialState])).

(** Reading the variable [currentState] of [self]. *)
Definition state_current (self : StateObj) (w : SWorld) : Val :=
  default VUndef (sw_vars w !! so_var self).

(** [get: () => state(currentState, currentState)] *)
Definition state_get (self : StateObj) (w : SWorld) : StateObj * SWorld :=
  state (state_current self w) (state_current self w) w.

(** [put: newState => { const putState = state(newState, undefined);
                        currentState = newState; return putState; }] *)
Definition state_put (self : StateObj) (newState : Val) (w : SWorld)
  : StateObj * SWorld :=
  let '(putState, w1) := state newState VUndef w in
  (putState, mkSWorld (sw_store w1) (<[so_var self := newState]> (sw_vars w1))).

(** [modify: f => stateInstance.put(f(currentState))] *)
Definition state_modify (self : StateObj) (f : Val -> Val) (w : SWorld)
  : StateObj * SWorld :=
  state_put self (f (state_current self w)) w.

(* ===================================================================== *)
(** ** algebras/state.ts: [machine] and [combine]                         *)
(* ===================================================================== *)

(** The functions that subscribe to a machine: an observer, or the [notify]
    of a combined machine. *)
Inductive MSub : Type :=
| MObserver (tag : nat)
| MCombined (c : nat).

Global Instance MSub_eq_dec : EqDecision MSub.
Proof. solve_decision. Defined.

(** [machine(initialState, reducer)]: [currentState], the reducer and the
    set [subscribers]. *)
Record MachineSt : Type := mkMachine {
  m_current : Val;
  m_reducer : Val -> Val -> Val;
  m_subs : list MSub
}.

(** [combine(machine1, machine2)]: the two machines and the set
    [subscribers] (observers, by tag). *)
Record CombinedSt : Type := mkCombined {
  c_m1 : nat;
  c_m2 : nat;
  c_subs : list nat
}.

(** The machines, the combined machines, and what the observers of either
    kind have been called with, oldest first. *)
Record MWorld : Type := mkMWorld {
  mw_machines : list MachineSt;
  mw_combined : list CombinedSt;
  mw_trace : list (nat * Val);
  mw_ctrace : list (nat * (Val * Val))
}.

Definition empty_mworld : MWorld := mkMWorld [] [] [] [].

(** [machine.state] *)
Definition machine_state (id : nat) (w : MWorld) : Val :=
  default VUndef (m_current <$> mw_machines w !! id).

(** [machine(initialState, reducer)] *)
Definition machine (initialState : Val) (reducer : Val -> Val -> Val)
    (w : MWorld) : nat * MWorld :=
  (length (mw_machines w),
   mkMWorld (mw_machines w ++ [mkMachine initialState reducer []])
            (mw_combined w) (mw_trace w) (mw_ctrace w)).

(** [subscribers.add(fn)] on machine [id]: a set holds a function once. *)
Definition machine_subscribe (id : nat) (fn : MSub) (w : MWorld) : MWorld :=
  match mw_machines w !! id with
  | Some m =>
      if decide (fn ∈ m_subs m) then w
      else mkMWorld (<[id := mkMachine (m_current m) (m_reducer m)
                              (m_subs m ++ [fn])]> (mw_machines w))
                    (mw_combined w) (mw_trace w) (mw_ctrace w)
  | None => w
  end.

(** [combine]'s [notify]:
    [subscribers.forEach(fn => fn({ m1: machine1.state, m2: machine2.state }))] *)
Definition combined_notify (c : nat) (w : MWorld) : MWorld :=
  match mw_combined w !! c with
  | Some cb =>
      mkMWorld (mw_machines w) (mw_combined w) (mw_trace w)
        (mw_ctrace w ++
         List.map (fun tag => (tag, (machine_state (c_m1 cb) w,
                                     machine_state (c_m2 cb) w)))
                  (c_subs cb))
  | None => w
  end.

(** A subscriber of machine [id] is called with [currentState]. *)
Definition machine_call (id : nat) (w : MWorld) (fn : MSub) : MWorld :=
  match fn with
  | MObserver tag =>
      mkMWorld (mw_machines w) (mw_combined w)
               (mw_trace w ++ [(tag, machine_state id w)]) (mw_ctrace w)
  | MCombined c => combined_notify c w
  end.

(** [machine]'s [notify]: [subscribers.forEach(fn => fn(currentState))] *)
Definition machine_notify (id : nat) (w : MWorld) : MWorld :=
  match mw_machines w !! id with
  | Some m => fold_left (machine_call id) (m_subs m) w
  | None => w
  end.

(** [send: action => { const newState = reducer(currentState, action);
      if (newState !== currentState) { currentState = newState; notify(); } }] *)
Definition machine_send (id : nat) (action : Val) (w : MWorld) : MWorld :=
  match mw_machines w !! id with
  | Some m =>
      let newState := m_reducer m (m_current m) action in
      if strict_neq newState (m_current m)
      then machine_notify id
             (mkMWorld (<[id := mkMachine newState (m_reducer m) (m_subs m)]>
                          (mw_machines w))
                       (mw_combined w) (mw_trace w) (mw_ctrace w))
      else w
  | None => w
  end.

(** [combine(machine1, machine2)] *)
Definition combine (machine1 machine2 : nat) (w : MWorld) : nat * MWorld :=
  let c := length (mw_combined w) in
  let w1 := mkMWorld (mw_machines w)
                     (mw_combined w ++ [mkCombined machine1 machine2 []])
                     (mw_trace w) (mw_ctrace w) in
  (c, machine_subscribe machine2 (MCombined c)
        (machine_subscribe machine1 (MCombined c) w1)).

(** The combined machine's [state] getter *)
Definition combined_state (c : nat) (w : MWorld) : Val * Val :=
  match mw_combined w !! c with
  | Some cb => (machine_state (c_m1 cb) w, machine_state (c_m2 cb) w)
  | None => (VUndef, VUndef)
  end.

(** The combined machine's [send]; [is_m1] is [action.type === 'm1']. *)
Definition combined_send (c : nat) (is_m1 : bool) (action : Val) (w : MWorld)
  : MWorld :=
  match mw_combined w !! c with
  | Some cb =>
      if is_m1 then machine_send (c_m1 cb) action w
      else machine_send (c_m2 cb) action w
  | None => w
  end.

(** The combined machine's [subscribe] *)
Definition combined_subscribe (c : nat) (tag : nat) (w : MWorld) : MWorld :=
  mkMWorld (mw_machines w)
           (alter (fun cb => mkCombined (c_m1 cb) (c_m2 cb) (c_subs cb ++ [tag]))
                  c (mw_combined w))
           (mw_trace w) (mw_ctrace w).

(** A sequence of sends through the combined machine. *)
Definition combined_run (c : nat) (acts : list (bool * Val)) (w : MWorld)
  : MWorld :=
  fold_left (fun w a => combined_send c a.1 a.2 w) acts w.

(** The actions of a sequence that are addressed to machine 1 ([true]) or to
    machine 2 ([false]). *)
Definition actions_for (which : bool) (acts : list (bool * Val)) : list Val :=
  List.map snd (filter (fun a => a.1 = which) acts).

(** A reducer that, when it returns a state [===] to the one it was given,
    returns that very state. *)
Definition returns_same (r : Val -> Val -> Val) : Prop :=
  forall st a, strict_eq (r st a) st = true -> r st a = st.

(** Two machines, the machine combined from them, and observers [tags]
    subscribed to the combined machine. *)
Definition combined_setup (s1 s2 : Val) (r1 r2 : Val -> Val -> Val)
    (tags : list nat) (w : MWorld) : nat * nat * nat * MWorld :=
  let '(machine1, w1) := machine s1 r1 w in
  let '(machine2, w2) := machine s2 r2 w1 in
  let '(c, w3) := combine machine1 machine2 w2 in
  (machine1, machine2, c,
   fold_left (fun w tag => combined_subscribe c tag w) tags w3).

(** [a => a === key ? e1 : e2]: a function for [bind] that returns effects
    in scope. *)
Definition choose (key : Val) (e1 e2 : sid) : Val -> EffExp :=
  fun a => if strict_eq a key then ERef e1 else ERef e2.

(* ===================================================================== *)
(** ** [bind] with a function that builds its effect                      *)
(* ===================================================================== *)

(** [x] was created after the store had [n0] signals, and every subscriber
    that sets it sits on a signal created after that which nothing sets:
    no update of a signal that existed then reaches [x]. *)
Definition inactive (n0 : nat) (st : Store) (x : sid) : Prop :=
  n0 <= x /\
  forall z fn, fn ∈ subscribers st z -> sub_target fn = Some x ->
               n0 <= z /\ untargeted st z.

(** [x] existed when the store had [n0] signals, or a subscriber sets it
    that sits on a signal which existed then or is itself set by some
    subscriber. *)
Definition active (n0 : nat) (st : Store) (x : sid) : Prop :=
  x < n0 \/
  exists z fn, fn ∈ subscribers st z /\ sub_target fn = Some x /\
               (z < n0 \/ exists z' fn', fn' ∈ subscribers st z' /\
                                         sub_target fn' = Some z).

(** [k] builds its effect: whatever the store, [k(v)] is a new effect that
    holds [G(v)] and that no update of an existing signal reaches. *)
Definition self_contained (k : Val -> EffExp) (G : Val -> Val) : Prop :=
  forall v st, targets_bounded st ->
    value (eval_exp (k v) st).2 (eval_exp (k v) st).1 = G v /\
    (eval_exp (k v) st).1 < length (cells (eval_exp (k v) st).2) /\
    inactive (length (cells st)) (eval_exp (k v) st).2 (eval_exp (k v) st).1.

(** [a => f(a).bind(g)] for [f = x => effect(f0(x))], [g = y => effect(g0(y))] *)
Definition nested (f g : Val -> Val) : Val -> EffExp :=
  fun a => EBind (EEffect (f a)) (fresh_effect g).

(** [r = m.bind(k)], called when the store had [n0] signals, for a [k] that
    builds its effect: as [bound_inv], with the inner subscribers on
    effects that no update reaches. *)
Definition closed_inv (n0 : nat) (m r : sid) (k : Val -> EffExp) (st : Store)
  : Prop :=
  m < n0 /\ n0 <= r /\ r < length (cells st) /\ targets_bounded st /\
  SubBind k r ∈ subscribers st m /\
  (forall x fn, fn ∈ subscribers st x -> sub_target fn = Some r ->
     (x = m /\ fn = SubBind k r) \/ fn = SubInner r) /\
  (forall x, SubInner r ∈ subscribers st x -> inactive n0 st x).

(** Over a call: [m] and [r] are settled, the store has grown, and what no
    update reached is still out of reach. *)
Definition closed_rel (n0 : nat) (G : Val -> Val) (m r : sid)
    (st st' : Store) : Prop :=
  settled_with G m r st st' /\ extends st st' /\
  (forall y, y < length (cells st) -> inactive n0 st y -> inactive n0 st' y).

Definition set_spec_closed (n0 : nat) (m r : sid) (k : Val -> EffExp)
    (G : Val -> Val) (set : sid -> Val -> Store -> option Store) : Prop :=
  forall t w s1 s2,
    closed_inv n0 m r k s1 -> active n0 s1 t ->
    (t = r -> w = G (value s1 m)) ->
    set t w s1 = Some s2 ->
    closed_inv n0 m r k s2 /\ closed_rel n0 G m r s1 s2 /\
    (t = r -> agree_with G m r s2).

Definition call_legal_closed (n0 : nat) (m r : sid) (G : Val -> Val)
    (call : Call) (st : Store) : Prop :=
  match call with
  | CSet x v => active n0 st x /\ (x = r -> v = G (value st m))
  | CNotify x _ => active n0 st x
  end.

Definition call_post_closed (G : Val -> Val) (m r : sid) (k : Val -> EffExp)
    (call : Call) (st st' : Store) : Prop :=
  match call with
  | CSet x v =>
      (x = r -> agree_with G m r st') /\
      (x = m -> strict_neq v (value st m) = true -> agree_with G m r st')
  | CNotify x i =>
      x = m -> forall j, i <= j ->
      subscribers st m !! j = Some (SubBind k r) ->
      agree_with G m r st'
  end.

(** Spaced emissions: every emission comes at least [ms] after the one
    before. *)
Fixpoint spaced (ms prev : Z) (evs : list (Z * Val)) : Prop :=
  match evs with
  | [] => True
  | (t, _) :: rest => (prev + ms <= t)%Z /\ spaced ms t rest
  end.

(** [debounce] between spaced emissions, the latest being [vp] at [tp]:
    one timer is pending, for [vp] at [tp + ms]; the signals and the trace
    are those of [sref]. *)
Definition spaced_inv (c : sid) (ms : Z) (tag : nat) (tp : Z) (vp : Val)
    (d : Debounce) (st sref : Store) : Prop :=
  db_cell d = c /\ db_ms d = ms /\
  (exists id, timeoutId d = Some id /\
              db_timers d = [mkDTimer id (tp + ms) vp]) /\
  now st = tp /\ subscribers st c = [SubLog tag] /\ c < length (cells st) /\
  cells st = cells sref /\ trace st = trace sref.

(* ===================================================================== *)
(** ** algebras/time.ts: [delay]                                          *)
(* ===================================================================== *)

(** What a timer of [delay] sets [delayed] to: the value its source holds
    when the timer fires, or the emitted value the timer closed over. *)
Inductive DelayAct : Type :=
| DRead                      (* () => { delayed._set(baseEffect.value()); } *)
| DValue (newValue : Val).   (* () => { delayed._set(newValue); } *)

Record DlTimer : Type := mkDlTimer {
  dl_due : Z;
  dl_act : DelayAct
}.

(** What the closures of [delay(ms)] share: the source [baseEffect], the
    result [delayed] and [ms]; with the timers they have set that are still
    pending, in the order they were set. *)
Record Delay : Type := mkDelay {
  dl_base : sid;
  dl_cell : sid;
  dl_ms : Z;
  dl_timers : list DlTimer
}.

(** [delayed = time(baseEffect.value());
     setTimeout(() => { delayed._set(baseEffect.value()); }, ms)] *)
Definition delay (ms : Z) (base : sid) (s : Store) : Delay * Store :=
  let '(delayed, s1) := time (value s base) s in
  (mkDelay base delayed ms [mkDlTimer (now s + ms) DRead], s1).

(** The subscriber that [delay] installs on its source, called with
    [newValue]: [setTimeout(() => { delayed._set(newValue); }, ms)] *)
Definition delay_emit (newValue : Val) (d : Delay) (s : Store) : Delay :=
  mkDelay (dl_base d) (dl_cell d) (dl_ms d)
    (dl_timers d ++ [mkDlTimer (now s + dl_ms d) (DValue newValue)]).

(** The earliest pending timer, among equal due times the one set first,
    and the timers that stay. *)
Fixpoint dl_pop (ts : list DlTimer) : option (DlTimer * list DlTimer) :=
  match ts with
  | [] => None
  | t :: r =>
      match dl_pop r with
      | None => Some (t, [])
      | Some (b, r') =>
          if (dl_due b <? dl_due t)%Z then Some (b, t :: r') else Some (t, r)
      end
  end.

(** The clock runs to [deadline]: the timers that are due fire in order.
    [gas] bounds the number of timers that fire. *)
Fixpoint delay_advance (host : Host) (fuel gas : nat) (deadline : Z)
    (d : Delay) (s : Store) : option (Delay * Store) :=
  match dl_pop (dl_timers d) with
  | Some (t, rest) =>
      if (dl_due t <=? deadline)%Z then
        match gas with
        | O => None
        | S g =>
            let s0 := set_now s (Z.max (now s) (dl_due t)) in
            s' ← set_ host fuel (dl_cell d)
                   (match dl_act t with
                    | DRead => value s0 (dl_base d)
                    | DValue newValue => newValue
                    end) s0;
            delay_advance host fuel g deadline
              (mkDelay (dl_base d) (dl_cell d) (dl_ms d) rest) s'
        end
      else Some (d, set_now s (Z.max (now s) deadline))
  | None => Some (d, set_now s (Z.max (now s) deadline))
  end.

(** [baseEffect._set(v)]: the subscriber of [delay] is called when the value
    changes. *)
Definition delay_source_set (host : Host) (fuel : nat) (v : Val)
    (d : Delay) (s : Store) : option (Delay * Store) :=
  s' ← set_ host fuel (dl_base d) v s;
  Some (if strict_neq v (value s (dl_base d)) then delay_emit v d s' else d,
        s').

(** The source is set to the values of [evs], each when the clock has
    reached the given reading. *)
Fixpoint delay_run (host : Host) (fuel gas : nat) (evs : list (Z * Val))
    (d : Delay) (s : Store) : option (Delay * Store) :=
  match evs with
  | [] => Some (d, s)
  | (t, v) :: rest =>
      '(d1, s1) ← delay_advance host fuel gas t d s;
      '(d2, s2) ← delay_source_set host fuel v d1 s1;
      delay_run host fuel gas rest d2 s2
  end.

(** The source changes at every entry of [evs], at times that do not
    decrease, from the time [prev_t] and the value [prev_v] on. *)
Fixpoint schedule (prev_t : Z) (prev_v : Val) (evs : list (Z * Val)) : Prop :=
  match evs with
  | [] => True
  | (t, v) :: rest =>
      (prev_t <= t)%Z /\ strict_neq v prev_v = true /\ schedule t v rest
  end.

(** What a source that holds [b] and changes as [evs] says holds just before
    the clock reads [lim]. *)
Fixpoint read_at (lim : Z) (b : Val) (evs : list (Z * Val)) : Val :=
  match evs with
  | [] => b
  | (t, v) :: rest => if (t <? lim)%Z then read_at lim v rest else b
  end.

(** What a pending timer of [delay] will set, for a source that holds [b]
    and changes as [evs]. *)
Definition act_val (b : Val) (evs : list (Z * Val)) (t : DlTimer) : Val :=
  match dl_act t with
  | DRead => read_at (dl_due t) b evs
  | DValue v => v
  end.

(** The pending timers are in the order of their due times, none before
    [lo]. *)
Fixpoint dl_sorted (lo : Z) (ts : list DlTimer) : Prop :=
  match ts with
  | [] => True
  | t :: r => (lo <= dl_due t)%Z /\ dl_sorted (dl_due t) r
  end.

(** [delayed] is [c], observed by [tag] alone; the source [b] is another
    signal, with no subscriber in the store. *)
Definition delay_world (b c : sid) (tag : nat) (st : Store) : Prop :=
  subscribers st c = [SubLog tag] /\ c < length (cells st) /\
  subscribers st b = [] /\ b < length (cells st) /\ b <> c.

(** [sref] has the observed signal [c] and the trace of [st]. *)
Definition delay_sim (c : sid) (tag : nat) (st sref : Store) : Prop :=
  value st c = value sref c /\ trace st = trace sref /\
  subscribers sref c = [SubLog tag] /\ c < length (cells sref).

(** [lens = f => stateEffect => stateEffect.map(f)] *)
Definition lens (f : Val -> Val) (stateEffect : StateObj) (w : SWorld)
  : sid * SWorld :=
  let '(d, s1) := map_ (so_cell stateEffect) (FPure f) (sw_store w) in
  (d, mkSWorld s1 (sw_vars w)).

(** The utility [delay = (ms, value) => time(value).delay(ms)] *)
Definition delay_of_value (ms : Z) (v : Val) (s : Store) : Delay * Store :=
  let '(t, s1) := time v s in delay ms t s1.

(* ===================================================================== *)
(** ** Basic facts about the store                                        *)
(* ===================================================================== *)

Lemma lookup_write id v s j :
  cells (write id v s) !! j =
  if decide (j = id) then (fun c => mkCell v (subs c)) <$> (cells s !! id)
  else cells s !! j.
Proof.
  unfold write. destruct (cells s !! id) as [c|] eqn:E; cbn.
  - destruct (decide (j = id)) as [->|Hne].
    + rewrite list_lookup_insert_eq; [done|]. by eapply lookup_lt_Some.
    + by rewrite list_lookup_insert_ne.
  - destruct (decide (j = id)) as [->|Hne]; done.
Qed.

Lemma lookup_subscribe id fn s j :
  cells (subscribe id fn s) !! j =
  if decide (j = id)
  then (fun c => mkCell (cur c) (subs c ++ [fn])) <$> (cells s !! id)
  else cells s !! j.
Proof.
  unfold subscribe. destruct (cells s !! id) as [c|] eqn:E; cbn.
  - destruct (decide (j = id)) as [->|Hne].
    + rewrite list_lookup_insert_eq; [done|]. by eapply lookup_lt_Some.
    + by rewrite list_lookup_insert_ne.
  - destruct (decide (j = id)) as [->|Hne]; done.
Qed.

Lemma length_write id v s : length (cells (write id v s)) = length (cells s).
Proof.
  unfold write. destruct (cells s !! id); cbn; [|done].
  by rewrite length_insert.
Qed.

Lemma length_subscribe id fn s :
  length (cells (subscribe id fn s)) = length (cells s).
Proof.
  unfold subscribe. destruct (cells s !! id); cbn; [|done].
  by rewrite length_insert.
Qed.

Lemma value_write id v s j :
  value (write id v s) j =
  if decide (j = id) then (if decide (id < length (cells s)) then v else VUndef)
  else value s j.
Proof.
  unfold value. rewrite lookup_write.
  destruct (decide (j = id)) as [->|]; [|done].
  destruct (cells s !! id) as [c|] eqn:E; cbn.
  - apply lookup_lt_Some in E. by rewrite decide_True.
  - apply lookup_ge_None in E. rewrite decide_False; [done|lia].
Qed.

Lemma subscribers_write id v s j :
  subscribers (write id v s) j = subscribers s j.
Proof.
  unfold subscribers. rewrite lookup_write.
  destruct (decide (j = id)) as [->|]; [|done].
  by destruct (cells s !! id).
Qed.

Lemma value_subscribe id fn s j : value (subscribe id fn s) j = value s j.
Proof.
  unfold value. rewrite lookup_subscribe.
  destruct (decide (j = id)) as [->|]; [|done].
  by destruct (cells s !! id).
Qed.

Lemma subscribers_subscribe id fn s j :
  subscribers (subscribe id fn s) j =
  if decide (j = id /\ id < length (cells s))
  then subscribers s j ++ [fn] else subscribers s j.
Proof.
  unfold subscribers. rewrite lookup_subscribe.
  destruct (decide (j = id)) as [->|Hne].
  - destruct (cells s !! id) as [c|] eqn:E; cbn.
    + apply lookup_lt_Some in E. by rewrite decide_True.
    + apply lookup_ge_None in E. rewrite decide_False; [done|lia].
  - rewrite decide_False; [done|tauto].
Qed.

Lemma lookup_signal v s j :
  cells (signal v s).2 !! j =
  if decide (j = length (cells s)) then Some (mkCell v []) else cells s !! j.
Proof.
  cbn. destruct (decide (j = length (cells s))) as [->|Hne].
  - rewrite lookup_app_r by lia. by rewrite Nat.sub_diag.
  - destruct (decide (j < length (cells s))).
    + by rewrite lookup_app_l.
    + rewrite !lookup_ge_None_2; [done|lia|].
      rewrite length_app; cbn; lia.
Qed.

Lemma value_signal v s j :
  value (signal v s).2 j =
  if decide (j = length (cells s)) then v else value s j.
Proof.
  unfold value. rewrite lookup_signal. by destruct (decide _).
Qed.

Lemma subscribers_signal v s j :
  subscribers (signal v s).2 j = subscribers s j.
Proof.
  unfold subscribers. rewrite lookup_signal.
  destruct (decide _) as [->|]; [|done].
  by rewrite lookup_ge_None_2.
Qed.

Lemma length_signal v s :
  length (cells (signal v s).2) = S (length (cells s)).
Proof. cbn. rewrite length_app. cbn. lia. Qed.

(** *** The store only grows *)

#[local] Instance extends_preorder : PreOrder extends.
Proof.
  split.
  - intros s. repeat split; done.
  - intros s1 s2 s3 (L1 & P1 & T1 & R1) (L2 & P2 & T2 & R2).
    repeat split; [lia | | by etrans | lia].
    intros id. etrans; [apply P1|apply P2].
Qed.

Lemma extends_same_cells s s' :
  cells s' = cells s -> trace s `suffix_of` trace s' ->
  next_ref s <= next_ref s' -> extends s s'.
Proof.
  intros Hc Ht Hr. unfold extends, subscribers. rewrite Hc.
  repeat split; done.
Qed.

Lemma extends_write id v s : extends s (write id v s).
Proof.
  repeat split.
  - by rewrite length_write.
  - intros j. by rewrite subscribers_write.
  - unfold write. by destruct (cells s !! id).
  - unfold write. by destruct (cells s !! id).
Qed.

Lemma extends_subscribe id fn s : extends s (subscribe id fn s).
Proof.
  repeat split.
  - by rewrite length_subscribe.
  - intros j. rewrite subscribers_subscribe.
    destruct (decide _); [by apply prefix_app_r|done].
  - unfold subscribe. by destruct (cells s !! id).
  - unfold subscribe. by destruct (cells s !! id).
Qed.

Lemma extends_signal v s : extends s (signal v s).2.
Proof.
  repeat split.
  - rewrite length_signal. lia.
  - intros j. by rewrite subscribers_signal.
  - done.
  - done.
Qed.

Lemma extends_fresh_ref s : extends s (fresh_ref s).2.
Proof. apply extends_same_cells; cbn; [done|done|lia]. Qed.

Lemma extends_apply_fn f v s : extends s (apply_fn f v s).2.
Proof.
  destruct f; cbn; [done|done|]. apply extends_fresh_ref.
Qed.

Lemma extends_map id f s : extends s (map_ id f s).2.
Proof.
  unfold map_. pose proof (extends_apply_fn f (value s id) s) as H1.
  destruct (apply_fn f (value s id) s) as [v s1]; cbn in *.
  etrans; [exact H1|]. etrans; [apply (extends_signal v)|].
  apply extends_subscribe.
Qed.

Lemma extends_bind_body inner m k s : extends s (bind_body inner m k s).2.
Proof.
  unfold bind_body, effect. cbn -[signal].
  etrans; [apply (extends_signal (value s inner))|]. apply extends_subscribe.
Qed.

Lemma extends_eval_exp e : forall s, extends s (eval_exp e s).2.
Proof.
  induction e as [v|x|e IH f|e IH k IHk]; intros s; cbn -[signal map_ bind_body].
  - apply extends_signal.
  - done.
  - specialize (IH s). destruct (eval_exp e s) as [x s1]; cbn in *.
    etrans; [exact IH|]. apply extends_map.
  - specialize (IH s). destruct (eval_exp e s) as [m s1]; cbn in *.
    specialize (IHk (value s1 m) s1).
    destruct (eval_exp (k (value s1 m)) s1) as [inner s2]; cbn in *.
    etrans; [exact IH|]. etrans; [exact IHk|]. apply extends_bind_body.
Qed.

Lemma extends_log tag v s : extends s (log tag v s).
Proof.
  apply extends_same_cells; cbn; [done| |done]. by apply suffix_cons_r.
Qed.

Section RuntimeFacts.

Context (host : Host).

Lemma extends_cache_write key v s : extends s (cache_write host key v s).
Proof.
  unfold cache_write. destruct (_ && _); [|done].
  by apply extends_same_cells.
Qed.

Lemma extends_sub_body set fn v s s' :
  (forall t w s1 s2, set t w s1 = Some s2 -> extends s1 s2) ->
  sub_body host set fn v s = Some s' -> extends s s'.
Proof.
  intros Hset. destruct fn; cbn -[eval_exp]; intros H.
  - pose proof (extends_apply_fn f v s) as H1.
    destruct (apply_fn f v s) as [w s1]; cbn in *.
    etrans; [exact H1|]. by eapply Hset.
  - pose proof (extends_eval_exp (k v) s) as H1.
    destruct (eval_exp (k v) s) as [e s1]; cbn in *.
    destruct (set result (value s1 e) s1) as [s2|] eqn:E; [|done].
    cbn in H. injection H as <-.
    etrans; [exact H1|]. etrans; [by eapply Hset|]. apply extends_subscribe.
  - by eapply Hset.
  - injection H as <-. apply extends_log.
  - destruct (get_flag s flag); [by injection H as <-|].
    etrans; [|by eapply Hset]. by apply extends_same_cells.
  - etrans; [apply extends_cache_write|]. by eapply Hset.
  - unfold executeFetch_with in H. cbn in H.
    match type of H with context [set ?t ?w ?s1] =>
      destruct (set t w s1) as [s2|] eqn:E; [|done] end.
    cbn in H. injection H as <-.
    etrans; [|etrans; [by eapply Hset|]].
    + apply extends_same_cells; cbn; [done|done|lia].
    + by apply extends_same_cells.
Qed.

Lemma exec_extends fuel : forall c s s',
  exec host fuel c s = Some s' -> extends s s'.
Proof.
  induction fuel as [|n IH]; intros c s s' H; [done|].
  destruct c as [id v|id i]; cbn -[sub_body] in H.
  - destruct (strict_neq v (value s id)); [|by injection H as <-].
    etrans; [apply (extends_write id v)|]. by eapply IH.
  - destruct (subscribers s id !! i) as [fn|]; [|by injection H as <-].
    destruct (sub_body host _ fn (value s id) s) as [s1|] eqn:E; [|done].
    cbn in H. etrans; [|by eapply IH].
    eapply extends_sub_body; [|exact E]. intros t w s2 s3. apply IH.
Qed.

End RuntimeFacts.

(* ===================================================================== *)
(** ** Observers and notification counts                                  *)
(* ===================================================================== *)




Section Observers.

Context (host : Host).





End Observers.

(* ===================================================================== *)
(** ** The setter: change suppression                                     *)
(* ===================================================================== *)




(* ===================================================================== *)
(** ** Construction steps are quiet                                       *)
(* ===================================================================== *)

#[local] Instance quiet_preorder : PreOrder quiet.
Proof.
  split.
  - intros s. split; [done|]. split; [done|]. intros x fn H. by left.
  - intros s1 s2 s3 (E1 & V1 & N1) (E2 & V2 & N2).
    pose proof E1 as (L1 & _). pose proof E2 as (L2 & _).
    split; [by etrans|]. split.
    + intros y Hy. rewrite V2 by lia. by apply V1.
    + intros x fn H. destruct (N2 x fn H) as [H2|(t & Ht & Hb)].
      * destruct (N1 x fn H2) as [H1|(t & Ht & Hb)]; [by left|].
        right. exists t. split; [done|lia].
      * right. exists t. split; [done|lia].
Qed.

Lemma quiet_same_cells s s' :
  cells s' = cells s -> trace s `suffix_of` trace s' ->
  next_ref s <= next_ref s' -> quiet s s'.
Proof.
  intros Hc Ht Hr. split; [by apply extends_same_cells|].
  unfold value, subscribers. rewrite Hc. split; [done|].
  intros x fn H. by left.
Qed.

Lemma quiet_apply_fn f v s : quiet s (apply_fn f v s).2.
Proof.
  destruct f; cbn; [done|done|]. apply quiet_same_cells; cbn; [done|done|lia].
Qed.

Lemma cells_apply_fn f v s : cells (apply_fn f v s).2 = cells s.
Proof. by destruct f. Qed.

(** Allocating a signal and subscribing, anywhere, a closure that sets it. *)
Lemma quiet_alloc_sub v x fn s :
  sub_target fn = Some (length (cells s)) ->
  quiet s (subscribe x fn (signal v s).2).
Proof.
  intros Ht. split; [|split].
  - etrans; [apply (extends_signal v)|]. apply extends_subscribe.
  - intros y Hy. rewrite value_subscribe, value_signal.
    rewrite decide_False; [done|lia].
  - intros y g Hg. rewrite subscribers_subscribe, subscribers_signal in Hg.
    destruct (decide _) as [[-> _]|_]; [|by left].
    apply elem_of_app in Hg as [Hg|Hg]; [by left|].
    apply list_elem_of_singleton in Hg as ->. right.
    exists (length (cells s)). split; [done|].
    rewrite length_subscribe, length_signal. lia.
Qed.

Lemma quiet_signal v s : quiet s (signal v s).2.
Proof.
  split; [apply extends_signal|]. split.
  - intros y Hy. rewrite value_signal, decide_False; [done|lia].
  - intros x fn H. rewrite subscribers_signal in H. by left.
Qed.

Lemma quiet_map id f s : quiet s (map_ id f s).2.
Proof.
  unfold map_. pose proof (quiet_apply_fn f (value s id) s) as H1.
  pose proof (cells_apply_fn f (value s id) s) as Hc.
  destruct (apply_fn f (value s id) s) as [v s1]; cbn -[signal] in *.
  etrans; [exact H1|]. apply quiet_alloc_sub. cbn. by rewrite Hc.
Qed.

Lemma quiet_bind_body inner m k s : quiet s (bind_body inner m k s).2.
Proof. unfold bind_body, effect. by apply quiet_alloc_sub. Qed.

Lemma quiet_eval_exp e : forall s, quiet s (eval_exp e s).2.
Proof.
  induction e as [v|x|e IH f|e IH k IHk]; intros s; cbn -[signal map_ bind_body].
  - apply quiet_signal.
  - done.
  - specialize (IH s). destruct (eval_exp e s) as [x s1]; cbn in *.
    etrans; [exact IH|]. apply quiet_map.
  - specialize (IH s). destruct (eval_exp e s) as [m s1]; cbn in *.
    specialize (IHk (value s1 m) s1).
    destruct (eval_exp (k (value s1 m)) s1) as [inner s2]; cbn in *.
    etrans; [exact IH|]. etrans; [exact IHk|]. apply quiet_bind_body.
Qed.

(* ===================================================================== *)
(** ** Observable equality of values                                      *)
(* ===================================================================== *)

Lemma same_value_refl v : same_value v v = true.
Proof.
  destruct v; cbn; try done.
  - by destruct b.
  - apply Z.eqb_refl.
  - apply String.eqb_refl.
  - apply Nat.eqb_refl.
  - apply Nat.eqb_refl.
  - apply Nat.eqb_refl.
Qed.

Lemma strict_eq_same_value a b : strict_eq a b = true -> same_value a b = true.
Proof. by destruct a, b. Qed.

Lemma same_value_sym a b : same_value a b = true -> same_value b a = true.
Proof.
  destruct a, b; cbn; try done.
  - by destruct b, b0.
  - by rewrite Z.eqb_sym.
  - by rewrite String.eqb_sym.
  - by rewrite Nat.eqb_sym.
  - by rewrite Nat.eqb_sym.
  - by rewrite Nat.eqb_sym.
Qed.

Lemma same_value_trans a b c :
  same_value a b = true -> same_value b c = true -> same_value a c = true.
Proof.
  destruct a, b; cbn; try done; destruct c; cbn; try done.
  - rewrite !Bool.eqb_true_iff. congruence.
  - rewrite !Z.eqb_eq. congruence.
  - rewrite !String.eqb_eq. congruence.
  - rewrite !Nat.eqb_eq. congruence.
  - rewrite !Nat.eqb_eq. congruence.
  - rewrite !Nat.eqb_eq. congruence.
Qed.

Lemma value_same_cells st st' y : cells st' = cells st -> value st' y = value st y.
Proof. unfold value. by intros ->. Qed.

Lemma subscribers_same_cells st st' y :
  cells st' = cells st -> subscribers st' y = subscribers st y.
Proof. unfold subscribers. by intros ->. Qed.

(* ===================================================================== *)
(** ** A derived signal follows its source                                *)
(* ===================================================================== *)

Section Derived.

Context (host : Host) (c d : sid) (f : Fn).
Hypothesis Htrack : tracks_source f c.

Lemma derived_inv_quiet st st' :
  derived_inv c d f st -> quiet st st' -> derived_inv c d f st'.
Proof.
  intros (Hc & Hd & Hne & Hin & Honly) (Hext & _ & Hnew).
  pose proof Hext as (Hlen & Hpre & _).
  split; [lia|]. split; [lia|]. split; [done|]. split.
  - eapply elem_of_prefix; [exact Hin|apply Hpre].
  - intros x fn Hfn Htgt.
    destruct (Hnew x fn Hfn) as [Hold|(t & Ht & Hb)]; [by eapply Honly|].
    rewrite Htgt in Ht. injection Ht as <-. lia.
Qed.

Lemma derived_inv_same_cells st st' :
  cells st' = cells st -> derived_inv c d f st -> derived_inv c d f st'.
Proof.
  intros Hcells. unfold derived_inv, subscribers. by rewrite Hcells.
Qed.

Lemma derived_inv_write x v st :
  derived_inv c d f st -> derived_inv c d f (write x v st).
Proof.
  unfold derived_inv. rewrite length_write. setoid_rewrite subscribers_write.
  done.
Qed.

Lemma derived_inv_subscribe x fn st :
  sub_target fn <> Some d ->
  derived_inv c d f st -> derived_inv c d f (subscribe x fn st).
Proof.
  intros Hfn (Hc & Hd & Hne & Hin & Honly).
  unfold derived_inv. rewrite length_subscribe.
  split; [done|]. split; [done|]. split; [done|]. split.
  - rewrite subscribers_subscribe. destruct (decide _); [|done].
    apply elem_of_app. by left.
  - intros y g Hg Htgt. rewrite subscribers_subscribe in Hg.
    destruct (decide _) as [[-> _]|_]; [|by eapply Honly].
    apply elem_of_app in Hg as [Hg|Hg]; [by eapply Honly|].
    apply list_elem_of_singleton in Hg as ->. done.
Qed.

Lemma settled_refl st : settled c d st st.
Proof. by left. Qed.

Lemma settled_trans st1 st2 st3 :
  settled c d st1 st2 -> settled c d st2 st3 -> settled c d st1 st3.
Proof.
  intros H1 [[Hc Hd]|H2]; [|by right].
  destruct H1 as [[Hc1 Hd1]|H1].
  - left. split; congruence.
  - right. unfold agree in *. by rewrite Hc, Hd.
Qed.

Lemma settled_agree st st' :
  agree c d st -> settled c d st st' -> agree c d st'.
Proof.
  intros Ha [[Hc Hd]|H]; [|done]. unfold agree in *. by rewrite Hc, Hd.
Qed.

Lemma settled_quiet st st' :
  derived_inv c d f st -> quiet st st' -> settled c d st st'.
Proof.
  intros (Hc & Hd & _) (_ & Hv & _). left. split; by apply Hv.
Qed.

Lemma settled_same_cells st st' : cells st' = cells st -> settled c d st st'.
Proof. intros H. left. split; by apply value_same_cells. Qed.

Lemma set_spec_other set t w s1 s2 :
  set_spec c d f set -> t <> d -> derived_inv c d f s1 ->
  set t w s1 = Some s2 -> derived_inv c d f s2 /\ settled c d s1 s2.
Proof.
  intros Hset Hne Hinv H.
  destruct (Hset t w s1 s2 Hinv (fun E => False_ind _ (Hne E)) H)
    as (? & ? & _).
  done.
Qed.

Lemma not_target_d x fn t st :
  derived_inv c d f st -> fn ∈ subscribers st x ->
  sub_target fn = Some t -> (forall g, fn <> SubMap g t) -> t <> d.
Proof.
  intros (_ & _ & _ & _ & Honly) Hfn Ht Hno ->.
  destruct (Honly x fn Hfn Ht) as [_ ->]. by eapply Hno.
Qed.

Lemma sub_body_derived set x fn st st' :
  set_spec c d f set ->
  derived_inv c d f st -> fn ∈ subscribers st x ->
  sub_body host set fn (value st x) st = Some st' ->
  derived_inv c d f st' /\ settled c d st st' /\
  (x = c -> fn = SubMap f d -> agree c d st').
Proof.
  intros Hset Hinv Hfn H.
  destruct fn as [f' t|k r|r|tag|flag timer t|key t|fetcher t];
    cbn -[eval_exp] in H.
  - destruct (decide (t = d)) as [->|Hne].
    + pose proof Hinv as (Hc & Hd & Hcd & Hin & Honly).
      destruct (Honly x _ Hfn eq_refl) as [-> Heq]. injection Heq as ->.
      rewrite Htrack in H.
      destruct (Hset d (value st c) st st') as (Hi & Hs & Ha);
        [done|done|done|].
      split; [done|]. split; [done|]. intros _ _. by apply Ha.
    + pose proof (quiet_apply_fn f' (value st x) st) as Hq.
      destruct (apply_fn f' (value st x) st) as [w s1]; cbn in Hq.
      assert (derived_inv c d f s1) as Hi1 by (by eapply derived_inv_quiet).
      pose proof (set_spec_other set _ _ _ _ Hset Hne Hi1 H) as (Hi & Hs).
      split; [done|]. split.
      * eapply settled_trans; [by eapply settled_quiet|done].
      * intros _ Heq. injection Heq as _ ->. done.
  - assert (r <> d) as Hne by (eapply not_target_d; eauto; done).
    pose proof (quiet_eval_exp (k (value st x)) st) as Hq.
    destruct (eval_exp (k (value st x)) st) as [e s1]; cbn in Hq.
    destruct (set r (value s1 e) s1) as [s2|] eqn:E; [|done].
    cbn in H. injection H as <-.
    assert (derived_inv c d f s1) as Hi1 by (by eapply derived_inv_quiet).
    pose proof (set_spec_other set _ _ _ _ Hset Hne Hi1 E) as (Hi & Hs).
    split; [apply derived_inv_subscribe; [cbn; congruence|done]|].
    split; [|done].
    eapply settled_trans; [by eapply settled_quiet|].
    eapply settled_trans; [exact Hs|].
    left. by rewrite !value_subscribe.
  - assert (r <> d) as Hne by (eapply not_target_d; eauto; done).
    pose proof (set_spec_other set _ _ _ _ Hset Hne Hinv H) as (Hi & Hs).
    done.
  - injection H as <-.
    split; [by eapply derived_inv_same_cells|].
    split; [by apply settled_same_cells|done].
  - assert (t <> d) as Hne by (eapply not_target_d; eauto; done).
    destruct (get_flag st flag).
    { injection H as <-. split; [done|]. split; [apply settled_refl|done]. }
    match type of H with set _ _ ?s1 = _ =>
      assert (derived_inv c d f s1) as Hi1
        by (eapply derived_inv_same_cells; [|exact Hinv]; done) end.
    pose proof (set_spec_other set _ _ _ _ Hset Hne Hi1 H) as (Hi & Hs).
    split; [done|]. split; [|done].
    eapply settled_trans; [|exact Hs]. by apply settled_same_cells.
  - assert (t <> d) as Hne by (eapply not_target_d; eauto; done).
    assert (cells (cache_write host key (value st x) st) = cells st) as Hcw.
    { unfold cache_write. by destruct (_ && _). }
    assert (derived_inv c d f (cache_write host key (value st x) st)) as Hi1
      by (eapply derived_inv_same_cells; [|exact Hinv]; exact Hcw).
    pose proof (set_spec_other set _ _ _ _ Hset Hne Hi1 H) as (Hi & Hs).
    split; [done|]. split; [|done].
    eapply settled_trans; [|exact Hs]. by apply settled_same_cells.
  - assert (t <> d) as Hne by (eapply not_target_d; eauto; done).
    unfold executeFetch_with in H. cbn in H.
    match type of H with context [set ?t ?w ?s1] =>
      destruct (set t w s1) as [s2|] eqn:E; [|done];
      assert (derived_inv c d f s1) as Hi1
        by (eapply derived_inv_same_cells; [|exact Hinv]; done)
    end.
    pose proof (set_spec_other set _ _ _ _ Hset Hne Hi1 E) as (Hi & Hs).
    cbn in H. injection H as <-.
    split; [eapply derived_inv_same_cells; [|exact Hi]; done|].
    split; [|done].
    eapply settled_trans; [by apply settled_same_cells|].
    eapply settled_trans; [exact Hs|]. by apply settled_same_cells.
Qed.

Lemma exec_derived fuel : forall call st st',
  derived_inv c d f st -> call_legal c d call st ->
  exec host fuel call st = Some st' ->
  derived_inv c d f st' /\ settled c d st st' /\ call_post c d f call st st'.
Proof.
  induction fuel as [|n IH]; intros call st st' Hinv Hlegal H; [done|].
  assert (set_spec c d f (fun t w => exec host n (CSet t w))) as Hset.
  { intros t w s1 s2 Hi Hl E.
    destruct (IH (CSet t w) s1 s2 Hi Hl E) as (? & ? & ? & _). done. }
  destruct call as [x v|x i]; cbn -[sub_body] in H.
  - destruct (strict_neq v (value st x)) eqn:Hneq.
    + destruct (IH (CNotify x 0) _ st' (derived_inv_write x v st Hinv) I H)
        as (Hi & Hs & Hp).
      pose proof Hinv as (Hc & Hd & Hcd & Hin & _).
      assert (x = c -> agree c d st') as Hxc.
      { intros ->. apply list_elem_of_lookup_1 in Hin as [j Hj].
        apply (Hp eq_refl j); [lia|]. by rewrite subscribers_write. }
      assert (x = d -> agree c d st') as Hxd.
      { intros ->. eapply settled_agree; [|exact Hs].
        unfold agree. rewrite !value_write.
        rewrite decide_True, decide_True by done.
        rewrite decide_False by done.
        rewrite (Hlegal eq_refl). apply same_value_refl. }
      split; [done|]. split; [|by split; [|intros ? _]; auto].
      destruct (decide (x = c)) as [->|Hnc]; [right; by apply Hxc|].
      destruct (decide (x = d)) as [->|Hnd]; [right; by apply Hxd|].
      eapply settled_trans; [|exact Hs].
      left. by rewrite !value_write, !decide_False.
    + injection H as <-. split; [done|]. split; [apply settled_refl|].
      split; [|intros ->; congruence].
      intros ->. unfold agree. rewrite (Hlegal eq_refl) in Hneq.
      apply same_value_sym, strict_eq_same_value.
      unfold strict_neq in Hneq. by destruct (strict_eq _ _).
  - destruct (subscribers st x !! i) as [fn|] eqn:Ei.
    2:{ injection H as <-. split; [done|]. split; [apply settled_refl|].
        intros -> j Hij Hj. apply lookup_ge_None in Ei.
        apply lookup_lt_Some in Hj. lia. }
    destruct (sub_body host _ fn (value st x) st) as [s1|] eqn:E; [|done].
    cbn in H.
    destruct (sub_body_derived _ x fn st s1 Hset Hinv) as (Hi1 & Hs1 & Hp1);
      [by eapply list_elem_of_lookup_2|done|].
    destruct (IH (CNotify x (S i)) s1 st' Hi1 I H) as (Hi & Hs & Hp).
    split; [done|]. split; [by eapply settled_trans|].
    intros -> j Hij Hj. destruct (decide (j = i)) as [->|Hne].
    + rewrite Hj in Ei. injection Ei as <-.
      eapply settled_agree; [|exact Hs]. by apply Hp1.
    + apply (Hp eq_refl j); [lia|].
      assert (extends st s1) as (_ & Hpre & _).
      { eapply extends_sub_body; [|exact E].
        intros t w s2 s3. apply exec_extends. }
      eapply prefix_lookup_Some; [exact Hj|apply Hpre].
Qed.

(** Updating the source through its setter keeps the derived signal in
    agreement. *)
Lemma set_all_derived fuel vs : forall st st',
  derived_inv c d f st -> agree c d st ->
  set_all host fuel c vs st = Some st' ->
  derived_inv c d f st' /\ agree c d st'.
Proof.
  induction vs as [|v vs IH]; intros st st' Hinv Ha H; cbn in H.
  - by injection H as <-.
  - destruct (set_ host fuel c v st) as [s1|] eqn:E; [|done]. cbn in H.
    pose proof Hinv as (Hc & Hd & Hcd & Hrest).
    destruct (exec_derived fuel (CSet c v) st s1) as (Hi & Hs & _);
      [done|by intros ?|done|].
    eapply IH; [exact Hi| |exact H]. by eapply settled_agree.
Qed.

End Derived.

(** *** [map] sets the invariant up *)

Lemma targets_bounded_quiet s s' :
  targets_bounded s -> quiet s s' -> targets_bounded s'.
Proof.
  intros Hb ((Hlen & _) & _ & Hnew) x fn t Hfn Ht.
  destruct (Hnew x fn Hfn) as [Hold|(t' & Ht' & Hlt)].
  - specialize (Hb x fn t Hold Ht). lia.
  - rewrite Ht in Ht'. injection Ht' as <-. lia.
Qed.

Lemma tracks_identity c : tracks_source identity c.
Proof. done. Qed.

Lemma tracks_filter p c : tracks_source (FFilter p c) c.
Proof. intros st. cbn. by destruct (p _). Qed.

Lemma map_tracked c f s :
  tracks_source f c ->
  map_ c f s = (length (cells s),
                subscribe c (SubMap f (length (cells s)))
                          (signal (value s c) s).2).
Proof. intros Htr. unfold map_. by rewrite Htr. Qed.

Lemma map_derived c f s :
  targets_bounded s -> c < length (cells s) -> tracks_source f c ->
  derived_inv c (map_ c f s).1 f (map_ c f s).2 /\
  agree c (map_ c f s).1 (map_ c f s).2.
Proof.
  intros Hb Hc Htr. rewrite map_tracked by done.
  cbn -[signal subscribe value subscribers].
  unfold derived_inv, agree.
  rewrite length_subscribe, length_signal, !value_subscribe, !value_signal.
  rewrite decide_True by done. rewrite decide_False by (cbn; lia).
  split; [|apply same_value_refl].
  split; [lia|]. split; [cbn; lia|]. split; [cbn; lia|]. split.
  - rewrite subscribers_subscribe, subscribers_signal.
    rewrite decide_True by (rewrite length_signal; lia).
    apply elem_of_app. right. apply list_elem_of_here.
  - intros x fn Hfn Ht. rewrite subscribers_subscribe, subscribers_signal in Hfn.
    destruct (decide _) as [[-> _]|_].
    + apply elem_of_app in Hfn as [Hfn|Hfn].
      * specialize (Hb _ _ _ Hfn Ht). cbn in Hb. lia.
      * apply list_elem_of_singleton in Hfn. done.
    + specialize (Hb _ _ _ Hfn Ht). cbn in Hb. lia.
Qed.

(** *** A source whose only subscriber is the one [map] installed *)

Lemma exec_set host n id v s :
  exec host (S n) (CSet id v) s =
  if strict_neq v (value s id)
  then exec host n (CNotify id 0) (write id v s) else Some s.
Proof. done. Qed.

Lemma exec_notify host n id i s :
  exec host (S n) (CNotify id i) s =
  match subscribers s id !! i with
  | None => Some s
  | Some fn =>
      s' ← sub_body host (fun t w => exec host n (CSet t w)) fn (value s id) s;
      exec host n (CNotify id (S i)) s'
  end.
Proof. done. Qed.

Lemma set_lone_pair host c d f v st :
  tracks_source f c -> lone_pair c d f st ->
  exists st', set_ host 4 c v st = Some st' /\ lone_pair c d f st' /\
              value st' c = if strict_neq v (value st c) then v else value st c.
Proof.
  intros Htr (Hc & Hd & Hne & Hsc & Hsd & Hv). unfold set_.
  rewrite exec_set. destruct (strict_neq v (value st c)) eqn:Hneq.
  2:{ exists st. by repeat split. }
  rewrite exec_notify, subscribers_write, Hsc. cbn [lookup list_lookup].
  cbn [sub_body].
  assert (value (write c v st) c = v) as Hvc.
  { by rewrite value_write, !decide_True. }
  rewrite Htr, Hvc.
  rewrite exec_set, value_write, decide_False by done.
  rewrite Hv, Hneq.
  rewrite exec_notify, !subscribers_write, Hsd. cbn [lookup list_lookup mbind option_bind].
  rewrite exec_notify, !subscribers_write, Hsc. cbn [lookup list_lookup].
  eexists. split; [done|]. split; [|by rewrite value_write, decide_False].
  unfold lone_pair. rewrite !length_write, !subscribers_write, !value_write.
  rewrite length_write.
  rewrite !decide_True by done. rewrite decide_False by done.
  rewrite !decide_True by done. done.
Qed.

Lemma set_all_lone_pair host c d f vs : forall st,
  tracks_source f c -> lone_pair c d f st ->
  exists st', set_all host 4 c vs st = Some st' /\ lone_pair c d f st'.
Proof.
  induction vs as [|v vs IH]; intros st Htr Hp; cbn [set_all].
  - by exists st.
  - destruct (set_lone_pair host c d f v st Htr Hp) as (s1 & -> & Hp1 & _).
    cbn [mbind option_bind]. by apply IH.
Qed.

Lemma map_lone_pair c f s :
  tracks_source f c -> c < length (cells s) -> subscribers s c = [] ->
  lone_pair c (map_ c f s).1 f (map_ c f s).2.
Proof.
  intros Htr Hc Hs.
  rewrite map_tracked by done.
  cbn -[signal subscribe value subscribers].
  unfold lone_pair.
  rewrite length_subscribe, !length_signal, !subscribers_subscribe.
  rewrite !value_subscribe, !subscribers_signal, !length_signal.
  rewrite !value_signal, Hs.
  rewrite decide_True by (split; [done|lia]).
  rewrite decide_False by lia.
  rewrite decide_True by done. rewrite decide_False by lia.
  unfold subscribers. rewrite !lookup_ge_None_2 by lia.
  repeat split; lia.
Qed.

Lemma targets_bounded_empty : targets_bounded empty_store.
Proof.
  intros x fn t Hfn _. unfold subscribers in Hfn. cbn in Hfn.
  by apply elem_of_nil in Hfn.
Qed.

Lemma targets_bounded_signal v s :
  targets_bounded s -> targets_bounded (signal v s).2.
Proof. intros H. eapply targets_bounded_quiet; [exact H|apply quiet_signal]. Qed.

Lemma targets_bounded_map c f s :
  targets_bounded s -> targets_bounded (map_ c f s).2.
Proof. intros H. eapply targets_bounded_quiet; [exact H|apply quiet_map]. Qed.

(** *** Well-formedness is kept by every operation *)

Lemma targets_bounded_same_cells s s' :
  cells s' = cells s -> targets_bounded s -> targets_bounded s'.
Proof. intros Hc. unfold targets_bounded, subscribers. by rewrite Hc. Qed.

Lemma targets_bounded_write x v s :
  targets_bounded s -> targets_bounded (write x v s).
Proof.
  unfold targets_bounded. rewrite length_write.
  setoid_rewrite subscribers_write. done.
Qed.

Lemma targets_bounded_subscribe x fn s :
  (forall t, sub_target fn = Some t -> t < length (cells s)) ->
  targets_bounded s -> targets_bounded (subscribe x fn s).
Proof.
  intros Hfn Hb y g t Hg Ht. rewrite length_subscribe.
  rewrite subscribers_subscribe in Hg.
  destruct (decide _) as [[-> _]|_]; [|by eapply Hb].
  apply elem_of_app in Hg as [Hg|Hg]; [by eapply Hb|].
  apply list_elem_of_singleton in Hg as ->. by apply Hfn.
Qed.

Section WellFormed.

Context (host : Host).

Lemma sub_body_targets_bounded set x fn v st st' :
  (forall t w s1 s2, targets_bounded s1 -> set t w s1 = Some s2 ->
                     extends s1 s2 /\ targets_bounded s2) ->
  targets_bounded st -> fn ∈ subscribers st x ->
  sub_body host set fn v st = Some st' -> targets_bounded st'.
Proof.
  intros Hset Hb Hfn H.
  destruct fn as [f' t|k r|r|tag|flag timer t|key t|fetcher t];
    cbn -[eval_exp] in H.
  - pose proof (quiet_apply_fn f' v st) as Hq.
    destruct (apply_fn f' v st) as [w s1]; cbn in Hq.
    eapply Hset in H as [_ H]; [done|]. by eapply targets_bounded_quiet.
  - pose proof (quiet_eval_exp (k v) st) as Hq.
    destruct (eval_exp (k v) st) as [e s1]; cbn in Hq.
    destruct (set r (value s1 e) s1) as [s2|] eqn:E; [|done].
    cbn in H. injection H as <-.
    eapply Hset in E as [(Hlen & _) E]; [|by eapply targets_bounded_quiet].
    apply targets_bounded_subscribe; [|done].
    intros t Ht. injection Ht as <-.
    specialize (Hb x _ r Hfn eq_refl). destruct Hq as ((? & _) & _). lia.
  - by eapply Hset in H as [_ H].
  - injection H as <-. by eapply targets_bounded_same_cells.
  - destruct (get_flag st flag); [by injection H as <-|].
    eapply Hset in H as [_ H]; [done|]. by eapply targets_bounded_same_cells.
  - eapply Hset in H as [_ H]; [done|].
    eapply targets_bounded_same_cells; [|exact Hb].
    unfold cache_write. by destruct (_ && _).
  - unfold executeFetch_with in H. cbn in H.
    match type of H with context [set ?t ?w ?s1] =>
      destruct (set t w s1) as [s2|] eqn:E; [|done]
    end.
    cbn in H. injection H as <-.
    eapply Hset in E as [_ E]; [|by eapply targets_bounded_same_cells].
    by eapply targets_bounded_same_cells.
Qed.

Lemma exec_targets_bounded fuel : forall call st st',
  targets_bounded st -> exec host fuel call st = Some st' ->
  targets_bounded st'.
Proof.
  induction fuel as [|n IH]; intros call st st' Hb H; [done|].
  destruct call as [x v|x i]; cbn -[sub_body] in H.
  - destruct (strict_neq v (value st x)); [|by injection H as <-].
    eapply IH; [|exact H]. by apply targets_bounded_write.
  - destruct (subscribers st x !! i) as [fn|] eqn:Ei; [|by injection H as <-].
    destruct (sub_body host _ fn (value st x) st) as [s1|] eqn:E; [|done].
    cbn in H. eapply IH; [|exact H].
    eapply sub_body_targets_bounded; [|exact Hb| |exact E].
    + intros t w s2 s3 Hb2 E2. cbn beta in E2.
      split; [exact (exec_extends host n _ _ _ E2)|exact (IH _ _ _ Hb2 E2)].
    + by eapply list_elem_of_lookup_2.
Qed.

End WellFormed.

(* ===================================================================== *)
(** ** Functor identity, and the filter plugin                            *)
(* ===================================================================== *)

(** C4: for a container [c] of a well-formed store, [d = c.map(id)] has the
    value of [c] when it is created and after every sequence of updates of
    [c] through its setter (every prefix of a sequence is a sequence, so
    this is every point after any update).  Values are compared as a
    caller observes them ([Object.is]).  When [map]'s subscriber is the
    only one on [c], the updates return within fuel 4 and the two values
    are identical. *)
Theorem functor_identity (host : Host) (s : Store) (c : sid) :
  targets_bounded s -> c < length (cells s) ->
  let d := (map_ c identity s).1 in
  let s1 := (map_ c identity s).2 in
  same_value (value s1 d) (value s1 c) = true /\
  (forall fuel vs s',
     set_all host fuel c vs s1 = Some s' ->
     same_value (value s' d) (value s' c) = true) /\
  (subscribers s c = [] ->
   forall vs, exists s',
     set_all host 4 c vs s1 = Some s' /\ value s' d = value s' c).
Proof.
  intros Hb Hc d s1.
  destruct (map_derived c identity s Hb Hc (tracks_identity c)) as [Hinv Ha].
  split; [exact Ha|]. split.
  - intros fuel vs s' H.
    destruct (set_all_derived host c d identity (tracks_identity c) fuel vs
                s1 s' Hinv Ha H) as [_ Ha'].
    exact Ha'.
  - intros Hs vs.
    destruct (set_all_lone_pair host c d identity vs s1 (tracks_identity c))
      as (s' & H & Hp).
    { by apply map_lone_pair. }
    exists s'. split; [done|]. by destruct Hp as (_ & _ & _ & _ & _ & ->).
Qed.

Lemma functor_identity_witness :
  let s := (signal (VNum 42) empty_store).2 in
  let d := (map_ 0 identity s).1 in
  let s1 := (map_ 0 identity s).2 in
  same_value (value s1 d) (value s1 0) = true /\
  (forall s', set_all demo_host 4 0 [VNum 100] s1 = Some s' ->
              same_value (value s' d) (value s' 0) = true) /\
  set_all demo_host 4 0 [VNum 100] s1 <> None.
Proof.
  intros s d s1.
  pose proof (functor_identity demo_host s 0
                (targets_bounded_signal _ _ targets_bounded_empty)
                ltac:(vm_compute; lia)) as (H1 & H2 & H3).
  split; [exact H1|]. split; [exact (H2 4 [VNum 100])|].
  destruct (H3 eq_refl [VNum 100]) as (s' & Hs' & _).
  fold s1 in Hs'. rewrite Hs'. discriminate.
Defined.

(** C9: [filterPlugin(p)(src)] is value-equivalent to [src.map(id)]: after
    every sequence of updates of [src] the two derived signals have the
    same value, which is the value of [src], whatever [p] answers; when the
    plugin's subscriber is the only one on [src], an update of [src] to a
    new value [v] returns and leaves [v] in the plugin's signal. *)
Theorem filter_plugin_is_map_identity (host : Host) (p : Val -> bool)
    (s : Store) (src : sid) :
  targets_bounded s -> src < length (cells s) ->
  let d1 := (filterPlugin p src s).1 in
  let s1 := (filterPlugin p src s).2 in
  let d2 := (map_ src identity s1).1 in
  let s2 := (map_ src identity s1).2 in
  (forall fuel vs s',
     set_all host fuel src vs s2 = Some s' ->
     same_value (value s' d1) (value s' d2) = true /\
     same_value (value s' d1) (value s' src) = true) /\
  (subscribers s src = [] ->
   forall v, strict_neq v (value s src) = true ->
     exists s', set_ host 4 src v s1 = Some s' /\
                value s' src = v /\ value s' d1 = v).
Proof.
  intros Hb Hc d1 s1 d2 s2. unfold filterPlugin in *.
  destruct (map_derived src (FFilter p src) s Hb Hc (tracks_filter p src))
    as [Hinv1 Ha1]. fold d1 s1 in Hinv1, Ha1.
  assert (quiet s s1) as Hq1 by apply quiet_map.
  assert (quiet s1 s2) as Hq2 by apply quiet_map.
  assert (src < length (cells s1)) as Hc1.
  { destruct Hq1 as ((? & _) & _). lia. }
  destruct (map_derived src identity s1 (targets_bounded_map _ _ _ Hb) Hc1
              (tracks_identity src)) as [Hinv2 Ha2]. fold d2 s2 in Hinv2, Ha2.
  split.
  - intros fuel vs s' H.
    destruct (set_all_derived host src d1 (FFilter p src) (tracks_filter p src)
                fuel vs s2 s') as [_ Hd1]; [| |exact H|].
    { eapply derived_inv_quiet; [exact Hinv1|exact Hq2]. }
    { eapply settled_agree; [exact Ha1|].
      eapply settled_quiet; [exact Hinv1|exact Hq2]. }
    destruct (set_all_derived host src d2 identity (tracks_identity src)
                fuel vs s2 s' Hinv2 Ha2 H) as [_ Hd2].
    split; [|exact Hd1].
    eapply same_value_trans; [exact Hd1|]. by apply same_value_sym.
  - intros Hs v Hneq.
    destruct (set_lone_pair host src d1 (FFilter p src) v s1
                (tracks_filter p src)) as (s' & H & Hp & Hv).
    { change (lone_pair src (map_ src (FFilter p src) s).1 (FFilter p src)
                        (map_ src (FFilter p src) s).2).
      apply map_lone_pair; [apply tracks_filter|done|done]. }
    exists s'. split; [done|].
    assert (value s1 src = value s src) as Hsame.
    { destruct Hq1 as (_ & Hval & _). by apply Hval. }
    rewrite Hsame, Hneq in Hv. split; [done|].
    destruct Hp as (_ & _ & _ & _ & _ & ->). done.
Qed.

Lemma filter_plugin_is_map_identity_witness :
  let p := fun _ : Val => false in
  let s := (signal (VNum 1) empty_store).2 in
  let d1 := (filterPlugin p 0 s).1 in
  let s1 := (filterPlugin p 0 s).2 in
  let d2 := (map_ 0 identity s1).1 in
  let s2 := (map_ 0 identity s1).2 in
  (forall s', set_all demo_host 6 0 [VNum 2; VNum 3] s2 = Some s' ->
     same_value (value s' d1) (value s' d2) = true /\
     same_value (value s' d1) (value s' 0) = true) /\
  set_all demo_host 6 0 [VNum 2; VNum 3] s2 <> None /\
  exists s', set_ demo_host 4 0 (VNum 2) s1 = Some s' /\
             value s' 0 = VNum 2 /\ value s' d1 = VNum 2.
Proof.
  intros p s d1 s1 d2 s2.
  pose proof (filter_plugin_is_map_identity demo_host p s 0
                (targets_bounded_signal _ _ targets_bounded_empty)
                ltac:(vm_compute; lia)) as (H1 & H2).
  split; [exact (H1 6 [VNum 2; VNum 3])|].
  split; [vm_compute; discriminate|].
  exact (H2 eq_refl (VNum 2) eq_refl).
Defined.

(* ===================================================================== *)
(** ** Signals that nothing outside sets                                  *)
(* ===================================================================== *)

Section Frame.

Context (host : Host) (P : sid -> Prop).

Lemma isolated_quiet st st' : isolated P st -> quiet st st' -> isolated P st'.
Proof.
  intros [Hal Hiso] ((Hlen & _) & _ & Hnew). split.
  - intros y Hy. specialize (Hal y Hy). lia.
  - intros x fn t Hx Hfn Ht Hpt.
    destruct (Hnew x fn Hfn) as [Hold|(t' & Ht' & Hlt)].
    + by eapply Hiso.
    + rewrite Ht in Ht'. injection Ht' as <-. specialize (Hal t Hpt). lia.
Qed.

Lemma untouched_quiet st st' : isolated P st -> quiet st st' -> untouched P st st'.
Proof. intros [Hal _] (_ & Hv & _) y Hy. apply Hv. by apply Hal. Qed.

Lemma isolated_same_cells st st' :
  cells st' = cells st -> isolated P st -> isolated P st'.
Proof. intros Hc. unfold isolated, subscribers. by rewrite Hc. Qed.

Lemma untouched_same_cells st st' : cells st' = cells st -> untouched P st st'.
Proof. intros Hc y _. by apply value_same_cells. Qed.

Lemma untouched_trans st1 st2 st3 :
  untouched P st1 st2 -> untouched P st2 st3 -> untouched P st1 st3.
Proof. intros H1 H2 y Hy. rewrite H2 by done. by apply H1. Qed.

Lemma isolated_write x v st : isolated P st -> isolated P (write x v st).
Proof.
  unfold isolated. rewrite length_write. setoid_rewrite subscribers_write.
  done.
Qed.

Lemma untouched_write x v st : ~ P x -> untouched P st (write x v st).
Proof.
  intros Hx y Hy. rewrite value_write, decide_False; [done|].
  intros ->. done.
Qed.

Lemma isolated_subscribe x fn st :
  (~ P x -> forall t, sub_target fn = Some t -> ~ P t) ->
  isolated P st -> isolated P (subscribe x fn st).
Proof.
  intros Hfn [Hal Hiso]. split.
  - intros y Hy. rewrite length_subscribe. by apply Hal.
  - intros y g t Hy Hg Ht. rewrite subscribers_subscribe in Hg.
    destruct (decide _) as [[-> _]|_]; [|by eapply Hiso].
    apply elem_of_app in Hg as [Hg|Hg]; [by eapply Hiso|].
    apply list_elem_of_singleton in Hg as ->. by apply Hfn.
Qed.

Lemma sub_body_frame set x fn v st st' :
  frame_spec P set -> isolated P st -> ~ P x -> fn ∈ subscribers st x ->
  sub_body host set fn v st = Some st' ->
  isolated P st' /\ untouched P st st'.
Proof.
  intros Hset Hiso Hx Hfn H.
  assert (forall t, sub_target fn = Some t -> ~ P t) as Htgt.
  { intros t Ht. destruct Hiso as [_ Hiso]. by eapply Hiso. }
  destruct fn as [f' t|k r|r|tag|flag timer t|key t|fetcher t];
    cbn -[eval_exp] in H.
  - pose proof (quiet_apply_fn f' v st) as Hq.
    destruct (apply_fn f' v st) as [w s1]; cbn in Hq.
    destruct (Hset t w s1 st') as [Hi Hu];
      [by eapply isolated_quiet|by apply Htgt|done|].
    split; [done|]. eapply untouched_trans; [by eapply untouched_quiet|done].
  - pose proof (quiet_eval_exp (k v) st) as Hq.
    destruct (eval_exp (k v) st) as [e s1]; cbn in Hq.
    destruct (set r (value s1 e) s1) as [s2|] eqn:E; [|done].
    cbn in H. injection H as <-.
    eapply Hset in E as [Hi Hu];
      [|by eapply isolated_quiet|by apply Htgt].
    split.
    + apply isolated_subscribe; [|done]. intros _ t Ht.
      injection Ht as <-. by apply Htgt.
    + eapply untouched_trans; [by eapply untouched_quiet|].
      eapply untouched_trans; [exact Hu|].
      intros y _. by rewrite value_subscribe.
  - by eapply Hset; [|apply Htgt|].
  - injection H as <-. split; [by eapply isolated_same_cells|].
    by apply untouched_same_cells.
  - destruct (get_flag st flag); [by injection H as <-|].
    eapply Hset in H as [Hi Hu];
      [|eapply isolated_same_cells; [|exact Hiso]; done|by apply Htgt].
    split; [done|].
    eapply untouched_trans; [|exact Hu]. by apply untouched_same_cells.
  - assert (cells (cache_write host key v st) = cells st) as Hcw.
    { unfold cache_write. by destruct (_ && _). }
    eapply Hset in H as [Hi Hu];
      [|eapply isolated_same_cells; [|exact Hiso]; exact Hcw|by apply Htgt].
    split; [done|].
    eapply untouched_trans; [|exact Hu]. by apply untouched_same_cells.
  - unfold executeFetch_with in H. cbn in H.
    match type of H with context [set ?t ?w ?s1] =>
      destruct (set t w s1) as [s2|] eqn:E; [|done]
    end.
    eapply Hset in E as [Hi Hu];
      [|eapply isolated_same_cells; [|exact Hiso]; done|by apply Htgt].
    cbn in H. injection H as <-.
    split; [eapply isolated_same_cells; [|exact Hi]; done|].
    eapply untouched_trans; [by apply untouched_same_cells|].
    eapply untouched_trans; [exact Hu|]. by apply untouched_same_cells.
Qed.

Lemma exec_frame fuel : forall call st st',
  isolated P st -> call_outside P call ->
  exec host fuel call st = Some st' ->
  isolated P st' /\ untouched P st st'.
Proof.
  induction fuel as [|n IH]; intros call st st' Hiso Hout H; [done|].
  assert (frame_spec P (fun t w => exec host n (CSet t w))) as Hset.
  { intros t w s1 s2 Hi Ht E. by eapply (IH (CSet t w)). }
  destruct call as [x v|x i]; cbn -[sub_body] in H, Hout.
  - destruct (strict_neq v (value st x)).
    2:{ injection H as <-. split; [done|]. by intros y _. }
    destruct (IH (CNotify x 0) _ st' (isolated_write x v st Hiso) Hout H)
      as [Hi Hu].
    split; [done|]. eapply untouched_trans; [by apply untouched_write|done].
  - destruct (subscribers st x !! i) as [fn|] eqn:Ei.
    2:{ injection H as <-. split; [done|]. by intros y _. }
    destruct (sub_body host _ fn (value st x) st) as [s1|] eqn:E; [|done].
    cbn in H.
    eapply sub_body_frame in E as [Hi1 Hu1];
      [|exact Hset|exact Hiso|exact Hout|by eapply list_elem_of_lookup_2].
    destruct (IH (CNotify x (S i)) s1 st' Hi1 Hout H) as [Hi Hu].
    split; [done|]. by eapply untouched_trans.
Qed.

Lemma set_each_frame fuel us : forall st st',
  isolated P st -> (forall x v, (x, v) ∈ us -> ~ P x) ->
  set_each host fuel us st = Some st' ->
  isolated P st' /\ untouched P st st'.
Proof.
  induction us as [|[x v] us IH]; intros st st' Hiso Hout H; cbn in H.
  - injection H as <-. split; [done|]. by intros y _.
  - destruct (set_ host fuel x v st) as [s1|] eqn:E; [|done].
    cbn in H.
    destruct (exec_frame fuel (CSet x v) st s1 Hiso) as [Hi1 Hu1];
      [eapply Hout; apply list_elem_of_here|done|].
    destruct (IH s1 st' Hi1) as [Hi Hu]; [|done|].
    { intros y w Hy. eapply Hout. by apply list_elem_of_further. }
    split; [done|]. by eapply untouched_trans.
Qed.

End Frame.

(* ===================================================================== *)
(** ** [bind]: the seeding inner effect                                   *)
(* ===================================================================== *)

Lemma bind_unfold m k s :
  bind m k s =
  let s' := (eval_exp (k (value s m)) s).2 in
  let inner := (eval_exp (k (value s m)) s).1 in
  (length (cells s'),
   subscribe m (SubBind k (length (cells s'))) (signal (value s' inner) s').2).
Proof.
  unfold bind, bind_body, effect.
  by destruct (eval_exp (k (value s m)) s).
Qed.

Lemma quiet_bind m k s : quiet s (bind m k s).2.
Proof.
  unfold bind. pose proof (quiet_eval_exp (k (value s m)) s) as Hq.
  destruct (eval_exp (k (value s m)) s) as [inner s']; cbn in Hq.
  etrans; [exact Hq|]. apply quiet_bind_body.
Qed.

Lemma targets_bounded_bind m k s :
  targets_bounded s -> targets_bounded (bind m k s).2.
Proof. intros H. eapply targets_bounded_quiet; [exact H|apply quiet_bind]. Qed.

(** After [r = m.bind(k)], the only subscriber that sets [r] is the one
    [bind] put on [m]. *)
Lemma bind_subscribers m k s x fn :
  targets_bounded s ->
  fn ∈ subscribers (bind m k s).2 x ->
  sub_target fn = Some (bind m k s).1 ->
  x = m /\ fn = SubBind k (bind m k s).1.
Proof.
  intros Hb. rewrite bind_unfold. cbn -[signal subscribe value subscribers].
  pose proof (quiet_eval_exp (k (value s m)) s) as Hq.
  pose proof (targets_bounded_quiet _ _ Hb Hq) as Hb'.
  set (s' := (eval_exp (k (value s m)) s).2) in *.
  rewrite subscribers_subscribe, subscribers_signal. intros Hfn Ht.
  destruct (decide _) as [[-> _]|_].
  - apply elem_of_app in Hfn as [Hfn|Hfn].
    + specialize (Hb' _ _ _ Hfn Ht). lia.
    + by apply list_elem_of_singleton in Hfn.
  - specialize (Hb' _ _ _ Hfn Ht). lia.
Qed.

(** The result of [m.bind(k)] right after the call, and while [m] does
    not emit. *)
Lemma bind_seed_facts (host : Host) (s : Store) (m : sid)
    (k : Val -> EffExp) :
  targets_bounded s -> m < length (cells s) ->
  let inner := (eval_exp (k (value s m)) s).1 in
  let r := (bind m k s).1 in
  let s1 := (bind m k s).2 in
  value s1 r = value s1 inner /\
  (forall x, SubInner r ∉ subscribers s1 x) /\
  ((forall x fn, fn ∈ subscribers s x -> sub_target fn <> Some m) ->
   forall fuel us s',
     (forall x v, (x, v) ∈ us -> x <> m /\ x <> r) ->
     set_each host fuel us s1 = Some s' ->
     value s' r = value s1 r).
Proof.
  intros Hb Hm inner r s1.
  pose proof (quiet_eval_exp (k (value s m)) s) as Hq.
  pose proof (targets_bounded_quiet _ _ Hb Hq) as Hb'.
  assert (r = length (cells (eval_exp (k (value s m)) s).2)) as Hr.
  { unfold r. by rewrite bind_unfold. }
  assert (length (cells s) <= r) as Hlen.
  { rewrite Hr. by destruct Hq as ((? & _) & _). }
  split; [|split].
  - unfold s1, r. rewrite bind_unfold.
    cbn -[signal subscribe value subscribers].
    rewrite !value_subscribe, !value_signal. rewrite decide_True by done.
    by destruct (decide _).
  - intros x Hin.
    destruct (bind_subscribers m k s x (SubInner r) Hb Hin eq_refl) as [_ ?].
    done.
  - intros Hroot fuel us s' Hus H.
    destruct (set_each_frame host (fun y => y = m \/ y = r) fuel us s1 s')
      as [_ Hu]; [| |exact H|].
    + split.
      * assert (length (cells s1) = S r) as Hl1.
        { unfold s1. rewrite bind_unfold.
          cbn -[signal subscribe value subscribers].
          rewrite length_subscribe, length_signal. by rewrite Hr. }
        intros y [->| ->]; lia.
      * intros x fn t Hx Hfn Ht [->| ->].
        -- destruct (quiet_bind m k s) as (_ & _ & Hnew).
           destruct (Hnew x fn Hfn) as [Hold|(t' & Ht' & Hlt)].
           ++ by eapply Hroot.
           ++ rewrite Ht in Ht'. injection Ht' as <-. lia.
        -- destruct (bind_subscribers m k s x fn Hb Hfn Ht) as [-> _].
           apply Hx. by left.
    + intros x v Hxv [->| ->]; by destruct (Hus _ _ Hxv).
    + apply Hu. by right.
Qed.

(** C10: [r = m.bind(k)] is seeded with the value of the inner effect
    [k(m.value())], and no effect, this inner one included, carries the
    subscriber [boundValue => r._set(boundValue)] when [bind] returns: such
    a subscription is only made by the subscriber that [bind] put on [m],
    when [m] emits.  So when [m] does not emit again ([m] is set by no
    subscriber and its setter is not called), no sequence of updates of
    other effects, the seeding inner one in particular, changes the value
    of [r]. *)
Theorem bind_seed_never_subscribed (host : Host) (s : Store) (m : sid)
    (k : Val -> EffExp) :
  targets_bounded s -> m < length (cells s) ->
  let inner := (eval_exp (k (value s m)) s).1 in
  let r := (bind m k s).1 in
  let s1 := (bind m k s).2 in
  value s1 r = value s1 inner /\
  (forall x, SubInner r ∉ subscribers s1 x) /\
  ((forall x fn, fn ∈ subscribers s x -> sub_target fn <> Some m) ->
   forall fuel us s',
     (forall x v, (x, v) ∈ us -> x <> m /\ x <> r) ->
     set_each host fuel us s1 = Some s' ->
     value s' r = value s1 r).
Proof. exact (bind_seed_facts host s m k). Qed.

(** [e = effect(1); m = effect(0); r = m.bind(_ => e)], then [e._set(2)]. *)
Lemma bind_seed_never_subscribed_witness :
  let s := (effect (VNum 0) (effect (VNum 1) empty_store).2).2 in
  let k := fun _ : Val => ERef 0 in
  let r := (bind 1 k s).1 in
  let s1 := (bind 1 k s).2 in
  value s1 r = VNum 1 /\
  exists s', set_each demo_host 3 [(0, VNum 2)] s1 = Some s' /\
             value s' 0 = VNum 2 /\ value s' r = VNum 1.
Proof.
  intros s k r s1.
  pose proof (bind_seed_never_subscribed demo_host s 1 k
                (targets_bounded_signal _ _
                   (targets_bounded_signal _ _ targets_bounded_empty))
                ltac:(vm_compute; lia)) as (H1 & _ & H3).
  split; [exact H1|].
  eexists. split; [vm_compute; reflexivity|]. split; [reflexivity|].
  eapply (H3 ltac:(intros x fn Hfn; destruct x as [|[|x]];
                   vm_compute in Hfn; by apply elem_of_nil in Hfn)
            3 [(0, VNum 2)]).
  - intros x v Hxv. apply list_elem_of_singleton in Hxv.
    injection Hxv as -> ->. split; vm_compute; lia.
  - vm_compute. reflexivity.
Defined.

(* ===================================================================== *)
(** ** [sequence]                                                         *)
(* ===================================================================== *)

Lemma sequence_unfold es s :
  sequence es s =
  sequence_fold es (pureEffect (VArr (next_ref s) []) (fresh_ref s).2).
Proof. done. Qed.

Lemma map_unfold c f s :
  map_ c f s =
  (length (cells s),
   subscribe c (SubMap f (length (cells s)))
             (signal (apply_fn f (value s c) s).1
                     (apply_fn f (value s c) s).2).2).
Proof.
  unfold map_. pose proof (cells_apply_fn f (value s c) s) as Hc.
  destruct (apply_fn f (value s c) s) as [v s1]. cbn in *. by rewrite Hc.
Qed.

(** One round of the reduction: the new accumulator holds the old array
    extended with the current value of [curr]. *)
Lemma sequence_step_value acc curr st ref l :
  value st acc = VArr ref l -> curr < length (cells st) ->
  let b := bind acc (sequence_step curr) st in
  value b.2 b.1 = VArr (next_ref st) (l ++ [value st curr]).
Proof.
  intros Hacc Hcurr b. unfold b. rewrite bind_unfold.
  cbn -[signal subscribe value subscribers eval_exp].
  rewrite value_subscribe, value_signal, decide_True by done.
  rewrite Hacc.
  change (eval_exp (sequence_step curr (VArr ref l)) st)
    with (map_ curr (FSnoc l) st).
  rewrite map_unfold. cbn -[signal subscribe value subscribers].
  rewrite value_subscribe, value_signal. cbn -[value]. by rewrite decide_True.
Qed.

Lemma sequence_fold_value es : forall acc st ref l,
  value st acc = VArr ref l ->
  (forall e, e ∈ es -> e < length (cells st)) ->
  quiet st (sequence_fold es (acc, st)).2 /\
  exists ref',
    value (sequence_fold es (acc, st)).2 (sequence_fold es (acc, st)).1
    = VArr ref' (l ++ (value st <$> es)).
Proof.
  induction es as [|curr es IH]; intros acc st ref l Hacc Hes.
  - cbn. rewrite app_nil_r. split; [done|]. by exists ref.
  - assert (curr < length (cells st)) as Hcurr
      by (apply Hes, list_elem_of_here).
    pose proof (sequence_step_value acc curr st ref l Hacc Hcurr) as Hv.
    pose proof (quiet_bind acc (sequence_step curr) st) as Hq.
    cbn [sequence_fold fold_left]. cbn [fst snd].
    destruct (bind acc (sequence_step curr) st) as [acc' st1] eqn:Eb.
    cbn [fst snd] in *.
    assert (forall e, e ∈ es -> e < length (cells st1)) as Hes1.
    { intros e He. destruct Hq as ((? & _) & _).
      specialize (Hes e (list_elem_of_further _ _ _ He)). lia. }
    destruct (IH acc' st1 _ _ Hv Hes1) as [Hq1 [ref' Hr]].
    fold (sequence_fold es (acc', st1)).
    split; [by etrans|]. exists ref'. rewrite Hr. f_equal.
    rewrite <- app_assoc. f_equal. cbn. f_equal.
    apply list_fmap_ext. intros i e Hi.
    destruct Hq as (_ & Hval & _). apply Hval, Hes.
    apply list_elem_of_further. by eapply list_elem_of_lookup_2.
Qed.

(** The accumulators of the reduction are set by nothing but the
    reduction's own subscribers. *)
Lemma bind_isolated P acc k st :
  isolated P st -> targets_bounded st -> P acc ->
  isolated (fun y => P y \/ y = (bind acc k st).1) (bind acc k st).2.
Proof.
  intros Hiso Hb Hacc.
  pose proof (isolated_quiet P _ _ Hiso (quiet_bind acc k st)) as [Hal Hi].
  split.
  - intros y [Hy| ->]; [by apply Hal|].
    rewrite bind_unfold. cbn -[signal subscribe value subscribers].
    rewrite length_subscribe, length_signal. lia.
  - intros x fn t Hx Hfn Ht [Hpt| ->].
    + eapply Hi; [|exact Hfn|exact Ht|exact Hpt]. intros Hpx. apply Hx. by left.
    + destruct (bind_subscribers acc k st x fn Hb Hfn Ht) as [-> _].
      apply Hx. by left.
Qed.

Lemma sequence_fold_isolated n0 es : forall P acc st,
  isolated P st -> targets_bounded st -> P acc ->
  (forall y, P y -> n0 <= y) -> n0 <= length (cells st) ->
  exists P',
    isolated P' (sequence_fold es (acc, st)).2 /\
    P' (sequence_fold es (acc, st)).1 /\
    (forall y, P' y -> n0 <= y).
Proof.
  induction es as [|curr es IH]; intros P acc st Hiso Hb Hacc Hlow Hn0.
  - exists P. by cbn.
  - cbn [sequence_fold fold_left]. cbn [fst snd].
    pose proof (bind_isolated P acc (sequence_step curr) st Hiso Hb Hacc)
      as Hiso1.
    pose proof (quiet_bind acc (sequence_step curr) st) as Hq.
    pose proof (targets_bounded_quiet _ _ Hb Hq) as Hb1.
    assert (n0 <= (bind acc (sequence_step curr) st).1) as Hr.
    { rewrite bind_unfold. cbn -[signal subscribe value subscribers eval_exp].
      pose proof (quiet_eval_exp (sequence_step curr (value st acc)) st)
        as ((? & _) & _). lia. }
    destruct (bind acc (sequence_step curr) st) as [acc' st1] eqn:Eb.
    cbn [fst snd] in *.
    apply (IH _ acc' st1 Hiso1 Hb1); [by right| |].
    + intros y [Hy| ->]; [by apply Hlow|done].
    + destruct Hq as ((? & _) & _). lia.
Qed.

(** C7: [sequence(es)] holds an array of the values the effects of [es]
    have when [sequence] is called, and no later sequence of updates of
    effects that existed at the call (the inputs in particular) changes the
    value of the result. *)
Theorem sequence_is_snapshot (host : Host) (s : Store) (es : list sid) :
  targets_bounded s ->
  (forall e, e ∈ es -> e < length (cells s)) ->
  let r := (sequence es s).1 in
  let s1 := (sequence es s).2 in
  (exists ref, value s1 r = VArr ref (value s <$> es)) /\
  (forall fuel us s',
     (forall x v, (x, v) ∈ us -> x < length (cells s)) ->
     set_each host fuel us s1 = Some s' ->
     value s' r = value s1 r).
Proof.
  intros Hb Hes r s1. unfold r, s1. rewrite sequence_unfold.
  set (s0 := (fresh_ref s).2).
  set (acc0 := (pureEffect (VArr (next_ref s) []) s0).1).
  set (st0 := (pureEffect (VArr (next_ref s) []) s0).2).
  change (pureEffect (VArr (next_ref s) []) s0) with (acc0, st0).
  assert (quiet s st0) as Hq0.
  { etrans; [apply (quiet_same_cells s s0); cbn; [done|done|lia]|].
    apply quiet_signal. }
  assert (acc0 = length (cells s)) as Hacc0 by done.
  assert (length (cells st0) = S (length (cells s))) as Hlen0.
  { unfold st0, pureEffect, effect. by rewrite length_signal. }
  split.
  - destruct (sequence_fold_value es acc0 st0 (next_ref s) []) as [_ [ref Hv]].
    + unfold st0, acc0, pureEffect, effect.
      by rewrite value_signal, decide_True.
    + intros e He. specialize (Hes e He). lia.
    + exists ref. rewrite Hv. cbn. f_equal.
      apply list_fmap_ext. intros i e Hi.
      destruct Hq0 as (_ & Hval & _). apply Hval, Hes.
      by eapply list_elem_of_lookup_2.
  - intros fuel us s' Hus H.
    destruct (sequence_fold_isolated (length (cells s)) es
                (fun y => y = acc0) acc0 st0) as (P' & Hiso & Hr & Hlow).
    + split.
      * intros y ->. lia.
      * intros x fn t _ Hfn Ht ->.
        destruct Hq0 as (_ & _ & Hnew).
        destruct (Hnew x fn Hfn) as [Hold|(t' & Ht' & Hlt)].
        -- specialize (Hb _ _ _ Hold Ht). lia.
        -- unfold st0, pureEffect, effect in Hfn.
           rewrite subscribers_signal in Hfn.
           pose proof (subscribers_same_cells s s0 x eq_refl) as Hsame.
           rewrite Hsame in Hfn. specialize (Hb _ _ _ Hfn Ht). lia.
    + by eapply targets_bounded_quiet.
    + done.
    + intros y ->. lia.
    + lia.
    + destruct (set_each_frame host P' fuel us _ s' Hiso) as [_ Hu];
        [|exact H|by apply Hu].
      intros x v Hxv Hpx. specialize (Hus _ _ Hxv).
      specialize (Hlow _ Hpx). lia.
Qed.

(** [sequence([e1, e2, e3])] for effects holding 1, 2, 3; then
    [e2._set(20)]. *)
Lemma sequence_is_snapshot_witness :
  let s := (effect (VNum 3) (effect (VNum 2)
             (effect (VNum 1) empty_store).2).2).2 in
  let r := (sequence [0; 1; 2] s).1 in
  let s1 := (sequence [0; 1; 2] s).2 in
  arr_elems (value s1 r) = [VNum 1; VNum 2; VNum 3] /\
  exists s', set_each demo_host 5 [(1, VNum 20)] s1 = Some s' /\
             value s' 1 = VNum 20 /\
             arr_elems (value s' r) = [VNum 1; VNum 2; VNum 3].
Proof.
  intros s r s1.
  pose proof (sequence_is_snapshot demo_host s [0; 1; 2]
                (targets_bounded_signal _ _ (targets_bounded_signal _ _
                   (targets_bounded_signal _ _ targets_bounded_empty))))
    as Hthm.
  destruct Hthm as [[ref Hv] Hsnap].
  { intros e He. vm_compute.
    repeat (apply elem_of_cons in He as [->|He]; [lia|]).
    by apply elem_of_nil in He. }
  fold r s1 in Hv, Hsnap.
  split; [by rewrite Hv|].
  eexists. split; [vm_compute; reflexivity|]. split; [reflexivity|].
  erewrite (Hsnap 5 [(1, VNum 20)]).
  - by rewrite Hv.
  - intros x v Hxv. apply list_elem_of_singleton in Hxv.
    injection Hxv as -> ->. vm_compute. lia.
  - vm_compute. reflexivity.
Defined.

(* ===================================================================== *)
(** ** Monad left identity                                                *)
(* ===================================================================== *)

(** C5, as stated, fails after the bind instant: with [e = effect(1)] and
    [f = _ => e], [pureEffect(0).bind(f)] keeps 1 when [e] is set to 2,
    while [f(0).value()] is then 2. *)
Lemma monad_left_identity_counterexample :
  left_identity_run = Some (VNum 1, VNum 2) /\
  same_value (VNum 1) (VNum 2) = false.
Proof. split; vm_compute; reflexivity. Qed.

(** C5 (amended): at the instant [bind] returns, [pureEffect(a).bind(f)]
    has the value of the effect [f(a)]; afterwards it keeps that value
    whatever other effects are updated, so it equals [f(a).value()] at the
    later instants at which [f(a)] still has the value it had when [bind]
    was called, and only at those. *)
Theorem monad_left_identity_at_bind (host : Host) (s : Store) (a : Val)
    (k : Val -> EffExp) :
  targets_bounded s ->
  let p := (pureEffect a s).1 in
  let s0 := (pureEffect a s).2 in
  let fa := (eval_exp (k a) s0).1 in
  let L := (bind p k s0).1 in
  let s1 := (bind p k s0).2 in
  value s1 L = value s1 fa /\
  (forall fuel us s',
     (forall x v, (x, v) ∈ us -> x <> p /\ x <> L) ->
     set_each host fuel us s1 = Some s' ->
     value s' L = value s1 fa /\
     (same_value (value s' L) (value s' fa) =
      same_value (value s1 fa) (value s' fa))).
Proof.
  intros Hb p s0 fa L s1.
  assert (value s0 p = a) as Hp.
  { unfold s0, p, pureEffect, effect. by rewrite value_signal, decide_True. }
  assert (length (cells s0) = S (length (cells s))) as Hlen.
  { unfold s0, pureEffect, effect. by rewrite length_signal. }
  pose proof (targets_bounded_signal a s Hb) as Hb0.
  destruct (bind_seed_facts host s0 p k Hb0) as (H1 & _ & H3).
  { rewrite Hlen. unfold p. cbn. lia. }
  fold L s1 in H1, H3. rewrite Hp in H1. fold fa in H1.
  split; [exact H1|]. intros fuel us s' Hus H.
  assert (value s' L = value s1 fa) as HL.
  { rewrite <- H1. eapply H3; [|exact Hus|exact H].
    intros x fn Hfn Ht. unfold s0, pureEffect, effect in Hfn.
    rewrite subscribers_signal in Hfn. specialize (Hb _ _ _ Hfn Ht).
    unfold p in Hb. cbn in Hb. lia. }
  split; [exact HL|]. by rewrite HL.
Qed.

(** [e = effect(1); L = pureEffect(0).bind(_ => e)]; while [e] is left
    alone [L] agrees with it, and [L] keeps 1 when [e] is set to 2. *)
Lemma monad_left_identity_at_bind_witness :
  let s := (effect (VNum 1) empty_store).2 in
  let k := fun _ : Val => ERef 0 in
  let L := (bind 1 k (pureEffect (VNum 0) s).2).1 in
  let s1 := (bind 1 k (pureEffect (VNum 0) s).2).2 in
  value s1 L = value s1 0 /\
  exists s', set_each demo_host 3 [(0, VNum 2)] s1 = Some s' /\
             value s' L = VNum 1 /\ value s' 0 = VNum 2.
Proof.
  intros s k L s1.
  pose proof (monad_left_identity_at_bind demo_host s (VNum 0) k
                (targets_bounded_signal _ _ targets_bounded_empty))
    as (H1 & H2).
  split; [exact H1|].
  eexists. split; [vm_compute; reflexivity|]. split; [|reflexivity].
  eapply (H2 3 [(0, VNum 2)]).
  - intros x v Hxv. apply list_elem_of_singleton in Hxv.
    injection Hxv as -> ->. split; vm_compute; lia.
  - vm_compute. reflexivity.
Defined.

(* ===================================================================== *)
(** ** The transition-table machine                                       *)
(* ===================================================================== *)

Lemma find_none_iff {A} (f : A -> bool) (l : list A) :
  List.find f l = None <-> Forall (fun x => f x = false) l.
Proof.
  induction l as [|x l IH]; cbn.
  - split; [constructor|done].
  - destruct (f x) eqn:E.
    + split; [done|]. intros H. apply Forall_cons in H as [H _]. congruence.
    + rewrite IH. split; [by constructor|]. intros H.
      by apply Forall_cons in H as [_ H].
Qed.

(** C8: when no row of the table matches the current state, the action and
    its guard, [send(action)] leaves the machine as it is: [current] keeps
    its value and no subscriber is called. *)
Theorem fsm_send_no_match_is_noop {Env : Type} (env : Env)
    (m : Fsm.FSM Env) (action : Val) :
  Forall (fun t => Fsm.matches env m action t = false) (Fsm.transitions m) ->
  Fsm.send env action m = m /\
  Fsm.current (Fsm.send env action m) = Fsm.current m /\
  Fsm.fsm_trace (Fsm.send env action m) = Fsm.fsm_trace m /\
  Fsm.can env action m = false.
Proof.
  intros H. apply find_none_iff in H.
  unfold Fsm.send, Fsm.can, Fsm.getTransition. by rewrite H.
Qed.

(** [fsm('idle', [{from:'idle', to:'loading', on:'start'}])] with one
    subscriber, then [send('bogus')]. *)
Lemma fsm_send_no_match_is_noop_witness :
  let m := Fsm.subscribe 0
             (Fsm.fsm "idle"
                [Fsm.mkTransition (Env:=unit) "idle" "loading"
                                  (VStr "start") None]) in
  Fsm.current (Fsm.send tt (VStr "bogus") m) = "idle" /\
  Fsm.fsm_trace (Fsm.send tt (VStr "bogus") m) = [] /\
  Fsm.current (Fsm.send tt (VStr "start") m) = "loading" /\
  Fsm.fsm_trace (Fsm.send tt (VStr "start") m) = [(0, "loading")].
Proof.
  intros m.
  destruct (fsm_send_no_match_is_noop tt m (VStr "bogus")) as (_ & H2 & H3 & _).
  { repeat constructor. }
  split; [exact H2|]. split; [exact H3|]. split; reflexivity.
Defined.

(* ===================================================================== *)
(** ** [retry], [timeout] and [cache] on concrete runs                    *)
(* ===================================================================== *)

(** C1: for a fetcher that always rejects, [retry(2)] ends in
    [{ loading: false, data: undefined, error: <Error> }] and waits 1000 ms
    and 2000 ms between the attempts of [attemptFetch], but the fetcher is
    invoked four times, not three: [retry] builds its result with
    [fetch(fetcher, deps)], whose own [executeFetch] invokes the fetcher
    once more before [attemptFetch(2)] makes its three attempts. *)
Theorem retry_two_invokes_fetcher_four_times (host : Host) (reason : Val) :
  exists ref e,
    retry_run host (always_rejects reason) 2 =
      Some (mkRetryRun 4 [1000; 2000]%Z (VAsync ref VUndef false e)) /\
    is_error e = true.
Proof.
  destruct reason; eexists _, _; (split; [vm_compute; reflexivity|done]).
Qed.

(** C2: when the source emits before the timer is due, the result takes
    the emitted value and neither the timer nor a later emission changes it;
    but when the timer fires first, the result takes the Error and the next
    emission of the source replaces it: the timer callback does not set
    [hasCompleted]. *)
Theorem timeout_value_changes_after_timer (host : Host) :
  timeout_run host (VNum 42) 50 30 (VNum 100) 60 (VNum 7) =
    Some (VNum 42, VNum 100, VNum 100, VNum 100) /\
  timeout_run host (VNum 42) 50 60 (VNum 100) 70 (VNum 7) =
    Some (VErr 0 "Timeout after 50ms", VNum 100, VNum 100, VNum 100).
Proof. split; vm_compute; reflexivity. Qed.


(* ===================================================================== *)
(** ** Construction steps leave the host alone                            *)
(* ===================================================================== *)

Lemma same_host_refl st : same_host st st.
Proof. by repeat split. Qed.

Lemma same_host_trans a b c : same_host a b -> same_host b c -> same_host a c.
Proof.
  intros (?&?&?&?&?&?&?&?&?) (?&?&?&?&?&?&?&?&?).
  repeat split; congruence.
Qed.

Lemma same_host_set_cells st cs : same_host st (set_cells st cs).
Proof. by repeat split. Qed.

Lemma same_host_subscribe x fn st : same_host st (subscribe x fn st).
Proof. unfold subscribe. destruct (cells st !! x); by repeat split. Qed.

Lemma same_host_write x v st : same_host st (write x v st).
Proof. unfold write. destruct (cells st !! x); by repeat split. Qed.

Lemma same_host_apply_fn f v st : same_host st (apply_fn f v st).2.
Proof. destruct f; by repeat split. Qed.

Lemma same_host_map c f st : same_host st (map_ c f st).2.
Proof.
  rewrite map_unfold. cbn -[signal subscribe apply_fn].
  eapply same_host_trans; [apply (same_host_apply_fn f (value st c))|].
  eapply same_host_trans; [|apply same_host_subscribe]. by repeat split.
Qed.

Lemma same_host_bind_body inner m k st : same_host st (bind_body inner m k st).2.
Proof.
  unfold bind_body, effect. cbn -[signal subscribe].
  eapply same_host_trans; [|apply same_host_subscribe]. by repeat split.
Qed.

Lemma same_host_eval_exp e : forall st, same_host st (eval_exp e st).2.
Proof.
  induction e as [v|x|e IH f|e IH k IHk]; intros st;
    cbn -[signal map_ bind_body].
  - by repeat split.
  - apply same_host_refl.
  - specialize (IH st). destruct (eval_exp e st) as [x s1]; cbn in *.
    eapply same_host_trans; [exact IH|]. apply same_host_map.
  - specialize (IH st). destruct (eval_exp e st) as [m s1]; cbn in *.
    specialize (IHk (value s1 m) s1).
    destruct (eval_exp (k (value s1 m)) s1) as [inner s2]; cbn in *.
    eapply same_host_trans; [exact IH|].
    eapply same_host_trans; [exact IHk|]. apply same_host_bind_body.
Qed.

Lemma built_apply_fn f v st : built st (apply_fn f v st).2.
Proof. split; [apply quiet_apply_fn|apply same_host_apply_fn]. Qed.

Lemma built_eval_exp e st : built st (eval_exp e st).2.
Proof. split; [apply quiet_eval_exp|apply same_host_eval_exp]. Qed.

Lemma built_map c f st : built st (map_ c f st).2.
Proof. split; [apply quiet_map|apply same_host_map]. Qed.

Lemma built_bind m k st : built st (bind m k st).2.
Proof.
  split; [apply quiet_bind|]. unfold bind.
  pose proof (same_host_eval_exp (k (value st m)) st) as H.
  destruct (eval_exp (k (value st m)) st) as [inner s1]; cbn in H.
  eapply same_host_trans; [exact H|]. apply same_host_bind_body.
Qed.

(* ===================================================================== *)
(** ** An induction principle for the interpreter                         *)
(* ===================================================================== *)

Section ExecInvariant.

Context (host : Host) (Inv : Store -> Prop) (Rel : Store -> Store -> Prop)
        (ok : sid -> Prop).

Hypothesis Rel_refl : forall st, Rel st st.
Hypothesis Rel_trans : forall a b c, Rel a b -> Rel b c -> Rel a c.
Hypothesis Hbuilt : forall st st', Inv st -> built st st' -> Inv st' /\ Rel st st'.
Hypothesis Hhost : forall st st',
  Inv st -> host_step st st' -> Inv st' /\ Rel st st'.
Hypothesis Hwrite : forall x v st,
  Inv st -> ok x -> Inv (write x v st) /\ Rel st (write x v st).
Hypothesis Hlog : forall x tag v st,
  Inv st -> ok x -> SubLog tag ∈ subscribers st x ->
  Inv (log tag v st) /\ Rel st (log tag v st).
Hypothesis Hinner : forall e r st,
  Inv st -> ok r ->
  Inv (subscribe e (SubInner r) st) /\ Rel st (subscribe e (SubInner r) st).
Hypothesis Htarget : forall st x fn t,
  Inv st -> ok x -> fn ∈ subscribers st x -> sub_target fn = Some t ->
  ok t \/ inert st fn.

Lemma put_flag_true_mono i st j :
  get_flag st j = true -> get_flag (put_flag i true st) j = true.
Proof.
  unfold get_flag, put_flag. cbn. intros H.
  destruct (decide (j = i)) as [->|Hne].
  - destruct (flags st !! i) eqn:E; [|done].
    rewrite list_lookup_insert_eq; [done|]. by eapply lookup_lt_Some.
  - by rewrite list_lookup_insert_ne.
Qed.

Lemma sub_body_invariant set x fn v st st' :
  (forall t w s1 s2, Inv s1 -> ok t -> set t w s1 = Some s2 ->
                     Inv s2 /\ Rel s1 s2) ->
  Inv st -> ok x -> fn ∈ subscribers st x ->
  sub_body host set fn v st = Some st' ->
  Inv st' /\ Rel st st'.
Proof.
  intros Hset Hi Hx Hfn H.
  assert (forall t, sub_target fn = Some t -> ok t \/ inert st fn) as Ht.
  { intros t. by apply (Htarget st x). }
  destruct fn as [f' t|k r|r|tag|flag timer t|key t|fetcher t];
    cbn -[eval_exp] in H.
  - destruct (Ht t eq_refl) as [Hok|(? & ? & ? & ? & _)]; [|done].
    pose proof (built_apply_fn f' v st) as Hq.
    destruct (apply_fn f' v st) as [w s1]; cbn in Hq.
    destruct (Hbuilt _ _ Hi Hq) as [Hi1 Hr1].
    eapply Hset in H as [Hi2 Hr2]; [|done|done]. split; [done|by eapply Rel_trans].
  - destruct (Ht r eq_refl) as [Hok|(? & ? & ? & ? & _)]; [|done].
    pose proof (built_eval_exp (k v) st) as Hq.
    destruct (eval_exp (k v) st) as [e s1]; cbn in Hq.
    destruct (Hbuilt _ _ Hi Hq) as [Hi1 Hr1].
    destruct (set r (value s1 e) s1) as [s2|] eqn:E; [|done].
    cbn in H. injection H as <-.
    eapply Hset in E as [Hi2 Hr2]; [|done|done].
    destruct (Hinner e r s2 Hi2 Hok) as [Hi3 Hr3].
    split; [done|]. eapply Rel_trans; [exact Hr1|]. by eapply Rel_trans.
  - destruct (Ht r eq_refl) as [Hok|(? & ? & ? & ? & _)]; [|done].
    by eapply Hset in H.
  - injection H as <-. by eapply Hlog.
  - destruct (get_flag st flag) eqn:Hflag; [injection H as <-; by split|].
    destruct (Ht t eq_refl) as [Hok|(f1 & t1 & t2 & Heq & Hf)].
    2:{ injection Heq as <- _ _. congruence. }
    destruct (Hhost st (clearTimeout timer (put_flag flag true st)) Hi)
      as [Hi1 Hr1].
    { split; [done|]. split; [done|]. intros i. apply put_flag_true_mono. }
    eapply Hset in H as [Hi2 Hr2]; [|done|done].
    split; [done|by eapply Rel_trans].
  - destruct (Ht t eq_refl) as [Hok|(? & ? & ? & ? & _)]; [|done].
    destruct (Hhost st (cache_write host key v st) Hi) as [Hi1 Hr1].
    { unfold cache_write. by destruct (_ && _). }
    eapply Hset in H as [Hi2 Hr2]; [|done|done].
    split; [done|by eapply Rel_trans].
  - destruct (Ht t eq_refl) as [Hok|(? & ? & ? & ? & _)]; [|done].
    unfold executeFetch_with in H. cbn in H.
    match type of H with context [set ?t ?w ?s1] =>
      destruct (set t w s1) as [s2|] eqn:E; [|done];
      destruct (Hhost st s1 Hi) as [Hi1 Hr1]; [done|]
    end.
    cbn in H. injection H as <-.
    eapply Hset in E as [Hi2 Hr2]; [|done|done].
    destruct (Hhost s2 (await_fetcher fetcher (MExec t) s2) Hi2) as [Hi3 Hr3];
      [done|].
    split; [done|]. eapply Rel_trans; [exact Hr1|]. by eapply Rel_trans.
Qed.

Lemma exec_invariant fuel : forall call st st',
  Inv st -> (match call with CSet x _ | CNotify x _ => ok x end) ->
  exec host fuel call st = Some st' ->
  Inv st' /\ Rel st st'.
Proof.
  induction fuel as [|n IH]; intros call st st' Hi Hok H; [done|].
  destruct call as [x v|x i]; cbn -[sub_body] in H.
  - destruct (strict_neq v (value st x)); [|injection H as <-; by split].
    destruct (Hwrite x v st Hi Hok) as [Hi1 Hr1].
    destruct (IH (CNotify x 0) _ st' Hi1 Hok H) as [Hi2 Hr2].
    split; [done|by eapply Rel_trans].
  - destruct (subscribers st x !! i) as [fn|] eqn:Ei;
      [|injection H as <-; by split].
    destruct (sub_body host _ fn (value st x) st) as [s1|] eqn:E; [|done].
    cbn in H.
    eapply sub_body_invariant in E as [Hi1 Hr1];
      [|by intros t w s2 s3 ? ? E2; apply (IH (CSet t w) s2 s3)
       |done|done|by eapply list_elem_of_lookup_2].
    destruct (IH (CNotify x (S i)) s1 st' Hi1 Hok H) as [Hi2 Hr2].
    split; [done|by eapply Rel_trans].
Qed.


End ExecInvariant.

(* ===================================================================== *)
(** ** signal.ts: notification order, and [unsubscribe]                   *)
(* ===================================================================== *)

Lemma set_trace_same s : set_trace s (trace s) = s.
Proof. by destruct s. Qed.

Lemma observer_entries_cons v tag l :
  observer_entries v (SubLog tag :: l) = observer_entries v l ++ [(tag, v)].
Proof. done. Qed.

Lemma notify_observers_run host c n : forall i s,
  (forall fn, fn ∈ subscribers s c -> exists tag, fn = SubLog tag) ->
  length (subscribers s c) - i < n ->
  exec host n (CNotify c i) s =
  Some (set_trace s (observer_entries (value s c) (drop i (subscribers s c))
                     ++ trace s)).
Proof.
  induction n as [|n IH]; intros i s Hobs Hn; [lia|].
  rewrite exec_notify.
  destruct (subscribers s c !! i) as [fn|] eqn:Ei.
  - destruct (Hobs fn) as [tag ->]; [by eapply list_elem_of_lookup_2|].
    cbn [sub_body mbind option_bind].
    apply lookup_lt_Some in Ei as Hlt.
    rewrite IH; [|done|cbn; change (subscribers (log _ _ s) c)
                        with (subscribers s c); lia].
    change (subscribers (log tag (value s c) s) c) with (subscribers s c).
    change (value (log tag (value s c) s) c) with (value s c).
    rewrite (drop_S _ _ _ Ei), observer_entries_cons, <- app_assoc. done.
  - apply lookup_ge_None in Ei. rewrite drop_ge by done.
    by rewrite set_trace_same.
Qed.









(* ===================================================================== *)
(** ** signal.ts: [map(f)] follows its source, and functor composition    *)
(* ===================================================================== *)

Section Mapped.

Context (host : Host) (c d : sid) (f : Fn) (g : Val -> Val).
Hypothesis Htrack : tracks_fn f c g.

Lemma settled_with_refl st : settled_with g c d st st.
Proof. by left. Qed.

Lemma settled_with_trans st1 st2 st3 :
  settled_with g c d st1 st2 -> settled_with g c d st2 st3 ->
  settled_with g c d st1 st3.
Proof.
  intros H1 [[Hc Hd]|H2]; [|by right].
  destruct H1 as [[Hc1 Hd1]|H1].
  - left. split; congruence.
  - right. unfold agree_with in *. by rewrite Hc, Hd.
Qed.

Lemma settled_with_agree st st' :
  agree_with g c d st -> settled_with g c d st st' -> agree_with g c d st'.
Proof.
  intros Ha [[Hc Hd]|H]; [|done]. unfold agree_with in *. by rewrite Hc, Hd.
Qed.

Lemma settled_with_quiet st st' :
  derived_inv c d f st -> quiet st st' -> settled_with g c d st st'.
Proof.
  intros (Hc & Hd & _) (_ & Hv & _). left. split; by apply Hv.
Qed.

Lemma settled_with_same_cells st st' :
  cells st' = cells st -> settled_with g c d st st'.
Proof. intros H. left. split; by apply value_same_cells. Qed.

Lemma set_spec_with_other set t w s1 s2 :
  set_spec_with g c d f set -> t <> d -> derived_inv c d f s1 ->
  set t w s1 = Some s2 -> derived_inv c d f s2 /\ settled_with g c d s1 s2.
Proof.
  intros Hset Hne Hinv H.
  destruct (Hset t w s1 s2 Hinv (fun E => False_ind _ (Hne E)) H)
    as (? & ? & _).
  done.
Qed.

Lemma sub_body_mapped set x fn st st' :
  set_spec_with g c d f set ->
  derived_inv c d f st -> fn ∈ subscribers st x ->
  sub_body host set fn (value st x) st = Some st' ->
  derived_inv c d f st' /\ settled_with g c d st st' /\
  (x = c -> fn = SubMap f d -> agree_with g c d st').
Proof.
  intros Hset Hinv Hfn H.
  assert (forall t, sub_target fn = Some t -> (forall h, fn <> SubMap h t) ->
                    t <> d) as Hnot.
  { intros t Ht Hno. by eapply (not_target_d c d f x fn t st). }
  destruct fn as [f' t|k r|r|tag|flag timer t|key t|fetcher t];
    cbn -[eval_exp] in H.
  - destruct (decide (t = d)) as [->|Hne].
    + pose proof Hinv as (Hc & Hd & Hcd & Hin & Honly).
      destruct (Honly x _ Hfn eq_refl) as [-> Heq]. injection Heq as ->.
      rewrite Htrack in H.
      destruct (Hset d (g (value st c)) st st') as (Hi & Hs & Ha);
        [done|done|done|].
      split; [done|]. split; [done|]. intros _ _. by apply Ha.
    + pose proof (quiet_apply_fn f' (value st x) st) as Hq.
      destruct (apply_fn f' (value st x) st) as [w s1]; cbn in Hq.
      assert (derived_inv c d f s1) as Hi1 by (by eapply derived_inv_quiet).
      pose proof (set_spec_with_other set _ _ _ _ Hset Hne Hi1 H) as (Hi & Hs).
      split; [done|]. split.
      * eapply settled_with_trans; [by eapply settled_with_quiet|done].
      * intros _ Heq. injection Heq as _ ->. done.
  - assert (r <> d) as Hne by (by apply Hnot).
    pose proof (quiet_eval_exp (k (value st x)) st) as Hq.
    destruct (eval_exp (k (value st x)) st) as [e s1]; cbn in Hq.
    destruct (set r (value s1 e) s1) as [s2|] eqn:E; [|done].
    cbn in H. injection H as <-.
    assert (derived_inv c d f s1) as Hi1 by (by eapply derived_inv_quiet).
    pose proof (set_spec_with_other set _ _ _ _ Hset Hne Hi1 E) as (Hi & Hs).
    split; [apply derived_inv_subscribe; [cbn; congruence|done]|].
    split; [|done].
    eapply settled_with_trans; [by eapply settled_with_quiet|].
    eapply settled_with_trans; [exact Hs|].
    left. by rewrite !value_subscribe.
  - assert (r <> d) as Hne by (by apply Hnot).
    pose proof (set_spec_with_other set _ _ _ _ Hset Hne Hinv H) as (Hi & Hs).
    done.
  - injection H as <-.
    split; [by eapply derived_inv_same_cells|].
    split; [by apply settled_with_same_cells|done].
  - assert (t <> d) as Hne by (by apply Hnot).
    destruct (get_flag st flag).
    { injection H as <-. split; [done|].
      split; [apply settled_with_refl|done]. }
    match type of H with set _ _ ?s1 = _ =>
      assert (derived_inv c d f s1) as Hi1
        by (eapply derived_inv_same_cells; [|exact Hinv]; done) end.
    pose proof (set_spec_with_other set _ _ _ _ Hset Hne Hi1 H) as (Hi & Hs).
    split; [done|]. split; [|done].
    eapply settled_with_trans; [|exact Hs]. by apply settled_with_same_cells.
  - assert (t <> d) as Hne by (by apply Hnot).
    assert (cells (cache_write host key (value st x) st) = cells st) as Hcw.
    { unfold cache_write. by destruct (_ && _). }
    assert (derived_inv c d f (cache_write host key (value st x) st)) as Hi1
      by (eapply derived_inv_same_cells; [|exact Hinv]; exact Hcw).
    pose proof (set_spec_with_other set _ _ _ _ Hset Hne Hi1 H) as (Hi & Hs).
    split; [done|]. split; [|done].
    eapply settled_with_trans; [|exact Hs]. by apply settled_with_same_cells.
  - assert (t <> d) as Hne by (by apply Hnot).
    unfold executeFetch_with in H. cbn in H.
    match type of H with context [set ?t ?w ?s1] =>
      destruct (set t w s1) as [s2|] eqn:E; [|done];
      assert (derived_inv c d f s1) as Hi1
        by (eapply derived_inv_same_cells; [|exact Hinv]; done)
    end.
    pose proof (set_spec_with_other set _ _ _ _ Hset Hne Hi1 E) as (Hi & Hs).
    cbn in H. injection H as <-.
    split; [eapply derived_inv_same_cells; [|exact Hi]; done|].
    split; [|done].
    eapply settled_with_trans; [by apply settled_with_same_cells|].
    eapply settled_with_trans; [exact Hs|]. by apply settled_with_same_cells.
Qed.

Lemma exec_mapped fuel : forall call st st',
  derived_inv c d f st -> call_legal_with g c d call st ->
  exec host fuel call st = Some st' ->
  derived_inv c d f st' /\ settled_with g c d st st' /\
  call_post_with g c d f call st st'.
Proof.
  induction fuel as [|n IH]; intros call st st' Hinv Hlegal H; [done|].
  assert (set_spec_with g c d f (fun t w => exec host n (CSet t w))) as Hset.
  { intros t w s1 s2 Hi Hl E.
    destruct (IH (CSet t w) s1 s2 Hi Hl E) as (? & ? & ? & _). done. }
  destruct call as [x v|x i]; cbn -[sub_body] in H.
  - destruct (strict_neq v (value st x)) eqn:Hneq.
    + destruct (IH (CNotify x 0) _ st' (derived_inv_write c d f x v st Hinv) I H)
        as (Hi & Hs & Hp).
      pose proof Hinv as (Hc & Hd & Hcd & Hin & _).
      assert (x = c -> agree_with g c d st') as Hxc.
      { intros ->. apply list_elem_of_lookup_1 in Hin as [j Hj].
        apply (Hp eq_refl j); [lia|]. by rewrite subscribers_write. }
      assert (x = d -> agree_with g c d st') as Hxd.
      { intros ->. eapply settled_with_agree; [|exact Hs].
        unfold agree_with. rewrite !value_write.
        rewrite decide_True, decide_True by done.
        rewrite decide_False by done.
        rewrite (Hlegal eq_refl). apply same_value_refl. }
      split; [done|]. split; [|by split; [|intros ? _]; auto].
      destruct (decide (x = c)) as [->|Hnc]; [right; by apply Hxc|].
      destruct (decide (x = d)) as [->|Hnd]; [right; by apply Hxd|].
      eapply settled_with_trans; [|exact Hs].
      left. by rewrite !value_write, !decide_False.
    + injection H as <-. split; [done|]. split; [apply settled_with_refl|].
      split; [|intros ->; congruence].
      intros ->. unfold agree_with. rewrite (Hlegal eq_refl) in Hneq.
      apply same_value_sym, strict_eq_same_value.
      unfold strict_neq in Hneq. by destruct (strict_eq _ _).
  - destruct (subscribers st x !! i) as [fn|] eqn:Ei.
    2:{ injection H as <-. split; [done|]. split; [apply settled_with_refl|].
        intros -> j Hij Hj. apply lookup_ge_None in Ei.
        apply lookup_lt_Some in Hj. lia. }
    destruct (sub_body host _ fn (value st x) st) as [s1|] eqn:E; [|done].
    cbn in H.
    destruct (sub_body_mapped _ x fn st s1 Hset Hinv) as (Hi1 & Hs1 & Hp1);
      [by eapply list_elem_of_lookup_2|done|].
    destruct (IH (CNotify x (S i)) s1 st' Hi1 I H) as (Hi & Hs & Hp).
    split; [done|]. split; [by eapply settled_with_trans|].
    intros -> j Hij Hj. destruct (decide (j = i)) as [->|Hne].
    + rewrite Hj in Ei. injection Ei as <-.
      eapply settled_with_agree; [|exact Hs]. by apply Hp1.
    + apply (Hp eq_refl j); [lia|].
      assert (extends st s1) as (_ & Hpre & _).
      { eapply extends_sub_body; [|exact E].
        intros t w s2 s3. apply exec_extends. }
      eapply prefix_lookup_Some; [exact Hj|apply Hpre].
Qed.

(** Updates of any signals but [d] itself keep [d] in step with [c]. *)
Lemma set_each_mapped fuel us : forall st st',
  derived_inv c d f st -> agree_with g c d st ->
  (forall x v, (x, v) ∈ us -> x <> d) ->
  set_each host fuel us st = Some st' ->
  derived_inv c d f st' /\ agree_with g c d st'.
Proof.
  induction us as [|[x v] us IH]; intros st st' Hinv Ha Hus H; cbn in H.
  - by injection H as <-.
  - destruct (set_ host fuel x v st) as [s1|] eqn:E; [|done]. cbn in H.
    destruct (exec_mapped fuel (CSet x v) st s1) as (Hi & Hs & _);
      [done| |done|].
    { intros ->. by destruct (Hus d v (list_elem_of_here _ _)). }
    eapply IH; [exact Hi| | |exact H].
    + by eapply settled_with_agree.
    + intros y w Hy. eapply Hus. by apply list_elem_of_further.
Qed.

Lemma map_mapped s :
  targets_bounded s -> c < length (cells s) -> d = (map_ c f s).1 ->
  derived_inv c d f (map_ c f s).2 /\ agree_with g c d (map_ c f s).2.
Proof.
  intros Hb Hc ->. rewrite map_unfold, Htrack.
  cbn -[signal subscribe value subscribers].
  unfold derived_inv, agree_with.
  rewrite length_subscribe, length_signal, !value_subscribe, !value_signal.
  rewrite decide_True by done. rewrite decide_False by lia.
  split; [|apply same_value_refl].
  split; [lia|]. split; [lia|]. split; [lia|]. split.
  - rewrite subscribers_subscribe, subscribers_signal.
    rewrite decide_True by (rewrite length_signal; lia).
    apply elem_of_app. right. apply list_elem_of_here.
  - intros x fn Hfn Ht. rewrite subscribers_subscribe, subscribers_signal in Hfn.
    destruct (decide _) as [[-> _]|_].
    + apply elem_of_app in Hfn as [Hfn|Hfn].
      * specialize (Hb _ _ _ Hfn Ht). lia.
      * apply list_elem_of_singleton in Hfn. done.
    + specialize (Hb _ _ _ Hfn Ht). lia.
Qed.

End Mapped.

Lemma tracks_pure g c : tracks_fn (FPure g) c g.
Proof. done. Qed.

Lemma agree_with_quiet g c d f st st' :
  derived_inv c d f st -> quiet st st' ->
  agree_with g c d st -> agree_with g c d st'.
Proof.
  intros (Hc & Hd & _) (_ & Hv & _) Ha. unfold agree_with in *.
  by rewrite !Hv.
Qed.

(** X3: [d = c.map(g)] holds [g(c.value())] when it is created, and after
    every sequence of updates of any signals other than [d] itself that
    returns (values compared as [Object.is]). *)
Theorem map_follows_source (host : Host) (g : Val -> Val) (s : Store)
    (c : sid) :
  targets_bounded s -> c < length (cells s) ->
  let d := (map_ c (FPure g) s).1 in
  let s1 := (map_ c (FPure g) s).2 in
  value s1 d = g (value s c) /\
  (forall fuel us s',
     (forall x v, (x, v) ∈ us -> x <> d) ->
     set_each host fuel us s1 = Some s' ->
     same_value (value s' d) (g (value s' c)) = true).
Proof.
  intros Hb Hc d s1.
  destruct (map_mapped c d (FPure g) g (tracks_pure g c) s Hb Hc eq_refl)
    as [Hinv Ha].
  split.
  - unfold s1, d. rewrite map_unfold.
    cbn -[signal subscribe value subscribers].
    by rewrite value_subscribe, value_signal, decide_True.
  - intros fuel us s' Hus H.
    by destruct (set_each_mapped host c d (FPure g) g (tracks_pure g c)
                   fuel us s1 s' Hinv Ha Hus H).
Qed.

(** [signal(5).map(x => x * 2)], then the base is set to 10. *)
Lemma map_follows_source_witness :
  let s := (signal (VNum 5) empty_store).2 in
  let d := (map_ 0 (FPure double) s).1 in
  let s1 := (map_ 0 (FPure double) s).2 in
  value s1 d = VNum 10 /\
  exists s', set_each demo_host 4 [(0, VNum 10)] s1 = Some s' /\
             same_value (value s' d) (VNum 20) = true.
Proof.
  intros s d s1.
  destruct (map_follows_source demo_host double s 0
              (targets_bounded_signal _ _ targets_bounded_empty)
              ltac:(vm_compute; lia)) as [H1 H2].
  split; [exact H1|].
  eexists. split; [vm_compute; reflexivity|].
  eapply (H2 4 [(0, VNum 10)]).
  - intros x v Hxv. apply list_elem_of_singleton in Hxv.
    injection Hxv as -> ->. vm_compute. lia.
  - vm_compute. reflexivity.
Defined.

(** X4: functor composition.  [c.map(compose(f, g))] and [c.map(g).map(f)]
    have the same value when they are created and after every sequence of
    updates of other signals that returns, for every [g] and every [f] that
    answers alike on identical values. *)
Theorem functor_composition (host : Host) (f g : Val -> Val) (s : Store)
    (c : sid) :
  targets_bounded s -> c < length (cells s) -> respects_identity f ->
  let d1 := (map_ c (FPure (compose_ f g)) s).1 in
  let s1 := (map_ c (FPure (compose_ f g)) s).2 in
  let d2 := (map_ c (FPure g) s1).1 in
  let s2 := (map_ c (FPure g) s1).2 in
  let d3 := (map_ d2 (FPure f) s2).1 in
  let s3 := (map_ d2 (FPure f) s2).2 in
  same_value (value s3 d1) (value s3 d3) = true /\
  (forall fuel us s',
     (forall x v, (x, v) ∈ us -> x <> d1 /\ x <> d2 /\ x <> d3) ->
     set_each host fuel us s3 = Some s' ->
     same_value (value s' d1) (value s' d3) = true).
Proof.
  intros Hb Hc Hf d1 s1 d2 s2 d3 s3.
  assert (quiet s s1) as Hq1 by apply quiet_map.
  assert (quiet s1 s2) as Hq2 by apply quiet_map.
  assert (quiet s2 s3) as Hq3 by apply quiet_map.
  pose proof (targets_bounded_quiet _ _ Hb Hq1) as Hb1.
  pose proof (targets_bounded_quiet _ _ Hb1 Hq2) as Hb2.
  assert (c < length (cells s1)) as Hc1 by (destruct Hq1 as ((? & _) & _); lia).
  destruct (map_mapped c d1 _ _ (tracks_pure (compose_ f g) c) s Hb Hc eq_refl)
    as [Hi1 Ha1]. fold s1 in Hi1, Ha1.
  destruct (map_mapped c d2 _ _ (tracks_pure g c) s1 Hb1 Hc1 eq_refl)
    as [Hi2 Ha2]. fold s2 in Hi2, Ha2.
  assert (d2 < length (cells s2)) as Hd2 by (by destruct Hi2 as (_ & ? & _)).
  destruct (map_mapped d2 d3 _ _ (tracks_pure f d2) s2 Hb2 Hd2 eq_refl)
    as [Hi3 Ha3]. fold s3 in Hi3, Ha3.
  assert (derived_inv c d1 (FPure (compose_ f g)) s3) as Hi1'.
  { eapply derived_inv_quiet; [|exact Hq3].
    eapply derived_inv_quiet; [exact Hi1|exact Hq2]. }
  assert (agree_with (compose_ f g) c d1 s3) as Ha1'.
  { eapply agree_with_quiet; [|exact Hq3|].
    - eapply derived_inv_quiet; [exact Hi1|exact Hq2].
    - eapply agree_with_quiet; [exact Hi1|exact Hq2|exact Ha1]. }
  assert (derived_inv c d2 (FPure g) s3) as Hi2'
    by (eapply derived_inv_quiet; [exact Hi2|exact Hq3]).
  assert (agree_with g c d2 s3) as Ha2'
    by (eapply agree_with_quiet; [exact Hi2|exact Hq3|exact Ha2]).
  assert (forall st, agree_with (compose_ f g) c d1 st ->
                     agree_with g c d2 st -> agree_with f d2 d3 st ->
                     same_value (value st d1) (value st d3) = true) as Hconc.
  { intros st A1 A2 A3. unfold agree_with, compose_ in *.
    eapply same_value_trans; [exact A1|].
    apply same_value_sym. eapply same_value_trans; [exact A3|].
    by apply Hf. }
  split; [by apply Hconc|].
  intros fuel us s' Hus H.
  destruct (set_each_mapped host c d1 _ _ (tracks_pure (compose_ f g) c)
              fuel us s3 s' Hi1' Ha1') as [_ A1]; [|exact H|].
  { intros x v Hxv. by destruct (Hus x v Hxv). }
  destruct (set_each_mapped host c d2 _ _ (tracks_pure g c)
              fuel us s3 s' Hi2' Ha2') as [_ A2]; [|exact H|].
  { intros x v Hxv. by destruct (Hus x v Hxv) as (_ & ? & _). }
  destruct (set_each_mapped host d2 d3 _ _ (tracks_pure f d2)
              fuel us s3 s' Hi3 Ha3) as [_ A3]; [|exact H|].
  { intros x v Hxv. by destruct (Hus x v Hxv) as (_ & _ & ?). }
  by apply Hconc.
Qed.

Lemma double_respects_identity : respects_identity double.
Proof.
  intros a b. destruct a, b; cbn; try done.
  rewrite !Z.eqb_eq. congruence.
Qed.

(** [s = signal(5)]; [s.map(compose(double, addOne))] against
    [s.map(addOne).map(double)]; then [s._set(10)]. *)
Lemma functor_composition_witness :
  let s := (signal (VNum 5) empty_store).2 in
  let d1 := (map_ 0 (FPure (compose_ double addOne)) s).1 in
  let s1 := (map_ 0 (FPure (compose_ double addOne)) s).2 in
  let d2 := (map_ 0 (FPure addOne) s1).1 in
  let s2 := (map_ 0 (FPure addOne) s1).2 in
  let d3 := (map_ d2 (FPure double) s2).1 in
  let s3 := (map_ d2 (FPure double) s2).2 in
  value s3 d1 = VNum 12 /\
  exists s', set_each demo_host 8 [(0, VNum 10)] s3 = Some s' /\
             value s' d1 = VNum 22 /\
             same_value (value s' d1) (value s' d3) = true.
Proof.
  intros s d1 s1 d2 s2 d3 s3.
  destruct (functor_composition demo_host double addOne s 0
              (targets_bounded_signal _ _ targets_bounded_empty)
              ltac:(vm_compute; lia) double_respects_identity) as [_ H2].
  split; [reflexivity|].
  eexists. split; [vm_compute; reflexivity|]. split; [reflexivity|].
  eapply (H2 8 [(0, VNum 10)]).
  - intros x v Hxv. apply list_elem_of_singleton in Hxv.
    injection Hxv as -> ->. repeat split; vm_compute; lia.
  - vm_compute. reflexivity.
Defined.

(* ===================================================================== *)
(** ** effect.ts: [bind] with a function that wraps a fresh effect        *)
(* ===================================================================== *)

(** A signal that nothing sets stays so while other signals are updated. *)
Lemma exec_untargeted host y fuel call st st' :
  y < length (cells st) -> untargeted st y ->
  (match call with CSet x _ | CNotify x _ => x <> y end) ->
  exec host fuel call st = Some st' ->
  untargeted st' y.
Proof.
  intros Hy Hu Hcall H.
  eapply (exec_invariant host
            (fun st => y < length (cells st) /\ untargeted st y)
            (fun _ _ => True) (fun x => x <> y));
    [..|split; [exact Hy|exact Hu]|exact Hcall|exact H]; try done.
  - intros a b [Hl Hn] [((Hlen & _) & _ & Hnew) _]. split; [|done].
    split; [lia|]. intros x fn Hfn Ht.
    destruct (Hnew x fn Hfn) as [Hold|(t & Ht' & Hb)]; [by eapply Hn|].
    rewrite Ht in Ht'. injection Ht' as <-. lia.
  - intros a b [Hl Hn] (Hc & _). split; [|done].
    unfold untargeted, subscribers. by rewrite Hc.
  - intros x v a [Hl Hn] _. split; [|done].
    rewrite length_write. split; [done|].
    intros z fn. rewrite subscribers_write. apply Hn.
  - intros e r a [Hl Hn] Hr. split; [|done].
    rewrite length_subscribe. split; [done|].
    intros z fn Hfn Ht. rewrite subscribers_subscribe in Hfn.
    destruct (decide _); [|by eapply Hn].
    apply elem_of_app in Hfn as [Hfn|Hfn]; [by eapply Hn|].
    apply list_elem_of_singleton in Hfn as ->. cbn in Ht. congruence.
  - intros a x fn t [Hl Hn] _ Hfn Ht. left. intros ->. by eapply Hn.
Qed.

Section Bound.

Context (host : Host) (n0 : nat) (m r : sid) (g : Val -> Val).

Local Abbreviation k := (fresh_effect g).

Lemma carrier_allocated st x fn : fn ∈ subscribers st x -> x < length (cells st).
Proof.
  unfold subscribers. destruct (cells st !! x) eqn:E.
  - intros _. by eapply lookup_lt_Some.
  - intros H. by apply elem_of_nil in H.
Qed.

Lemma bound_inv_quiet st st' :
  bound_inv n0 m r k st -> quiet st st' -> bound_inv n0 m r k st'.
Proof.
  intros (Hm & Hr0 & Hr & Hb & Hin & Honly & Hcar) Hq.
  pose proof Hq as ((Hlen & Hpre & _) & _ & Hnew).
  split; [done|]. split; [done|]. split; [lia|].
  split; [by eapply targets_bounded_quiet|]. split.
  { eapply elem_of_prefix; [exact Hin|apply Hpre]. }
  split.
  - intros x fn Hfn Ht.
    destruct (Hnew x fn Hfn) as [Hold|(t & Ht' & Hlt)]; [by eapply Honly|].
    rewrite Ht in Ht'. injection Ht' as <-. lia.
  - intros x Hx.
    destruct (Hnew x _ Hx) as [Hold|(t & Ht' & Hlt)].
    2:{ injection Ht' as <-. lia. }
    destruct (Hcar x Hold) as [Hn Hu]. split; [done|].
    intros z fn Hfn Ht.
    destruct (Hnew z fn Hfn) as [Hold'|(t & Ht' & Hlt)]; [by eapply Hu|].
    rewrite Ht in Ht'. injection Ht' as <-.
    pose proof (carrier_allocated st x _ Hold). lia.
Qed.

Lemma bound_inv_same_cells st st' :
  cells st' = cells st -> bound_inv n0 m r k st -> bound_inv n0 m r k st'.
Proof.
  intros Hc. unfold bound_inv, untargeted, targets_bounded, subscribers.
  by rewrite Hc.
Qed.

Lemma bound_inv_write x v st :
  bound_inv n0 m r k st -> bound_inv n0 m r k (write x v st).
Proof.
  unfold bound_inv, untargeted, targets_bounded. rewrite length_write.
  setoid_rewrite subscribers_write. done.
Qed.

(** Subscribing an inner subscriber of another [bind]. *)
Lemma bound_inv_subscribe_other e r' st :
  r' <> r -> r' < length (cells st) ->
  (exists x fn, fn ∈ subscribers st x /\ sub_target fn = Some r') ->
  bound_inv n0 m r k st ->
  bound_inv n0 m r k (subscribe e (SubInner r') st).
Proof.
  intros Hne Hlt (x0 & fn0 & Hfn0 & Ht0)
         (Hm & Hr0 & Hr & Hb & Hin & Honly & Hcar).
  split; [done|]. split; [done|]. split; [by rewrite length_subscribe|].
  split.
  { apply targets_bounded_subscribe; [|done]. intros t Ht. by injection Ht as <-. }
  split.
  { rewrite subscribers_subscribe. destruct (decide _); [|done].
    apply elem_of_app. by left. }
  split.
  - intros x fn Hfn Ht. rewrite subscribers_subscribe in Hfn.
    destruct (decide _) as [[-> _]|_]; [|by eapply Honly].
    apply elem_of_app in Hfn as [Hfn|Hfn]; [by eapply Honly|].
    apply list_elem_of_singleton in Hfn as ->. cbn in Ht. congruence.
  - intros x Hx. rewrite subscribers_subscribe in Hx.
    assert (SubInner r ∈ subscribers st x) as Hx'.
    { destruct (decide _); [|done].
      apply elem_of_app in Hx as [Hx|Hx]; [done|].
      apply list_elem_of_singleton in Hx. congruence. }
    destruct (Hcar x Hx') as [Hn Hu]. split; [done|]. clear Hx.
    intros z fn Hfn Ht. rewrite subscribers_subscribe in Hfn.
    destruct (decide _); [|by eapply Hu].
    apply elem_of_app in Hfn as [Hfn|Hfn]; [by eapply Hu|].
    apply list_elem_of_singleton in Hfn as ->. injection Ht as Heq.
    apply (Hu x0 fn0 Hfn0). congruence.
Qed.

(** Subscribing the inner subscriber of [r] to a fresh effect. *)
Lemma bound_inv_subscribe_inner e st :
  n0 <= e -> e < length (cells st) -> e <> r -> untargeted st e ->
  bound_inv n0 m r k st ->
  bound_inv n0 m r k (subscribe e (SubInner r) st).
Proof.
  intros He Hlt Her Hue (Hm & Hr0 & Hr & Hb & Hin & Honly & Hcar).
  split; [done|]. split; [done|]. split; [by rewrite length_subscribe|].
  split.
  { apply targets_bounded_subscribe; [|done]. intros t Ht. by injection Ht as <-. }
  split.
  { rewrite subscribers_subscribe. destruct (decide _); [|done].
    apply elem_of_app. by left. }
  split.
  - intros x fn Hfn Ht. rewrite subscribers_subscribe in Hfn.
    destruct (decide _) as [[-> _]|_]; [|by eapply Honly].
    apply elem_of_app in Hfn as [Hfn|Hfn]; [by eapply Honly|].
    apply list_elem_of_singleton in Hfn as ->. by right.
  - assert (forall x, untargeted st x -> x <> r ->
                      untargeted (subscribe e (SubInner r) st) x) as Hkeep.
    { intros x Hu Hxr z fn Hfn Ht. rewrite subscribers_subscribe in Hfn.
      destruct (decide _); [|by eapply Hu].
      apply elem_of_app in Hfn as [Hfn|Hfn]; [by eapply Hu|].
      apply list_elem_of_singleton in Hfn as ->. injection Ht as <-. done. }
    intros x Hx. rewrite subscribers_subscribe in Hx.
    destruct (decide _) as [[-> _]|_].
    + split; [done|]. by apply Hkeep.
    + destruct (Hcar x Hx) as [Hn Hu]. split; [done|]. apply Hkeep; [done|].
      intros ->. by eapply Hu.
Qed.

Lemma bound_not_carrier st t x fn :
  bound_inv n0 m r k st -> fn ∈ subscribers st x -> sub_target fn = Some t ->
  SubInner r ∉ subscribers st t.
Proof.
  intros (_ & _ & _ & _ & _ & _ & Hcar) Hfn Ht Hc.
  destruct (Hcar t Hc) as [_ Hu]. exact (Hu x fn Hfn Ht).
Qed.

End Bound.

Section BoundExec.

Context (host : Host) (n0 : nat) (m r : sid) (g : Val -> Val).

Local Abbreviation k := (fresh_effect g).

Lemma bound_rel_refl st : bound_rel g m r st st.
Proof. split; [by left|]. split; [done|]. by intros y _ H. Qed.

Lemma bound_rel_trans st1 st2 st3 :
  bound_rel g m r st1 st2 -> bound_rel g m r st2 st3 ->
  bound_rel g m r st1 st3.
Proof.
  intros (S1 & E1 & N1) (S2 & E2 & N2).
  split; [by eapply settled_with_trans|]. split; [by etrans|].
  intros y Hy Hn. apply N2; [|by apply N1].
  destruct E1 as (? & _). lia.
Qed.

Lemma bound_rel_quiet st st' :
  bound_inv n0 m r k st -> quiet st st' -> bound_rel g m r st st'.
Proof.
  intros (Hm & Hr0 & Hr & _) Hq. pose proof Hq as (Hext & Hv & Hnew).
  split; [left; split; apply Hv; lia|]. split; [done|].
  intros y Hy Hn Hin. destruct (Hnew y _ Hin) as [Hold|(t & Ht & Hlt)]; [done|].
  injection Ht as <-. lia.
Qed.

Lemma bound_rel_same_cells st st' :
  cells st' = cells st -> trace st `suffix_of` trace st' ->
  next_ref st <= next_ref st' -> bound_rel g m r st st'.
Proof.
  intros Hc Ht Hn. split; [by apply settled_with_same_cells|].
  split; [by apply extends_same_cells|].
  intros y _. by rewrite (subscribers_same_cells st st' y Hc).
Qed.

Lemma bound_rel_subscribe e fn st :
  fn <> SubInner r \/ length (cells st) <= e \/ ~ e < length (cells st) ->
  bound_rel g m r st (subscribe e fn st).
Proof.
  intros Hfn. split; [left; by rewrite !value_subscribe|].
  split; [apply extends_subscribe|].
  intros y Hy Hn Hin. rewrite subscribers_subscribe in Hin.
  destruct (decide _) as [[-> Hlt]|_]; [|done].
  apply elem_of_app in Hin as [Hin|Hin]; [done|].
  apply list_elem_of_singleton in Hin.
  destruct Hfn as [Hfn|[Hfn|Hfn]]; [congruence|lia|lia].
Qed.

Lemma set_spec_bound_other set t w s1 s2 :
  set_spec_bound n0 m r g set -> t <> r ->
  bound_inv n0 m r k s1 -> SubInner r ∉ subscribers s1 t ->
  set t w s1 = Some s2 ->
  bound_inv n0 m r k s2 /\ bound_rel g m r s1 s2.
Proof.
  intros Hset Hne Hinv Hnc H.
  destruct (Hset t w s1 s2 Hinv (fun E => False_ind _ (Hne E)) Hnc H)
    as (? & ? & _).
  done.
Qed.

Lemma bound_target_other st x fn t :
  bound_inv n0 m r k st -> fn ∈ subscribers st x -> sub_target fn = Some t ->
  (forall h, fn <> SubBind h t) -> fn <> SubInner r -> t <> r.
Proof.
  intros (_ & _ & _ & _ & _ & Honly & _) Hfn Ht Hnb Hni ->.
  destruct (Honly x fn Hfn Ht) as [[_ ->]| ->]; [by eapply Hnb|done].
Qed.

Lemma sub_body_bound set x fn st st' :
  set_spec_bound n0 m r g set ->
  bound_inv n0 m r k st -> SubInner r ∉ subscribers st x ->
  fn ∈ subscribers st x ->
  sub_body host set fn (value st x) st = Some st' ->
  bound_inv n0 m r k st' /\ bound_rel g m r st st' /\
  (x = m -> fn = SubBind k r -> agree_with g m r st').
Proof.
  intros Hset Hinv Hxc Hfn H.
  assert (fn <> SubInner r) as Hni by (intros ->; done).
  assert (forall st0 st1, bound_rel g m r st st0 -> fn ∈ subscribers st0 x ->
            bound_rel g m r st0 st1 ->
            bound_rel g m r st st1 /\ fn ∈ subscribers st1 x) as Hnext.
  { intros st0 st1 R0 Hfn0 R1. split; [by eapply bound_rel_trans|].
    destruct R1 as (_ & (_ & Hpre & _) & _).
    eapply elem_of_prefix; [exact Hfn0|apply Hpre]. }
  assert (forall st1, bound_inv n0 m r k st -> quiet st st1 ->
            bound_inv n0 m r k st1 /\ bound_rel g m r st st1 /\
            fn ∈ subscribers st1 x) as Hstep.
  { intros st1 Hi Hq. split; [by eapply bound_inv_quiet|].
    apply (Hnext st st1 (bound_rel_refl st) Hfn). by apply bound_rel_quiet. }
  assert (forall st1, cells st1 = cells st -> trace st `suffix_of` trace st1 ->
            next_ref st <= next_ref st1 ->
            bound_inv n0 m r k st1 /\ bound_rel g m r st st1 /\
            fn ∈ subscribers st1 x) as Hsame.
  { intros st1 Hc Ht Hn. split; [by eapply bound_inv_same_cells|].
    apply (Hnext st st1 (bound_rel_refl st) Hfn).
    by apply bound_rel_same_cells. }
  assert (forall t w st1 st2,
            sub_target fn = Some t -> (forall h, fn <> SubBind h t) ->
            bound_inv n0 m r k st1 -> bound_rel g m r st st1 ->
            fn ∈ subscribers st1 x -> set t w st1 = Some st2 ->
            bound_inv n0 m r k st2 /\ bound_rel g m r st st2) as Hcall.
  { intros t w st1 st2 Ht Hnb Hi1 Hs1 Hfn1 E.
    assert (t <> r) as Hne by (by eapply bound_target_other).
    assert (SubInner r ∉ subscribers st1 t) as Hnc
      by (by eapply (bound_not_carrier n0 m r g st1 t x fn)).
    pose proof (set_spec_bound_other set t w st1 st2 Hset Hne Hi1 Hnc E)
      as (Hi & Hs).
    split; [done|]. by eapply bound_rel_trans. }
  destruct fn as [f' t|k' r'|r'|tag|flag timer t|key t|fetcher t];
    cbn -[eval_exp] in H.
  - pose proof (quiet_apply_fn f' (value st x) st) as Hq.
    destruct (apply_fn f' (value st x) st) as [w s1]; cbn in Hq.
    destruct (Hstep s1 Hinv Hq) as (Hi1 & Hs1 & Hfn1).
    destruct (Hcall t w s1 st' eq_refl ltac:(done) Hi1 Hs1 Hfn1 H) as [Hi Hs].
    done.
  - destruct (decide (r' = r)) as [->|Hne].
    + pose proof Hinv as (Hm & Hr0 & Hr & Hb & Hin & Honly & Hcar).
      destruct (Honly x _ Hfn eq_refl) as [[-> Heq]|?]; [|done].
      injection Heq as ->.
      change (eval_exp (k (value st m)) st)
        with (signal (g (value st m)) st) in H.
      set (e := length (cells st)) in *.
      set (s1 := (signal (g (value st m)) st).2) in *.
      change (signal (g (value st m)) st) with (e, s1) in H.
      cbv beta iota in H.
      destruct (set r (value s1 e) s1) as [s2|] eqn:E; [|done].
      cbn in H. injection H as <-.
      destruct (Hstep s1 Hinv (quiet_signal _ _)) as (Hi1 & Hs1 & Hfn1).
      assert (value s1 e = g (value s1 m)) as Hval.
      { unfold s1, e. rewrite !value_signal, decide_True by done.
        by rewrite decide_False by lia. }
      assert (untargeted s1 e) as Hue.
      { intros z fn Hz Ht. unfold s1 in Hz. rewrite subscribers_signal in Hz.
        specialize (Hb _ _ _ Hz Ht). unfold e in Hb. lia. }
      assert (e < length (cells s1)) as Hel.
      { unfold s1, e. rewrite length_signal. lia. }
      assert (SubInner r ∉ subscribers s1 r) as Hnc
        by (by eapply (bound_not_carrier n0 m r g s1 r m (SubBind k r))).
      destruct (Hset r _ s1 s2 Hi1 (fun _ => Hval) Hnc E)
        as (Hi2 & Hs2 & Ha2 & Hu2).
      assert (e <> r) as Her by (unfold e; lia).
      assert (length (cells s1) <= length (cells s2)) as Hl12
        by (by destruct Hs2 as (_ & (? & _) & _)).
      split.
      { apply bound_inv_subscribe_inner; [unfold e; lia|lia|done| |done].
        apply Hu2; [done|done|by intros ->]. }
      assert (agree_with g m r (subscribe e (SubInner r) s2)) as Hag.
      { unfold agree_with. rewrite !value_subscribe. by apply Ha2. }
      split; [|done].
      split; [by right|]. split.
      { etrans; [by destruct Hs1 as (_ & ? & _)|].
        etrans; [by destruct Hs2 as (_ & ? & _)|]. apply extends_subscribe. }
      intros y Hy Hn Hiny. rewrite subscribers_subscribe in Hiny.
      assert (SubInner r ∉ subscribers s2 y) as Hn2.
      { destruct Hs2 as (_ & _ & N2). apply N2; [lia|].
        destruct Hs1 as (_ & _ & N1). by apply N1. }
      destruct (decide _) as [[-> _]|_]; [|done]. unfold e in Hy. lia.
    + pose proof (quiet_eval_exp (k' (value st x)) st) as Hq.
      destruct (eval_exp (k' (value st x)) st) as [e s1]; cbn in Hq.
      destruct (set r' (value s1 e) s1) as [s2|] eqn:E; [|done].
      cbn in H. injection H as <-.
      destruct (Hstep s1 Hinv Hq) as (Hi1 & Hs1 & Hfn1).
      assert (SubInner r ∉ subscribers s1 r') as Hnc
        by (by eapply (bound_not_carrier n0 m r g s1 r' x (SubBind k' r'))).
      pose proof (set_spec_bound_other set r' _ s1 s2 Hset Hne Hi1 Hnc E)
        as (Hi2 & Hs12).
      assert (bound_rel g m r st s2) as Hs2 by (by eapply bound_rel_trans).
      assert (SubBind k' r' ∈ subscribers s2 x) as Hfn2.
      { destruct Hs12 as (_ & (_ & Hpre & _) & _).
        eapply elem_of_prefix; [exact Hfn1|apply Hpre]. }
      split.
      { apply bound_inv_subscribe_other; [done| |by eexists _, _|done].
        destruct Hi2 as (_ & _ & _ & Hb2 & _). by eapply Hb2. }
      split.
      { eapply bound_rel_trans; [exact Hs2|].
        apply bound_rel_subscribe. left. congruence. }
      intros _ Heq. injection Heq as _ ->. done.
  - destruct (Hcall r' _ st st' eq_refl ltac:(done) Hinv
                (bound_rel_refl st) Hfn H) as [Hi Hs].
    done.
  - injection H as <-.
    destruct (Hsame (log tag (value st x) st) eq_refl) as (? & ? & _);
      [by apply suffix_cons_r|done|done].
  - destruct (get_flag st flag).
    { injection H as <-. split; [done|].
      split; [apply bound_rel_refl|done]. }
    match type of H with set _ _ ?s1 = _ =>
      destruct (Hsame s1 eq_refl) as (Hi1 & Hs1 & Hfn1); [done|done|] end.
    destruct (Hcall t _ _ st' eq_refl ltac:(done) Hi1 Hs1 Hfn1 H) as [Hi Hs].
    done.
  - assert (cells (cache_write host key (value st x) st) = cells st) as Hcw.
    { unfold cache_write. by destruct (_ && _). }
    destruct (Hsame _ Hcw) as (Hi1 & Hs1 & Hfn1).
    { unfold cache_write. by destruct (_ && _). }
    { unfold cache_write. by destruct (_ && _). }
    destruct (Hcall t _ _ st' eq_refl ltac:(done) Hi1 Hs1 Hfn1 H) as [Hi Hs].
    done.
  - unfold executeFetch_with in H. cbn in H.
    match type of H with context [set ?t ?w ?s1] =>
      destruct (set t w s1) as [s2|] eqn:E; [|done];
      destruct (Hsame s1 eq_refl) as (Hi1 & Hs1 & Hfn1); [done|cbn; lia|]
    end.
    destruct (Hcall t _ _ s2 eq_refl ltac:(done) Hi1 Hs1 Hfn1 E) as [Hi Hs].
    cbn in H. injection H as <-.
    split; [eapply bound_inv_same_cells; [|exact Hi]; done|].
    split; [|done].
    eapply bound_rel_trans; [exact Hs|]. by apply bound_rel_same_cells.
Qed.

Lemma exec_bound fuel : forall call st st',
  bound_inv n0 m r k st -> call_legal_bound m r g call st ->
  exec host fuel call st = Some st' ->
  bound_inv n0 m r k st' /\ bound_rel g m r st st' /\
  call_post_bound m r g call st st'.
Proof.
  induction fuel as [|n IH]; intros call st st' Hinv Hlegal H; [done|].
  assert (set_spec_bound n0 m r g (fun t w => exec host n (CSet t w))) as Hset.
  { intros t w s1 s2 Hi Hl Hnc E.
    destruct (IH (CSet t w) s1 s2 Hi (conj Hl Hnc) E) as (? & ? & ? & _).
    split; [done|]. split; [done|]. split; [done|].
    intros y Hy Hu Hty. by eapply (exec_untargeted host y n (CSet t w) s1 s2). }
  pose proof Hinv as (Hm & Hr0 & Hr & Hb & Hin & Honly & Hcar).
  destruct call as [x v|x i]; cbn -[sub_body] in H.
  - destruct Hlegal as [Hlegal Hnc].
    destruct (strict_neq v (value st x)) eqn:Hneq.
    + assert (SubInner r ∉ subscribers (write x v st) x) as Hnc'
        by (by rewrite subscribers_write).
      destruct (IH (CNotify x 0) _ st' (bound_inv_write n0 m r g x v st Hinv)
                  Hnc' H) as (Hi & Hs & Hp).
      assert (x = m -> agree_with g m r st') as Hxm.
      { intros ->. apply list_elem_of_lookup_1 in Hin as [j Hj].
        apply (Hp eq_refl j); [lia|]. by rewrite subscribers_write. }
      assert (x = r -> agree_with g m r st') as Hxr.
      { intros ->. destruct Hs as (Hs & _).
        eapply settled_with_agree; [|exact Hs].
        unfold agree_with. rewrite !value_write.
        rewrite decide_True, decide_True by done.
        rewrite decide_False by lia.
        rewrite (Hlegal eq_refl). apply same_value_refl. }
      split; [done|]. split; [|by split; [|intros ? _]; auto].
      destruct Hs as (Hs & He & Hn). split; [|split].
      * destruct (decide (x = m)) as [->|Hnm]; [right; by apply Hxm|].
        destruct (decide (x = r)) as [->|Hnr]; [right; by apply Hxr|].
        eapply settled_with_trans; [|exact Hs].
        left. by rewrite !value_write, !decide_False.
      * etrans; [apply (extends_write x v)|done].
      * intros y Hy Hny. apply Hn; [by rewrite length_write|].
        by rewrite subscribers_write.
    + injection H as <-. split; [done|]. split; [apply bound_rel_refl|].
      split; [|intros ->; congruence].
      intros ->. unfold agree_with. rewrite (Hlegal eq_refl) in Hneq.
      apply same_value_sym, strict_eq_same_value.
      unfold strict_neq in Hneq. by destruct (strict_eq _ _).
  - cbn in Hlegal.
    destruct (subscribers st x !! i) as [fn|] eqn:Ei.
    2:{ injection H as <-. split; [done|]. split; [apply bound_rel_refl|].
        intros -> j Hij Hj. apply lookup_ge_None in Ei.
        apply lookup_lt_Some in Hj. lia. }
    destruct (sub_body host _ fn (value st x) st) as [s1|] eqn:E; [|done].
    cbn in H.
    assert (fn ∈ subscribers st x) as Hfn by (by eapply list_elem_of_lookup_2).
    destruct (sub_body_bound _ x fn st s1 Hset Hinv Hlegal Hfn E)
      as (Hi1 & Hs1 & Hp1).
    assert (SubInner r ∉ subscribers s1 x) as Hnc1.
    { destruct Hs1 as (_ & _ & N1). apply N1; [|done].
      by eapply carrier_allocated. }
    destruct (IH (CNotify x (S i)) s1 st' Hi1 Hnc1 H) as (Hi & Hs & Hp).
    split; [done|]. split; [by eapply bound_rel_trans|].
    intros -> j Hij Hj. destruct (decide (j = i)) as [->|Hne].
    + rewrite Hj in Ei. injection Ei as <-.
      destruct Hs as (Hs & _).
      eapply settled_with_agree; [|exact Hs]. by apply Hp1.
    + apply (Hp eq_refl j); [lia|].
      destruct Hs1 as (_ & (_ & Hpre & _) & _).
      eapply prefix_lookup_Some; [exact Hj|apply Hpre].
Qed.

(** Updates of signals that existed when [bind] was called keep the
    result in step with [m]. *)
Lemma set_each_bound fuel us : forall st st',
  bound_inv n0 m r k st -> agree_with g m r st ->
  (forall x v, (x, v) ∈ us -> x < n0) ->
  set_each host fuel us st = Some st' ->
  bound_inv n0 m r k st' /\ agree_with g m r st'.
Proof.
  induction us as [|[x v] us IH]; intros st st' Hinv Ha Hus H; cbn in H.
  - by injection H as <-.
  - destruct (set_ host fuel x v st) as [s1|] eqn:E; [|done]. cbn in H.
    assert (x < n0) as Hx by (eapply Hus; apply list_elem_of_here).
    pose proof Hinv as (Hm & Hr0 & Hr & Hb & Hin & Honly & Hcar).
    destruct (exec_bound fuel (CSet x v) st s1) as (Hi & (Hs & _) & _);
      [done| |done|].
    { split; [intros ->; lia|]. intros Hc. destruct (Hcar x Hc). lia. }
    eapply IH; [exact Hi| | |exact H].
    + by eapply settled_with_agree.
    + intros y w Hy. eapply Hus. by apply list_elem_of_further.
Qed.

End BoundExec.

Lemma bind_fresh_facts (host : Host) (g : Val -> Val) (s : Store) (m : sid) :
  targets_bounded s -> m < length (cells s) ->
  let r := (bind m (fresh_effect g) s).1 in
  let s1 := (bind m (fresh_effect g) s).2 in
  value s1 r = g (value s m) /\
  (forall fuel us s',
     (forall x v, (x, v) ∈ us -> x < length (cells s)) ->
     set_each host fuel us s1 = Some s' ->
     same_value (value s' r) (g (value s' m)) = true).
Proof.
  intros Hb Hm r s1.
  assert (r = S (length (cells s))) as Hr.
  { unfold r. rewrite bind_unfold. cbn -[signal]. by rewrite length_signal. }
  assert (length (cells s1) = S (S (length (cells s)))) as Hlen.
  { unfold s1. rewrite bind_unfold. cbn -[signal subscribe].
    by rewrite length_subscribe, !length_signal. }
  assert (value s1 r = g (value s m)) as Hv.
  { unfold s1, r. rewrite bind_unfold.
    cbn -[signal subscribe value subscribers].
    rewrite value_subscribe, !value_signal, length_signal.
    rewrite decide_True by done. by rewrite decide_True. }
  assert (value s1 m = value s m) as Hvm.
  { destruct (quiet_bind m (fresh_effect g) s) as (_ & Hval & _).
    by apply Hval. }
  split; [exact Hv|]. intros fuel us s' Hus H.
  destruct (set_each_bound host (length (cells s)) m r g fuel us s1 s')
    as [_ Ha]; [| |exact Hus|exact H|exact Ha].
  - split; [done|]. split; [lia|]. split; [lia|].
    split; [by apply targets_bounded_bind|]. split.
    { unfold s1, r. rewrite bind_unfold.
      cbn -[signal subscribe value subscribers].
      rewrite subscribers_subscribe, !subscribers_signal, !length_signal.
      rewrite decide_True by (split; [done|lia]).
      apply elem_of_app. right. apply list_elem_of_here. }
    split.
    + intros x fn Hfn Ht. left.
      by apply (bind_subscribers m (fresh_effect g) s x fn Hb).
    + intros x Hx.
      by destruct (bind_subscribers m (fresh_effect g) s x (SubInner r) Hb Hx
                     eq_refl) as [_ ?].
  - unfold agree_with. rewrite Hv, Hvm. apply same_value_refl.
Qed.

(** X5: for [f = x => effect(g(x))], [r = m.bind(f)] holds [g(m.value())]
    when it is created and after every sequence of updates of signals that
    existed at the call, [m] among them, that returns (values compared as
    [Object.is]): the inner effects of earlier emissions, which stay
    subscribed, never write to [r] again. *)
Theorem bind_follows_source (host : Host) (g : Val -> Val) (s : Store)
    (m : sid) :
  targets_bounded s -> m < length (cells s) ->
  let r := (bind m (fresh_effect g) s).1 in
  let s1 := (bind m (fresh_effect g) s).2 in
  value s1 r = g (value s m) /\
  (forall fuel us s',
     (forall x v, (x, v) ∈ us -> x < length (cells s)) ->
     set_each host fuel us s1 = Some s' ->
     same_value (value s' r) (g (value s' m)) = true).
Proof. exact (bind_fresh_facts host g s m). Qed.

(** [e = effect(5); doubled = e.bind(x => effect(x * 2))]; then
    [e._set(10)] and [e._set(7)]. *)
Lemma bind_follows_source_witness :
  let s := (effect (VNum 5) empty_store).2 in
  let r := (bind 0 (fresh_effect double) s).1 in
  let s1 := (bind 0 (fresh_effect double) s).2 in
  value s1 r = VNum 10 /\
  exists s', set_each demo_host 6 [(0, VNum 10); (0, VNum 7)] s1 = Some s' /\
             same_value (value s' r) (VNum 14) = true.
Proof.
  intros s r s1.
  destruct (bind_follows_source demo_host double s 0
              (targets_bounded_signal _ _ targets_bounded_empty)
              ltac:(vm_compute; lia)) as [H1 H2].
  split; [exact H1|].
  eexists. split; [vm_compute; reflexivity|].
  eapply (H2 6 [(0, VNum 10); (0, VNum 7)]).
  - intros x v Hxv. vm_compute.
    apply elem_of_cons in Hxv as [Hxv|Hxv]; [injection Hxv as -> ->; lia|].
    apply list_elem_of_singleton in Hxv. injection Hxv as -> ->. lia.
  - vm_compute. reflexivity.
Defined.

(** X6: monad right identity.  [m.bind(pureEffect)] has the value of [m]
    when it is created and after every sequence of updates of signals that
    existed at the call that returns. *)
Theorem monad_right_identity (host : Host) (s : Store) (m : sid) :
  targets_bounded s -> m < length (cells s) ->
  let r := (bind m (fun v => EEffect v) s).1 in
  let s1 := (bind m (fun v => EEffect v) s).2 in
  value s1 r = value s m /\
  (forall fuel us s',
     (forall x v, (x, v) ∈ us -> x < length (cells s)) ->
     set_each host fuel us s1 = Some s' ->
     same_value (value s' r) (value s' m) = true).
Proof. exact (bind_fresh_facts host (fun a => a) s m). Qed.

(** [e = effect(42); bound = e.bind(pureEffect)]; then [e._set(1)]. *)
Lemma monad_right_identity_witness :
  let s := (effect (VNum 42) empty_store).2 in
  let r := (bind 0 (fun v => EEffect v) s).1 in
  let s1 := (bind 0 (fun v => EEffect v) s).2 in
  value s1 r = VNum 42 /\
  exists s', set_each demo_host 6 [(0, VNum 1)] s1 = Some s' /\
             value s' 0 = VNum 1 /\
             same_value (value s' r) (value s' 0) = true.
Proof.
  intros s r s1.
  destruct (monad_right_identity demo_host s 0
              (targets_bounded_signal _ _ targets_bounded_empty)
              ltac:(vm_compute; lia)) as [H1 H2].
  split; [exact H1|].
  eexists. split; [vm_compute; reflexivity|]. split; [reflexivity|].
  eapply (H2 6 [(0, VNum 1)]).
  - intros x v Hxv. apply list_elem_of_singleton in Hxv.
    injection Hxv as -> ->. vm_compute. lia.
  - vm_compute. reflexivity.
Defined.

(* ===================================================================== *)
(** ** fetch.ts: the life of a Fetch                                      *)
(* ===================================================================== *)

Lemma set_leaf host n x v s :
  subscribers s x = [] ->
  set_ host (S (S n)) x v s =
  Some (if strict_neq v (value s x) then write x v s else s).
Proof.
  intros Hs. unfold set_. rewrite exec_set.
  destruct (strict_neq v (value s x)); [|done].
  by rewrite exec_notify, subscribers_write, Hs.
Qed.

Lemma signal_pair v s : signal v s = (length (cells s), (signal v s).2).
Proof. done. Qed.

Lemma fetch_unfold host n fetcher deps s :
  fetch host (S (S n)) fetcher deps s =
  Some (mkFetch (length (cells s)) fetcher deps,
        subscribe_deps fetcher (length (cells s)) deps (fetch_started fetcher s)).
Proof.
  unfold fetch, executeFetch, executeFetch_with, obj_loading, effect.
  rewrite (surjective_pairing (fresh_ref s)). cbv beta iota.
  rewrite signal_pair. cbv beta iota.
  rewrite (surjective_pairing (fresh_ref (signal _ _).2)). cbv beta iota.
  rewrite set_leaf.
  - change (value (fresh_ref ?x).2) with (value x).
    change (fresh_ref s).1 with (next_ref s).
    change (length (cells (fresh_ref s).2)) with (length (cells s)).
    rewrite value_signal, decide_True by done.
    change (fresh_ref (signal ?v (fresh_ref s).2).2).1 with (S (next_ref s)).
    unfold strict_neq. cbn [strict_eq].
    replace (S (next_ref s) =? next_ref s) with false
      by (symmetry; apply Nat.eqb_neq; lia).
    done.
  - change (subscribers (fresh_ref ?x).2) with (subscribers x).
    rewrite subscribers_signal. unfold subscribers.
    change (cells (fresh_ref s).2) with (cells s).
    by rewrite lookup_ge_None_2.
Qed.

Lemma subscribe_deps_cons fetcher b dep deps s :
  subscribe_deps fetcher b (dep :: deps) s =
  subscribe_deps fetcher b deps (subscribe dep (SubDep fetcher b) s).
Proof. done. Qed.

Lemma value_subscribe_deps fetcher b deps : forall s y,
  value (subscribe_deps fetcher b deps s) y = value s y.
Proof.
  induction deps as [|dep deps IH]; intros s y; [done|].
  rewrite subscribe_deps_cons. by rewrite IH, value_subscribe.
Qed.

Lemma same_host_subscribe_deps fetcher b deps : forall s,
  same_host s (subscribe_deps fetcher b deps s) /\
  next_ref (subscribe_deps fetcher b deps s) = next_ref s /\
  length (cells (subscribe_deps fetcher b deps s)) = length (cells s).
Proof.
  induction deps as [|dep deps IH]; intros s.
  - split; [apply same_host_refl|done].
  - rewrite subscribe_deps_cons.
    destruct (IH (subscribe dep (SubDep fetcher b) s)) as (H1 & H2 & H3).
    split; [|split].
    + eapply same_host_trans; [apply same_host_subscribe|exact H1].
    + rewrite H2. unfold subscribe. by destruct (cells s !! dep).
    + by rewrite H3, length_subscribe.
Qed.

Lemma subscribers_subscribe_deps_other fetcher b deps : forall s y,
  y ∉ deps ->
  subscribers (subscribe_deps fetcher b deps s) y = subscribers s y.
Proof.
  induction deps as [|dep deps IH]; intros s y Hy; [done|].
  rewrite subscribe_deps_cons.
  apply not_elem_of_cons in Hy as [Hne Hy].
  rewrite IH by done. rewrite subscribers_subscribe, decide_False; [done|].
  intros [-> _]. done.
Qed.

Lemma subscribers_subscribe_deps_mono fetcher b deps : forall s y fn,
  fn ∈ subscribers s y ->
  fn ∈ subscribers (subscribe_deps fetcher b deps s) y.
Proof.
  induction deps as [|dep deps IH]; intros s y fn Hfn; [done|].
  rewrite subscribe_deps_cons. apply IH.
  rewrite subscribers_subscribe. destruct (decide _); [|done].
  apply elem_of_app. by left.
Qed.

Lemma subscribers_subscribe_deps_in fetcher b deps : forall s dep,
  dep ∈ deps -> dep < length (cells s) ->
  SubDep fetcher b ∈ subscribers (subscribe_deps fetcher b deps s) dep.
Proof.
  induction deps as [|d0 deps IH]; intros s dep Hin Hlt.
  - by apply elem_of_nil in Hin.
  - rewrite subscribe_deps_cons.
    apply elem_of_cons in Hin as [->|Hin].
    + apply subscribers_subscribe_deps_mono.
      rewrite subscribers_subscribe, decide_True by done.
      apply elem_of_app. right. apply list_elem_of_here.
    + apply IH; [done|]. by rewrite length_subscribe.
Qed.

Lemma next_ref_write x v s : next_ref (write x v s) = next_ref s.
Proof. unfold write. by destruct (cells s !! x). Qed.

Lemma fetch_started_facts fetcher s :
  let b := length (cells s) in
  let st := fetch_started fetcher s in
  length (cells st) = S b /\
  value st b = VAsync (S (next_ref s)) VUndef true VUndef /\
  (forall y, y <> b -> value st y = value s y) /\
  (forall y, subscribers st y = subscribers s y) /\
  calls st = S (calls s) /\
  micro st = micro s ++ [MExec b (fetcher (calls s))] /\
  next_ref st = S (S (next_ref s)) /\
  storage st = storage s /\ timers st = timers s /\ trace st = trace s.
Proof.
  intros b st. unfold st, fetch_started, await_fetcher.
  set (o := VAsync (next_ref s) VUndef true VUndef).
  set (o' := VAsync (S (next_ref s)) VUndef true VUndef).
  set (s1 := (signal o (fresh_ref s).2).2).
  assert (length (cells (fresh_ref s1).2) = S b) as Hl.
  { change (cells (fresh_ref s1).2) with (cells s1). unfold s1.
    by rewrite length_signal. }
  fold b.
  change (cells (set_micro ?x _ _)) with (cells x).
  change (value (set_micro ?x _ _)) with (value x).
  change (subscribers (set_micro ?x _ _)) with (subscribers x).
  rewrite length_write, Hl. split; [done|].
  rewrite value_write, !decide_True by (done || lia). split; [done|].
  split.
  { intros y Hy. rewrite value_write, decide_False by done.
    change (value (fresh_ref s1).2 y) with (value s1 y). unfold s1.
    rewrite value_signal. change (cells (fresh_ref s).2) with (cells s).
    by rewrite decide_False. }
  split.
  { intros y. rewrite subscribers_write.
    change (subscribers (fresh_ref s1).2 y) with (subscribers s1 y). unfold s1.
    by rewrite subscribers_signal. }
  pose proof (same_host_write b o' (fresh_ref s1).2)
    as (Ht & _ & Hti & _ & _ & Hmi & Hsto & Hca & _).
  pose proof (next_ref_write b o' (fresh_ref s1).2) as Hnr.
  unfold set_micro. cbn [calls micro next_ref storage timers trace].
  rewrite Ht, Hti, Hmi, Hsto, Hca, Hnr. repeat split; reflexivity.
Qed.

Lemma fetch_result_facts fetcher deps s :
  (forall dep, dep ∈ deps -> dep < length (cells s)) ->
  let b := length (cells s) in
  let s1 := subscribe_deps fetcher b deps (fetch_started fetcher s) in
  value s1 b = VAsync (S (next_ref s)) VUndef true VUndef /\
  subscribers s1 b = [] /\
  b < length (cells s1) /\
  calls s1 = S (calls s) /\
  micro s1 = micro s ++ [MExec b (fetcher (calls s))] /\
  next_ref s1 = S (S (next_ref s)) /\
  (forall y, y < length (cells s) -> value s1 y = value s y) /\
  (forall dep, dep ∈ deps -> SubDep fetcher b ∈ subscribers s1 dep).
Proof.
  intros Hdeps b s1.
  destruct (fetch_started_facts fetcher s)
    as (Hl & Hv & Hvo & Hsub & Hc & Hm & Hn & _).
  destruct (same_host_subscribe_deps fetcher b deps (fetch_started fetcher s))
    as ((_ & _ & _ & _ & _ & Hmi & _ & Hca & _) & Hnr & Hlen).
  fold b in Hl, Hv, Hvo, Hm. fold s1 in Hmi, Hca, Hnr, Hlen.
  unfold s1. rewrite value_subscribe_deps. split; [done|]. split.
  { rewrite subscribers_subscribe_deps_other.
    - rewrite Hsub. unfold subscribers. by rewrite lookup_ge_None_2.
    - intros Hin. specialize (Hdeps b Hin). unfold b in Hdeps. lia. }
  fold s1. split; [lia|]. split; [congruence|]. split; [congruence|].
  split; [congruence|]. split.
  - intros y Hy. unfold s1. rewrite value_subscribe_deps. apply Hvo.
    unfold b. lia.
  - intros dep Hin. apply subscribers_subscribe_deps_in; [done|].
    specialize (Hdeps dep Hin). lia.
Qed.

(** Writing a fresh object literal into an effect without subscribers. *)
Lemma set_fresh_object host n b v s :
  subscribers s b = [] -> b < length (cells s) ->
  strict_neq v (value s b) = true ->
  exists s', set_ host (S (S n)) b v s = Some s' /\ s' = write b v s /\
             value s' b = v.
Proof.
  intros Hs Hb Hneq. rewrite set_leaf, Hneq by done.
  eexists. split; [done|]. split; [done|].
  by rewrite value_write, !decide_True.
Qed.

(** X7: [fetch(fetcher, deps)] returns a new effect that holds
    [{ loading: true }], has invoked the fetcher exactly once and has
    subscribed to every dependency, without changing any existing effect.
    When the promise settles, the effect takes [{ data, loading: false }]
    or [{ error, loading: false }] with an [Error] (the rejection reason
    itself when it is one); settling does not invoke the fetcher. *)
Theorem fetch_lifecycle (host : Host) (n : nat) (fetcher : Fetcher)
    (deps : list sid) (s : Store) :
  (forall dep, dep ∈ deps -> dep < length (cells s)) ->
  exists f s1,
    fetch host (S (S n)) fetcher deps s = Some (f, s1) /\
    f_cell f = length (cells s) /\
    (exists ref, value s1 (f_cell f) = VAsync ref VUndef true VUndef) /\
    calls s1 = S (calls s) /\
    micro s1 = micro s ++ [MExec (f_cell f) (fetcher (calls s))] /\
    (forall y, y < length (cells s) -> value s1 y = value s y) /\
    (forall dep, dep ∈ deps -> SubDep fetcher (f_cell f) ∈ subscribers s1 dep) /\
    (forall o, exists s2,
       run_micro host (set_ host (S (S n))) (MExec (f_cell f) o) s1 = Some s2 /\
       calls s2 = calls s1 /\
       match o with
       | Resolve d => exists ref, value s2 (f_cell f) = VAsync ref d false VUndef
       | Reject reason =>
           exists ref e,
             value s2 (f_cell f) = VAsync ref VUndef false e /\
             is_error e = true /\ (is_error reason = true -> e = reason)
       end).
Proof.
  intros Hdeps. rewrite fetch_unfold. eexists _, _. split; [done|].
  cbn [f_cell].
  destruct (fetch_result_facts fetcher deps s Hdeps)
    as (Hv & Hsub & Hb & Hc & Hm & Hn & Hold & Hd).
  set (b := length (cells s)) in *.
  set (s1 := subscribe_deps fetcher b deps (fetch_started fetcher s)) in *.
  split; [done|]. split; [by eexists|]. split; [done|]. split; [done|].
  split; [done|]. split; [done|].
  assert (forall v st, cells st = cells s1 -> calls st = calls s1 ->
            (forall ref d l e, v = VAsync ref d l e -> S (next_ref s) < ref) ->
            (exists ref d l e, v = VAsync ref d l e) ->
            exists s2, set_ host (S (S n)) b v st = Some s2 /\
                       calls s2 = calls s1 /\ value s2 b = v) as Hput.
  { intros v st Hcs Hca Href (ref & d & l & e & ->).
    destruct (set_fresh_object host n b (VAsync ref d l e) st)
      as (s2 & H1 & H2 & H3).
    - by rewrite (subscribers_same_cells s1 st b Hcs).
    - by rewrite Hcs.
    - rewrite (value_same_cells s1 st b Hcs), Hv.
      unfold strict_neq. cbn [strict_eq].
      specialize (Href _ _ _ _ eq_refl).
      replace (ref =? S (next_ref s)) with false
        by (symmetry; apply Nat.eqb_neq; lia).
      done.
    - exists s2. split; [done|]. split; [|done].
      rewrite H2. destruct (same_host_write b (VAsync ref d l e) st)
        as (_ & _ & _ & _ & _ & _ & _ & -> & _). done. }
  intros [d|reason]; cbn [run_micro]; unfold obj_data, obj_error, wrap_error.
  - rewrite (surjective_pairing (fresh_ref s1)). cbv beta iota.
    destruct (Hput (VAsync (next_ref s1) d false VUndef) (fresh_ref s1).2)
      as (s2 & H1 & H2 & H3); [done|done| |by eexists _, _, _, _|].
    { intros ? ? ? ? Heq. injection Heq as <- _ _ _. lia. }
    exists s2. split; [exact H1|]. split; [done|]. by eexists.
  - destruct (is_error reason) eqn:Herr.
    + rewrite (surjective_pairing (fresh_ref s1)). cbv beta iota.
      destruct (Hput (VAsync (next_ref s1) VUndef false reason)
                  (fresh_ref s1).2)
        as (s2 & H1 & H2 & H3); [done|done| |by eexists _, _, _, _|].
      { intros ? ? ? ? Heq. injection Heq as <- _ _ _. lia. }
      exists s2. split; [exact H1|]. split; [done|]. by eexists _, _.
    + rewrite (surjective_pairing (fresh_ref s1)). cbv beta iota.
      rewrite (surjective_pairing (fresh_ref (fresh_ref s1).2)).
      cbv beta iota.
      destruct (Hput (VAsync (S (next_ref s1)) VUndef false
                        (VErr (next_ref s1) (js_String host reason)))
                  (fresh_ref (fresh_ref s1).2).2)
        as (s2 & H1 & H2 & H3); [done|done| |by eexists _, _, _, _|].
      { intros ? ? ? ? Heq. injection Heq as <- _ _ _. lia. }
      exists s2. split; [exact H1|]. split; [done|]. by eexists _, _.
Qed.

(** A fetch that depends on one effect; the promise rejects with a
    string. *)
Lemma fetch_lifecycle_witness :
  let s := (effect (VNum 1) empty_store).2 in
  let fetcher := always_rejects (VStr "offline") in
  (forall dep, dep ∈ [0] -> dep < length (cells s)) /\
  exists f s1,
    fetch demo_host 2 fetcher [0] s = Some (f, s1) /\
    calls s1 = 1 /\
    exists s2,
      run_micro demo_host (set_ demo_host 2)
        (MExec (f_cell f) (Reject (VStr "offline"))) s1 = Some s2 /\
      exists ref e,
        value s2 (f_cell f) = VAsync ref VUndef false e /\ is_error e = true.
Proof.
  intros s fetcher.
  assert (forall dep, dep ∈ [0] -> dep < length (cells s)) as Hdeps.
  { intros dep Hin. apply list_elem_of_singleton in Hin as ->.
    vm_compute. lia. }
  split; [exact Hdeps|].
  destruct (fetch_lifecycle demo_host 0 fetcher [0] s Hdeps)
    as (f & s1 & H1 & _ & _ & Hc & _ & _ & _ & Hsettle).
  exists f, s1. split; [exact H1|]. split; [exact Hc|].
  destruct (Hsettle (Reject (VStr "offline")))
    as (s2 & H2 & _ & ref & e & Hv & He & _).
  exists s2. split; [exact H2|]. exists ref, e. split; [exact Hv|exact He].
Defined.

(** [executeFetch(target)] up to its [await], on a target without
    subscribers. *)
Lemma executeFetch_leaf host n fetcher b s :
  subscribers s b = [] -> b < length (cells s) ->
  (forall d l e, value s b <> VAsync (next_ref s) d l e) ->
  exists s',
    executeFetch host (S (S n)) fetcher b s = Some s' /\
    value s' b = VAsync (next_ref s) VUndef true VUndef /\
    (forall y, y <> b -> value s' y = value s y) /\
    (forall y, subscribers s' y = subscribers s y) /\
    length (cells s') = length (cells s) /\
    calls s' = S (calls s) /\
    micro s' = micro s ++ [MExec b (fetcher (calls s))] /\
    next_ref s' = S (next_ref s).
Proof.
  intros Hs Hb Hv. unfold executeFetch, executeFetch_with, obj_loading.
  rewrite (surjective_pairing (fresh_ref s)). cbv beta iota.
  change (fresh_ref s).1 with (next_ref s).
  set (o := VAsync (next_ref s) VUndef true VUndef).
  rewrite set_leaf by done.
  change (value (fresh_ref s).2 b) with (value s b).
  assert (strict_neq o (value s b) = true) as ->.
  { unfold strict_neq, o. destruct (value s b) as [| | | | | | |r d l e] eqn:E;
      try done. cbn [strict_eq].
    destruct (Nat.eqb_spec (next_ref s) r) as [<-|]; [|done].
    by destruct (Hv d l e). }
  cbn [mbind option_bind]. eexists. split; [done|].
  unfold await_fetcher.
  change (value (set_micro ?x _ _)) with (value x).
  change (subscribers (set_micro ?x _ _)) with (subscribers x).
  change (cells (set_micro ?x _ _)) with (cells x).
  pose proof (same_host_write b o (fresh_ref s).2)
    as (_ & _ & _ & _ & _ & Hmi & _ & Hca & _).
  pose proof (next_ref_write b o (fresh_ref s).2) as Hnr.
  split. { by rewrite value_write, !decide_True. }
  split. { intros y Hy. by rewrite value_write, decide_False. }
  split. { intros y. by rewrite subscribers_write. }
  split. { by rewrite length_write. }
  unfold set_micro. cbn [calls micro next_ref]. rewrite Hmi, Hca, Hnr.
  done.
Qed.

(** X8: [refetch()] returns a new instance and invokes the fetcher twice for
    it (once inside [fetch], once in [executeFetch(refetched)]); both
    promises will settle into the new instance, which holds
    [{ loading: true }].  Every effect that existed before, the instance
    [refetch] was called on included, keeps its value. *)
Theorem refetch_creates_instance_and_fetches_twice (host : Host) (n : nat)
    (self : FetchObj) (s : Store) :
  (forall dep, dep ∈ f_deps self -> dep < length (cells s)) ->
  exists r s2,
    refetch host (S (S n)) self s = Some (r, s2) /\
    f_cell r = length (cells s) /\
    f_fetcher r = f_fetcher self /\ f_deps r = f_deps self /\
    calls s2 = S (S (calls s)) /\
    micro s2 = micro s ++ [MExec (f_cell r) (f_fetcher self (calls s));
                           MExec (f_cell r) (f_fetcher self (S (calls s)))] /\
    (exists ref, value s2 (f_cell r) = VAsync ref VUndef true VUndef) /\
    (forall y, y < length (cells s) -> value s2 y = value s y).
Proof.
  intros Hdeps. unfold refetch. rewrite fetch_unfold.
  cbn [mbind option_bind f_cell].
  destruct (fetch_result_facts (f_fetcher self) (f_deps self) s Hdeps)
    as (Hv & Hsub & Hb & Hc & Hm & Hn & Hold & _).
  set (b := length (cells s)) in *.
  set (s1 := subscribe_deps (f_fetcher self) b (f_deps self)
               (fetch_started (f_fetcher self) s)) in *.
  destruct (executeFetch_leaf host n (f_fetcher self) b s1 Hsub Hb)
    as (s2 & -> & Hv2 & Ho2 & _ & _ & Hc2 & Hm2 & _).
  { intros d l e. rewrite Hv, Hn. intros [=]. lia. }
  cbn [mbind option_bind]. eexists _, s2. split; [done|]. cbn [f_cell f_fetcher f_deps].
  split; [done|]. split; [done|]. split; [done|].
  split; [by rewrite Hc2, Hc|]. split.
  { by rewrite Hm2, Hm, Hc, <- app_assoc. }
  split; [by eexists|].
  intros y Hy. rewrite Ho2 by (unfold b; lia). by apply Hold.
Qed.

(** [e = effect(1); f = fetch(() => Promise.resolve(7), [e]);
    r = f.refetch()] *)
Lemma refetch_creates_instance_and_fetches_twice_witness :
  let fetcher : Fetcher := fun _ => Resolve (VNum 7) in
  let p := fetch demo_host 2 fetcher [0] (effect (VNum 1) empty_store).2 in
  exists f s r s2,
    p = Some (f, s) /\
    (forall dep, dep ∈ f_deps f -> dep < length (cells s)) /\
    refetch demo_host 2 f s = Some (r, s2) /\
    f_cell r <> f_cell f /\ calls s2 = 3 /\
    value s2 (f_cell f) = value s (f_cell f).
Proof.
  intros fetcher p.
  set (s0 := (effect (VNum 1) empty_store).2).
  set (f := mkFetch 1 fetcher [0]).
  set (s := subscribe_deps fetcher 1 [0] (fetch_started fetcher s0)).
  assert (forall dep, dep ∈ f_deps f -> dep < length (cells s)) as Hdeps.
  { intros dep Hin. apply list_elem_of_singleton in Hin as ->.
    vm_compute. lia. }
  destruct (refetch_creates_instance_and_fetches_twice demo_host 0 f s Hdeps)
    as (r & s2 & H1 & Hcell & _ & _ & Hc & _ & _ & Hold).
  exists f, s, r, s2. split; [vm_compute; reflexivity|]. split; [exact Hdeps|].
  split; [exact H1|]. split; [rewrite Hcell; vm_compute; lia|].
  split; [rewrite Hc; vm_compute; reflexivity|].
  apply Hold. vm_compute. lia.
Defined.

(** X9: when a dependency of a fetch emits, the fetcher is invoked once
    more against the same instance: the instance drops what it held and
    goes back to [{ loading: true }], and the new promise will settle into
    it.  Stated for a dependency whose only subscriber is the fetch. *)
Theorem dependency_emission_refetches (host : Host) (n : nat)
    (fetcher : Fetcher) (b dep : sid) (v : Val) (s : Store) :
  subscribers s dep = [SubDep fetcher b] ->
  subscribers s b = [] ->
  b < length (cells s) -> dep < length (cells s) -> dep <> b ->
  (forall d l e, value s b <> VAsync (next_ref s) d l e) ->
  strict_neq v (value s dep) = true ->
  exists s',
    set_ host (S (S (S (S n)))) dep v s = Some s' /\
    value s' dep = v /\
    value s' b = VAsync (next_ref s) VUndef true VUndef /\
    calls s' = S (calls s) /\
    micro s' = micro s ++ [MExec b (fetcher (calls s))] /\
    (forall y, y <> dep -> y <> b -> value s' y = value s y).
Proof.
  intros Hsd Hsb Hb Hdep Hne Hfresh Hneq.
  unfold set_. rewrite exec_set, Hneq, exec_notify.
  rewrite subscribers_write, Hsd. cbn [lookup list_lookup sub_body].
  set (s1 := write dep v s).
  destruct (executeFetch_leaf host n fetcher b s1)
    as (s2 & Hex & Hv2 & Ho2 & Hs2 & Hl2 & Hc2 & Hm2 & _).
  { unfold s1. by rewrite subscribers_write. }
  { unfold s1. by rewrite length_write. }
  { intros d l e. unfold s1.
    rewrite value_write, next_ref_write, decide_False by done. apply Hfresh. }
  change (executeFetch_with _ fetcher b s1)
    with (executeFetch host (S (S n)) fetcher b s1).
  rewrite Hex. cbn [mbind option_bind].
  rewrite exec_notify, Hs2. unfold s1 at 1. rewrite subscribers_write, Hsd.
  cbn [lookup list_lookup]. eexists. split; [done|].
  pose proof (same_host_write dep v s)
    as (_ & _ & _ & _ & _ & Hmi & _ & Hca & _).
  fold s1 in Hmi, Hca.
  split. { rewrite Ho2 by done. unfold s1. by rewrite value_write, !decide_True. }
  split. { rewrite Hv2. unfold s1. by rewrite next_ref_write. }
  split; [congruence|]. split; [by rewrite Hm2, Hmi, Hca|].
  intros y Hy1 Hy2. rewrite Ho2 by done. unfold s1.
  by rewrite value_write, decide_False.
Qed.

(** [id = effect(1); f = fetch(() => Promise.resolve(7), [id])]; once the
    promise has settled, [id._set(2)] sends [f] back to loading. *)
Lemma dependency_emission_refetches_witness :
  let fetcher : Fetcher := fun _ => Resolve (VNum 7) in
  exists f s1 s2 s3,
    fetch demo_host 2 fetcher [0] (effect (VNum 1) empty_store).2
      = Some (f, s1) /\
    run_micro demo_host (set_ demo_host 2) (MExec (f_cell f) (fetcher 0)) s1
      = Some s2 /\
    value s2 (f_cell f) = VAsync 2 (VNum 7) false VUndef /\
    set_ demo_host 4 0 (VNum 2) s2 = Some s3 /\
    value s3 (f_cell f) = VAsync 3 VUndef true VUndef /\
    calls s3 = 2.
Proof.
  intros fetcher.
  set (s0 := (effect (VNum 1) empty_store).2).
  set (s1 := subscribe_deps fetcher 1 [0] (fetch_started fetcher s0)).
  set (s2 := write 1 (VAsync 2 (VNum 7) false VUndef) (fresh_ref s1).2).
  assert (subscribers s2 0 = [SubDep fetcher 1]) as H1 by (vm_compute; reflexivity).
  assert (subscribers s2 1 = []) as H2 by (vm_compute; reflexivity).
  assert (1 < length (cells s2)) as H3 by (vm_compute; lia).
  assert (0 < length (cells s2)) as H4 by (vm_compute; lia).
  assert (0 <> 1) as H5 by lia.
  assert (forall d l e, value s2 1 <> VAsync (next_ref s2) d l e) as H6.
  { intros d l e. vm_compute. intros [=]. }
  assert (strict_neq (VNum 2) (value s2 0) = true) as H7
    by (vm_compute; reflexivity).
  destruct (dependency_emission_refetches demo_host 0 fetcher 1 0 (VNum 2) s2
              H1 H2 H3 H4 H5 H6 H7)
    as (s3 & Hset & _ & Hv & Hc & _).
  exists (mkFetch 1 fetcher [0]), s1, s2, s3.
  split; [vm_compute; reflexivity|]. split; [vm_compute; reflexivity|].
  split; [vm_compute; reflexivity|].
  split; [exact Hset|]. cbn [f_cell].
  split; [rewrite Hv; vm_compute; reflexivity|].
  rewrite Hc. vm_compute. reflexivity.
Defined.

(* ===================================================================== *)
(** ** [fsm]: accepted actions                                            *)
(* ===================================================================== *)

Lemma find_first {A : Type} (f : A -> bool) (pre post : list A) (x : A) :
  Forall (fun y => f y = false) pre -> f x = true ->
  List.find f (pre ++ x :: post) = Some x.
Proof.
  intros Hpre Hx. induction Hpre as [|y pre Hy _ IH]; cbn.
  - by rewrite Hx.
  - by rewrite Hy.
Qed.

(** X10: [send(action)] takes the first row of the table, in table order,
    that matches the current state, the action and its guard: [current]
    becomes that row's [to] and every subscriber is called exactly once with
    it, in subscription order, also when the row leads back to the state the
    machine is in; [can(action)] is true. *)
Theorem fsm_send_takes_first_matching_row {Env : Type} (env : Env)
    (m : Fsm.FSM Env) (action : Val)
    (pre post : list (Fsm.Transition Env)) (t : Fsm.Transition Env) :
  Fsm.transitions m = pre ++ t :: post ->
  Forall (fun r => Fsm.matches env m action r = false) pre ->
  Fsm.matches env m action t = true ->
  Fsm.can env action m = true /\
  Fsm.current (Fsm.send env action m) = Fsm.to t /\
  Fsm.fsm_trace (Fsm.send env action m) =
    Fsm.fsm_trace m ++
    List.map (fun tag => (tag, Fsm.to t)) (Fsm.fsm_subscribers m) /\
  Fsm.transitions (Fsm.send env action m) = Fsm.transitions m /\
  Fsm.fsm_subscribers (Fsm.send env action m) = Fsm.fsm_subscribers m.
Proof.
  intros Ht Hpre Hm.
  unfold Fsm.can, Fsm.send, Fsm.getTransition.
  rewrite Ht, (find_first _ pre post t Hpre Hm). done.
Qed.

(** Two rows for the same state and action: the first one wins; and a row
    from a state to itself notifies. *)
Lemma fsm_send_takes_first_matching_row_witness :
  let rows := [Fsm.mkTransition (Env:=unit) "idle" "busy" (VStr "go") None;
               Fsm.mkTransition "busy" "busy" (VStr "go") None;
               Fsm.mkTransition "busy" "idle" (VStr "go") None] in
  let m := Fsm.send tt (VStr "go") (Fsm.subscribe 0 (Fsm.fsm "idle" rows)) in
  Fsm.current m = "busy" /\
  Fsm.current (Fsm.send tt (VStr "go") m) = "busy" /\
  Fsm.fsm_trace (Fsm.send tt (VStr "go") m) = [(0, "busy"); (0, "busy")].
Proof.
  intros rows m.
  destruct (fsm_send_takes_first_matching_row tt m (VStr "go")
              [Fsm.mkTransition "idle" "busy" (VStr "go") None]
              [Fsm.mkTransition "busy" "idle" (VStr "go") None]
              (Fsm.mkTransition "busy" "busy" (VStr "go") None))
    as (_ & H1 & H2 & _).
  - reflexivity.
  - repeat constructor.
  - reflexivity.
  - split; [reflexivity|]. split; [exact H1|exact H2].
Defined.

Lemma fsm_send_transitions {Env : Type} (env : Env) (action : Val)
    (m : Fsm.FSM Env) :
  Fsm.transitions (Fsm.send env action m) = Fsm.transitions m.
Proof.
  unfold Fsm.send. by destruct (Fsm.getTransition env m action).
Qed.

Lemma fsm_op_facts {Env : Type} (m : Fsm.FSM Env) (op : FsmOp Env) :
  Fsm.transitions (fsm_op m op) = Fsm.transitions m /\
  (Fsm.current (fsm_op m op) = Fsm.current m \/
   Fsm.current (fsm_op m op) ∈ List.map Fsm.to (Fsm.transitions m)) /\
  (forall e, e ∈ Fsm.fsm_trace (fsm_op m op) ->
     e ∈ Fsm.fsm_trace m \/
     e.2 ∈ List.map Fsm.to (Fsm.transitions m)).
Proof.
  destruct op as [env action|tag]; cbn [fsm_op].
  - unfold Fsm.send, Fsm.getTransition.
    destruct (List.find _ _) as [t|] eqn:E; [|by auto].
    apply List.find_some in E as [Hin _].
    assert (Fsm.to t ∈ List.map Fsm.to (Fsm.transitions m)) as Hto.
    { apply list_elem_of_In, List.in_map, Hin. }
    cbn. split; [done|]. split; [by right|].
    intros e He. apply elem_of_app in He as [He|He]; [by left|right].
    apply list_elem_of_In, List.in_map_iff in He as (tag & <- & _). exact Hto.
  - cbn. auto.
Qed.

(** X11: whatever is sent to an [fsm] and whoever subscribes, the machine
    is always in its initial state or in the [to] state of a row of its
    table, and subscribers are only ever called with [to] states of rows. *)
Theorem fsm_states_come_from_table {Env : Type} (initialState : string)
    (ts : list (Fsm.Transition Env)) (ops : list (FsmOp Env)) :
  let m := fsm_run ops (Fsm.fsm initialState ts) in
  Fsm.current m ∈ initialState :: List.map Fsm.to ts /\
  (forall tag st, (tag, st) ∈ Fsm.fsm_trace m -> st ∈ List.map Fsm.to ts).
Proof.
  cbn zeta.
  assert (forall m : Fsm.FSM Env,
            Fsm.transitions m = ts ->
            Fsm.current m ∈ initialState :: List.map Fsm.to ts ->
            (forall e, e ∈ Fsm.fsm_trace m -> e.2 ∈ List.map Fsm.to ts) ->
            Fsm.current (fsm_run ops m) ∈ initialState :: List.map Fsm.to ts /\
            (forall e, e ∈ Fsm.fsm_trace (fsm_run ops m) ->
               e.2 ∈ List.map Fsm.to ts)) as H.
  { induction ops as [|op ops IH]; intros m Hts Hc Htr; [done|].
    cbn [fsm_run fold_left]. destruct (fsm_op_facts m op) as (H1 & H2 & H3).
    rewrite Hts in *. apply IH; [done| |].
    - destruct H2 as [->|H2]; [done|]. by apply elem_of_cons; right.
    - intros e He. destruct (H3 e He) as [H|H]; [by apply Htr|done]. }
  destruct (H (Fsm.fsm initialState ts)) as [Hc Htr].
  - done.
  - apply elem_of_cons; by left.
  - intros e He. cbn in He. by apply elem_of_nil in He.
  - split; [done|]. intros tag st He. exact (Htr _ He).
Qed.

(* ===================================================================== *)
(** ** [timeout]: the two outcomes of the race                            *)
(* ===================================================================== *)

Lemma next_ref_subscribe x fn s : next_ref (subscribe x fn s) = next_ref s.
Proof. unfold subscribe. by destruct (cells s !! x). Qed.

Lemma time_timeout_unfold base ms s :
  time_timeout base ms s =
  (length (cells s),
   subscribe base
     (SubTimeout (length (flags s)) (next_timer s) (length (cells s)))
     (set_timers
        (set_flags (signal (value s base) s).2 (flags s ++ [false]))
        (timers s ++ [mkTimer (next_timer s) (now s + ms)
                        (TTimeoutFire (length (flags s)) ms (length (cells s)))])
        (S (next_timer s)))).
Proof. done. Qed.

Lemma time_timeout_facts base ms s :
  base < length (cells s) ->
  let t := length (cells s) in
  let fl := length (flags s) in
  let tm := next_timer s in
  let s1 := (time_timeout base ms s).2 in
  (time_timeout base ms s).1 = t /\
  subscribers s1 base = subscribers s base ++ [SubTimeout fl tm t] /\
  subscribers s1 t = [] /\
  value s1 t = value s base /\
  (forall y, y < length (cells s) -> value s1 y = value s y) /\
  length (cells s1) = S t /\
  flags s1 = flags s ++ [false] /\
  timers s1 = timers s ++ [mkTimer tm (now s + ms) (TTimeoutFire fl ms t)] /\
  micro s1 = micro s /\ now s1 = now s /\ next_ref s1 = next_ref s /\
  trace s1 = trace s.
Proof.
  intros Hb t fl tm s1. unfold s1. rewrite time_timeout_unfold.
  fold t fl tm. cbn [fst snd].
  set (s0 := (signal (value s base) s).2).
  set (sub := SubTimeout fl tm t).
  set (s2 := set_timers (set_flags s0 (flags s ++ [false]))
               (timers s ++ [mkTimer tm (now s + ms) (TTimeoutFire fl ms t)])
               (S tm)).
  assert (forall y, subscribers s2 y = subscribers s y) as Hsub.
  { intros y. change (subscribers s2 y) with (subscribers s0 y).
    unfold s0. by rewrite subscribers_signal. }
  assert (forall y, value s2 y
                    = if decide (y = t) then value s base else value s y) as Hval.
  { intros y. change (value s2 y) with (value s0 y).
    unfold s0. by rewrite value_signal. }
  assert (length (cells s2) = S t) as Hlen.
  { change (cells s2) with (cells s0). unfold s0. by rewrite length_signal. }
  destruct (same_host_subscribe base sub s2)
    as (Htr & Hfl & Hti & _ & Hnow & Hmi & _).
  split; [done|]. split.
  { rewrite subscribers_subscribe, Hsub, Hlen, !decide_True by (done || lia).
    done. }
  split.
  { rewrite subscribers_subscribe, Hsub, decide_False by lia.
    unfold subscribers. by rewrite lookup_ge_None_2. }
  split. { by rewrite value_subscribe, Hval, decide_True. }
  split. { intros y Hy. rewrite value_subscribe, Hval, decide_False by lia. done. }
  split. { by rewrite length_subscribe. }
  rewrite Hfl, Hti, Hmi, Hnow, Htr. repeat split; try done.
  by rewrite next_ref_subscribe.
Qed.

Lemma flags_write x v s : flags (write x v s) = flags s.
Proof. unfold write. by destruct (cells s !! x). Qed.

Lemma timers_write x v s : timers (write x v s) = timers s.
Proof. unfold write. by destruct (cells s !! x). Qed.

(** Once the source has won, its further emissions leave the race as it
    is. *)
Lemma source_won_set host n base timedOut flag timer v w st :
  source_won base timedOut flag timer v st ->
  exists st',
    set_ host (S (S (S n))) base w st = Some st' /\
    source_won base timedOut flag timer v st' /\
    timers st' = timers st /\ flags st' = flags st.
Proof.
  intros (Hsub & Hflag & Hv & Hne & Htm).
  unfold set_. rewrite exec_set.
  destruct (strict_neq w (value st base)).
  - rewrite exec_notify, subscribers_write, Hsub.
    cbn [lookup list_lookup sub_body]. unfold get_flag.
    rewrite flags_write. unfold get_flag in Hflag. rewrite Hflag.
    cbn [mbind option_bind]. rewrite exec_notify, subscribers_write, Hsub.
    cbn [lookup list_lookup]. eexists. split; [done|].
    rewrite timers_write, flags_write. split; [|done].
    split; [by rewrite subscribers_write|].
    split; [unfold get_flag; by rewrite flags_write|].
    split; [by rewrite value_write, decide_False|].
    split; [done|]. by rewrite timers_write.
  - eexists. by split.
Qed.

Lemma source_won_set_all host n base timedOut flag timer v ws : forall st,
  source_won base timedOut flag timer v st ->
  exists st',
    set_all host (S (S (S n))) base ws st = Some st' /\
    source_won base timedOut flag timer v st' /\
    timers st' = timers st /\ flags st' = flags st.
Proof.
  induction ws as [|w ws IH]; intros st Hst; cbn [set_all].
  - by exists st.
  - destruct (source_won_set host n base timedOut flag timer v w st Hst)
      as (st1 & -> & H1 & Ht1 & Hf1).
    cbn [mbind option_bind].
    destruct (IH st1 H1) as (st2 & -> & H2 & Ht2 & Hf2).
    exists st2. split; [done|]. split; [done|]. split; congruence.
Qed.

(** The first emission of the source after [timeout(ms)]. *)
Lemma timeout_first_emission host n base ms v s :
  base < length (cells s) -> subscribers s base = [] ->
  strict_neq v (value s base) = true ->
  exists s2,
    set_ host (S (S (S (S n)))) base v (time_timeout base ms s).2 = Some s2 /\
    source_won base (length (cells s)) (length (flags s)) (next_timer s) v s2 /\
    timers s2 = filter (fun t => t_id t <> next_timer s) (timers s) /\
    value s2 base = v.
Proof.
  intros Hb Hsub Hneq.
  destruct (time_timeout_facts base ms s Hb)
    as (_ & Hs1 & Hst & Hvt & Hold & Hlen & Hfl & Hti & _).
  set (t := length (cells s)) in *. set (fl := length (flags s)) in *.
  set (tm := next_timer s) in *. set (s1 := (time_timeout base ms s).2) in *.
  rewrite Hsub in Hs1. cbn [app] in Hs1.
  unfold set_. rewrite exec_set, (Hold base Hb), Hneq, exec_notify.
  rewrite subscribers_write, Hs1. cbn [lookup list_lookup sub_body].
  assert (get_flag (write base v s1) fl = false) as ->.
  { unfold get_flag. rewrite flags_write, Hfl.
    rewrite lookup_app_r, Nat.sub_diag by done. done. }
  set (st := clearTimeout tm (put_flag fl true (write base v s1))).
  change (exec host (S (S n)) (CSet t (value (write base v s1) base)) st)
    with (set_ host (S (S n)) t (value (write base v s1) base) st).
  assert (forall y, subscribers st y = subscribers s1 y) as Hsst.
  { intros y. change (subscribers st y) with (subscribers (write base v s1) y).
    by rewrite subscribers_write. }
  assert (forall y, value st y = value (write base v s1) y) as Hvst by done.
  assert (base < length (cells s1)) as Hb1 by lia.
  rewrite set_leaf by (by rewrite Hsst).
  rewrite Hvst, !value_write, !decide_True, decide_False by (done || lia).
  rewrite Hvt, Hneq. cbn [mbind option_bind].
  rewrite exec_notify, subscribers_write, Hsst, Hs1. cbn [lookup list_lookup].
  eexists. split; [done|].
  assert (timers st = filter (fun x => t_id x <> tm) (timers s)) as Htst.
  { unfold st, clearTimeout, put_flag.
    change (timers (set_timers ?x ?l ?k)) with l.
    change (timers (set_flags ?x ?l)) with (timers x).
    rewrite timers_write, Hti, filter_app, filter_cons_False, filter_nil.
    - by rewrite app_nil_r.
    - cbn. intros H. by apply H. }
  split; [|split].
  - split; [by rewrite subscribers_write, Hsst|].
    split.
    { unfold get_flag. rewrite flags_write. unfold st, clearTimeout, put_flag.
      change (flags (set_timers ?x ?l ?k)) with (flags x).
      change (flags (set_flags ?x ?l)) with l.
      rewrite flags_write, Hfl, list_lookup_insert_eq; [done|].
      rewrite length_app. cbn. unfold fl. lia. }
    split.
    { assert (t < length (cells st)) as Hlt.
      { change (cells st) with (cells (write base v s1)).
        rewrite length_write. lia. }
      by rewrite value_write, !decide_True. }
    split; [unfold t; lia|].
    rewrite timers_write, Htst. apply Forall_forall. intros x Hx.
    by apply list_elem_of_filter in Hx as [Hx _].
  - by rewrite timers_write.
  - rewrite value_write, decide_False by (unfold t; lia).
    rewrite Hvst, value_write, !decide_True by done. done.
Qed.

(** X12: [timeout(ms)] when the source emits first: the result holds the
    source's value until then, takes the emitted value, and is final from
    there on: the timer is no longer pending, later emissions of the source
    do not reach the result, and a late call of the timer's callback does
    nothing. *)
Theorem timeout_source_first_is_final (host : Host) (n : nat) (base : sid)
    (ms : Z) (v : Val) (ws : list Val) (s : Store) :
  base < length (cells s) -> subscribers s base = [] ->
  strict_neq v (value s base) = true ->
  let timedOut := (time_timeout base ms s).1 in
  let s1 := (time_timeout base ms s).2 in
  value s1 timedOut = value s base /\
  exists s2 s3,
    set_ host (S (S (S (S n)))) base v s1 = Some s2 /\
    value s2 timedOut = v /\
    set_all host (S (S (S (S n)))) base ws s2 = Some s3 /\
    value s3 timedOut = v /\
    timers s3 = filter (fun t => t_id t <> next_timer s) (timers s) /\
    run_timer (set_ host (S (S (S (S n)))))
      (TTimeoutFire (length (flags s)) ms timedOut) s3 = Some s3.
Proof.
  intros Hb Hsub Hneq timedOut s1.
  destruct (time_timeout_facts base ms s Hb) as (Ht & _ & _ & Hvt & _).
  unfold timedOut, s1. rewrite Ht. split; [done|].
  destruct (timeout_first_emission host n base ms v s Hb Hsub Hneq)
    as (s2 & Hset & Hwon & Hti & _).
  destruct (source_won_set_all host (S n) base _ _ _ v ws s2 Hwon)
    as (s3 & Hall & Hwon3 & Hti3 & _).
  exists s2, s3. split; [done|].
  split; [by destruct Hwon as (_ & _ & ? & _)|]. split; [done|].
  destruct Hwon3 as (_ & Hflag & Hv3 & _).
  split; [done|]. split; [congruence|].
  cbn [run_timer]. by rewrite Hflag.
Qed.

(** [t = time(42); r = t.timeout(50); t._set(1); t._set(2); t._set(3)] *)
Lemma timeout_source_first_is_final_witness :
  let s := (time (VNum 42) empty_store).2 in
  exists s2 s3,
    set_ demo_host 4 0 (VNum 1) (time_timeout 0 50 s).2 = Some s2 /\
    value s2 1 = VNum 1 /\
    set_all demo_host 4 0 [VNum 2; VNum 3] s2 = Some s3 /\
    value s3 0 = VNum 3 /\ value s3 1 = VNum 1 /\ timers s3 = [].
Proof.
  intros s.
  assert (0 < length (cells s)) as H1 by (vm_compute; lia).
  assert (subscribers s 0 = []) as H2 by (vm_compute; reflexivity).
  assert (strict_neq (VNum 1) (value s 0) = true) as H3
    by (vm_compute; reflexivity).
  destruct (timeout_source_first_is_final demo_host 0 0 50 (VNum 1)
              [VNum 2; VNum 3] s H1 H2 H3)
    as (_ & s2 & s3 & Hset & Hv2 & Hall & Hv3 & Hti & _).
  exists s2, s3. split; [exact Hset|]. split; [exact Hv2|].
  split; [exact Hall|].
  split; [|split; [exact Hv3|rewrite Hti; vm_compute; reflexivity]].
  vm_compute in Hset. injection Hset as <-.
  vm_compute in Hall. injection Hall as <-.
  vm_compute. reflexivity.
Defined.

Lemma now_write x v s : now (write x v s) = now s.
Proof. unfold write. by destruct (cells s !! x). Qed.

Lemma micro_write x v s : micro (write x v s) = micro s.
Proof. unfold write. by destruct (cells s !! x). Qed.

(** X13: [timeout(ms)] when nothing else is pending and the source does not
    emit: once [ms] have passed the result holds
    [new Error("Timeout after <ms>ms")], the source is unchanged and no
    timer is left. *)
Theorem timeout_timer_first_yields_error (host : Host) (k : nat) (base : sid)
    (ms : Z) (s : Store) :
  base < length (cells s) -> micro s = [] -> timers s = [] ->
  (forall msg, value s base <> VErr (next_ref s) msg) ->
  let timedOut := (time_timeout base ms s).1 in
  exists s2,
    run_until host (S (S (S k))) (now s + ms) (time_timeout base ms s).2
      = Some s2 /\
    value s2 timedOut
      = VErr (next_ref s) ("Timeout after " +:+ pretty ms +:+ "ms") /\
    value s2 base = value s base /\
    timers s2 = [] /\ micro s2 = [].
Proof.
  intros Hb Hmi Hti Hfresh timedOut.
  destruct (time_timeout_facts base ms s Hb)
    as (Ht & _ & Hst & Hvt & Hold & Hlen & Hfl & Hti1 & Hmi1 & Hnow1 & Hnr & _).
  unfold timedOut. rewrite Ht.
  set (t := length (cells s)) in *. set (fl := length (flags s)) in *.
  set (tm := next_timer s) in *. set (s1 := (time_timeout base ms s).2) in *.
  rewrite Hti in Hti1. cbn [app] in Hti1. rewrite Hmi in Hmi1.
  cbn [run_until]. unfold turn at 1. rewrite Hmi1, Hti1.
  cbn [earliest fold_left t_due t_id t_act]. rewrite Z.leb_refl.
  cbn [run_timer mbind option_bind].
  set (st := set_now (clearTimeout tm s1) (Z.max (now s1) (now s + ms))).
  assert (get_flag st fl = false) as ->.
  { unfold get_flag. change (flags st) with (flags s1).
    by rewrite Hfl, lookup_app_r, Nat.sub_diag. }
  rewrite (surjective_pairing (fresh_ref st)). cbv beta iota.
  change (fresh_ref st).1 with (next_ref s1). rewrite Hnr.
  set (e := VErr (next_ref s) ("Timeout after " +:+ pretty ms +:+ "ms")).
  assert (subscribers (fresh_ref st).2 t = []) as Hleaf by exact Hst.
  rewrite set_leaf by exact Hleaf.
  change (value (fresh_ref st).2 t) with (value s1 t). rewrite Hvt.
  assert (strict_neq e (value s base) = true) as ->.
  { unfold strict_neq, e. destruct (value s base) as [| | | | |r m| |] eqn:E;
      try done. cbn [strict_eq].
    destruct (Nat.eqb_spec (next_ref s) r) as [<-|]; [|done].
    by destruct (Hfresh m). }
  cbn [mbind option_bind]. unfold turn.
  rewrite micro_write, timers_write.
  change (micro (fresh_ref st).2) with (micro s1).
  change (timers (fresh_ref st).2)
    with (filter (fun x => t_id x <> tm) (timers s1)).
  rewrite Hmi1, Hti1, filter_cons_False, filter_nil
    by (cbn; intros H; by apply H).
  cbn [earliest fold_left]. eexists. split; [done|].
  change (value (set_now ?x _)) with (value x).
  change (timers (set_now ?x _)) with (timers x).
  change (micro (set_now ?x _)) with (micro x).
  rewrite timers_write, micro_write.
  change (micro (fresh_ref st).2) with (micro s1).
  change (timers (fresh_ref st).2)
    with (filter (fun x => t_id x <> tm) (timers s1)).
  rewrite Hmi1, Hti1, filter_cons_False, filter_nil
    by (cbn; intros H; by apply H).
  assert (t < length (cells (fresh_ref st).2)) as Hlt.
  { change (cells (fresh_ref st).2) with (cells s1). lia. }
  rewrite !value_write, !decide_True, decide_False by (done || (unfold t; lia)).
  change (value (fresh_ref st).2 base) with (value s1 base).
  by rewrite Hold.
Qed.

(** [t = time(42); r = t.timeout(50)], then 50 ms pass. *)
Lemma timeout_timer_first_yields_error_witness :
  let s := (time (VNum 42) empty_store).2 in
  exists s2,
    run_until demo_host 3 50 (time_timeout 0 50 s).2 = Some s2 /\
    value s2 1 = VErr 0 "Timeout after 50ms" /\ value s2 0 = VNum 42.
Proof.
  intros s.
  assert (0 < length (cells s)) as H1 by (vm_compute; lia).
  assert (micro s = []) as H2 by (vm_compute; reflexivity).
  assert (timers s = []) as H3 by (vm_compute; reflexivity).
  assert (forall msg, value s 0 <> VErr (next_ref s) msg) as H4.
  { intros msg. vm_compute. intros [=]. }
  destruct (timeout_timer_first_yields_error demo_host 0 0 50 s H1 H2 H3 H4)
    as (s2 & Hrun & Hv & Hb & _).
  exists s2. split; [exact Hrun|]. split; [exact Hv|exact Hb].
Defined.

(* ===================================================================== *)
(** ** [retry]: every number of retries                                   *)
(* ===================================================================== *)

Lemma set_leaf_ge host fuel x v s :
  2 <= fuel -> subscribers s x = [] ->
  set_ host fuel x v s =
  Some (if strict_neq v (value s x) then write x v s else s).
Proof.
  intros Hf Hs. destruct fuel as [|[|n]]; [lia|lia|]. by apply set_leaf.
Qed.

Lemma same_host_fresh_ref s : same_host s (fresh_ref s).2.
Proof. by repeat split. Qed.

Lemma backoff_write x v s : backoff (write x v s) = backoff s.
Proof. unfold write. by destruct (cells s !! x). Qed.

Lemma calls_write x v s : calls (write x v s) = calls s.
Proof. unfold write. by destruct (cells s !! x). Qed.

(** The fetch stores a new object literal [VAsync r d l e], allocated after
    everything [st] holds, through a store [st'] with the cells of [st]. *)
Lemma fetch_cell_put host fuel b r d l e st st' :
  2 <= fuel -> fetch_cell b st -> cells st' = cells st ->
  next_ref st <= r -> r < next_ref st' ->
  set_ host fuel b (VAsync r d l e) st' = Some (write b (VAsync r d l e) st') /\
  fetch_cell b (write b (VAsync r d l e) st') /\
  value (write b (VAsync r d l e) st') b = VAsync r d l e.
Proof.
  intros Hf (Hsub & Hb & r0 & d0 & l0 & e0 & Hv & Hr) Hcells Hle Hlt.
  assert (subscribers st' b = []) as Hsub'
    by (by rewrite (subscribers_same_cells st st' b Hcells)).
  rewrite set_leaf_ge by done.
  rewrite (value_same_cells st st' b Hcells), Hv.
  unfold strict_neq. cbn [strict_eq].
  replace (r =? r0) with false by (symmetry; apply Nat.eqb_neq; lia).
  cbn [negb]. split; [done|].
  assert (value (write b (VAsync r d l e) st') b = VAsync r d l e) as Hval.
  { rewrite value_write, !decide_True by (done || by rewrite Hcells). done. }
  split; [|done]. split; [by rewrite subscribers_write|].
  split; [by rewrite length_write, Hcells|].
  exists r, d, l, e. split; [done|]. by rewrite next_ref_write.
Qed.

(** [retryFetch._set({ error, loading: false })] with the wrapped reason. *)
Lemma fetch_cell_fail host fuel b reason st st0 :
  2 <= fuel -> fetch_cell b st -> cells st0 = cells st ->
  next_ref st0 = next_ref st ->
  exists st1 ref e,
    (let '(e, s1) := wrap_error host reason st0 in
     let '(o, s2) := obj_error e s1 in set_ host fuel b o s2) = Some st1 /\
    fetch_cell b st1 /\ same_host st0 st1 /\
    value st1 b = VAsync ref VUndef false e /\ is_error e = true.
Proof.
  intros Hf Hcell Hcells Hnr. unfold wrap_error, obj_error.
  destruct (is_error reason) eqn:Herr.
  - rewrite (surjective_pairing (fresh_ref st0)). cbv beta iota.
    change (fresh_ref st0).1 with (next_ref st0).
    destruct (fetch_cell_put host fuel b (next_ref st0) VUndef false reason
                st (fresh_ref st0).2) as (-> & H2 & H3);
      [done|done|done|lia|cbn; lia|].
    eexists _, _, _. split; [done|]. split; [done|]. split; [|by split].
    eapply same_host_trans; [apply same_host_fresh_ref|apply same_host_write].
  - rewrite (surjective_pairing (fresh_ref st0)). cbv beta iota.
    rewrite (surjective_pairing (fresh_ref (fresh_ref st0).2)). cbv beta iota.
    change (fresh_ref (fresh_ref st0).2).1 with (S (next_ref st0)).
    change (fresh_ref st0).1 with (next_ref st0).
    destruct (fetch_cell_put host fuel b (S (next_ref st0)) VUndef false
                (VErr (next_ref st0) (js_String host reason))
                st (fresh_ref (fresh_ref st0).2).2) as (-> & H2 & H3);
      [done|done|done|lia|cbn; lia|].
    eexists _, _, _. split; [done|]. split; [done|]. split; [|by split].
    eapply same_host_trans; [apply same_host_fresh_ref|].
    eapply same_host_trans; [apply same_host_fresh_ref|apply same_host_write].
Qed.

(** [attemptFetch(attemptsLeft)] up to its [await]. *)
Lemma fetch_cell_attempt host fuel fetcher n a b st st0 :
  2 <= fuel -> fetch_cell b st -> cells st0 = cells st ->
  next_ref st0 = next_ref st ->
  exists st1,
    attemptFetch_with (set_ host fuel) fetcher n a b st0 = Some st1 /\
    fetch_cell b st1 /\
    micro st1 = micro st0 ++ [MAttempt fetcher n a b (fetcher (calls st0))] /\
    calls st1 = S (calls st0) /\ timers st1 = timers st0 /\
    backoff st1 = backoff st0 /\
    (exists ref, value st1 b = VAsync ref VUndef true VUndef).
Proof.
  intros Hf Hcell Hcells Hnr. unfold attemptFetch_with, obj_loading.
  rewrite (surjective_pairing (fresh_ref st0)). cbv beta iota.
  change (fresh_ref st0).1 with (next_ref st0).
  destruct (fetch_cell_put host fuel b (next_ref st0) VUndef true VUndef
              st (fresh_ref st0).2) as (-> & H2 & H3);
    [done|done|done|lia|cbn; lia|].
  cbn [mbind option_bind]. eexists. split; [done|].
  unfold await_fetcher.
  set (w := write b (VAsync (next_ref st0) VUndef true VUndef) (fresh_ref st0).2)
    in *.
  split; [exact H2|].
  change (micro (set_micro w ?m ?c)) with m.
  change (calls (set_micro w ?m ?c)) with c.
  change (timers (set_micro w ?m ?c)) with (timers w).
  change (backoff (set_micro w ?m ?c)) with (backoff w).
  change (value (set_micro w ?m ?c)) with (value w).
  unfold w. rewrite micro_write, calls_write, timers_write, backoff_write.
  split; [done|]. split; [done|]. split; [done|]. split; [done|].
  by eexists.
Qed.

Lemma run_loop_S host n s :
  run_loop host (S n) s =
  match turn host n None s with
  | None => Some s
  | Some r => s' ← r; run_loop host n s'
  end.
Proof. done. Qed.

Lemma turn_micro host f d s m rest :
  micro s = m :: rest ->
  turn host f d s =
  Some (run_micro host (set_ host f) m (set_micro s rest (calls s))).
Proof. intros H. unfold turn. by rewrite H. Qed.

Lemma turn_idle host f d s :
  micro s = [] -> timers s = [] -> turn host f d s = None.
Proof. intros H1 H2. unfold turn. by rewrite H1, H2. Qed.

Lemma turn_timer host f s t :
  micro s = [] -> timers s = [t] ->
  turn host f None s =
  Some (run_timer (set_ host f) (t_act t)
          (set_now (clearTimeout (t_id t) s) (Z.max (now s) (t_due t)))).
Proof. intros H1 H2. unfold turn. by rewrite H1, H2. Qed.

Lemma backoff_delays_S from count :
  backoff_delays from (S count) =
  (2 ^ Z.of_nat from * 1000)%Z :: backoff_delays (S from) count.
Proof. done. Qed.

(** The attempts of [attemptFetch] from [attemptsLeft = a] on, for a
    fetcher that always rejects. *)
Lemma retry_attempts_fail host reason n b k : forall (a : nat) st,
  a <= n -> fetch_cell b st ->
  micro st = [MAttempt (always_rejects reason) (Z.of_nat n) (Z.of_nat a) b
                (Reject reason)] ->
  timers st = [] ->
  exists st',
    run_loop host (2 * a + 4 + k) st = Some st' /\
    calls st' = calls st + a /\
    backoff st' = backoff st ++ backoff_delays (n - a) a /\
    micro st' = [] /\ timers st' = [] /\
    exists ref e, value st' b = VAsync ref VUndef false e /\ is_error e = true.
Proof.
  induction a as [|a IH]; intros st Ha Hcell Hmi Hti.
  - change (2 * 0 + 4 + k) with (S (S (S (S k)))).
    rewrite run_loop_S, (turn_micro _ _ _ _ _ _ Hmi). cbn [run_micro].
    change (0 <? Z.of_nat 0)%Z with false. cbv iota.
    destruct (fetch_cell_fail host (S (S (S k))) b reason st
                (set_micro st [] (calls st)))
      as (st1 & ref & e & -> & Hc1 & Hsh & Hv & He); [lia|done|done|done|].
    destruct Hsh as (_ & _ & Hti1 & _ & _ & Hmi1 & _ & Hca1 & Hbo1).
    cbn [mbind option_bind].
    assert (micro st1 = []) as Hm by (by rewrite Hmi1).
    assert (timers st1 = []) as Ht by (rewrite Hti1; exact Hti).
    rewrite run_loop_S, turn_idle by done.
    exists st1. split; [done|]. split; [rewrite Hca1; cbn; lia|].
    split; [rewrite Hbo1; cbn; by rewrite app_nil_r|].
    split; [done|]. split; [done|]. by exists ref, e.
  - replace (2 * S a + 4 + k) with (S (S (2 * a + 4 + k))) by lia.
    rewrite run_loop_S, (turn_micro _ _ _ _ _ _ Hmi). cbn [run_micro].
    replace (0 <? Z.of_nat (S a))%Z with true by (symmetry; apply Z.ltb_lt; lia).
    cbv iota. unfold setTimeout. cbv beta iota.
    set (st0 := set_micro st [] (calls st)).
    set (delay := (2 ^ (Z.of_nat n - Z.of_nat (S a)) * 1000)%Z).
    set (T := mkTimer (next_timer st0) (now st0 + delay)
                (TAttempt (always_rejects reason) (Z.of_nat n)
                          (Z.of_nat (S a)) b)).
    set (st1 := set_backoff (set_timers st0 (timers st0 ++ [T])
                               (S (next_timer st0)))
                  (backoff (set_timers st0 (timers st0 ++ [T])
                              (S (next_timer st0))) ++ [delay])).
    cbn [mbind option_bind].
    assert (micro st1 = []) as Hmi1 by done.
    assert (timers st1 = [T]) as Hti1.
    { change (timers st1) with (timers st ++ [T]). by rewrite Hti. }
    rewrite run_loop_S, (turn_timer _ _ _ _ Hmi1 Hti1).
    cbn [t_act t_id t_due T run_timer].
    replace (Z.of_nat (S a) - 1)%Z with (Z.of_nat a) by lia.
    set (st2 := set_now (clearTimeout (next_timer st0) st1)
                  (Z.max (now st1) (now st0 + delay))).
    destruct (fetch_cell_attempt host (2 * a + 4 + k)
                (always_rejects reason) (Z.of_nat n) (Z.of_nat a) b st st2)
      as (st3 & -> & Hc3 & Hmi3 & Hca3 & Hti3 & Hbo3 & _);
      [lia|done|done|done|].
    cbn [mbind option_bind].
    destruct (IH st3) as (st' & Hrun & Hca & Hbo & Hm & Ht & Hv);
      [lia|done|by rewrite Hmi3| |].
    { rewrite Hti3. change (timers st2)
        with (filter (fun t => t_id t <> next_timer st0) (timers st1)).
      rewrite Hti1, filter_cons_False, filter_nil; [done|].
      cbn. intros H. by apply H. }
    exists st'. split; [done|]. split.
    { rewrite Hca, Hca3. change (calls st2) with (calls st). lia. }
    split; [|done].
    rewrite Hbo, Hbo3. change (backoff st2) with (backoff st ++ [delay]).
    rewrite <- app_assoc. f_equal. cbn [app].
    replace (n - a) with (S (n - S a)) by lia.
    rewrite backoff_delays_S. f_equal. unfold delay.
    rewrite <- Nat2Z.inj_sub by lia. done.
Qed.

Lemma backoff_fetch_started fetcher s :
  backoff (fetch_started fetcher s) = backoff s.
Proof.
  unfold fetch_started, await_fetcher.
  change (backoff (set_micro ?x _ _)) with (backoff x).
  by rewrite backoff_write.
Qed.

(** X14: for every [n], [retry(n)] on a fetcher that always rejects, with
    nothing else pending: the event loop comes to rest, the returned Fetch
    ends in [{ error, loading: false }] with an [Error], the waits between
    attempts were 1000, 2000, ..., [2^(n-1) * 1000] ms, and the fetcher has
    been invoked [n + 2] times: the [1 + n] attempts of [attemptFetch] and
    the one of [fetch(fetcher, deps)] that builds the result. *)
Theorem retry_always_failing (host : Host) (m k n : nat) (reason : Val)
    (self : FetchObj) (s : Store) :
  f_fetcher self = always_rejects reason ->
  (forall dep, dep ∈ f_deps self -> dep < length (cells s)) ->
  micro s = [] -> timers s = [] ->
  exists r s1 s2,
    retry host (S (S m)) self (Z.of_nat n) s = Some (r, s1) /\
    run_loop host (2 * n + 5 + k) s1 = Some s2 /\
    calls s2 = calls s + n + 2 /\
    backoff s2 = backoff s ++ backoff_delays 0 n /\
    (exists ref e,
       value s2 (f_cell r) = VAsync ref VUndef false e /\ is_error e = true) /\
    micro s2 = [] /\ timers s2 = [].
Proof.
  intros Hf Hdeps Hmi Hti. unfold retry. rewrite fetch_unfold, Hf.
  cbn [mbind option_bind f_cell].
  destruct (fetch_result_facts (always_rejects reason) (f_deps self) s Hdeps)
    as (Hv & Hsub & Hb & Hc & Hm & Hn & _ & _).
  destruct (fetch_started_facts (always_rejects reason) s)
    as (_ & _ & _ & _ & _ & _ & _ & _ & Hti0 & _).
  pose proof (backoff_fetch_started (always_rejects reason) s) as Hbo0.
  destruct (same_host_subscribe_deps (always_rejects reason)
              (length (cells s)) (f_deps self)
              (fetch_started (always_rejects reason) s))
    as ((_ & _ & Hti1 & _ & _ & _ & _ & _ & Hbo1) & _).
  set (b := length (cells s)) in *.
  set (s1 := subscribe_deps (always_rejects reason) b (f_deps self)
               (fetch_started (always_rejects reason) s)) in *.
  rewrite Hmi in Hm. cbn [app] in Hm.
  assert (fetch_cell b s1) as Hcell.
  { split; [done|]. split; [done|]. eexists _, _, _, _. split; [exact Hv|lia]. }
  destruct (fetch_cell_attempt host (S (S m)) (always_rejects reason)
              (Z.of_nat n) (Z.of_nat n) b s1 s1)
    as (s2 & -> & Hc2 & Hmi2 & Hca2 & Hti2 & Hbo2 & _); [lia|done|done|done|].
  cbn [mbind option_bind]. exists (mkFetch b (always_rejects reason) (f_deps self)), s2.
  rewrite Hm in Hmi2. cbn [app] in Hmi2.
  replace (2 * n + 5 + k) with (S (2 * n + 4 + k)) by lia.
  rewrite run_loop_S, (turn_micro _ _ _ _ _ _ Hmi2).
  change (always_rejects reason (calls s)) with (Reject reason).
  cbn [run_micro].
  destruct (fetch_cell_fail host (2 * n + 4 + k) b reason s2
              (set_micro s2 [MAttempt (always_rejects reason) (Z.of_nat n)
                               (Z.of_nat n) b
                               (always_rejects reason (calls s1))]
                 (calls s2)))
    as (s3 & ref & e & -> & Hc3 & Hsh & _); [lia|done|done|done|].
  destruct Hsh as (_ & _ & Hti3 & _ & _ & Hmi3 & _ & Hca3 & Hbo3).
  cbn [mbind option_bind].
  destruct (retry_attempts_fail host reason n b k n s3)
    as (s4 & Hrun & Hca4 & Hbo4 & Hm4 & Ht4 & Hv4);
    [lia|done|by rewrite Hmi3|rewrite Hti3; cbn; congruence|].
  exists s4. split; [done|]. split; [exact Hrun|].
  split. { rewrite Hca4, Hca3. cbn. rewrite Hca2, Hc. lia. }
  split. { rewrite Hbo4, Hbo3, Nat.sub_diag. cbn. by rewrite Hbo2, Hbo1, Hbo0. }
  done.
Qed.

(** [f = fetch(() => Promise.reject('down')); r = f.retry(3)] on an empty
    store: five invocations, waits of 1, 2 and 4 seconds. *)
Lemma retry_always_failing_witness :
  let self := mkFetch 0 (always_rejects (VStr "down")) [] in
  exists r s1 s2,
    retry demo_host 2 self 3 empty_store = Some (r, s1) /\
    run_loop demo_host 11 s1 = Some s2 /\
    calls s2 = 5 /\ backoff s2 = [1000; 2000; 4000]%Z.
Proof.
  intros self.
  destruct (retry_always_failing demo_host 0 0 3 (VStr "down") self empty_store)
    as (r & s1 & s2 & H1 & H2 & H3 & H4 & _).
  - reflexivity.
  - intros dep Hin. by apply elem_of_nil in Hin.
  - reflexivity.
  - reflexivity.
  - exists r, s1, s2. split; [exact H1|]. split; [exact H2|].
    split; [exact H3|exact H4].
Defined.







(* ===================================================================== *)
(** ** [cache]: the miss path                                             *)
(* ===================================================================== *)

Lemma cache_keys_differ key :
  "fetch_cache_time_" +:+ key <> "fetch_cache_" +:+ key.
Proof.
  intros H. cbn in H. injection H as H.
  apply (f_equal String.length) in H. simpl in H. lia.
Qed.

Lemma storage_write x v s : storage (write x v s) = storage s.
Proof. unfold write. by destruct (cells s !! x). Qed.

Lemma cells_cache_write host key v s : cells (cache_write host key v s) = cells s.
Proof. unfold cache_write. by destruct (_ && _). Qed.

Lemma calls_cache_write host key v s : calls (cache_write host key v s) = calls s.
Proof. unfold cache_write. by destruct (_ && _). Qed.

(** An emission of the source of [cache]'s subscriber: the state is stored
    when it is a success with truthy data, and handed on to [cached]. *)
Lemma cache_subscriber_run host n key self b o st :
  subscribers st self = [SubCache key b] -> subscribers st b = [] ->
  b <> self -> self < length (cells st) -> b < length (cells st) ->
  strict_neq o (value st self) = true -> strict_neq o (value st b) = true ->
  exists st',
    set_ host (S (S (S (S n)))) self o st = Some st' /\
    value st' self = o /\ value st' b = o /\
    storage st' = storage (cache_write host key o st) /\
    calls st' = calls st.
Proof.
  intros Hself Hb Hne Hlself Hlb Hn1 Hn2.
  unfold set_. rewrite exec_set, Hn1, exec_notify, subscribers_write, Hself.
  cbn [lookup list_lookup sub_body].
  rewrite value_write, !decide_True by done.
  set (w := write self o st).
  change (exec host (S (S n)) (CSet b o) (cache_write host key o w))
    with (set_ host (S (S n)) b o (cache_write host key o w)).
  pose proof (cells_cache_write host key o w) as Hcw.
  rewrite set_leaf
    by (rewrite (subscribers_same_cells w _ b Hcw); unfold w;
        by rewrite subscribers_write).
  rewrite (value_same_cells w _ b Hcw). unfold w at 1.
  rewrite value_write, decide_False, Hn2 by done.
  cbn [mbind option_bind].
  rewrite exec_notify, subscribers_write,
    (subscribers_same_cells w _ self Hcw).
  unfold w at 1. rewrite subscribers_write, Hself. cbn [lookup list_lookup].
  eexists. split; [done|].
  assert (length (cells (cache_write host key o w)) = length (cells st)) as Hl.
  { rewrite Hcw. unfold w. by rewrite length_write. }
  split.
  { rewrite value_write, decide_False by done.
    rewrite (value_same_cells w _ self Hcw). unfold w.
    by rewrite value_write, !decide_True. }
  split. { rewrite value_write, !decide_True by (done || lia). done. }
  split.
  { rewrite storage_write. unfold cache_write.
    destruct (_ && _); [|by unfold w; rewrite storage_write].
    unfold setItem, now_string.
    change (storage (set_storage ?x ?m)) with m.
    unfold w. by rewrite storage_write, now_write. }
  rewrite calls_write, calls_cache_write. unfold w. by rewrite calls_write.
Qed.

Lemma now_fetch_started fetcher s : now (fetch_started fetcher s) = now s.
Proof.
  unfold fetch_started, await_fetcher.
  change (now (set_micro ?x _ _)) with (now x). by rewrite now_write.
Qed.

(** The store [cache] returns on the miss path. *)
Lemma cache_miss_facts fetcher deps key self s :
  (forall dep, dep ∈ deps -> dep < length (cells s)) ->
  self ∉ deps -> fetch_cell self s ->
  let b := length (cells s) in
  let s1 := subscribe self (SubCache key b)
              (subscribe_deps fetcher b deps (fetch_started fetcher s)) in
  subscribers s1 self = [SubCache key b] /\ subscribers s1 b = [] /\
  b <> self /\ self < length (cells s1) /\ b < length (cells s1) /\
  value s1 self = value s self /\
  value s1 b = VAsync (S (next_ref s)) VUndef true VUndef /\
  next_ref s1 = S (S (next_ref s)) /\
  storage s1 = storage s /\ now s1 = now s /\ calls s1 = S (calls s).
Proof.
  intros Hdeps Hnotin (Hsub & Hlt & _) b s1.
  destruct (fetch_result_facts fetcher deps s Hdeps)
    as (Hv & Hsb & Hb & Hc & _ & Hn & Hold & _).
  destruct (fetch_started_facts fetcher s)
    as (_ & _ & _ & Hsub0 & _ & _ & _ & Hsto0 & _).
  destruct (same_host_subscribe_deps fetcher (length (cells s)) deps
              (fetch_started fetcher s))
    as ((_ & _ & _ & _ & Hnow1 & _ & Hsto1 & _) & _).
  fold b in Hv, Hsb, Hb, Hc, Hn, Hold, Hnow1, Hsto1.
  set (s1a := subscribe_deps fetcher b deps (fetch_started fetcher s)) in *.
  destruct (same_host_subscribe self (SubCache key b) s1a)
    as (_ & _ & _ & _ & Hnow2 & _ & Hsto2 & Hca2 & _).
  fold s1 in Hnow2, Hsto2, Hca2.
  assert (b <> self) as Hne by (unfold b; lia).
  assert (self < length (cells s1a)) as Hl1 by (unfold b in Hb; lia).
  split.
  { unfold s1. rewrite subscribers_subscribe, !decide_True by done.
    unfold s1a. rewrite subscribers_subscribe_deps_other by done.
    by rewrite Hsub0, Hsub. }
  split. { unfold s1. by rewrite subscribers_subscribe, decide_False by tauto. }
  split; [done|].
  unfold s1 at 1 2. rewrite length_subscribe. split; [done|]. split; [done|].
  split. { unfold s1. rewrite value_subscribe. by apply Hold. }
  split. { unfold s1. by rewrite value_subscribe. }
  split. { unfold s1. by rewrite next_ref_subscribe. }
  split. { by rewrite Hsto2, Hsto1, Hsto0. }
  split. { by rewrite Hnow2, Hnow1, now_fetch_started. }
  by rewrite Hca2.
Qed.

(** X16: [cache(key, ttl)] when nothing is stored under the key: the
    returned Fetch is new, starts in [{ loading: true }], and the fetcher
    has been invoked once for it.  When the promise of the instance [cache]
    was called on settles, the returned Fetch takes the same state; the data
    and the time are stored under the key only when the promise resolved
    with truthy data: a result such as [0], [""], [false] or [undefined] and
    a rejection are handed on but not stored. *)
Theorem cache_miss_stores_truthy_results (host : Host) (n : nat)
    (self : FetchObj) (key : string) (ttl : Z) (s : Store) :
  getItem ("fetch_cache_" +:+ key) s = None ->
  (forall dep, dep ∈ f_deps self -> dep < length (cells s)) ->
  f_cell self ∉ f_deps self -> fetch_cell (f_cell self) s ->
  exists cached s1,
    cache host (S (S n)) self key ttl s = Some (cached, s1) /\
    f_cell cached = length (cells s) /\
    (exists ref, value s1 (f_cell cached) = VAsync ref VUndef true VUndef) /\
    calls s1 = S (calls s) /\ storage s1 = storage s /\
    forall o, exists s2,
      run_micro host (set_ host (S (S (S (S n)))))
        (MExec (f_cell self) o) s1 = Some s2 /\
      value s2 (f_cell cached) = value s2 (f_cell self) /\
      calls s2 = calls s1 /\
      match o with
      | Resolve d =>
          st_data (value s2 (f_cell cached)) = d /\
          if truthy d
          then getItem ("fetch_cache_" +:+ key) s2
                 = Some (JSON_stringify host d) /\
               getItem ("fetch_cache_time_" +:+ key) s2
                 = Some (pretty (now s))
          else storage s2 = storage s
      | Reject _ =>
          is_error (st_error (value s2 (f_cell cached))) = true /\
          storage s2 = storage s
      end.
Proof.
  intros Hmiss Hdeps Hnotin Hcell. unfold cache. rewrite fetch_unfold.
  cbn [mbind option_bind f_cell].
  destruct (cache_miss_facts (f_fetcher self) (f_deps self) key (f_cell self) s
              Hdeps Hnotin Hcell)
    as (H1 & H2 & H3 & H4 & H5 & H6 & H7 & H8 & H9 & H10 & H11).
  destruct (fetch_started_facts (f_fetcher self) s)
    as (_ & _ & _ & _ & _ & _ & _ & Hsto0 & _).
  destruct (same_host_subscribe_deps (f_fetcher self) (length (cells s))
              (f_deps self) (fetch_started (f_fetcher self) s))
    as ((_ & _ & _ & _ & _ & _ & Hsto1 & _) & _).
  set (b := length (cells s)) in *.
  set (s1a := subscribe_deps (f_fetcher self) b (f_deps self)
                (fetch_started (f_fetcher self) s)) in *.
  set (s1 := subscribe (f_cell self) (SubCache key b) s1a) in *.
  unfold getItem at 1. rewrite Hsto1, Hsto0. unfold getItem in Hmiss.
  rewrite Hmiss. eexists _, s1. split; [done|]. cbn [f_cell].
  split; [done|]. split; [by eexists|]. split; [done|]. split; [done|].
  destruct Hcell as (_ & _ & r0 & d0 & l0 & e0 & Hv0 & Hr0).
  assert (forall r d l e st, next_ref s1 <= r -> cells st = cells s1 ->
            calls st = calls s1 -> storage st = storage s1 -> now st = now s1 ->
            exists s2,
              set_ host (S (S (S (S n)))) (f_cell self) (VAsync r d l e) st
                = Some s2 /\
              value s2 (f_cell self) = VAsync r d l e /\
              value s2 b = VAsync r d l e /\
              storage s2
                = storage (cache_write host key (VAsync r d l e) st) /\
              calls s2 = calls s1) as Hput.
  { intros r d l e st Hr Hcs Hca Hsto Hnow.
    destruct (cache_subscriber_run host n key (f_cell self) b (VAsync r d l e) st)
      as (s2 & Hs2 & Hv1 & Hv2 & Hst & Hc2).
    - by rewrite (subscribers_same_cells s1 st _ Hcs).
    - by rewrite (subscribers_same_cells s1 st _ Hcs).
    - done.
    - by rewrite Hcs.
    - by rewrite Hcs.
    - rewrite (value_same_cells s1 st _ Hcs), H6, Hv0.
      unfold strict_neq. cbn [strict_eq].
      replace (r =? r0) with false by (symmetry; apply Nat.eqb_neq; lia). done.
    - rewrite (value_same_cells s1 st _ Hcs), H7.
      unfold strict_neq. cbn [strict_eq].
      replace (r =? S (next_ref s)) with false
        by (symmetry; apply Nat.eqb_neq; lia). done.
    - exists s2. split; [done|]. split; [done|]. split; [done|].
      split; [done|]. congruence. }
  intros [d|reason]; cbn [run_micro]; unfold obj_data, obj_error, wrap_error.
  - rewrite (surjective_pairing (fresh_ref s1)). cbv beta iota.
    destruct (Hput (next_ref s1) d false VUndef (fresh_ref s1).2)
      as (s2 & Hs2 & Hv1 & Hv2 & Hst & Hc2); [done..|].
    exists s2. split; [exact Hs2|]. split; [congruence|]. split; [done|].
    rewrite Hv2. split; [done|]. unfold getItem. rewrite Hst.
    unfold cache_write. cbn [st_data st_loading st_error truthy negb].
    rewrite !andb_true_r. destruct (truthy d).
    + unfold setItem, now_string.
      change (storage (set_storage ?x ?m)) with m.
      change (now (set_storage ?x ?m)) with (now x).
      change (now (fresh_ref s1).2) with (now s1). rewrite H10.
      change (storage (set_storage ?x ?m)) with m.
      split; [|by rewrite lookup_insert_eq].
      rewrite lookup_insert_ne by apply cache_keys_differ.
      by rewrite lookup_insert_eq.
    + change (storage (fresh_ref s1).2) with (storage s1). done.
  - assert (exists r e st, next_ref s1 <= r /\ cells st = cells s1 /\
              calls st = calls s1 /\ storage st = storage s1 /\
              now st = now s1 /\ is_error e = true /\
              (let '(e, s1) :=
                 if is_error reason then (reason, s1)
                 else let '(r, s0) := fresh_ref s1 in
                      (VErr r (js_String host reason), s0) in
               let '(o, s2) := let '(r, s0) := fresh_ref s1 in
                               (VAsync r VUndef false e, s0) in
               set_ host (S (S (S (S n)))) (f_cell self) o s2)
              = set_ host (S (S (S (S n)))) (f_cell self)
                  (VAsync r VUndef false e) st)
      as (r & e & st & Hr & Hcs & Hca & Hsto & Hnow & He & ->).
    { destruct (is_error reason) eqn:Herr.
      - exists (next_ref s1), reason, (fresh_ref s1).2. by repeat split.
      - exists (S (next_ref s1)), (VErr (next_ref s1) (js_String host reason)),
          (fresh_ref (fresh_ref s1).2).2.
        repeat split; try done. lia. }
    destruct (Hput r VUndef false e st) as (s2 & Hs2 & Hv1 & Hv2 & Hst & Hc2);
      [done..|].
    exists s2. split; [exact Hs2|]. split; [congruence|]. split; [done|].
    rewrite Hv2. split; [done|]. rewrite Hst. unfold cache_write.
    cbn [st_data truthy andb]. congruence.
Qed.

(** [f = fetch(fetcher); c = f.cache('k', 1000)] with an empty
    [localStorage]; then the promise of [f] resolves with 7, or with 0. *)
Lemma cache_miss_stores_truthy_results_witness :
  let fetcher : Fetcher := fun _ => Resolve (VNum 7) in
  let s := subscribe_deps fetcher 0 [] (fetch_started fetcher empty_store) in
  let f := mkFetch 0 fetcher [] in
  fetch demo_host 2 fetcher [] empty_store = Some (f, s) /\
  exists c s1,
    cache demo_host 2 f "k" 1000 s = Some (c, s1) /\
    (exists s2,
       run_micro demo_host (set_ demo_host 4) (MExec 0 (Resolve (VNum 7))) s1
         = Some s2 /\
       getItem "fetch_cache_k" s2 = Some "null" /\
       getItem "fetch_cache_time_k" s2 = Some "0") /\
    (exists s2,
       run_micro demo_host (set_ demo_host 4) (MExec 0 (Resolve (VNum 0))) s1
         = Some s2 /\
       st_data (value s2 (f_cell c)) = VNum 0 /\
       storage s2 = storage s).
Proof.
  intros fetcher s f. split; [vm_compute; reflexivity|].
  assert (getItem ("fetch_cache_" +:+ "k") s = None) as H1
    by (vm_compute; reflexivity).
  assert (forall dep, dep ∈ f_deps f -> dep < length (cells s)) as H2.
  { intros dep Hin. by apply elem_of_nil in Hin. }
  assert (f_cell f ∉ f_deps f) as H3 by apply not_elem_of_nil.
  assert (fetch_cell (f_cell f) s) as H4.
  { split; [vm_compute; reflexivity|]. split; [vm_compute; lia|].
    exists 1, VUndef, true, VUndef. split; [vm_compute; reflexivity|].
    vm_compute. lia. }
  destruct (cache_miss_stores_truthy_results demo_host 0 f "k" 1000 s
              H1 H2 H3 H4)
    as (c & s1 & Hc & _ & _ & _ & _ & Hsettle).
  exists c, s1. split; [exact Hc|]. split.
  - destruct (Hsettle (Resolve (VNum 7))) as (s2 & Hr & _ & _ & _ & Hk & Ht).
    exists s2. split; [exact Hr|]. split; [exact Hk|exact Ht].
  - destruct (Hsettle (Resolve (VNum 0))) as (s2 & Hr & _ & _ & Hd & Hs).
    exists s2. split; [exact Hr|]. split; [exact Hd|exact Hs].
Defined.

(* ===================================================================== *)
(** ** [cache]: reading an entry back                                     *)
(* ===================================================================== *)

Lemma digit_of_pretty_N_char r :
  (r < 10)%N -> digit_of (pretty_N_char r) = Some (Z.of_N r).
Proof.
  intros Hr.
  assert (r = 0 \/ r = 1 \/ r = 2 \/ r = 3 \/ r = 4 \/ r = 5 \/ r = 6 \/
          r = 7 \/ r = 8 \/ r = 9)%N as H by lia.
  destruct H as [->|[->|[->|[->|[->|[->|[->|[->|[->| ->]]]]]]]]]; reflexivity.
Qed.

Lemma parseInt_digit r rest :
  (r < 10)%N ->
  parseInt (String (pretty_N_char r) rest) =
  match parse_digits None (String (pretty_N_char r) rest) with
  | Some n => VNum n
  | None => VNaN
  end.
Proof.
  intros Hr.
  assert (r = 0 \/ r = 1 \/ r = 2 \/ r = 3 \/ r = 4 \/ r = 5 \/ r = 6 \/
          r = 7 \/ r = 8 \/ r = 9)%N as H by lia.
  destruct H as [->|[->|[->|[->|[->|[->|[->|[->|[->| ->]]]]]]]]]; reflexivity.
Qed.

(** The decimal digits that [toString] writes start with a digit. *)
Lemma pretty_N_go_head x : forall s,
  (0 < x)%N ->
  exists r rest, (r < 10)%N /\ pretty_N_go x s = String (pretty_N_char r) rest.
Proof.
  induction (N.lt_wf_0 x) as [x _ IH]. intros s Hx.
  rewrite pretty_N_go_step by done.
  destruct (decide (x `div` 10 = 0)%N) as [E|E].
  - rewrite E, pretty_N_go_0. eexists _, _. split; [|done].
    by apply N.mod_lt.
  - apply IH; [apply N.div_lt; lia|by apply N.neq_0_lt_0].
Qed.

(** Reading the digits back gives the number. *)
Lemma parse_digits_pretty_N_go x : forall s acc,
  (0 < x)%N ->
  exists p,
    parse_digits acc (pretty_N_go x s) =
    parse_digits (Some (p * default 0 acc + Z.of_N x)%Z) s.
Proof.
  induction (N.lt_wf_0 x) as [x _ IH]. intros s acc Hx.
  rewrite pretty_N_go_step by done.
  assert (x `mod` 10 < 10)%N as Hm by (by apply N.mod_lt).
  pose proof (N.div_mod x 10 ltac:(done)) as Hdm.
  destruct (decide (x `div` 10 = 0)%N) as [E|E].
  - rewrite E, pretty_N_go_0. cbn [parse_digits].
    rewrite digit_of_pretty_N_char by done. exists 10%Z. do 2 f_equal.
    rewrite E in Hdm. lia.
  - destruct (IH (x `div` 10)%N) with
      (s := String (pretty_N_char (x `mod` 10)) s) (acc := acc) as [p ->];
      [apply N.div_lt; lia|by apply N.neq_0_lt_0|].
    cbn [parse_digits]. rewrite digit_of_pretty_N_char by done.
    exists (10 * p)%Z. cbn [default]. do 2 f_equal. unfold id. clear IH E Hx.
    set (q := (x `div` 10)%N) in *. set (r := (x `mod` 10)%N) in *.
    clearbody q r. subst x. lia.
Qed.

Lemma parseInt_pretty_N x :
  (0 < x)%N -> parseInt (pretty_N_go x "") = VNum (Z.of_N x).
Proof.
  intros Hx. destruct (pretty_N_go_head x "" Hx) as (r & rest & Hr & E).
  rewrite E, parseInt_digit by done. rewrite <- E.
  destruct (parse_digits_pretty_N_go x "" None Hx) as [p ->].
  cbn [parse_digits default]. f_equal. lia.
Qed.

(** [parseInt(n.toString())] is [n], for every integer [n]. *)
Lemma parseInt_pretty (z : Z) : parseInt (pretty z) = VNum z.
Proof.
  destruct z as [|p|p].
  - reflexivity.
  - change (pretty (Z.pos p)) with (pretty_N_go (N.pos p) "").
    by rewrite parseInt_pretty_N.
  - change (pretty (Z.neg p)) with (String "-" (pretty_N_go (N.pos p) "")).
    unfold parseInt. cbn [skip_blanks Ascii.eqb Bool.eqb].
    destruct (parse_digits_pretty_N_go (N.pos p) "" None) as [q Hq]; [done|].
    rewrite Hq. cbn [parse_digits default]. f_equal. lia.
Qed.

Lemma pretty_Z_nonempty (z : Z) : pretty z <> "".
Proof.
  intros H. pose proof (parseInt_pretty z) as Hp. by rewrite H in Hp.
Qed.

(** X17: [cache(key, ttl)] when an entry written at time [stamp] is stored
    under the key and [JSON.parse] reads it as [data]: if the entry is
    younger than [ttl] the returned Fetch holds [{ data, loading: false }]
    when [cache] returns and nothing is subscribed to the instance [cache]
    was called on; otherwise the returned Fetch is loading and the
    subscriber is installed.  In both cases the fetcher has been invoked
    once. *)
Theorem cache_reads_entry_younger_than_ttl (host : Host) (n : nat)
    (self : FetchObj) (key cachedData : string) (stamp ttl : Z) (data : Val)
    (s : Store) :
  getItem ("fetch_cache_" +:+ key) s = Some cachedData ->
  cachedData <> "" ->
  getItem ("fetch_cache_time_" +:+ key) s = Some (pretty stamp) ->
  JSON_parse host cachedData = Some data ->
  (forall dep, dep ∈ f_deps self -> dep < length (cells s)) ->
  f_cell self ∉ f_deps self -> f_cell self < length (cells s) ->
  exists cached s1,
    cache host (S (S n)) self key ttl s = Some (cached, s1) /\
    f_cell cached = length (cells s) /\
    calls s1 = S (calls s) /\
    if (now s - stamp <? ttl)%Z
    then (exists ref, value s1 (f_cell cached) = VAsync ref data false VUndef) /\
         subscribers s1 (f_cell self) = subscribers s (f_cell self)
    else (exists ref, value s1 (f_cell cached) = VAsync ref VUndef true VUndef) /\
         subscribers s1 (f_cell self)
           = subscribers s (f_cell self) ++ [SubCache key (f_cell cached)].
Proof.
  intros Hdata Hne Htime Hparse Hdeps Hnotin Hself.
  unfold cache. rewrite fetch_unfold. cbn [mbind option_bind f_cell].
  destruct (fetch_result_facts (f_fetcher self) (f_deps self) s Hdeps)
    as (Hv & Hsb & Hb & Hc & _ & Hn & Hold & _).
  destruct (fetch_started_facts (f_fetcher self) s)
    as (_ & _ & _ & Hsub0 & _ & _ & _ & Hsto0 & _).
  destruct (same_host_subscribe_deps (f_fetcher self) (length (cells s))
              (f_deps self) (fetch_started (f_fetcher self) s))
    as ((_ & _ & _ & _ & Hnow1 & _ & Hsto1 & _) & _ & Hlen1).
  rewrite now_fetch_started in Hnow1.
  set (b := length (cells s)) in *.
  set (s1 := subscribe_deps (f_fetcher self) b (f_deps self)
               (fetch_started (f_fetcher self) s)) in *.
  assert (subscribers s1 (f_cell self) = subscribers s (f_cell self)) as Hss.
  { unfold s1. rewrite subscribers_subscribe_deps_other by done. apply Hsub0. }
  unfold getItem in *. rewrite Hsto1, Hsto0, Hdata, Htime.
  assert (truthy (VStr cachedData) = true) as ->.
  { cbn. apply negb_true_iff, String.eqb_neq, Hne. }
  assert (truthy (VStr (pretty stamp)) = true) as ->.
  { cbn. apply negb_true_iff, String.eqb_neq, pretty_Z_nonempty. }
  unfold younger_than. rewrite parseInt_pretty, Hnow1. cbn [andb].
  destruct (now s - stamp <? ttl)%Z.
  - rewrite Hparse. unfold obj_data.
    rewrite (surjective_pairing (fresh_ref s1)). cbv beta iota.
    change (fresh_ref s1).1 with (next_ref s1).
    destruct (fetch_cell_put host (S (S n)) b (next_ref s1) data false VUndef
                s1 (fresh_ref s1).2) as (-> & _ & Hval);
      [lia| |done|lia|cbn; lia|].
    { split; [done|]. split; [done|].
      eexists _, _, _, _. split; [exact Hv|lia]. }
    cbn [mbind option_bind]. eexists _, _. split; [done|]. cbn [f_cell].
    split; [done|]. split; [by rewrite calls_write|].
    split; [by eexists|].
    rewrite subscribers_write.
    change (subscribers (fresh_ref s1).2 ?y) with (subscribers s1 y). done.
  - eexists _, _. split; [done|]. cbn [f_cell]. split; [done|].
    destruct (same_host_subscribe (f_cell self) (SubCache key b) s1)
      as (_ & _ & _ & _ & _ & _ & _ & Hca & _).
    split; [congruence|]. rewrite value_subscribe. split; [by eexists|].
    rewrite subscribers_subscribe, decide_True, Hss; [done|].
    split; [done|]. lia.
Qed.

(** An entry stamped 100 under key [k], read at 200: with [ttl = 1000] it is
    used, with [ttl = 50] it has expired. *)
Lemma cache_reads_entry_younger_than_ttl_witness :
  let fetcher : Fetcher := fun _ => Resolve (VNum 1) in
  let s0 := setItem "fetch_cache_time_k" (pretty 100%Z)
              (setItem "fetch_cache_k" "data" (set_now empty_store 200)) in
  let s := subscribe_deps fetcher 0 [] (fetch_started fetcher s0) in
  let f := mkFetch 0 fetcher [] in
  (exists c s1 ref,
     cache seven_host 2 f "k" 1000 s = Some (c, s1) /\
     value s1 (f_cell c) = VAsync ref (VNum 7) false VUndef /\
     subscribers s1 0 = []) /\
  (exists c s1 ref,
     cache seven_host 2 f "k" 50 s = Some (c, s1) /\
     value s1 (f_cell c) = VAsync ref VUndef true VUndef /\
     subscribers s1 0 = [SubCache "k" (f_cell c)]).
Proof.
  intros fetcher s0 s f.
  assert (getItem ("fetch_cache_" +:+ "k") s = Some "data") as H1
    by (vm_compute; reflexivity).
  assert ("data" <> "") as H2 by discriminate.
  assert (getItem ("fetch_cache_time_" +:+ "k") s = Some (pretty 100%Z)) as H3
    by (vm_compute; reflexivity).
  assert (JSON_parse seven_host "data" = Some (VNum 7)) as H4 by reflexivity.
  assert (forall dep, dep ∈ f_deps f -> dep < length (cells s)) as H5.
  { intros dep Hin. by apply elem_of_nil in Hin. }
  assert (f_cell f ∉ f_deps f) as H6 by apply not_elem_of_nil.
  assert (f_cell f < length (cells s)) as H7 by (vm_compute; lia).
  assert (now s = 200%Z) as Hnow by (vm_compute; reflexivity).
  assert (subscribers s 0 = []) as Hsub by (vm_compute; reflexivity).
  split.
  - destruct (cache_reads_entry_younger_than_ttl seven_host 0 f "k" "data"
                100 1000 (VNum 7) s H1 H2 H3 H4 H5 H6 H7)
      as (c & s1 & Hc & _ & _ & Hif).
    rewrite Hnow in Hif. change (200 - 100 <? 1000)%Z with true in Hif.
    destruct Hif as [[ref Hv] Hs]. exists c, s1, ref.
    split; [exact Hc|]. split; [exact Hv|]. cbn [f_cell f] in Hs.
    rewrite Hs. exact Hsub.
  - destruct (cache_reads_entry_younger_than_ttl seven_host 0 f "k" "data"
                100 50 (VNum 7) s H1 H2 H3 H4 H5 H6 H7)
      as (c & s1 & Hc & _ & _ & Hif).
    rewrite Hnow in Hif. change (200 - 100 <? 50)%Z with false in Hif.
    destruct Hif as [[ref Hv] Hs]. exists c, s1, ref.
    split; [exact Hc|]. split; [exact Hv|]. cbn [f_cell f] in Hs.
    rewrite Hs, Hsub. reflexivity.
Defined.

(* ===================================================================== *)
(** ** [throttle]: the rate of deliveries                                 *)
(* ===================================================================== *)

(** [_set] on a signal whose only subscriber is one observer. *)
Lemma set_one_observer host n c tag v st :
  subscribers st c = [SubLog tag] -> c < length (cells st) ->
  exists st',
    set_ host (S (S (S n))) c v st = Some st' /\
    subscribers st' c = [SubLog tag] /\
    length (cells st') = length (cells st) /\ now st' = now st /\
    value st' c = (if strict_neq v (value st c) then v else value st c) /\
    notifications tag st' =
      (if strict_neq v (value st c) then S (notifications tag st)
       else notifications tag st).
Proof.
  intros Hsub Hc. unfold set_. rewrite exec_set.
  destruct (strict_neq v (value st c)); [|by exists st].
  rewrite notify_observers_run.
  - eexists. split; [done|].
    change (subscribers (set_trace ?a _) c) with (subscribers a c).
    change (cells (set_trace ?a _)) with (cells a).
    change (now (set_trace ?a _)) with (now a).
    change (value (set_trace ?a _) c) with (value a c).
    rewrite subscribers_write, length_write, now_write, value_write, drop_0.
    rewrite !decide_True by done. rewrite Hsub.
    split; [done|]. split; [done|]. split; [done|]. split; [done|].
    unfold notifications. change (trace (set_trace ?a ?t)) with t.
    cbn [observer_entries omap rev app]. cbn.
    rewrite decide_True by done. cbn. f_equal.
    unfold write. by destruct (cells st !! c).
  - intros fn. rewrite subscribers_write, Hsub.
    intros ->%list_elem_of_singleton. by eexists.
  - rewrite subscribers_write, Hsub. cbn. lia.
Qed.

Lemma throttle_emit_inv host n c ms tag t0 k0 v th st :
  (0 <= ms)%Z -> throttle_inv c ms tag t0 k0 th st ->
  exists th' st',
    throttle_emit host (S (S (S n))) v th st = Some (th', st') /\
    throttle_inv c ms tag t0 k0 th' st' /\ now st' = now st /\
    (value st' c = value st c \/ value st' c = v).
Proof.
  intros Hms (Hc & Hm & Hsub & Hlt & Ht0 & Hk0 & Hrate).
  unfold throttle_emit. rewrite Hc, Hm.
  destruct (Z.leb_spec ms (now st - lastExecution th)) as [Hacc|Hrej].
  - destruct (set_one_observer host n c tag v st Hsub Hlt)
      as (st' & -> & Hsub' & Hlen & Hnow & Hval & Hnot).
    cbn [mbind option_bind]. eexists _, st'. split; [done|].
    split; [|split; [done|]].
    + split; [done|]. split; [done|]. split; [done|]. split; [lia|].
      split; [lia|]. cbn [lastExecution]. rewrite Hnow.
      destruct (strict_neq v (value st c)); rewrite Hnot.
      * split; [lia|]. right. split; [|lia].
        destruct Hrate as [->|[Hr Hl]].
        -- replace (S k0 - k0) with 1 by lia. lia.
        -- replace (Z.of_nat (S (notifications tag st) - k0) - 1)%Z
             with (Z.of_nat (notifications tag st - k0) - 1 + 1)%Z by lia.
           lia.
      * split; [done|]. destruct Hrate as [->|[Hr Hl]]; [by left|].
        right. split; lia.
    + rewrite Hval. destruct (strict_neq v (value st c)); auto.
  - eexists _, st. split; [done|]. split; [|by auto].
    by repeat split.
Qed.

Lemma throttle_run_inv host n c ms tag t0 k0 evs : forall th st,
  (0 <= ms)%Z -> throttle_inv c ms tag t0 k0 th st ->
  exists th' st',
    throttle_run host (S (S (S n))) evs th st = Some (th', st') /\
    throttle_inv c ms tag t0 k0 th' st' /\
    value st' c ∈ value st c :: List.map snd evs.
Proof.
  induction evs as [|[t v] evs IH]; intros th st Hms Hinv; cbn [throttle_run].
  - eexists _, _. split; [done|]. split; [done|]. apply elem_of_cons; by left.
  - set (st0 := set_now st (Z.max (now st) t)).
    assert (throttle_inv c ms tag t0 k0 th st0) as Hinv0.
    { destruct Hinv as (Hc & Hm & Hsub & Hlt & Ht0 & Hk0 & Hrate).
      split; [done|]. split; [done|]. split; [done|]. split; [done|].
      change (now st0) with (Z.max (now st) t).
      change (notifications tag st0) with (notifications tag st).
      split; [lia|]. split; [done|]. destruct Hrate as [?|[? ?]]; [by left|].
      right. split; lia. }
    destruct (throttle_emit_inv host n c ms tag t0 k0 v th st0 Hms Hinv0)
      as (th1 & st1 & -> & Hinv1 & _ & Hv1).
    cbn [mbind option_bind].
    destruct (IH th1 st1 Hms Hinv1) as (th2 & st2 & -> & Hinv2 & Hv2).
    eexists _, _. split; [done|]. split; [done|].
    change (value st0 c) with (value st c) in Hv1. cbn [List.map snd].
    apply elem_of_cons in Hv2 as [Hv2|Hv2].
    + rewrite Hv2. destruct Hv1 as [->| ->].
      * apply elem_of_cons; by left.
      * apply elem_of_cons; right. apply elem_of_cons; by left.
    + apply elem_of_cons; right. apply elem_of_cons; by right.
Qed.

(** X18: [throttle(ms, effect)] limits the rate at which its result
    changes: however the source emits, an observer of the result that has
    been called [k] times since [throttle] was called has seen at least
    [(k - 1) * ms] milliseconds pass; the run returns, and the result holds
    the value it started with or one of the emitted values. *)
Theorem throttle_limits_rate (host : Host) (n : nat) (ms : Z) (eff : sid)
    (tag : nat) (evs : list (Z * Val)) (s : Store) :
  (0 <= ms)%Z ->
  let th := (throttle ms eff s).1 in
  let s1 := subscribe (th_cell th) (SubLog tag) (throttle ms eff s).2 in
  exists th' s2,
    throttle_run host (S (S (S n))) evs th s1 = Some (th', s2) /\
    (ms * (Z.of_nat (notifications tag s2 - notifications tag s) - 1)
       <= now s2 - now s)%Z /\
    value s2 (th_cell th) ∈ value s eff :: List.map snd evs.
Proof.
  intros Hms th s1.
  set (c := length (cells s)).
  assert (throttle_inv c ms tag (now s) (notifications tag s) th s1) as Hinv.
  { split; [done|]. split; [done|]. unfold s1, th, throttle, time, effect.
    rewrite signal_pair. cbn [fst snd th_cell]. fold c.
    rewrite subscribers_subscribe, subscribers_signal, length_signal.
    rewrite decide_True by (split; [done|unfold c; lia]).
    split.
    { unfold subscribers, c. by rewrite lookup_ge_None_2. }
    rewrite length_subscribe, length_signal. split; [unfold c; lia|].
    destruct (same_host_subscribe c (SubLog tag) (signal (value s eff) s).2)
      as (Htr & _ & _ & _ & Hnow & _).
    unfold notifications. rewrite Hnow, Htr. split; [done|].
    split; [done|]. by left. }
  destruct (throttle_run_inv host n c ms tag (now s) (notifications tag s) evs
              th s1 Hms Hinv)
    as (th' & s2 & Hrun & (_ & _ & _ & _ & Ht0 & Hk0 & Hrate) & Hval).
  exists th', s2. split; [done|]. split.
  - destruct Hrate as [->|[Hr Hl]]; [|lia].
    rewrite Nat.sub_diag. cbn. lia.
  - change (th_cell th) with c.
    replace (value s eff) with (value s1 c); [done|].
    unfold s1, th, throttle, time, effect. rewrite signal_pair.
    cbn [fst snd th_cell]. fold c.
    by rewrite value_subscribe, value_signal, decide_True.
Qed.

(** [r = throttle(100, e)] with one observer; the source emits at 100, 150,
    199, 200 and 350 ms: the emissions at 100, 200 and 350 are delivered. *)
Lemma throttle_limits_rate_witness :
  let s := (effect (VNum 0) empty_store).2 in
  let evs := [(100, VNum 1); (150, VNum 2); (199, VNum 3); (200, VNum 4);
              (350, VNum 5)]%Z in
  (0 <= 100)%Z /\
  exists th' s2,
    throttle_run demo_host 3 evs (throttle 100 0 s).1
      (subscribe 1 (SubLog 0) (throttle 100 0 s).2) = Some (th', s2) /\
    trace s2 = [(0, VNum 5); (0, VNum 4); (0, VNum 1)] /\
    (100 * (Z.of_nat (notifications 0 s2 - notifications 0 s) - 1)
       <= now s2 - now s)%Z.
Proof.
  intros s evs. split; [lia|].
  destruct (throttle_limits_rate demo_host 0 100 0 0 evs s) as
    (th' & s2 & Hrun & Hrate & _); [lia|].
  exists th', s2. split; [exact Hrun|]. split; [|exact Hrate].
  vm_compute in Hrun. injection Hrun as _ <-. vm_compute. reflexivity.
Defined.

(* ===================================================================== *)
(** ** [debounce]: a burst delivers its last value                        *)
(* ===================================================================== *)

Lemma debounce_advance_S host fuel gas deadline d s :
  debounce_advance host fuel gas deadline d s =
  match dt_earliest (db_timers d) with
  | Some t =>
      if (dt_due t <=? deadline)%Z then
        match gas with
        | O => None
        | S g =>
            s' ← set_ host fuel (db_cell d) (dt_value t)
                   (set_now s (Z.max (now s) (dt_due t)));
            debounce_advance host fuel g deadline
              (mkDebounce (db_cell d) (db_ms d) (timeoutId d)
                 (filter (fun t' => dt_id t' <> dt_id t) (db_timers d))
                 (db_next d))
              s'
        end
      else Some (d, set_now s (Z.max (now s) deadline))
  | None => Some (d, set_now s (Z.max (now s) deadline))
  end.
Proof. by destruct gas. Qed.

(** [_set] on a signal whose only subscriber is one observer: what the
    observer is told. *)
Lemma set_one_observer_trace host n c tag v st :
  subscribers st c = [SubLog tag] -> c < length (cells st) ->
  exists st',
    set_ host (S (S (S n))) c v st = Some st' /\
    value st' c = (if strict_neq v (value st c) then v else value st c) /\
    trace st' =
      (if strict_neq v (value st c) then (tag, v) :: trace st else trace st).
Proof.
  intros Hsub Hc. unfold set_. rewrite exec_set.
  destruct (strict_neq v (value st c)); [|by exists st].
  rewrite notify_observers_run.
  - eexists. split; [done|].
    change (value (set_trace ?a _) c) with (value a c).
    change (trace (set_trace ?a ?t)) with t.
    rewrite subscribers_write, value_write, drop_0, Hsub.
    rewrite !decide_True by done. split; [done|].
    cbn. f_equal. unfold write. by destruct (cells st !! c).
  - intros fn. rewrite subscribers_write, Hsub.
    intros ->%list_elem_of_singleton. by eexists.
  - rewrite subscribers_write, Hsub. cbn. lia.
Qed.

Lemma last_cons_default {A : Type} (l : list A) : forall x d,
  List.last (x :: l) d = List.last l x.
Proof.
  induction l as [|a l IH]; intros x d; [done|].
  change (List.last (x :: a :: l) d) with (List.last (a :: l) d).
  change (List.last (a :: l) x) with (List.last (a :: l) x).
  by rewrite (IH a d), (IH a x).
Qed.

(** The next emission of a burst replaces the pending timer. *)
Lemma burst_step host fuel gas c ms tag v0 tr0 tp vp t v d st :
  burst_inv c ms tag v0 tr0 tp vp d st -> (tp <= t < tp + ms)%Z ->
  exists d1 s1,
    debounce_advance host fuel gas t d st = Some (d1, s1) /\
    burst_inv c ms tag v0 tr0 t v (debounce_emit v d1 s1) s1.
Proof.
  intros (Hc & Hm & (id & Hid & Hti) & Hnow & Hsub & Hlt & Hv & Htr) Ht.
  rewrite debounce_advance_S, Hti. cbn [dt_earliest fold_left dt_due].
  replace (tp + ms <=? t)%Z with false by (symmetry; apply Z.leb_gt; lia).
  eexists _, _. split; [done|].
  unfold debounce_emit. rewrite Hid, Hti, Hc, Hm.
  split; [done|]. split; [done|]. split.
  { eexists. split; [done|]. cbn [debounce_clear].
    rewrite filter_cons_False, filter_nil by (cbn; intros H; by apply H).
    cbn [app db_timers]. change (now (set_now ?x ?y)) with y.
    rewrite Hnow. by replace (Z.max tp t) with t by lia. }
  change (now (set_now ?x ?y)) with y. split; [lia|].
  by repeat split.
Qed.

Lemma burst_run host fuel gas c ms tag v0 tr0 evs : forall tp vp d st,
  burst_inv c ms tag v0 tr0 tp vp d st -> burst ms tp evs ->
  exists d1 s1,
    debounce_run host fuel gas evs d st = Some (d1, s1) /\
    burst_inv c ms tag v0 tr0 (List.last evs (tp, vp)).1
      (List.last evs (tp, vp)).2 d1 s1.
Proof.
  induction evs as [|[t v] evs IH]; intros tp vp d st Hinv Hb.
  - by exists d, st.
  - destruct Hb as [Ht Hb]. cbn [debounce_run].
    destruct (burst_step host fuel gas c ms tag v0 tr0 tp vp t v d st Hinv Ht)
      as (d1 & s1 & -> & Hinv1).
    cbn [mbind option_bind].
    destruct (IH t v _ _ Hinv1 Hb) as (d2 & s2 & -> & Hinv2).
    exists d2, s2. split; [done|].
    by rewrite last_cons_default.
Qed.

(** X19: [debounce(ms, effect)] over a burst of emissions, each less than
    [ms] after the one before: while the burst lasts the result keeps its
    value and its observer is not called; once [ms] have passed after the
    last emission, the result has been set exactly once, to the last
    emitted value, and no timer is left. *)
Theorem debounce_delivers_last_of_burst (host : Host) (n gas : nat) (ms : Z)
    (eff : sid) (tag : nat) (t1 : Z) (v1 : Val) (rest : list (Z * Val))
    (deadline : Z) (s : Store) :
  (now s <= t1)%Z -> burst ms t1 rest ->
  let last := List.last rest (t1, v1) in
  (last.1 + ms <= deadline)%Z ->
  let d := (debounce ms eff s).1 in
  let s1 := subscribe (db_cell d) (SubLog tag) (debounce ms eff s).2 in
  exists d2 s2 d3 s3,
    debounce_run host (S (S (S n))) (S gas) ((t1, v1) :: rest) d s1
      = Some (d2, s2) /\
    value s2 (db_cell d) = value s eff /\ trace s2 = trace s /\
    debounce_advance host (S (S (S n))) (S gas) deadline d2 s2
      = Some (d3, s3) /\
    db_timers d3 = [] /\
    if strict_neq last.2 (value s eff)
    then value s3 (db_cell d) = last.2 /\ trace s3 = (tag, last.2) :: trace s
    else value s3 (db_cell d) = value s eff /\ trace s3 = trace s.
Proof.
  intros Hnow Hburst last Hdl d s1.
  set (c := length (cells s)).
  assert (db_cell d = c) as Hc by done.
  assert (subscribers s1 c = [SubLog tag] /\ c < length (cells s1) /\
          value s1 c = value s eff /\ trace s1 = trace s /\ now s1 = now s)
    as (Hsub & Hlt & Hv & Htr & Hnow1).
  { unfold s1, d, debounce, time, effect. rewrite signal_pair.
    cbn [fst snd db_cell]. fold c.
    rewrite subscribers_subscribe, subscribers_signal, length_signal.
    rewrite decide_True by (split; [done|unfold c; lia]).
    split. { unfold subscribers, c. by rewrite lookup_ge_None_2. }
    rewrite length_subscribe, length_signal. split; [unfold c; lia|].
    rewrite value_subscribe, value_signal, decide_True by done.
    split; [done|].
    destruct (same_host_subscribe c (SubLog tag) (signal (value s eff) s).2)
      as (Htr & _ & _ & _ & Hnow' & _).
    by rewrite Htr, Hnow'. }
  cbn [debounce_run].
  rewrite debounce_advance_S. change (db_timers d) with (@nil DTimer).
  cbn [dt_earliest fold_left mbind option_bind].
  set (s1' := set_now s1 (Z.max (now s1) t1)).
  assert (burst_inv c ms tag (value s eff) (trace s) t1 v1
            (debounce_emit v1 d s1') s1') as Hinv.
  { split; [done|]. split; [done|]. split.
    { exists 0. split; [done|]. cbn. do 2 f_equal.
      change (now s1') with (Z.max (now s1) t1). lia. }
    change (now s1') with (Z.max (now s1) t1). split; [lia|].
    by repeat split. }
  destruct (burst_run host (S (S (S n))) (S gas) c ms tag (value s eff)
              (trace s) rest t1 v1 _ _ Hinv Hburst)
    as (d2 & s2 & -> & Hinv2).
  fold last in Hinv2.
  destruct Hinv2 as (Hc2 & Hm2 & (id & Hid & Hti) & Hnow2 & Hsub2 & Hlt2 &
                     Hv2 & Htr2).
  exists d2, s2. rewrite Hc.
  rewrite debounce_advance_S, Hti. cbn [dt_earliest fold_left dt_due dt_value].
  replace (last.1 + ms <=? deadline)%Z with true
    by (symmetry; apply Z.leb_le; lia).
  rewrite Hc2.
  set (s2' := set_now s2 (Z.max (now s2) (last.1 + ms))).
  destruct (set_one_observer_trace host n c tag last.2 s2')
    as (s3 & -> & Hval3 & Htr3); [done|done|].
  cbn [mbind option_bind].
  rewrite debounce_advance_S. cbn [db_timers dt_id].
  rewrite filter_cons_False, filter_nil by (cbn; intros H; by apply H).
  cbn [dt_earliest fold_left].
  eexists _, _. split; [done|]. split; [done|]. split; [done|].
  split; [done|]. split; [done|].
  change (value (set_now ?x ?y) c) with (value x c).
  change (trace (set_now ?x ?y)) with (trace x).
  change (value s2' c) with (value s2 c) in Hval3, Htr3.
  change (trace s2') with (trace s2) in Htr3.
  rewrite Hv2 in Hval3, Htr3. rewrite Htr2 in Htr3.
  by destruct (strict_neq last.2 (value s eff)).
Qed.

(** [r = debounce(100, e)] with one observer; the source emits 1, 2 and 3 at
    0, 60 and 120 ms; at 219 ms nothing has been delivered, at 220 ms the
    observer has been called once, with 3. *)
Lemma debounce_delivers_last_of_burst_witness :
  let s := (effect (VNum 0) empty_store).2 in
  let rest := [(60, VNum 2); (120, VNum 3)]%Z in
  let d := (debounce 100 0 s).1 in
  let s1 := subscribe 1 (SubLog 0) (debounce 100 0 s).2 in
  ((now s <= 0)%Z /\ burst 100 0 rest) /\
  exists d2 s2 d3 s3,
    debounce_run demo_host 3 1 ((0, VNum 1)%Z :: rest) d s1 = Some (d2, s2) /\
    trace s2 = [] /\
    debounce_advance demo_host 3 1 220 d2 s2 = Some (d3, s3) /\
    value s3 1 = VNum 3 /\ trace s3 = [(0, VNum 3)].
Proof.
  intros s rest d s1.
  assert ((now s <= 0)%Z) as H1 by (vm_compute; discriminate).
  assert (burst 100 0 rest) as H2 by (cbn; lia).
  split; [by split|].
  destruct (debounce_delivers_last_of_burst demo_host 0 0 100 0 0 0 (VNum 1)
              rest 220 s H1 H2)
    as (d2 & s2 & d3 & s3 & Hrun & _ & Htr & Hadv & _ & Hif);
    [cbn; lia|].
  exists d2, s2, d3, s3. split; [exact Hrun|]. split; [exact Htr|].
  split; [exact Hadv|]. exact Hif.
Defined.

(* ===================================================================== *)
(** ** [state]: [get], [put] and [modify]                                 *)
(* ===================================================================== *)

Lemma state_facts initialState initialValue w :
  let r := state initialState initialValue w in
  so_cell r.1 = length (cells (sw_store w)) /\
  so_var r.1 = length (sw_vars w) /\
  sw_vars r.2 = sw_vars w ++ [initialState] /\
  value (sw_store r.2) (so_cell r.1) = initialValue /\
  (forall y, y < length (cells (sw_store w)) ->
     value (sw_store r.2) y = value (sw_store w) y) /\
  (forall y, subscribers (sw_store r.2) y = subscribers (sw_store w) y) /\
  trace (sw_store r.2) = trace (sw_store w) /\
  length (cells (sw_store r.2)) = S (length (cells (sw_store w))).
Proof.
  unfold state, effect. rewrite signal_pair. cbn [fst snd so_cell so_var sw_vars sw_store].
  split; [done|]. split; [done|]. split; [done|].
  rewrite value_signal, decide_True by done. split; [done|].
  split. { intros y Hy. rewrite value_signal, decide_False by lia. done. }
  split. { intros y. by rewrite subscribers_signal. }
  split; [done|]. by rewrite length_signal.
Qed.

(** X20: [put(x)] and [modify(f)] change what later [get()] calls read, and
    nothing else: the State keeps its value, no subscriber is called, and a
    State obtained from [get()] before keeps the state it was given.
    [get()] after [put(x)] holds [x]; after [modify(f)] on top, [f(x)]. *)
Theorem state_put_changes_only_later_gets (self : StateObj) (x : Val)
    (f : Val -> Val) (w : SWorld) :
  so_var self < length (sw_vars w) ->
  so_cell self < length (cells (sw_store w)) ->
  let '(g0, w0) := state_get self w in
  let '(p, w1) := state_put self x w0 in
  let '(g1, w2) := state_get self w1 in
  let '(q, w3) := state_modify self f w2 in
  let '(g2, w4) := state_get self w3 in
  value (sw_store w4) (so_cell g0) = state_current self w /\
  value (sw_store w4) (so_cell g1) = x /\
  value (sw_store w4) (so_cell g2) = f x /\
  value (sw_store w4) (so_cell p) = VUndef /\
  value (sw_store w4) (so_cell self) = value (sw_store w) (so_cell self) /\
  subscribers (sw_store w4) (so_cell self)
    = subscribers (sw_store w) (so_cell self) /\
  trace (sw_store w4) = trace (sw_store w).
Proof.
  intros Hvar Hcell.
  unfold state_modify, state_get, state_put.
  rewrite (surjective_pairing (state (state_current self w) _ w)).
  set (r0 := state (state_current self w) (state_current self w) w).
  destruct (state_facts (state_current self w) (state_current self w) w)
    as (Hc0 & _ & Hvars0 & Hv0 & Ho0 & Hs0 & Ht0 & Hl0).
  fold r0 in Hc0, Hvars0, Hv0, Ho0, Hs0, Ht0, Hl0.
  rewrite (surjective_pairing (state x VUndef r0.2)).
  set (r1 := state x VUndef r0.2).
  destruct (state_facts x VUndef r0.2)
    as (Hc1 & _ & Hvars1 & Hv1 & Ho1 & Hs1 & Ht1 & Hl1).
  fold r1 in Hc1, Hvars1, Hv1, Ho1, Hs1, Ht1, Hl1.
  set (w1 := mkSWorld (sw_store r1.2) (<[so_var self := x]> (sw_vars r1.2))).
  assert (length (sw_vars w1) = S (S (length (sw_vars w)))) as Hlw1.
  { unfold w1. cbn [sw_vars].
    rewrite length_insert, Hvars1, Hvars0, !length_app. cbn. lia. }
  assert (state_current self w1 = x) as Hx.
  { unfold state_current, w1. cbn [sw_vars].
    rewrite list_lookup_insert_eq; [done|].
    rewrite Hvars1, Hvars0, !length_app. lia. }
  rewrite Hx.
  rewrite (surjective_pairing (state x x w1)).
  set (r2 := state x x w1).
  destruct (state_facts x x w1)
    as (Hc2 & _ & Hvars2 & Hv2 & Ho2 & Hs2 & Ht2 & Hl2).
  fold r2 in Hc2, Hvars2, Hv2, Ho2, Hs2, Ht2, Hl2.
  assert (state_current self r2.2 = x) as Hx2.
  { unfold state_current. rewrite Hvars2, lookup_app_l by lia. exact Hx. }
  rewrite Hx2.
  rewrite (surjective_pairing (state (f x) VUndef r2.2)).
  set (r3 := state (f x) VUndef r2.2).
  destruct (state_facts (f x) VUndef r2.2)
    as (Hc3 & _ & Hvars3 & Hv3 & Ho3 & Hs3 & Ht3 & Hl3).
  fold r3 in Hc3, Hvars3, Hv3, Ho3, Hs3, Ht3, Hl3.
  set (w3 := mkSWorld (sw_store r3.2) (<[so_var self := f x]> (sw_vars r3.2))).
  assert (state_current self w3 = f x) as Hfx.
  { unfold state_current, w3. cbn [sw_vars].
    rewrite list_lookup_insert_eq; [done|].
    rewrite Hvars3, Hvars2, !length_app. lia. }
  rewrite Hfx.
  rewrite (surjective_pairing (state (f x) (f x) w3)).
  set (r4 := state (f x) (f x) w3).
  destruct (state_facts (f x) (f x) w3)
    as (Hc4 & _ & _ & Hv4 & Ho4 & Hs4 & Ht4 & Hl4).
  fold r4 in Hc4, Hv4, Ho4, Hs4, Ht4, Hl4.
  change (sw_store w1) with (sw_store r1.2) in *.
  change (sw_store w3) with (sw_store r3.2) in *.
  cbn [fst snd].
  split. { rewrite Ho4, Ho3, Ho2, Ho1 by lia. done. }
  split. { rewrite Ho4, Ho3 by lia. done. }
  split; [done|].
  split. { rewrite Ho4, Ho3, Ho2 by lia. done. }
  split. { rewrite Ho4, Ho3, Ho2, Ho1, Ho0 by lia. done. }
  split. { by rewrite Hs4, Hs3, Hs2, Hs1, Hs0. }
  by rewrite Ht4, Ht3, Ht2, Ht1, Ht0.
Qed.

(** [s = state(1, 'a'); g0 = s.get(); s.put(2); g1 = s.get();
     s.modify(n => n * 10); g2 = s.get()] *)
Lemma state_put_changes_only_later_gets_witness :
  let r := state (VNum 1) (VStr "a") (mkSWorld empty_store []) in
  let f := fun v => match v with VNum z => VNum (z * 10) | _ => v end in
  let '(g0, w0) := state_get r.1 r.2 in
  let '(p, w1) := state_put r.1 (VNum 2) w0 in
  let '(g1, w2) := state_get r.1 w1 in
  let '(q, w3) := state_modify r.1 f w2 in
  let '(g2, w4) := state_get r.1 w3 in
  value (sw_store w4) (so_cell g0) = VNum 1 /\
  value (sw_store w4) (so_cell g1) = VNum 2 /\
  value (sw_store w4) (so_cell g2) = VNum 20 /\
  value (sw_store w4) (so_cell r.1) = VStr "a".
Proof.
  intros r f.
  assert (so_var r.1 < length (sw_vars r.2)) as H1 by (vm_compute; lia).
  assert (so_cell r.1 < length (cells (sw_store r.2))) as H2
    by (vm_compute; lia).
  pose proof (state_put_changes_only_later_gets r.1 (VNum 2) f r.2 H1 H2) as H.
  destruct (state_get r.1 r.2) as [g0 w0].
  destruct (state_put r.1 (VNum 2) w0) as [p w1].
  destruct (state_get r.1 w1) as [g1 w2].
  destruct (state_modify r.1 f w2) as [q w3].
  destruct (state_get r.1 w3) as [g2 w4].
  destruct H as (Ha & Hb & Hc & _ & Hd & _).
  split; [exact Ha|]. split; [exact Hb|]. split; [exact Hc|exact Hd].
Defined.

(* ===================================================================== *)
(** ** [combine]: the product of two machines                             *)
(* ===================================================================== *)

Lemma combined_notify_tables c w :
  mw_machines (combined_notify c w) = mw_machines w /\
  mw_combined (combined_notify c w) = mw_combined w /\
  mw_trace (combined_notify c w) = mw_trace w.
Proof. unfold combined_notify. by destruct (mw_combined w !! c). Qed.

Lemma machine_call_tables id fn w :
  mw_machines (machine_call id w fn) = mw_machines w /\
  mw_combined (machine_call id w fn) = mw_combined w.
Proof.
  destruct fn as [tag|c]; cbn [machine_call]; [done|].
  destruct (combined_notify_tables c w) as (? & ? & _). done.
Qed.

Lemma fold_machine_call_tables id subs : forall w,
  mw_machines (fold_left (machine_call id) subs w) = mw_machines w /\
  mw_combined (fold_left (machine_call id) subs w) = mw_combined w.
Proof.
  induction subs as [|fn subs IH]; intros w; [done|]. cbn [fold_left].
  destruct (IH (machine_call id w fn)) as [-> ->]. apply machine_call_tables.
Qed.

Lemma machine_notify_tables id w :
  mw_machines (machine_notify id w) = mw_machines w /\
  mw_combined (machine_notify id w) = mw_combined w.
Proof.
  unfold machine_notify. destruct (mw_machines w !! id); [|done].
  apply fold_machine_call_tables.
Qed.

(** What [send] does to the states: the addressed machine takes the state
    the reducer returned, the others keep theirs; reducers and the combined
    machines stay. *)
Lemma machine_send_states id action w m :
  mw_machines w !! id = Some m -> returns_same (m_reducer m) ->
  mw_combined (machine_send id action w) = mw_combined w /\
  length (mw_machines (machine_send id action w)) = length (mw_machines w) /\
  (exists subs,
     mw_machines (machine_send id action w) !! id
     = Some (mkMachine (m_reducer m (m_current m) action) (m_reducer m) subs)) /\
  (forall j, j <> id ->
     mw_machines (machine_send id action w) !! j = mw_machines w !! j).
Proof.
  intros Hm Hsame. unfold machine_send. rewrite Hm. cbv zeta.
  destruct (strict_neq _ _) eqn:E.
  - destruct (machine_notify_tables id
                (mkMWorld (<[id := mkMachine (m_reducer m (m_current m) action)
                                     (m_reducer m) (m_subs m)]> (mw_machines w))
                          (mw_combined w) (mw_trace w) (mw_ctrace w)))
      as [-> ->].
    cbn [mw_machines mw_combined]. split; [done|].
    split; [by rewrite length_insert|]. split.
    + eexists. apply list_lookup_insert_eq. by eapply lookup_lt_Some.
    + intros j Hj. by rewrite list_lookup_insert_ne.
  - split; [done|]. split; [done|]. split; [|done].
    exists (m_subs m). rewrite Hm. f_equal.
    apply negb_false_iff in E. rewrite (Hsame _ _ E). by destruct m.
Qed.

(** X21: a machine built by [combine] is the product of its two machines:
    after any sequence of sends through it, its [state] pairs the left fold
    of the first reducer over the actions addressed to [m1] with the left
    fold of the second reducer over the other actions; an action for one
    machine never reaches the other. *)
Theorem combine_is_product (c : nat) (cb : CombinedSt) (m1 m2 : MachineSt)
    (acts : list (bool * Val)) (w : MWorld) :
  mw_combined w !! c = Some cb -> c_m1 cb <> c_m2 cb ->
  mw_machines w !! c_m1 cb = Some m1 -> mw_machines w !! c_m2 cb = Some m2 ->
  returns_same (m_reducer m1) -> returns_same (m_reducer m2) ->
  combined_state c (combined_run c acts w) =
  (fold_left (m_reducer m1) (actions_for true acts) (m_current m1),
   fold_left (m_reducer m2) (actions_for false acts) (m_current m2)).
Proof.
  intros Hc Hne H1 H2 Hs1 Hs2.
  revert w m1 m2 Hc H1 H2 Hs1 Hs2.
  induction acts as [|[b a] acts IH]; intros w m1 m2 Hc H1 H2 Hs1 Hs2.
  - unfold combined_state, combined_run, machine_state. cbn [fold_left].
    by rewrite Hc, H1, H2.
  - unfold combined_run. cbn [fold_left fst snd].
    fold (combined_run c acts (combined_send c b a w)).
    unfold combined_send. rewrite Hc. destruct b.
    + destruct (machine_send_states (c_m1 cb) a w m1 H1 Hs1)
        as (Hcb & _ & (subs & Hm1) & Hoth).
      rewrite (IH _ _ m2 ltac:(by rewrite Hcb) Hm1
                 ltac:(by rewrite Hoth) Hs1 Hs2).
      unfold actions_for. rewrite filter_cons_True by done.
      rewrite filter_cons_False by done. done.
    + destruct (machine_send_states (c_m2 cb) a w m2 H2 Hs2)
        as (Hcb & _ & (subs & Hm2) & Hoth).
      rewrite (IH _ m1 _ ltac:(by rewrite Hcb)
                 ltac:(by rewrite Hoth) Hm2 Hs1 Hs2).
      unfold actions_for. rewrite filter_cons_False by done.
      rewrite filter_cons_True by done. done.
Qed.









(** A counter and a toggle, combined: three increments, one action the
    counter ignores, and two toggles. *)
Lemma combine_is_product_witness :
  let inc := fun st a => match st with
                         | VNum z => if strict_eq a (VStr "inc")
                                     then VNum (z + 1) else st
                         | _ => st
                         end in
  let flip := fun st a => match st with
                          | VBool b => if strict_eq a (VStr "flip")
                                       then VBool (negb b) else st
                          | _ => st
                          end in
  let acts := [(true, VStr "inc"); (false, VStr "flip"); (true, VStr "noop");
               (true, VStr "inc"); (false, VStr "flip"); (true, VStr "inc")] in
  let w := (combined_setup (VNum 0) (VBool false) inc flip [7] empty_mworld).2 in
  (returns_same inc /\ returns_same flip) /\
  combined_state 0 (combined_run 0 acts w) = (VNum 3, VBool false) /\
  List.length (mw_ctrace (combined_run 0 acts w)) = 5.
Proof.
  intros inc flip acts w.
  assert (returns_same inc) as Hinc.
  { intros st a. destruct st as [| |z| | | | |]; try done. unfold inc.
    destruct (strict_eq a (VStr "inc")); [|done]. cbn [strict_eq].
    intros H. apply Z.eqb_eq in H. lia. }
  assert (returns_same flip) as Hflip.
  { intros st a. destruct st as [|b| | | | | |]; try done. unfold flip.
    destruct (strict_eq a (VStr "flip")); [|done]. cbn [strict_eq].
    by destruct b. }
  split; [by split|]. split; [|vm_compute; reflexivity].
  rewrite (combine_is_product 0 (mkCombined 0 1 [7])
             (mkMachine (VNum 0) inc [MCombined 0])
             (mkMachine (VBool false) flip [MCombined 0]) acts w).
  - vm_compute. reflexivity.
  - reflexivity.
  - cbn. lia.
  - reflexivity.
  - reflexivity.
  - exact Hinc.
  - exact Hflip.
Defined.

(* ===================================================================== *)
(** ** [bind]: the inner effects of earlier emissions                     *)
(* ===================================================================== *)

(** An emission of [m] that makes [k] return the effect [e]. *)
Lemma bind_switch host n m r k v e st :
  subscribers st m = [SubBind k r] -> subscribers st r = [] ->
  m < length (cells st) -> r < length (cells st) -> m <> r ->
  k v = ERef e -> e <> r -> e <> m ->
  strict_neq v (value st m) = true ->
  strict_neq (value st e) (value st r) = true ->
  set_ host (S (S (S (S n)))) m v st =
  Some (subscribe e (SubInner r) (write r (value st e) (write m v st))).
Proof.
  intros Hm Hr Hlm Hlr Hne Hk Her Hem Hv Hchg.
  unfold set_. rewrite exec_set, Hv, exec_notify, subscribers_write, Hm.
  cbn [lookup list_lookup sub_body].
  rewrite value_write, !decide_True by done. rewrite Hk. cbn [eval_exp].
  change (exec host (S (S n)) (CSet r ?w) ?s) with (set_ host (S (S n)) r w s).
  rewrite set_leaf by (by rewrite subscribers_write).
  assert (value (write m v st) e = value st e) as ->
    by (by rewrite value_write, decide_False).
  assert (value (write m v st) r = value st r) as ->
    by (by rewrite value_write, decide_False).
  rewrite Hchg. cbn [mbind option_bind].
  rewrite exec_notify, subscribers_subscribe, !subscribers_write, Hm.
  rewrite decide_False by (intros [? _]; done).
  done.
Qed.

(** An emission of an effect that carries an inner subscriber of [r]. *)
Lemma inner_fires host n e r x st :
  subscribers st e = [SubInner r] -> subscribers st r = [] ->
  e < length (cells st) -> r < length (cells st) -> e <> r ->
  strict_neq x (value st e) = true -> strict_neq x (value st r) = true ->
  set_ host (S (S (S (S n)))) e x st = Some (write r x (write e x st)).
Proof.
  intros He Hr Hle Hlr Hne Hx Hxr.
  unfold set_. rewrite exec_set, Hx, exec_notify, subscribers_write, He.
  cbn [lookup list_lookup sub_body].
  rewrite value_write, !decide_True by done.
  change (exec host (S (S n)) (CSet r ?w) ?s) with (set_ host (S (S n)) r w s).
  rewrite set_leaf by (by rewrite subscribers_write).
  rewrite value_write, decide_False, Hxr by done. cbn [mbind option_bind].
  rewrite exec_notify, !subscribers_write, He. done.
Qed.

(** X23: [bind] never unsubscribes from the effect of an earlier emission.
    With [f = a => a === key ? e1 : e2] and [r = m.bind(f)]: after [m] has
    gone from [key] to [b] and back to [key], [r] holds the value of [e1],
    but an emission of [e2], the effect of the emission in between, still
    sets [r]: [r] then holds that value, not the value of [f(m.value())]. *)
Theorem bind_keeps_earlier_inner_subscriptions (host : Host) (n : nat)
    (m e1 e2 : sid) (key a b x : Val) (s : Store) :
  m < length (cells s) -> e1 < length (cells s) -> e2 < length (cells s) ->
  m <> e1 -> m <> e2 -> e1 <> e2 ->
  subscribers s m = [] -> subscribers s e1 = [] -> subscribers s e2 = [] ->
  strict_eq (value s m) key = true -> strict_eq b key = false ->
  strict_eq a key = true ->
  strict_neq b (value s m) = true -> strict_neq a b = true ->
  strict_neq (value s e2) (value s e1) = true ->
  strict_neq (value s e1) (value s e2) = true ->
  strict_neq x (value s e2) = true -> strict_neq x (value s e1) = true ->
  let r := (bind m (choose key e1 e2) s).1 in
  let s1 := (bind m (choose key e1 e2) s).2 in
  value s1 r = value s e1 /\
  exists s2 s3 s4,
    set_ host (S (S (S (S n)))) m b s1 = Some s2 /\
    value s2 r = value s e2 /\
    set_ host (S (S (S (S n)))) m a s2 = Some s3 /\
    value s3 r = value s e1 /\
    set_ host (S (S (S (S n)))) e2 x s3 = Some s4 /\
    value s4 r = x /\ value s4 m = a /\ value s4 e1 = value s e1.
Proof.
  intros Hm He1 He2 Hme1 Hme2 He12 Hsm Hse1 Hse2 Hkey Hb Ha Hbm Hab H21 H12
    Hx2 Hx1 r s1.
  set (k := choose key e1 e2).
  assert (r = length (cells s) /\
          s1 = subscribe m (SubBind k (length (cells s)))
                 (signal (value s e1) s).2) as [Hr Hs1].
  { unfold r, s1. rewrite bind_unfold. unfold choose. rewrite Hkey. done. }
  clearbody r s1. subst r.
  set (r := length (cells s)) in *.
  assert (forall y, value s1 y = if decide (y = r) then value s e1 else value s y)
    as Hv1.
  { intros y. by rewrite Hs1, value_subscribe, value_signal. }
  assert (forall y, subscribers s1 y
                    = if decide (y = m) then [SubBind k r] else subscribers s y)
    as Hsub1.
  { intros y. rewrite Hs1, subscribers_subscribe, subscribers_signal, length_signal.
    destruct (decide (y = m)) as [->|Hy].
    - rewrite decide_True by (split; [done|lia]). by rewrite Hsm.
    - rewrite decide_False by (intros [? _]; done). done. }
  assert (length (cells s1) = S r) as Hl1.
  { by rewrite Hs1, length_subscribe, length_signal. }
  assert (subscribers s r = []) as Hsr.
  { unfold subscribers, r. by rewrite lookup_ge_None_2. }
  assert (m <> r /\ e1 <> r /\ e2 <> r) as (Hmr & He1r & He2r)
    by (unfold r; lia).
  split. { by rewrite Hv1, decide_True. }
  (* m goes to b *)
  set (s2 := subscribe e2 (SubInner r) (write r (value s1 e2) (write m b s1))).
  assert (set_ host (S (S (S (S n)))) m b s1 = Some s2) as Hset2.
  { apply (bind_switch host n m r k b e2); try done; try lia.
    - by rewrite Hsub1, decide_True.
    - by rewrite Hsub1, decide_False.
    - unfold k, choose. by rewrite Hb.
    - by rewrite Hv1, decide_False.
    - rewrite (Hv1 e2), (Hv1 r), (decide_False (P := e2 = r)),
        (decide_True (P := r = r)) by done. done. }
  assert (forall y, value s2 y =
            if decide (y = r) then value s e2
            else if decide (y = m) then b else value s y) as Hv2.
  { intros y. unfold s2. rewrite value_subscribe, !value_write, !Hv1, Hl1.
    rewrite (decide_False (P := e2 = r)) by done.
    destruct (decide (y = r)) as [->|Hy].
    - rewrite decide_True by (rewrite length_write; lia). done.
    - destruct (decide (y = m)) as [->|Hy'].
      + rewrite decide_True by lia. done.
      + done. }
  assert (forall y, subscribers s2 y =
            if decide (y = m) then [SubBind k r]
            else if decide (y = e2) then [SubInner r] else subscribers s y)
    as Hsub2.
  { intros y. unfold s2.
    rewrite subscribers_subscribe, !subscribers_write, !length_write, Hsub1, Hl1.
    destruct (decide (y = m)) as [->|Hy].
    - rewrite decide_False by (intros [? _]; done). done.
    - destruct (decide (y = e2)) as [->|Hy'].
      + rewrite decide_True by (split; [done|lia]). by rewrite Hse2.
      + rewrite decide_False by (intros [? _]; done). done. }
  assert (length (cells s2) = S r) as Hl2.
  { unfold s2. by rewrite length_subscribe, !length_write. }
  (* m goes back to a *)
  set (s3 := subscribe e1 (SubInner r) (write r (value s2 e1) (write m a s2))).
  assert (set_ host (S (S (S (S n)))) m a s2 = Some s3) as Hset3.
  { apply (bind_switch host n m r k a e1); try done; try lia.
    - by rewrite Hsub2, decide_True.
    - rewrite (Hsub2 r), (decide_False (P := r = m)),
        (decide_False (P := r = e2)) by done. done.
    - unfold k, choose. by rewrite Ha.
    - rewrite (Hv2 m), (decide_False (P := m = r)),
        (decide_True (P := m = m)) by done. done.
    - rewrite (Hv2 e1), (Hv2 r), (decide_False (P := e1 = r)),
        (decide_False (P := e1 = m)), (decide_True (P := r = r)) by done.
      done. }
  assert (forall y, value s3 y =
            if decide (y = r) then value s e1
            else if decide (y = m) then a else value s y) as Hv3.
  { intros y. unfold s3. rewrite value_subscribe, !value_write, !Hv2, Hl2.
    rewrite (decide_False (P := e1 = r)), (decide_False (P := e1 = m)) by done.
    destruct (decide (y = r)) as [->|Hy].
    - rewrite decide_True by (rewrite length_write; lia). done.
    - destruct (decide (y = m)) as [->|Hy'].
      + rewrite decide_True by lia. done.
      + done. }
  assert (forall y, subscribers s3 y =
            if decide (y = m) then [SubBind k r]
            else if decide (y = e1) then [SubInner r]
            else if decide (y = e2) then [SubInner r] else subscribers s y)
    as Hsub3.
  { intros y. unfold s3.
    rewrite subscribers_subscribe, !subscribers_write, !length_write, Hsub2, Hl2.
    destruct (decide (y = m)) as [->|Hy].
    - rewrite decide_False by (intros [? _]; done). done.
    - destruct (decide (y = e1)) as [->|Hy'].
      + rewrite decide_True by (split; [done|lia]).
        rewrite decide_False by done. by rewrite Hse1.
      + rewrite decide_False by (intros [? _]; done). done. }
  assert (length (cells s3) = S r) as Hl3.
  { unfold s3. by rewrite length_subscribe, !length_write. }
  (* e2 emits *)
  assert (set_ host (S (S (S (S n)))) e2 x s3 = Some (write r x (write e2 x s3)))
    as Hset4.
  { apply inner_fires; try done; try lia.
    - rewrite (Hsub3 e2), (decide_False (P := e2 = m)),
        (decide_False (P := e2 = e1)), (decide_True (P := e2 = e2)) by done.
      done.
    - rewrite (Hsub3 r), (decide_False (P := r = m)),
        (decide_False (P := r = e1)), (decide_False (P := r = e2)) by done.
      done.
    - rewrite (Hv3 e2), (decide_False (P := e2 = r)),
        (decide_False (P := e2 = m)) by done. done.
    - rewrite (Hv3 r), (decide_True (P := r = r)) by done. done. }
  exists s2, s3, (write r x (write e2 x s3)).
  split; [done|]. split; [by rewrite Hv2, decide_True|]. split; [done|].
  split; [by rewrite Hv3, decide_True|]. split; [done|].
  rewrite !value_write, !length_write, Hl3, !Hv3.
  rewrite !decide_True by (done || lia).
  rewrite !(decide_False (P := m = r)), !(decide_False (P := e1 = r)) by done.
  rewrite !(decide_False (P := m = e2)), !(decide_False (P := e1 = e2)) by done.
  rewrite !(decide_False (P := e1 = m)) by done.
  by rewrite decide_True.
Qed.

(** [m = effect(1); e1 = effect(10); e2 = effect(20);
     r = m.bind(a => a === 1 ? e1 : e2); m._set(2); m._set(1); e2._set(99)]:
    [r] holds 99 while [f(m.value())] is [e1], which holds 10. *)
Lemma bind_keeps_earlier_inner_subscriptions_witness :
  let s := (effect (VNum 20) (effect (VNum 10)
              (effect (VNum 1) empty_store).2).2).2 in
  let r := (bind 0 (choose (VNum 1) 1 2) s).1 in
  let s1 := (bind 0 (choose (VNum 1) 1 2) s).2 in
  exists s2 s3 s4,
    set_ demo_host 4 0 (VNum 2) s1 = Some s2 /\
    set_ demo_host 4 0 (VNum 1) s2 = Some s3 /\
    set_ demo_host 4 2 (VNum 99) s3 = Some s4 /\
    value s4 r = VNum 99 /\ value s4 0 = VNum 1 /\ value s4 1 = VNum 10.
Proof.
  intros s r s1.
  assert (0 < length (cells s) /\ 1 < length (cells s) /\
          2 < length (cells s)) as (L0 & L1 & L2) by (vm_compute; lia).
  assert (subscribers s 0 = [] /\ subscribers s 1 = [] /\
          subscribers s 2 = []) as (S0 & S1 & S2)
    by (vm_compute; repeat split; reflexivity).
  destruct (bind_keeps_earlier_inner_subscriptions demo_host 0 0 1 2
              (VNum 1) (VNum 1) (VNum 2) (VNum 99) s L0 L1 L2
              ltac:(lia) ltac:(lia) ltac:(lia) S0 S1 S2
              eq_refl eq_refl eq_refl eq_refl eq_refl eq_refl eq_refl
              eq_refl eq_refl)
    as (_ & s2 & s3 & s4 & H2 & _ & H3 & _ & H4 & Hr & Hm & He1).
  exists s2, s3, s4. split; [exact H2|]. split; [exact H3|].
  split; [exact H4|]. split; [exact Hr|]. split; [exact Hm|exact He1].
Defined.

(* ===================================================================== *)
(** ** [bind]: associativity                                              *)
(* ===================================================================== *)

Lemma allocated_carrier st x fn :
  fn ∈ subscribers st x -> x < length (cells st).
Proof.
  unfold subscribers. destruct (cells st !! x) eqn:E.
  - intros _. by eapply lookup_lt_Some.
  - intros H. by apply elem_of_nil in H.
Qed.

Lemma targeted_active n0 st x fn t :
  fn ∈ subscribers st x -> sub_target fn = Some t ->
  active n0 st x -> active n0 st t.
Proof.
  intros Hfn Ht Hx. right. exists x, fn. split; [done|]. split; [done|].
  destruct Hx as [Hx|(z & fn' & Hz & Htz & _)]; [by left|].
  right. by exists z, fn'.
Qed.

Lemma active_extends n0 st st' x :
  extends st st' -> active n0 st x -> active n0 st' x.
Proof.
  intros (_ & Hpre & _) [Hx|(z & fn & Hz & Ht & Hsrc)]; [by left|].
  right. exists z, fn. split.
  { eapply elem_of_prefix; [exact Hz|apply Hpre]. }
  split; [done|]. destruct Hsrc as [?|(z' & fn' & Hz' & Ht')]; [by left|].
  right. exists z', fn'. split; [|done].
  eapply elem_of_prefix; [exact Hz'|apply Hpre].
Qed.

Lemma active_not_inactive n0 st x :
  active n0 st x -> inactive n0 st x -> False.
Proof.
  intros [Hx|(z & fn & Hz & Ht & Hsrc)] [Hn Hin]; [lia|].
  destruct (Hin z fn Hz Ht) as [Hnz Hu].
  destruct Hsrc as [?|(z' & fn' & Hz' & Ht')]; [lia|].
  exact (Hu z' fn' Hz' Ht').
Qed.

Lemma inactive_quiet n0 st st' y :
  y < length (cells st) -> quiet st st' ->
  inactive n0 st y -> inactive n0 st' y.
Proof.
  intros Hy (_ & _ & Hnew) [Hn Hsrc]. split; [done|].
  intros z fn Hfn Ht.
  destruct (Hnew z fn Hfn) as [Hold|(t & Ht' & Hlt)].
  - destruct (Hsrc z fn Hold Ht) as [Hz Hu]. split; [done|].
    intros z' fn' Hfn' Ht'.
    destruct (Hnew z' fn' Hfn') as [Hold'|(t' & Ht'' & Hlt')];
      [by eapply Hu|].
    rewrite Ht' in Ht''. injection Ht'' as <-.
    pose proof (allocated_carrier st z fn Hold). lia.
  - rewrite Ht in Ht'. injection Ht' as <-. lia.
Qed.

Lemma inactive_same_cells n0 st st' y :
  cells st' = cells st -> inactive n0 st y -> inactive n0 st' y.
Proof.
  intros Hc. unfold inactive, untargeted, subscribers. by rewrite Hc.
Qed.

Lemma inactive_write n0 x v st y :
  inactive n0 st y -> inactive n0 (write x v st) y.
Proof.
  unfold inactive, untargeted. setoid_rewrite subscribers_write. done.
Qed.

Lemma inactive_subscribe n0 st y e fn' :
  (forall t', sub_target fn' = Some t' -> active n0 st t') ->
  inactive n0 st y -> inactive n0 (subscribe e fn' st) y.
Proof.
  intros Hact [Hn Hsrc]. split; [done|].
  assert (forall z fn, fn ∈ subscribers (subscribe e fn' st) z ->
                       fn ∈ subscribers st z \/ fn = fn') as Hsplit.
  { intros z fn Hfn. rewrite subscribers_subscribe in Hfn.
    destruct (decide _); [|by left].
    apply elem_of_app in Hfn as [Hfn|Hfn]; [by left|].
    apply list_elem_of_singleton in Hfn. by right. }
  intros z fn Hfn Ht.
  destruct (Hsplit z fn Hfn) as [Hold| ->].
  - destruct (Hsrc z fn Hold Ht) as [Hz Hu]. split; [done|].
    intros z' fn'' Hfn'' Ht''.
    destruct (Hsplit z' fn'' Hfn'') as [Hold'| ->]; [by eapply Hu|].
    destruct (active_not_inactive n0 st z (Hact z Ht'')).
    split; [done|]. intros a b Hab Hb. exfalso. exact (Hu a b Hab Hb).
  - destruct (active_not_inactive n0 st y (Hact y Ht)). by split.
Qed.

Section Closed.

Context (host : Host) (n0 : nat) (m r : sid) (k : Val -> EffExp)
        (G : Val -> Val).

Lemma closed_result_active st : closed_inv n0 m r k st -> active n0 st r.
Proof.
  intros (Hm & _ & _ & _ & Hin & _). right.
  exists m, (SubBind k r). split; [done|]. split; [done|]. by left.
Qed.

Lemma closed_not_carrier st t :
  closed_inv n0 m r k st -> active n0 st t -> SubInner r ∉ subscribers st t.
Proof.
  intros (_ & _ & _ & _ & _ & _ & Hcar) Ha Hc.
  exact (active_not_inactive n0 st t Ha (Hcar t Hc)).
Qed.

Lemma closed_inv_quiet st st' :
  closed_inv n0 m r k st -> quiet st st' -> closed_inv n0 m r k st'.
Proof.
  intros (Hm & Hr0 & Hr & Hb & Hin & Honly & Hcar) Hq.
  pose proof Hq as ((Hlen & Hpre & _) & _ & Hnew).
  split; [done|]. split; [done|]. split; [lia|].
  split; [by eapply targets_bounded_quiet|]. split.
  { eapply elem_of_prefix; [exact Hin|apply Hpre]. }
  split.
  - intros x fn Hfn Ht.
    destruct (Hnew x fn Hfn) as [Hold|(t & Ht' & Hlt)]; [by eapply Honly|].
    rewrite Ht in Ht'. injection Ht' as <-. lia.
  - intros x Hx.
    destruct (Hnew x _ Hx) as [Hold|(t & Ht' & Hlt)].
    2:{ injection Ht' as <-. lia. }
    eapply inactive_quiet; [|exact Hq|by apply Hcar].
    by eapply allocated_carrier.
Qed.

Lemma closed_inv_same_cells st st' :
  cells st' = cells st -> closed_inv n0 m r k st -> closed_inv n0 m r k st'.
Proof.
  intros Hc. unfold closed_inv, inactive, untargeted, targets_bounded,
    subscribers.
  by rewrite Hc.
Qed.

Lemma closed_inv_write x v st :
  closed_inv n0 m r k st -> closed_inv n0 m r k (write x v st).
Proof.
  unfold closed_inv, inactive, untargeted, targets_bounded.
  rewrite length_write. setoid_rewrite subscribers_write. done.
Qed.

Lemma subscribers_subscribe_split e fn' st z fn :
  fn ∈ subscribers (subscribe e fn' st) z ->
  fn ∈ subscribers st z \/ (z = e /\ fn = fn').
Proof.
  intros Hfn. rewrite subscribers_subscribe in Hfn.
  destruct (decide _) as [[-> _]|_]; [|by left].
  apply elem_of_app in Hfn as [Hfn|Hfn]; [by left|].
  apply list_elem_of_singleton in Hfn. by right.
Qed.

Lemma subscribers_subscribe_old e fn' st z fn :
  fn ∈ subscribers st z -> fn ∈ subscribers (subscribe e fn' st) z.
Proof.
  intros Hfn. rewrite subscribers_subscribe.
  destruct (decide _); [|done]. apply elem_of_app. by left.
Qed.

(** Subscribing an inner subscriber of another [bind]. *)
Lemma closed_inv_subscribe_other e r' st :
  r' <> r -> r' < length (cells st) -> active n0 st r' ->
  closed_inv n0 m r k st ->
  closed_inv n0 m r k (subscribe e (SubInner r') st).
Proof.
  intros Hne Hlt Hact (Hm & Hr0 & Hr & Hb & Hin & Honly & Hcar).
  split; [done|]. split; [done|]. split; [by rewrite length_subscribe|].
  split.
  { apply targets_bounded_subscribe; [|done]. intros t Ht. by injection Ht as <-. }
  split; [by apply subscribers_subscribe_old|]. split.
  - intros x fn Hfn Ht.
    destruct (subscribers_subscribe_split _ _ _ _ _ Hfn) as [Hold|[_ ->]];
      [by eapply Honly|].
    cbn in Ht. congruence.
  - intros x Hx.
    destruct (subscribers_subscribe_split _ _ _ _ _ Hx) as [Hold|[_ Heq]];
      [|congruence].
    apply inactive_subscribe; [|by apply Hcar].
    intros t Ht. by injection Ht as <-.
Qed.

(** Subscribing the inner subscriber of [r] to the effect that [k] built. *)
Lemma closed_inv_subscribe_inner e st :
  inactive n0 st e -> closed_inv n0 m r k st ->
  closed_inv n0 m r k (subscribe e (SubInner r) st).
Proof.
  intros Hie Hinv.
  pose proof (closed_result_active st Hinv) as Hract.
  destruct Hinv as (Hm & Hr0 & Hr & Hb & Hin & Honly & Hcar).
  split; [done|]. split; [done|]. split; [by rewrite length_subscribe|].
  split.
  { apply targets_bounded_subscribe; [|done]. intros t Ht. by injection Ht as <-. }
  split; [by apply subscribers_subscribe_old|]. split.
  - intros x fn Hfn Ht.
    destruct (subscribers_subscribe_split _ _ _ _ _ Hfn) as [Hold|[_ ->]];
      [by eapply Honly|by right].
  - intros x Hx. apply inactive_subscribe.
    { intros t Ht. by injection Ht as <-. }
    destruct (subscribers_subscribe_split _ _ _ _ _ Hx) as [Hold|[-> _]];
      [by apply Hcar|done].
Qed.

Lemma closed_rel_refl st : closed_rel n0 G m r st st.
Proof. split; [by left|]. split; [done|]. by intros y _ H. Qed.

Lemma closed_rel_trans st1 st2 st3 :
  closed_rel n0 G m r st1 st2 -> closed_rel n0 G m r st2 st3 ->
  closed_rel n0 G m r st1 st3.
Proof.
  intros (S1 & E1 & N1) (S2 & E2 & N2).
  split; [by eapply settled_with_trans|]. split; [by etrans|].
  intros y Hy Hn. apply N2; [|by apply N1].
  destruct E1 as (? & _). lia.
Qed.

Lemma closed_rel_quiet st st' :
  closed_inv n0 m r k st -> quiet st st' -> closed_rel n0 G m r st st'.
Proof.
  intros (Hm & Hr0 & Hr & _) Hq. pose proof Hq as (Hext & Hv & Hnew).
  split; [left; split; apply Hv; lia|]. split; [done|].
  intros y Hy Hi. by eapply inactive_quiet.
Qed.

Lemma closed_rel_same_cells st st' :
  cells st' = cells st -> trace st `suffix_of` trace st' ->
  next_ref st <= next_ref st' -> closed_rel n0 G m r st st'.
Proof.
  intros Hc Ht Hn. split; [by apply settled_with_same_cells|].
  split; [by apply extends_same_cells|].
  intros y _. by apply inactive_same_cells.
Qed.

Lemma closed_rel_subscribe e t st :
  active n0 st t -> closed_rel n0 G m r st (subscribe e (SubInner t) st).
Proof.
  intros Hact. split; [left; by rewrite !value_subscribe|].
  split; [apply extends_subscribe|].
  intros y _. apply inactive_subscribe. intros t' Ht'. by injection Ht' as <-.
Qed.

End Closed.

Lemma inactive_mono n0 n1 st x :
  n0 <= n1 -> inactive n1 st x -> inactive n0 st x.
Proof.
  intros Hle [Hn Hsrc]. split; [lia|]. intros z fn Hfn Ht.
  destruct (Hsrc z fn Hfn Ht) as [Hz Hu]. split; [lia|done].
Qed.

Section ClosedExec.

Context (host : Host) (n0 : nat) (m r : sid) (k : Val -> EffExp)
        (G : Val -> Val).
Hypothesis Hk : self_contained k G.

Lemma set_spec_closed_other set t w s1 s2 :
  set_spec_closed n0 m r k G set -> t <> r ->
  closed_inv n0 m r k s1 -> active n0 s1 t ->
  set t w s1 = Some s2 ->
  closed_inv n0 m r k s2 /\ closed_rel n0 G m r s1 s2.
Proof.
  intros Hset Hne Hinv Ha H.
  destruct (Hset t w s1 s2 Hinv Ha (fun E => False_ind _ (Hne E)) H)
    as (? & ? & _).
  done.
Qed.

Lemma closed_target_other st x fn t :
  closed_inv n0 m r k st -> fn ∈ subscribers st x -> sub_target fn = Some t ->
  (forall h, fn <> SubBind h t) -> fn <> SubInner r -> t <> r.
Proof.
  intros (_ & _ & _ & _ & _ & Honly & _) Hfn Ht Hnb Hni ->.
  destruct (Honly x fn Hfn Ht) as [[_ ->]| ->]; [by eapply Hnb|done].
Qed.

Lemma sub_body_closed set x fn st st' :
  set_spec_closed n0 m r k G set ->
  closed_inv n0 m r k st -> active n0 st x ->
  fn ∈ subscribers st x ->
  sub_body host set fn (value st x) st = Some st' ->
  closed_inv n0 m r k st' /\ closed_rel n0 G m r st st' /\
  (x = m -> fn = SubBind k r -> agree_with G m r st').
Proof.
  intros Hset Hinv Hxa Hfn H.
  assert (fn <> SubInner r) as Hni.
  { intros ->. by apply (closed_not_carrier n0 m r k st x Hinv Hxa). }
  assert (forall st0 st1, closed_rel n0 G m r st st0 ->
            fn ∈ subscribers st0 x -> active n0 st0 x ->
            closed_rel n0 G m r st0 st1 ->
            closed_rel n0 G m r st st1 /\ fn ∈ subscribers st1 x /\
            active n0 st1 x) as Hnext.
  { intros st0 st1 R0 Hfn0 Ha0 R1. split; [by eapply closed_rel_trans|].
    destruct R1 as (_ & Hext & _). split.
    - destruct Hext as (_ & Hpre & _).
      eapply elem_of_prefix; [exact Hfn0|apply Hpre].
    - by eapply active_extends. }
  assert (forall st1, quiet st st1 ->
            closed_inv n0 m r k st1 /\ closed_rel n0 G m r st st1 /\
            fn ∈ subscribers st1 x /\ active n0 st1 x) as Hstep.
  { intros st1 Hq. split; [by eapply closed_inv_quiet|].
    apply (Hnext st st1 (closed_rel_refl n0 m r G st) Hfn Hxa).
    by eapply closed_rel_quiet. }
  assert (forall st1, cells st1 = cells st -> trace st `suffix_of` trace st1 ->
            next_ref st <= next_ref st1 ->
            closed_inv n0 m r k st1 /\ closed_rel n0 G m r st st1 /\
            fn ∈ subscribers st1 x /\ active n0 st1 x) as Hsame.
  { intros st1 Hc Ht Hn. split; [by eapply closed_inv_same_cells|].
    apply (Hnext st st1 (closed_rel_refl n0 m r G st) Hfn Hxa).
    by apply closed_rel_same_cells. }
  assert (forall t w st1 st2,
            sub_target fn = Some t -> (forall h, fn <> SubBind h t) ->
            closed_inv n0 m r k st1 -> closed_rel n0 G m r st st1 ->
            fn ∈ subscribers st1 x -> active n0 st1 x ->
            set t w st1 = Some st2 ->
            closed_inv n0 m r k st2 /\ closed_rel n0 G m r st st2) as Hcall.
  { intros t w st1 st2 Ht Hnb Hi1 Hs1 Hfn1 Ha1 E.
    assert (t <> r) as Hne by (by eapply closed_target_other).
    assert (active n0 st1 t) as Hta by (by eapply targeted_active).
    pose proof (set_spec_closed_other set t w st1 st2 Hset Hne Hi1 Hta E)
      as (Hi & Hs).
    split; [done|]. by eapply closed_rel_trans. }
  destruct fn as [f' t|k' r'|r'|tag|flag timer t|key t|fetcher t];
    cbn -[eval_exp] in H.
  - pose proof (quiet_apply_fn f' (value st x) st) as Hq.
    destruct (apply_fn f' (value st x) st) as [w s1]; cbn in Hq.
    destruct (Hstep s1 Hq) as (Hi1 & Hs1 & Hfn1 & Ha1).
    destruct (Hcall t w s1 st' eq_refl ltac:(done) Hi1 Hs1 Hfn1 Ha1 H)
      as [Hi Hs].
    done.
  - pose proof (quiet_eval_exp (k' (value st x)) st) as Hq.
    destruct (decide (r' = r)) as [->|Hne].
    + pose proof Hinv as (Hm & Hr0 & Hr & Hb & Hin & Honly & Hcar).
      destruct (Honly x _ Hfn eq_refl) as [[-> Heq]|?]; [|done].
      injection Heq as ->.
      destruct (Hk (value st m) st Hb) as (Hval & Hel & Hie).
      destruct (eval_exp (k (value st m)) st) as [e s1].
      cbn [fst snd] in Hq, Hval, Hel, Hie.
      destruct (set r (value s1 e) s1) as [s2|] eqn:E; [|done].
      cbn in H. injection H as <-.
      destruct (Hstep s1 Hq) as (Hi1 & Hs1 & Hfn1 & Ha1).
      assert (value s1 m = value st m) as Hvm.
      { destruct Hq as (_ & Hv & _). apply Hv. lia. }
      assert (inactive n0 s1 e) as Hie1
        by (eapply inactive_mono; [|exact Hie]; lia).
      destruct (Hset r _ s1 s2 Hi1 (closed_result_active n0 m r k s1 Hi1)
                  (fun _ => eq_trans Hval (f_equal G (eq_sym Hvm))) E)
        as (Hi2 & Hs2 & Ha2).
      assert (inactive n0 s2 e) as Hie2
        by (destruct Hs2 as (_ & _ & N2); by apply N2).
      split; [by apply closed_inv_subscribe_inner|].
      assert (agree_with G m r (subscribe e (SubInner r) s2)) as Hag.
      { unfold agree_with. rewrite !value_subscribe. by apply Ha2. }
      split; [|done].
      eapply closed_rel_trans; [exact Hs1|].
      eapply closed_rel_trans; [exact Hs2|].
      apply closed_rel_subscribe. by apply (closed_result_active n0 m r k).
    + destruct (eval_exp (k' (value st x)) st) as [e s1]; cbn in Hq.
      destruct (set r' (value s1 e) s1) as [s2|] eqn:E; [|done].
      cbn in H. injection H as <-.
      destruct (Hstep s1 Hq) as (Hi1 & Hs1 & Hfn1 & Ha1).
      assert (active n0 s1 r') as Hra
        by (by eapply (targeted_active n0 s1 x (SubBind k' r'))).
      pose proof (set_spec_closed_other set r' _ s1 s2 Hset Hne Hi1 Hra E)
        as (Hi2 & Hs12).
      assert (closed_rel n0 G m r st s2) as Hs2
        by (by eapply closed_rel_trans).
      assert (SubBind k' r' ∈ subscribers s2 x) as Hfn2.
      { destruct Hs12 as (_ & (_ & Hpre & _) & _).
        eapply elem_of_prefix; [exact Hfn1|apply Hpre]. }
      assert (active n0 s2 r') as Hra2.
      { destruct Hs12 as (_ & Hext & _). by eapply active_extends. }
      split.
      { apply closed_inv_subscribe_other; [done| |done|done].
        destruct Hi2 as (_ & _ & _ & Hb2 & _). by eapply Hb2. }
      split.
      { eapply closed_rel_trans; [exact Hs2|]. by apply closed_rel_subscribe. }
      intros _ Heq. injection Heq as _ ->. done.
  - destruct (Hcall r' _ st st' eq_refl ltac:(done) Hinv
                (closed_rel_refl n0 m r G st) Hfn Hxa H) as [Hi Hs].
    done.
  - injection H as <-.
    destruct (Hsame (log tag (value st x) st) eq_refl) as (? & ? & _);
      [by apply suffix_cons_r|done|done].
  - destruct (get_flag st flag).
    { injection H as <-. split; [done|].
      split; [apply closed_rel_refl|done]. }
    match type of H with set _ _ ?s1 = _ =>
      destruct (Hsame s1 eq_refl) as (Hi1 & Hs1 & Hfn1 & Ha1); [done|done|] end.
    destruct (Hcall t _ _ st' eq_refl ltac:(done) Hi1 Hs1 Hfn1 Ha1 H)
      as [Hi Hs].
    done.
  - assert (cells (cache_write host key (value st x) st) = cells st) as Hcw.
    { unfold cache_write. by destruct (_ && _). }
    destruct (Hsame _ Hcw) as (Hi1 & Hs1 & Hfn1 & Ha1).
    { unfold cache_write. by destruct (_ && _). }
    { unfold cache_write. by destruct (_ && _). }
    destruct (Hcall t _ _ st' eq_refl ltac:(done) Hi1 Hs1 Hfn1 Ha1 H)
      as [Hi Hs].
    done.
  - unfold executeFetch_with in H. cbn in H.
    match type of H with context [set ?t ?w ?s1] =>
      destruct (set t w s1) as [s2|] eqn:E; [|done];
      destruct (Hsame s1 eq_refl) as (Hi1 & Hs1 & Hfn1 & Ha1);
        [done|cbn; lia|]
    end.
    destruct (Hcall t _ _ s2 eq_refl ltac:(done) Hi1 Hs1 Hfn1 Ha1 E)
      as [Hi Hs].
    cbn in H. injection H as <-.
    split; [eapply closed_inv_same_cells; [|exact Hi]; done|].
    split; [|done].
    eapply closed_rel_trans; [exact Hs|]. by apply closed_rel_same_cells.
Qed.

Lemma active_write n0' x v st y :
  active n0' st y -> active n0' (write x v st) y.
Proof. apply active_extends, extends_write. Qed.

Lemma exec_closed fuel : forall call st st',
  closed_inv n0 m r k st -> call_legal_closed n0 m r G call st ->
  exec host fuel call st = Some st' ->
  closed_inv n0 m r k st' /\ closed_rel n0 G m r st st' /\
  call_post_closed G m r k call st st'.
Proof.
  induction fuel as [|n IH]; intros call st st' Hinv Hlegal H; [done|].
  assert (set_spec_closed n0 m r k G (fun t w => exec host n (CSet t w)))
    as Hset.
  { intros t w s1 s2 Hi Ha Hl E.
    destruct (IH (CSet t w) s1 s2 Hi (conj Ha Hl) E) as (? & ? & ? & _).
    done. }
  pose proof Hinv as (Hm & Hr0 & Hr & Hb & Hin & Honly & Hcar).
  destruct call as [x v|x i]; cbn -[sub_body] in H.
  - destruct Hlegal as [Hxa Hlegal].
    destruct (strict_neq v (value st x)) eqn:Hneq.
    + destruct (IH (CNotify x 0) _ st' (closed_inv_write n0 m r k x v st Hinv)
                  (active_write n0 x v st x Hxa) H) as (Hi & Hs & Hp).
      assert (x = m -> agree_with G m r st') as Hxm.
      { intros ->. apply list_elem_of_lookup_1 in Hin as [j Hj].
        apply (Hp eq_refl j); [lia|]. by rewrite subscribers_write. }
      assert (x = r -> agree_with G m r st') as Hxr.
      { intros ->. destruct Hs as (Hs & _).
        eapply settled_with_agree; [|exact Hs].
        unfold agree_with. rewrite !value_write.
        rewrite decide_True, decide_True by done.
        rewrite decide_False by lia.
        rewrite (Hlegal eq_refl). apply same_value_refl. }
      split; [done|]. split; [|by split; [|intros ? _]; auto].
      destruct Hs as (Hs & He & Hn). split; [|split].
      * destruct (decide (x = m)) as [->|Hnm]; [right; by apply Hxm|].
        destruct (decide (x = r)) as [->|Hnr]; [right; by apply Hxr|].
        eapply settled_with_trans; [|exact Hs].
        left. by rewrite !value_write, !decide_False.
      * etrans; [apply (extends_write x v)|done].
      * intros y Hy Hny. apply Hn; [by rewrite length_write|].
        by apply inactive_write.
    + injection H as <-. split; [done|]. split; [apply closed_rel_refl|].
      split; [|intros ->; congruence].
      intros ->. unfold agree_with. rewrite (Hlegal eq_refl) in Hneq.
      apply same_value_sym, strict_eq_same_value.
      unfold strict_neq in Hneq. by destruct (strict_eq _ _).
  - cbn in Hlegal.
    destruct (subscribers st x !! i) as [fn|] eqn:Ei.
    2:{ injection H as <-. split; [done|]. split; [apply closed_rel_refl|].
        intros -> j Hij Hj. apply lookup_ge_None in Ei.
        apply lookup_lt_Some in Hj. lia. }
    destruct (sub_body host _ fn (value st x) st) as [s1|] eqn:E; [|done].
    cbn in H.
    assert (fn ∈ subscribers st x) as Hfn by (by eapply list_elem_of_lookup_2).
    destruct (sub_body_closed _ x fn st s1 Hset Hinv Hlegal Hfn E)
      as (Hi1 & Hs1 & Hp1).
    assert (active n0 s1 x) as Hxa1.
    { destruct Hs1 as (_ & Hext & _). by eapply active_extends. }
    destruct (IH (CNotify x (S i)) s1 st' Hi1 Hxa1 H) as (Hi & Hs & Hp).
    split; [done|]. split; [by eapply closed_rel_trans|].
    intros -> j Hij Hj. destruct (decide (j = i)) as [->|Hne].
    + rewrite Hj in Ei. injection Ei as <-.
      destruct Hs as (Hs & _).
      eapply settled_with_agree; [|exact Hs]. by apply Hp1.
    + apply (Hp eq_refl j); [lia|].
      destruct Hs1 as (_ & (_ & Hpre & _) & _).
      eapply prefix_lookup_Some; [exact Hj|apply Hpre].
Qed.

(** Updates of signals that existed when [bind] was called keep the
    result in step with [m]. *)
Lemma set_each_closed fuel us : forall st st',
  closed_inv n0 m r k st -> agree_with G m r st ->
  (forall x v, (x, v) ∈ us -> x < n0) ->
  set_each host fuel us st = Some st' ->
  closed_inv n0 m r k st' /\ agree_with G m r st'.
Proof.
  induction us as [|[x v] us IH]; intros st st' Hinv Ha Hus H; cbn in H.
  - by injection H as <-.
  - destruct (set_ host fuel x v st) as [s1|] eqn:E; [|done]. cbn in H.
    assert (x < n0) as Hx by (eapply Hus; apply list_elem_of_here).
    pose proof Hinv as (Hm & Hr0 & Hr & Hb & Hin & Honly & Hcar).
    destruct (exec_closed fuel (CSet x v) st s1) as (Hi & (Hs & _) & _);
      [done| |done|].
    { split; [by left|]. intros ->. lia. }
    eapply IH; [exact Hi| | |exact H].
    + by eapply settled_with_agree.
    + intros y w Hy. eapply Hus. by apply list_elem_of_further.
Qed.

End ClosedExec.

Lemma self_contained_fresh (g : Val -> Val) : self_contained (fresh_effect g) g.
Proof.
  intros v st Hb. unfold fresh_effect. cbn [eval_exp]. unfold effect.
  rewrite signal_pair. cbn [fst snd].
  rewrite value_signal, decide_True, length_signal by done.
  split; [done|]. split; [lia|]. split; [done|].
  intros z fn Hfn Ht. rewrite subscribers_signal in Hfn.
  specialize (Hb _ _ _ Hfn Ht). lia.
Qed.

Lemma self_contained_nested (f g : Val -> Val) :
  self_contained (nested f g) (compose_ g f).
Proof.
  intros v st Hb. unfold nested, fresh_effect.
  cbn [eval_exp]. unfold bind_body, effect.
  rewrite signal_pair. cbv beta iota.
  set (L := length (cells st)).
  set (s1 := (signal (f v) st).2).
  rewrite (signal_pair _ s1). cbv beta iota.
  set (s2 := (signal (g (value s1 L)) s1).2).
  rewrite (signal_pair _ s2). cbv beta iota. cbn [fst snd].
  assert (length (cells s1) = S L) as Hl1 by (unfold s1; by rewrite length_signal).
  assert (length (cells s2) = S (S L)) as Hl2
    by (unfold s2; by rewrite length_signal, Hl1).
  assert (value s1 L = f v) as Hv1.
  { unfold s1. by rewrite value_signal, decide_True. }
  assert (value s2 (S L) = g (f v)) as Hv2.
  { unfold s2. by rewrite value_signal, Hl1, decide_True, Hv1. }
  set (s3 := (signal (value s2 (length (cells s1))) s2).2).
  assert (forall z, subscribers s3 z = subscribers st z) as Hsub3.
  { intros z. unfold s3, s2, s1. by rewrite !subscribers_signal. }
  rewrite Hl2.
  split.
  { rewrite value_subscribe. unfold s3. rewrite value_signal, Hl2, Hl1.
    by rewrite decide_True, Hv2. }
  split.
  { rewrite length_subscribe. unfold s3. rewrite length_signal, Hl2. lia. }
  split; [lia|].
  intros z fn Hfn Ht.
  destruct (subscribers_subscribe_split _ _ _ _ _ Hfn) as [Hold|[-> ->]].
  - rewrite Hsub3 in Hold. specialize (Hb _ _ _ Hold Ht). fold L in Hb. lia.
  - split; [done|]. intros z' fn' Hfn' Ht'.
    destruct (subscribers_subscribe_split _ _ _ _ _ Hfn') as [Hold|[_ ->]].
    + rewrite Hsub3 in Hold. specialize (Hb _ _ _ Hold Ht'). fold L in Hb. lia.
    + cbn in Ht'. injection Ht' as Heq. lia.
Qed.

(** [r = m.bind(k)] right after the call, for a [k] that builds its
    effect. *)
Lemma bind_closed_facts (k : Val -> EffExp) (G : Val -> Val) (s : Store)
    (m : sid) :
  self_contained k G -> targets_bounded s -> m < length (cells s) ->
  let r := (bind m k s).1 in
  let s1 := (bind m k s).2 in
  value s1 r = G (value s m) /\
  closed_inv (length (cells s)) m r k s1 /\ agree_with G m r s1 /\
  r < length (cells s1).
Proof.
  intros Hk Hb Hm r s1.
  destruct (Hk (value s m) s Hb) as (Hval & Hel & _).
  pose proof (extends_eval_exp (k (value s m)) s) as (Hlen & _).
  assert (r = length (cells (eval_exp (k (value s m)) s).2)) as Hr.
  { unfold r. by rewrite bind_unfold. }
  assert (length (cells s1) = S r) as Hl1.
  { unfold s1. rewrite bind_unfold. cbn -[signal subscribe].
    by rewrite length_subscribe, length_signal, Hr. }
  assert (value s1 r = G (value s m)) as Hv.
  { unfold s1. rewrite Hr, bind_unfold.
    cbn -[signal subscribe value subscribers].
    by rewrite value_subscribe, value_signal, decide_True. }
  assert (value s1 m = value s m) as Hvm.
  { destruct (quiet_bind m k s) as (_ & Hq & _). by apply Hq. }
  split; [exact Hv|]. split; [|split].
  - split; [done|]. split; [lia|]. split; [lia|].
    split; [by apply targets_bounded_bind|]. split.
    { unfold s1. rewrite Hr, bind_unfold.
      cbn -[signal subscribe value subscribers].
      rewrite subscribers_subscribe, subscribers_signal, length_signal.
      rewrite decide_True by (split; [done|lia]).
      apply elem_of_app. right. apply list_elem_of_here. }
    split.
    + intros x fn Hfn Ht. left.
      by apply (bind_subscribers m k s x fn Hb).
    + intros x Hx.
      by destruct (bind_subscribers m k s x (SubInner r) Hb Hx eq_refl).
  - unfold agree_with. rewrite Hv, Hvm. apply same_value_refl.
  - lia.
Qed.

Lemma agree_with_built (G : Val -> Val) (c d : sid) (st st' : Store) :
  c < length (cells st) -> d < length (cells st) -> quiet st st' ->
  agree_with G c d st -> agree_with G c d st'.
Proof.
  intros Hc Hd (_ & Hv & _) Ha. unfold agree_with in *. by rewrite !Hv.
Qed.

(** X24: monad associativity.  For [f = x => effect(f0(x))] and
    [g = y => effect(g0(y))], [m.bind(f).bind(g)] and
    [m.bind(a => f(a).bind(g))] hold the same value when they are created
    and after every sequence of updates of signals that existed before, [m]
    among them, that returns (values compared as [Object.is]; [g0] answers
    alike on identical values). *)
Theorem monad_associativity (host : Host) (f g : Val -> Val) (s : Store)
    (m : sid) :
  targets_bounded s -> m < length (cells s) -> respects_identity g ->
  let r1 := (bind m (fresh_effect f) s).1 in
  let s1 := (bind m (fresh_effect f) s).2 in
  let lhs := (bind r1 (fresh_effect g) s1).1 in
  let s2 := (bind r1 (fresh_effect g) s1).2 in
  let rhs := (bind m (nested f g) s2).1 in
  let s3 := (bind m (nested f g) s2).2 in
  same_value (value s3 lhs) (value s3 rhs) = true /\
  (forall fuel us s',
     (forall x v, (x, v) ∈ us -> x < length (cells s)) ->
     set_each host fuel us s3 = Some s' ->
     same_value (value s' lhs) (value s' rhs) = true).
Proof.
  intros Hb Hm Hg r1 s1 lhs s2 rhs s3.
  assert (quiet s s1) as Hq1 by apply quiet_bind.
  assert (quiet s1 s2) as Hq2 by apply quiet_bind.
  assert (quiet s2 s3) as Hq3 by apply quiet_bind.
  pose proof (targets_bounded_quiet _ _ Hb Hq1) as Hb1.
  pose proof (targets_bounded_quiet _ _ Hb1 Hq2) as Hb2.
  assert (length (cells s) <= length (cells s1)) as Hl1
    by (by destruct Hq1 as ((? & _) & _)).
  assert (length (cells s1) <= length (cells s2)) as Hl2
    by (by destruct Hq2 as ((? & _) & _)).
  destruct (bind_closed_facts (fresh_effect f) f s m
              (self_contained_fresh f) Hb Hm) as (_ & Hi1 & Ha1 & Hr1).
  fold r1 s1 in Hi1, Ha1, Hr1.
  destruct (bind_closed_facts (fresh_effect g) g s1 r1
              (self_contained_fresh g) Hb1 Hr1) as (_ & Hi2 & Ha2 & Hr2).
  fold lhs s2 in Hi2, Ha2, Hr2.
  destruct (bind_closed_facts (nested f g) (compose_ g f) s2 m
              (self_contained_nested f g) Hb2 ltac:(lia))
    as (_ & Hi3 & Ha3 & _).
  fold rhs s3 in Hi3, Ha3.
  assert (closed_inv (length (cells s)) m r1 (fresh_effect f) s3) as Hi1'.
  { eapply closed_inv_quiet; [|exact Hq3].
    eapply closed_inv_quiet; [exact Hi1|exact Hq2]. }
  assert (agree_with f m r1 s3) as Ha1'.
  { eapply agree_with_built; [| |exact Hq3|]; [lia|lia|].
    eapply agree_with_built; [| |exact Hq2|exact Ha1]; lia. }
  assert (closed_inv (length (cells s1)) r1 lhs (fresh_effect g) s3) as Hi2'
    by (eapply closed_inv_quiet; [exact Hi2|exact Hq3]).
  assert (agree_with g r1 lhs s3) as Ha2'.
  { eapply agree_with_built; [| |exact Hq3|exact Ha2]; lia. }
  assert (forall st, agree_with f m r1 st -> agree_with g r1 lhs st ->
                     agree_with (compose_ g f) m rhs st ->
                     same_value (value st lhs) (value st rhs) = true) as Hconc.
  { intros st A1 A2 A3. unfold agree_with, compose_ in *.
    eapply same_value_trans; [exact A2|].
    eapply same_value_trans; [apply Hg; exact A1|].
    by apply same_value_sym. }
  split; [by apply Hconc|].
  intros fuel us s' Hus H.
  destruct (set_each_closed host (length (cells s)) m r1 (fresh_effect f) f
              (self_contained_fresh f) fuel us s3 s' Hi1' Ha1')
    as [_ A1]; [exact Hus|exact H|].
  destruct (set_each_closed host (length (cells s1)) r1 lhs (fresh_effect g) g
              (self_contained_fresh g) fuel us s3 s' Hi2' Ha2')
    as [_ A2]; [|exact H|].
  { intros x v Hxv. specialize (Hus x v Hxv). lia. }
  destruct (set_each_closed host (length (cells s2)) m rhs (nested f g)
              (compose_ g f) (self_contained_nested f g) fuel us s3 s'
              Hi3 Ha3)
    as [_ A3]; [|exact H|].
  { intros x v Hxv. specialize (Hus x v Hxv). lia. }
  by apply Hconc.
Qed.

(** [e = effect(5)]; [e.bind(x => effect(x + 1)).bind(y => effect(y * 2))]
    against [e.bind(x => effect(x + 1).bind(y => effect(y * 2)))]; then
    [e._set(10)] and [e._set(7)]. *)
Lemma monad_associativity_witness :
  let s := (effect (VNum 5) empty_store).2 in
  let r1 := (bind 0 (fresh_effect addOne) s).1 in
  let s1 := (bind 0 (fresh_effect addOne) s).2 in
  let lhs := (bind r1 (fresh_effect double) s1).1 in
  let s2 := (bind r1 (fresh_effect double) s1).2 in
  let rhs := (bind 0 (nested addOne double) s2).1 in
  let s3 := (bind 0 (nested addOne double) s2).2 in
  value s3 lhs = VNum 12 /\ value s3 rhs = VNum 12 /\
  exists s', set_each demo_host 8 [(0, VNum 10); (0, VNum 7)] s3 = Some s' /\
             value s' lhs = VNum 16 /\
             same_value (value s' lhs) (value s' rhs) = true.
Proof.
  intros s r1 s1 lhs s2 rhs s3.
  destruct (monad_associativity demo_host addOne double s 0
              (targets_bounded_signal _ _ targets_bounded_empty)
              ltac:(vm_compute; lia) double_respects_identity) as [_ H2].
  split; [vm_compute; reflexivity|]. split; [vm_compute; reflexivity|].
  eexists. split; [vm_compute; reflexivity|].
  split; [vm_compute; reflexivity|].
  eapply (H2 8 [(0, VNum 10); (0, VNum 7)]).
  - intros x v Hxv. apply elem_of_cons in Hxv as [Hxv|Hxv].
    + injection Hxv as -> ->. vm_compute. lia.
    + apply list_elem_of_singleton in Hxv. injection Hxv as -> ->.
      vm_compute. lia.
  - vm_compute. reflexivity.
Defined.

(* ===================================================================== *)
(** ** [debounce]: spaced emissions                                       *)
(* ===================================================================== *)

(** [_set] on a signal whose only subscriber is one observer, exactly. *)
Lemma set_one_observer_exact host n c tag v st :
  subscribers st c = [SubLog tag] -> c < length (cells st) ->
  set_ host (S (S (S n))) c v st =
  Some (if strict_neq v (value st c)
        then set_trace (write c v st) ((tag, v) :: trace st)
        else st).
Proof.
  intros Hsub Hc. unfold set_. rewrite exec_set.
  destruct (strict_neq v (value st c)); [|done].
  rewrite notify_observers_run.
  - rewrite subscribers_write, value_write, drop_0, Hsub.
    rewrite !decide_True by done. do 2 f_equal.
    cbn. f_equal. unfold write. by destruct (cells st !! c).
  - intros fn. rewrite subscribers_write, Hsub.
    intros ->%list_elem_of_singleton. by eexists.
  - rewrite subscribers_write, Hsub. cbn. lia.
Qed.

(** The same [_set] on two stores with the same signals and trace. *)
Lemma set_one_observer_sim host n c tag v st sref :
  subscribers st c = [SubLog tag] -> c < length (cells st) ->
  cells st = cells sref -> trace st = trace sref ->
  exists st' sref',
    set_ host (S (S (S n))) c v st = Some st' /\
    set_ host (S (S (S n))) c v sref = Some sref' /\
    cells st' = cells sref' /\ trace st' = trace sref' /\
    subscribers st' c = [SubLog tag] /\ now st' = now st /\
    length (cells st') = length (cells st).
Proof.
  intros Hsub Hc Hcells Htr.
  assert (subscribers sref c = [SubLog tag]) as Hsub'
    by (by rewrite (subscribers_same_cells st sref c (eq_sym Hcells))).
  rewrite (set_one_observer_exact host n c tag v st Hsub Hc).
  rewrite (set_one_observer_exact host n c tag v sref Hsub')
    by (by rewrite <- Hcells).
  rewrite (value_same_cells st sref c (eq_sym Hcells)).
  eexists _, _. split; [done|]. split; [done|].
  destruct (strict_neq v (value st c)).
  - change (cells (set_trace ?a _)) with (cells a).
    change (trace (set_trace ?a ?t)) with t.
    change (subscribers (set_trace ?a _) c) with (subscribers a c).
    change (now (set_trace ?a _)) with (now a).
    rewrite subscribers_write, now_write, length_write, Htr.
    split; [|done].
    unfold write. rewrite Hcells. by destruct (cells sref !! c).
  - done.
Qed.

Lemma spaced_run host n gas c ms tag deadline evs : forall tp vp d st sref,
  (0 <= ms)%Z ->
  spaced_inv c ms tag tp vp d st sref -> spaced ms tp evs ->
  ((List.last evs (tp, vp)).1 + ms <= deadline)%Z ->
  exists d1 st1 d3 s3 s',
    debounce_run host (S (S (S n))) (S gas) evs d st = Some (d1, st1) /\
    debounce_advance host (S (S (S n))) (S gas) deadline d1 st1
      = Some (d3, s3) /\
    set_all host (S (S (S n))) c (vp :: List.map snd evs) sref = Some s' /\
    cells s3 = cells s' /\ trace s3 = trace s' /\ db_timers d3 = [].
Proof.
  induction evs as [|[t v] evs IH]; intros tp vp d st sref Hms Hinv Hsp Hdl.
  - destruct Hinv as (Hc & Hm & (id & Hid & Hti) & Hnow & Hsub & Hlt & Hcs & Htr).
    cbn [debounce_run List.map set_all]. exists d, st.
    rewrite debounce_advance_S, Hti.
    cbn [dt_earliest fold_left dt_due dt_value]. cbn [List.last fst] in Hdl.
    replace (tp + ms <=? deadline)%Z with true
      by (symmetry; apply Z.leb_le; lia).
    rewrite Hc.
    destruct (set_one_observer_sim host n c tag vp
                (set_now st (Z.max (now st) (tp + ms))) sref)
      as (st' & sref' & -> & -> & Hcs' & Htr' & _); [done|done|done|done|].
    cbn [mbind option_bind].
    rewrite debounce_advance_S. cbn [db_timers dt_id].
    rewrite filter_cons_False, filter_nil by (cbn; intros H; by apply H).
    cbn [dt_earliest fold_left].
    eexists _, _, _. split; [done|]. split; [done|]. split; [done|].
    by repeat split.
  - destruct Hsp as [Ht Hsp].
    destruct Hinv as (Hc & Hm & (id & Hid & Hti) & Hnow & Hsub & Hlt & Hcs & Htr).
    cbn [debounce_run List.map set_all fst snd].
    rewrite debounce_advance_S, Hti.
    cbn [dt_earliest fold_left dt_due dt_value].
    replace (tp + ms <=? t)%Z with true by (symmetry; apply Z.leb_le; lia).
    rewrite Hc.
    destruct (set_one_observer_sim host n c tag vp
                (set_now st (Z.max (now st) (tp + ms))) sref)
      as (st' & sref' & -> & -> & Hcs' & Htr' & Hsub' & Hnow' & Hlen');
      [done|done|done|done|].
    cbn [mbind option_bind].
    rewrite debounce_advance_S. cbn [db_timers dt_id].
    rewrite filter_cons_False, filter_nil by (cbn; intros H; by apply H).
    cbn [dt_earliest fold_left mbind option_bind].
    change (now (set_now ?x ?y)) with y in Hnow'.
    set (st1 := set_now st' (Z.max (now st') t)).
    set (d0 := mkDebounce c (db_ms d) (timeoutId d) [] (db_next d)).
    destruct (IH t v (debounce_emit v d0 st1) st1 sref' Hms)
      as (d1 & st2 & d3 & s3 & s' & Hrun & Hadv & Hall & H1 & H2 & H3).
    + split; [done|]. split; [done|]. split.
      { eexists. split; [done|]. unfold debounce_emit, d0.
        cbn [db_timers timeoutId db_ms db_next debounce_clear].
        rewrite Hid. cbn. rewrite Hm. do 2 f_equal.
        change (now st1) with (Z.max (now st') t). lia. }
      change (now st1) with (Z.max (now st') t). split; [lia|].
      split; [done|]. split.
      { change (cells st1) with (cells st'). by rewrite Hlen'. }
      by split.
    + done.
    + by rewrite last_cons_default in Hdl.
    + exists d1, st2, d3, s3, s'. split; [done|]. split; [done|].
      split; [done|]. by repeat split.
Qed.

(** X25: [debounce(ms, effect)] over emissions that are each at least [ms]
    after the one before, watched until [ms] after the last: nothing is
    dropped.  The result and its observer end as if every emitted value
    had been set on the result directly, in order, and no timer is left. *)
Theorem debounce_passes_spaced_emissions (host : Host) (n gas : nat) (ms : Z)
    (eff : sid) (tag : nat) (t1 : Z) (v1 : Val) (rest : list (Z * Val))
    (deadline : Z) (s : Store) :
  (0 <= ms)%Z -> (now s <= t1)%Z -> spaced ms t1 rest ->
  ((List.last rest (t1, v1)).1 + ms <= deadline)%Z ->
  let d := (debounce ms eff s).1 in
  let s1 := subscribe (db_cell d) (SubLog tag) (debounce ms eff s).2 in
  exists d2 s2 d3 s3 s',
    debounce_run host (S (S (S n))) (S gas) ((t1, v1) :: rest) d s1
      = Some (d2, s2) /\
    debounce_advance host (S (S (S n))) (S gas) deadline d2 s2
      = Some (d3, s3) /\
    set_all host (S (S (S n))) (db_cell d) (v1 :: List.map snd rest) s1
      = Some s' /\
    value s3 (db_cell d) = value s' (db_cell d) /\ trace s3 = trace s' /\
    db_timers d3 = [].
Proof.
  intros Hms Hnow Hsp Hdl d s1.
  set (c := length (cells s)).
  assert (db_cell d = c) as Hc by done.
  assert (subscribers s1 c = [SubLog tag] /\ c < length (cells s1))
    as (Hsub & Hlt).
  { unfold s1, d, debounce, time, effect. rewrite signal_pair.
    cbn [fst snd db_cell]. fold c.
    rewrite subscribers_subscribe, subscribers_signal, length_signal.
    rewrite decide_True by (split; [done|unfold c; lia]).
    split. { unfold subscribers, c. by rewrite lookup_ge_None_2. }
    rewrite length_subscribe, length_signal. unfold c; lia. }
  cbn [debounce_run].
  rewrite debounce_advance_S. change (db_timers d) with (@nil DTimer).
  cbn [dt_earliest fold_left mbind option_bind].
  set (s1' := set_now s1 (Z.max (now s1) t1)).
  assert (now s1 = now s) as Hnow1.
  { unfold s1, d, debounce, time, effect. rewrite signal_pair.
    cbn [fst snd db_cell].
    destruct (same_host_subscribe (length (cells s)) (SubLog tag)
                (signal (value s eff) s).2) as (_ & _ & _ & _ & -> & _).
    done. }
  assert (spaced_inv c ms tag t1 v1 (debounce_emit v1 d s1') s1' s1) as Hinv.
  { split; [done|]. split; [done|]. split.
    { exists 0. split; [done|]. cbn. do 2 f_equal.
      change (now s1') with (Z.max (now s1) t1). lia. }
    change (now s1') with (Z.max (now s1) t1). split; [lia|].
    by repeat split. }
  destruct (spaced_run host n gas c ms tag deadline rest t1 v1 _ _ _
              Hms Hinv Hsp Hdl)
    as (d2 & s2 & d3 & s3 & s' & Hrun & Hadv & Hall & Hcs & Htr & Hti).
  exists d2, s2, d3, s3, s'. rewrite Hc.
  split; [done|]. split; [done|]. split; [done|].
  split; [by apply value_same_cells|]. by split.
Qed.

(** [r = debounce(100, e)] with one observer; the source emits 1, 2 and 2 at
    0, 100 and 250, and the clock runs to 350: the observer is called with
    1 and with 2, as when the values are set directly. *)
Lemma debounce_passes_spaced_emissions_witness :
  let s := (effect (VNum 0) empty_store).2 in
  let rest := [(100, VNum 2); (250, VNum 2)]%Z in
  let d := (debounce 100 0 s).1 in
  let s1 := subscribe 1 (SubLog 0) (debounce 100 0 s).2 in
  exists d2 s2 d3 s3 s',
    debounce_run demo_host 3 1 ((0, VNum 1)%Z :: rest) d s1 = Some (d2, s2) /\
    debounce_advance demo_host 3 1 350 d2 s2 = Some (d3, s3) /\
    set_all demo_host 3 1 [VNum 1; VNum 2; VNum 2] s1 = Some s' /\
    value s3 1 = value s' 1 /\ trace s3 = trace s' /\
    trace s3 = [(0, VNum 2); (0, VNum 1)] /\ db_timers d3 = [].
Proof.
  intros s rest d s1.
  assert (0 <= 100)%Z as H0 by lia.
  assert (now s <= 0)%Z as H1 by (vm_compute; discriminate).
  assert (spaced 100 0 rest) as H2 by (cbn; lia).
  assert ((List.last rest (0, VNum 1)%Z).1 + 100 <= 350)%Z as H3
    by (vm_compute; discriminate).
  destruct (debounce_passes_spaced_emissions demo_host 0 0 100 0 0 0 (VNum 1)
              rest 350 s H0 H1 H2 H3)
    as (d2 & s2 & d3 & s3 & s' & Hrun & Hadv & Hall & Hv & Htr & Hti).
  exists d2, s2, d3, s3, s'.
  split; [exact Hrun|]. split; [exact Hadv|]. split; [exact Hall|].
  split; [exact Hv|]. split; [exact Htr|]. split; [|exact Hti].
  rewrite Htr. vm_compute in Hall. by injection Hall as <-.
Defined.

(* ===================================================================== *)
(** ** [delay]: the source replayed                                       *)
(* ===================================================================== *)

Lemma dl_pop_sorted lo t r :
  dl_sorted lo (t :: r) -> dl_pop (t :: r) = Some (t, r).
Proof.
  revert lo t. induction r as [|u r IH]; intros lo t Hs; [done|].
  destruct Hs as [_ Hs].
  change (dl_pop (t :: u :: r)) with
    (match dl_pop (u :: r) with
     | None => Some (t, [])
     | Some (b, r') =>
         if (dl_due b <? dl_due t)%Z then Some (b, t :: r') else Some (t, u :: r)
     end).
  rewrite (IH _ _ Hs). destruct Hs as [Hu _].
  by replace (dl_due u <? dl_due t)%Z with false
    by (symmetry; apply Z.ltb_ge; lia).
Qed.

Lemma dl_sorted_weaken lo lo' ts :
  (lo' <= lo)%Z -> dl_sorted lo ts -> dl_sorted lo' ts.
Proof. destruct ts as [|t r]; [done|]. intros H [H1 H2]. split; [lia|done]. Qed.

Lemma dl_sorted_snoc ts : forall lo t,
  dl_sorted lo ts -> (lo <= dl_due t)%Z ->
  (forall u, u ∈ ts -> (dl_due u <= dl_due t)%Z) ->
  dl_sorted lo (ts ++ [t]).
Proof.
  induction ts as [|u r IH]; intros lo t Hs Hlo Hle; [by split|].
  destruct Hs as [Hu Hs]. split; [done|].
  apply IH; [done| |].
  - apply Hle. by left.
  - intros w Hw. apply Hle. by right.
Qed.

Lemma dl_sorted_ge ts : forall lo u,
  dl_sorted lo ts -> u ∈ ts -> (lo <= dl_due u)%Z.
Proof.
  induction ts as [|t r IH]; intros lo u Hs Hu; [by apply elem_of_nil in Hu|].
  destruct Hs as [Ht Hs]. apply elem_of_cons in Hu as [->|Hu]; [done|].
  specialize (IH _ _ Hs Hu). lia.
Qed.

Lemma set_all_app host fuel c vs : forall ws s,
  set_all host fuel c (vs ++ ws) s =
  s' ← set_all host fuel c vs s; set_all host fuel c ws s'.
Proof.
  induction vs as [|v vs IH]; intros ws s; [done|].
  cbn [app set_all]. destruct (set_ host fuel c v s) as [s1|]; [|done].
  cbn [mbind option_bind]. apply IH.
Qed.

Lemma trace_write x v s : trace (write x v s) = trace s.
Proof. unfold write. by destruct (cells s !! x). Qed.

(** A timer of [delay] fires: [delayed._set(v)], against the same call on
    [sref]. *)
Lemma delay_fire host n b c tag v st sref :
  delay_world b c tag st -> delay_sim c tag st sref ->
  exists st' sref',
    set_ host (S (S (S n))) c v st = Some st' /\
    set_ host (S (S (S n))) c v sref = Some sref' /\
    delay_world b c tag st' /\ delay_sim c tag st' sref' /\
    value st' b = value st b /\ now st' = now st.
Proof.
  intros (Hsub & Hc & Hsb & Hb & Hbc) (Hv & Htr & Hsub' & Hc').
  rewrite (set_one_observer_exact host n c tag v st Hsub Hc).
  rewrite (set_one_observer_exact host n c tag v sref Hsub' Hc').
  eexists _, _. split; [done|]. split; [done|].
  rewrite <- Hv. destruct (strict_neq v (value st c)); [|done].
  unfold delay_world, delay_sim.
  change (subscribers (set_trace ?a _) ?x) with (subscribers a x).
  change (cells (set_trace ?a _)) with (cells a).
  change (value (set_trace ?a _) ?x) with (value a x).
  change (trace (set_trace ?a ?t)) with t.
  change (now (set_trace ?a _)) with (now a).
  rewrite !subscribers_write, !length_write, !value_write, now_write, Htr.
  rewrite !decide_True by done. by rewrite decide_False by done.
Qed.

(** The clock runs to [deadline], before the source changes again: the
    timers that are due fire, in the order they are held in. *)
Lemma delay_advance_sim host n b c ms tag deadline bcur fut ts :
  forall gas lo st sref,
  length ts <= gas -> dl_sorted lo ts ->
  delay_world b c tag st -> delay_sim c tag st sref ->
  match fut with [] => True | (t, _) :: _ => (deadline <= t)%Z end ->
  value st b = bcur ->
  exists ts1 ts2 st' sref',
    ts = ts1 ++ ts2 /\
    (forall u, u ∈ ts2 -> (deadline < dl_due u)%Z) /\
    delay_advance host (S (S (S n))) gas deadline (mkDelay b c ms ts) st
      = Some (mkDelay b c ms ts2, st') /\
    set_all host (S (S (S n))) c (List.map (act_val bcur fut) ts1) sref
      = Some sref' /\
    delay_world b c tag st' /\ delay_sim c tag st' sref' /\
    value st' b = bcur /\ now st' = Z.max (now st) deadline.
Proof.
  induction ts as [|t r IH]; intros gas lo st sref Hgas Hs HW HR Hfut Hb.
  - exists [], [], (set_now st (Z.max (now st) deadline)), sref.
    split; [done|]. split; [by intros u Hu%elem_of_nil|].
    split; [by destruct gas|]. split; [done|].
    split; [exact HW|]. split; [exact HR|]. by split.
  - assert (delay_advance host (S (S (S n))) gas deadline
              (mkDelay b c ms (t :: r)) st =
            if (dl_due t <=? deadline)%Z then
              match gas with
              | O => None
              | S g =>
                  let s0 := set_now st (Z.max (now st) (dl_due t)) in
                  s' ← set_ host (S (S (S n))) c
                         (match dl_act t with
                          | DRead => value s0 b
                          | DValue newValue => newValue
                          end) s0;
                  delay_advance host (S (S (S n))) g deadline
                    (mkDelay b c ms r) s'
              end
            else Some (mkDelay b c ms (t :: r),
                       set_now st (Z.max (now st) deadline))) as ->.
    { destruct gas; cbn [delay_advance dl_timers];
        by rewrite (dl_pop_sorted lo t r Hs). }
    destruct (Z.leb_spec (dl_due t) deadline) as [Hdue|Hdue].
    + destruct gas as [|g]; [cbn in Hgas; lia|].
      cbn zeta.
      set (s0 := set_now st (Z.max (now st) (dl_due t))).
      set (v := match dl_act t with
                | DRead => value s0 b
                | DValue newValue => newValue
                end).
      assert (v = act_val bcur fut t) as Hval.
      { unfold v, act_val. destruct (dl_act t); [|done].
        change (value s0 b) with (value st b). rewrite Hb.
        destruct fut as [|[t' v'] fut']; [done|]. cbn [read_at].
        by replace (t' <? dl_due t)%Z with false
          by (symmetry; apply Z.ltb_ge; lia). }
      destruct (delay_fire host n b c tag v s0 sref HW HR)
        as (st1 & sref1 & -> & Hset & HW1 & HR1 & Hb1 & Hnow1).
      cbn [mbind option_bind].
      destruct Hs as [_ Hs].
      destruct (IH g (dl_due t) st1 sref1) as
        (ts1 & ts2 & st' & sref' & -> & Hlate & -> & Hall & HW' & HR' & Hb' &
         Hnow'); [cbn in Hgas; lia|done|done|done|done| |].
      { rewrite Hb1. exact Hb. }
      exists (t :: ts1), ts2, st', sref'.
      split; [done|]. split; [done|]. split; [done|].
      split.
      { cbn [List.map set_all]. rewrite <- Hval, Hset. exact Hall. }
      split; [done|]. split; [done|]. split; [done|].
      rewrite Hnow', Hnow1. change (now s0) with (Z.max (now st) (dl_due t)).
      lia.
    + exists [], (t :: r), (set_now st (Z.max (now st) deadline)), sref.
      split; [done|]. split.
      { intros u Hu.
        apply elem_of_cons in Hu as [->|Hu]; [done|].
        pose proof (dl_sorted_ge _ _ _ (proj2 Hs) Hu). lia. }
      split; [done|]. split; [done|].
      split; [exact HW|]. split; [exact HR|]. by split.
Qed.

Lemma dl_sorted_app_r ts1 : forall lo ts2,
  dl_sorted lo (ts1 ++ ts2) -> dl_sorted lo ts2.
Proof.
  induction ts1 as [|t r IH]; intros lo ts2 Hs; [done|].
  destruct Hs as [Ht Hs]. by apply (dl_sorted_weaken (dl_due t)), IH.
Qed.

(** A timer that is due after the next change of the source sets the same
    value whether that change is still to come or has just happened. *)
Lemma act_val_later bcur t v rest ts :
  (forall u, u ∈ ts -> (t < dl_due u)%Z) ->
  List.map (act_val bcur ((t, v) :: rest)) ts = List.map (act_val v rest) ts.
Proof.
  induction ts as [|u r IH]; intros Hlate; [done|].
  cbn [List.map]. rewrite IH by (intros w Hw; apply Hlate; by right).
  f_equal. unfold act_val. destruct (dl_act u); [|done].
  cbn [read_at].
  by replace (t <? dl_due u)%Z with true
    by (symmetry; apply Z.ltb_lt, Hlate; left).
Qed.

Lemma delay_run_sim host n b c ms tag deadline gas evs :
  forall ts lo st sref bcur,
  (0 <= ms)%Z -> length ts + length evs <= gas -> dl_sorted lo ts ->
  (forall u, u ∈ ts -> (dl_due u <= now st + ms)%Z) ->
  delay_world b c tag st -> delay_sim c tag st sref -> value st b = bcur ->
  schedule (now st) bcur evs ->
  (forall u, u ∈ ts -> (dl_due u <= deadline)%Z) ->
  (forall t v, (t, v) ∈ evs -> (t + ms <= deadline)%Z) ->
  exists d2 s2 d3 s3 s',
    delay_run host (S (S (S n))) gas evs (mkDelay b c ms ts) st
      = Some (d2, s2) /\
    delay_advance host (S (S (S n))) gas deadline d2 s2 = Some (d3, s3) /\
    set_all host (S (S (S n))) c
      (List.map (act_val bcur evs) ts ++ List.map snd evs) sref = Some s' /\
    value s3 c = value s' c /\ trace s3 = trace s' /\ dl_timers d3 = [].
Proof.
  induction evs as [|[t v] rest IH];
    intros ts lo st sref bcur Hms Hgas Hs Hbound HW HR Hb Hsch Hdl Hevs.
  - cbn [delay_run List.map]. rewrite app_nil_r.
    destruct (delay_advance_sim host n b c ms tag deadline bcur [] ts
                gas lo st sref) as
      (ts1 & ts2 & st' & sref' & Hts & Hlate & Hadv & Hall & HW' & HR' & _);
      [cbn in Hgas; lia|done|done|done|done|done|].
    assert (ts2 = []) as ->.
    { destruct ts2 as [|u ts2]; [done|].
      assert (u ∈ ts) as Hu
        by (rewrite Hts; apply elem_of_app; right; by left).
      specialize (Hdl u Hu). specialize (Hlate u ltac:(by left)). lia. }
    rewrite app_nil_r in Hts. subst ts1.
    eexists _, _, _, _, _. split; [done|]. split; [exact Hadv|].
    split; [exact Hall|]. destruct HR' as (Hv & Htr & _). by repeat split.
  - destruct Hsch as (Ht & Hneq & Hsch).
    cbn [delay_run].
    destruct (delay_advance_sim host n b c ms tag t bcur ((t, v) :: rest) ts
                gas lo st sref) as
      (ts1 & ts2 & st1 & sref1 & Hts & Hlate & -> & Hall & HW1 & HR1 & Hb1 &
       Hnow1); [cbn in Hgas; lia|done|done|done|lia|done|].
    cbn [mbind option_bind].
    assert (now st1 = t) as Hnow by lia.
    destruct HW1 as (Hsub & Hc & Hsb & Hblt & Hbc).
    unfold delay_source_set. cbn [dl_base].
    rewrite (set_leaf_ge host (S (S (S n))) b v st1) by (done || lia).
    rewrite Hb1, Hneq. cbn [mbind option_bind].
    unfold delay_emit. cbn [dl_base dl_cell dl_ms dl_timers].
    rewrite now_write, Hnow.
    set (new := mkDlTimer (t + ms) (DValue v)).
    set (st2 := write b v st1).
    assert (dl_sorted lo ts2) as Hs2
      by (apply (dl_sorted_app_r ts1); by rewrite <- Hts).
    assert (forall u, u ∈ ts2 -> u ∈ ts) as Hin
      by (intros u Hu; rewrite Hts; apply elem_of_app; by right).
    destruct (IH (ts2 ++ [new]) (Z.min lo (t + ms)) st2 sref1 v) as
      (d2 & s2 & d3 & s3 & s' & Hrun & Hadv & Hall' & Hv & Htr & Hti).
    + done.
    + rewrite length_app. cbn [length] in *.
      rewrite Hts, length_app in Hgas. lia.
    + apply dl_sorted_snoc.
      * apply (dl_sorted_weaken lo); [lia|done].
      * cbn. lia.
      * intros u Hu. specialize (Hbound u (Hin u Hu)). cbn. lia.
    + unfold st2. rewrite now_write, Hnow.
      intros u [Hu|Hu%list_elem_of_singleton]%elem_of_app.
      * specialize (Hbound u (Hin u Hu)). lia.
      * subst u. cbn. lia.
    + unfold delay_world, st2.
      by rewrite !subscribers_write, length_write.
    + destruct HR1 as (Hv1 & Htr1 & Hsub1 & Hc1).
      unfold delay_sim, st2.
      rewrite value_write, trace_write, decide_False by done. done.
    + unfold st2. by rewrite value_write, !decide_True.
    + unfold st2. by rewrite now_write, Hnow.
    + intros u [Hu|Hu%list_elem_of_singleton]%elem_of_app.
      * by apply Hdl, Hin.
      * subst u. cbn. apply (Hevs t v). by left.
    + intros t' v' Hin'. apply (Hevs t' v'). by right.
    + exists d2, s2, d3, s3, s'. split; [exact Hrun|]. split; [exact Hadv|].
      split; [|done].
      rewrite Hts, List.map_app, <- app_assoc, set_all_app, Hall.
      cbn [mbind option_bind List.map snd].
      rewrite List.map_app, <- app_assoc in Hall'. cbn [List.map app] in Hall'.
      rewrite (act_val_later bcur t v rest ts2 Hlate).
      exact Hall'.
Qed.

(** X26: [e.delay(ms)], for a source that changes at the given times and is
    watched until every timer has fired: the result is set first to what the
    source holds [ms] after the call, read at that moment, and then to every
    value the source was set to, in that order.  The result and its observer
    end as after these calls of [_set] on the result, and no timer is left. *)
Theorem delay_replays_source (host : Host) (n gas : nat) (ms : Z)
    (base : sid) (tag : nat) (evs : list (Z * Val)) (deadline : Z)
    (s : Store) :
  (0 <= ms)%Z -> base < length (cells s) -> subscribers s base = [] ->
  schedule (now s) (value s base) evs -> length evs < gas ->
  (now s + ms <= deadline)%Z ->
  (forall t v, (t, v) ∈ evs -> (t + ms <= deadline)%Z) ->
  let d := (delay ms base s).1 in
  let s1 := subscribe (dl_cell d) (SubLog tag) (delay ms base s).2 in
  exists d2 s2 d3 s3 s',
    delay_run host (S (S (S n))) gas evs d s1 = Some (d2, s2) /\
    delay_advance host (S (S (S n))) gas deadline d2 s2 = Some (d3, s3) /\
    set_all host (S (S (S n))) (dl_cell d)
      (read_at (now s + ms) (value s base) evs :: List.map snd evs) s1
      = Some s' /\
    value s3 (dl_cell d) = value s' (dl_cell d) /\ trace s3 = trace s' /\
    dl_timers d3 = [].
Proof.
  intros Hms Hb Hsb Hsch Hgas Hdl Hevs d s1.
  set (c := length (cells s)).
  assert (d = mkDelay base c ms [mkDlTimer (now s + ms) DRead]) as Hd by done.
  assert (delay_world base c tag s1 /\ now s1 = now s /\
          value s1 base = value s base) as (HW & Hnow & Hvb).
  { unfold s1, d, delay, time, effect. rewrite signal_pair.
    cbn [fst snd dl_cell]. fold c.
    unfold delay_world.
    rewrite !subscribers_subscribe, !subscribers_signal, length_signal.
    rewrite decide_True by (split; [done|unfold c; lia]).
    rewrite decide_False by (unfold c; lia).
    rewrite length_subscribe, length_signal, value_subscribe, value_signal.
    rewrite decide_False by (unfold c; lia).
    destruct (same_host_subscribe c (SubLog tag) (signal (value s base) s).2)
      as (_ & _ & _ & _ & -> & _).
    split; [|done].
    split. { unfold subscribers, c. by rewrite lookup_ge_None_2. }
    split; [unfold c; lia|]. split; [done|]. split; unfold c; lia. }
  rewrite Hd. cbn [dl_cell].
  destruct (delay_run_sim host n base c ms tag deadline gas evs
              [mkDlTimer (now s + ms) DRead] (now s + ms)%Z s1 s1
              (value s base))
    as (d2 & s2 & d3 & s3 & s' & Hrun & Hadv & Hall & Hv & Htr & Hti).
  - done.
  - cbn. lia.
  - cbn. lia.
  - intros u ->%list_elem_of_singleton. cbn. lia.
  - done.
  - destruct HW as (H1 & H2 & _). by repeat split.
  - done.
  - by rewrite Hnow.
  - intros u ->%list_elem_of_singleton. done.
  - done.
  - by exists d2, s2, d3, s3, s'.
Qed.

(** [r = e.delay(100)] with one observer, [e] holding 0; [e] is set to 1 at
    10 and to 2 at 20, and the clock runs to 200: the observer is called
    with 2, then with 1, then with 2. *)
Lemma delay_replays_source_witness :
  let s := (effect (VNum 0) empty_store).2 in
  let evs := [(10, VNum 1); (20, VNum 2)]%Z in
  let d := (delay 100 0 s).1 in
  let s1 := subscribe 1 (SubLog 0) (delay 100 0 s).2 in
  exists d2 s2 d3 s3 s',
    delay_run demo_host 3 3 evs d s1 = Some (d2, s2) /\
    delay_advance demo_host 3 3 200 d2 s2 = Some (d3, s3) /\
    set_all demo_host 3 1 [VNum 2; VNum 1; VNum 2] s1 = Some s' /\
    value s3 1 = VNum 2 /\ trace s3 = trace s' /\
    trace s3 = [(0, VNum 2); (0, VNum 1); (0, VNum 2)] /\ dl_timers d3 = [].
Proof.
  intros s evs d s1.
  assert (0 <= 100)%Z as H0 by lia.
  assert (0 < length (cells s)) as H1 by (vm_compute; lia).
  assert (subscribers s 0 = []) as H2 by (vm_compute; reflexivity).
  assert (schedule (now s) (value s 0) evs) as H3
    by (vm_compute; repeat split; discriminate).
  assert (length evs < 3) as H4 by (vm_compute; lia).
  assert (now s + 100 <= 200)%Z as H5 by (vm_compute; discriminate).
  assert (forall t v, (t, v) ∈ evs -> (t + 100 <= 200)%Z) as H6.
  { intros t v Hin. unfold evs in Hin.
    apply elem_of_cons in Hin as [Hin|Hin]; [injection Hin as -> _; lia|].
    apply list_elem_of_singleton in Hin. injection Hin as -> _; lia. }
  destruct (delay_replays_source demo_host 0 3 100 0 0 evs 200 s
              H0 H1 H2 H3 H4 H5 H6)
    as (d2 & s2 & d3 & s3 & s' & Hrun & Hadv & Hall & Hv & Htr & Hti).
  exists d2, s2, d3, s3, s'.
  split; [exact Hrun|]. split; [exact Hadv|]. split; [exact Hall|].
  vm_compute in Hall. injection Hall as <-.
  split; [etransitivity; [exact Hv|vm_compute; reflexivity]|].
  split; [exact Htr|].
  split; [rewrite Htr; vm_compute; reflexivity|exact Hti].
Defined.

(* ===================================================================== *)
(** ** [lens]: a view of the value                                        *)
(* ===================================================================== *)

(** X27: [lens(f)(st)] views the value of the State [st], not its state:
    it holds [f(st.value())] when it is created; [put(x)] changes what
    [get()] reads and leaves the view as it is; and after [put], every
    returning [_setValue(v)] leaves the view at [f] of the value (values
    compared as [Object.is]). *)
Theorem lens_views_value_not_state (host : Host) (f : Val -> Val)
    (self : StateObj) (x : Val) (w : SWorld) :
  targets_bounded (sw_store w) ->
  so_cell self < length (cells (sw_store w)) ->
  so_var self < length (sw_vars w) ->
  let l := (lens f self w).1 in
  let w1 := (lens f self w).2 in
  let w2 := (state_put self x w1).2 in
  value (sw_store w1) l = f (value (sw_store w) (so_cell self)) /\
  state_current self w2 = x /\
  value (sw_store w2) l = f (value (sw_store w) (so_cell self)) /\
  value (sw_store w2) (so_cell self) = value (sw_store w) (so_cell self) /\
  (forall fuel v s',
     set_ host fuel (so_cell self) v (sw_store w2) = Some s' ->
     same_value (value s' l) (f (value s' (so_cell self))) = true).
Proof.
  intros Hb Hc Hvar l w1 w2.
  set (c := so_cell self) in *. set (s := sw_store w) in *.
  assert (l = (map_ c (FPure f) s).1) as Hl.
  { unfold l, lens. fold c s. by destruct (map_ c (FPure f) s). }
  assert (sw_store w1 = (map_ c (FPure f) s).2 /\ sw_vars w1 = sw_vars w)
    as [Hs1 Hv1].
  { unfold w1, lens. fold c s. by destruct (map_ c (FPure f) s). }
  destruct (map_mapped c l (FPure f) f (tracks_pure f c) s Hb Hc Hl)
    as [Hinv Ha].
  rewrite <- Hs1 in Hinv, Ha.
  assert (value (sw_store w1) l = f (value s c)) as Hval.
  { rewrite Hs1, Hl, map_unfold.
    cbn -[signal subscribe value subscribers].
    by rewrite value_subscribe, value_signal, decide_True. }
  assert (value (sw_store w1) c = value s c) as Hvc.
  { rewrite Hs1, map_unfold.
    cbn -[signal subscribe value subscribers].
    rewrite value_subscribe, value_signal, decide_False; [done|lia]. }
  assert (sw_store w2 = (signal VUndef (sw_store w1)).2 /\
          sw_vars w2 = <[so_var self := x]> (sw_vars w1 ++ [x])) as [Hs2 Hv2].
  { unfold w2, state_put, state, effect. by rewrite signal_pair. }
  assert (quiet (sw_store w1) (sw_store w2)) as Hq
    by (rewrite Hs2; apply quiet_signal).
  destruct Hinv as (Hc1 & Hl1 & Hne & Hrest).
  split; [done|]. split.
  { unfold state_current. rewrite Hv2, list_lookup_insert_eq; [done|].
    rewrite length_app, Hv1. lia. }
  split. { rewrite Hs2, value_signal, decide_False by lia. done. }
  split. { rewrite Hs2, value_signal, decide_False by lia. done. }
  intros fuel v s' Hset.
  assert (derived_inv c l (FPure f) (sw_store w2)) as Hinv2
    by (by apply (derived_inv_quiet c l (FPure f) (sw_store w1))).
  assert (agree_with f c l (sw_store w2)) as Ha2
    by (by apply (agree_with_quiet f c l (FPure f) (sw_store w1))).
  destruct (set_each_mapped host c l (FPure f) f (tracks_pure f c) fuel
              [(c, v)] (sw_store w2) s' Hinv2 Ha2) as [_ H].
  - intros y u Hin%list_elem_of_singleton. by injection Hin as -> _.
  - cbn [set_each]. rewrite Hset. done.
  - exact H.
Qed.

(** A State with state 7 and value 1, viewed through [x => x * 2]: the view
    holds 2, [put(9)] leaves it at 2, and [_setValue(5)] takes it to 10. *)
Lemma lens_views_value_not_state_witness :
  let r := state (VNum 7) (VNum 1) (mkSWorld empty_store []) in
  let l := (lens double r.1 r.2).1 in
  let w2 := (state_put r.1 (VNum 9) (lens double r.1 r.2).2).2 in
  value (sw_store w2) l = VNum 2 /\ state_current r.1 w2 = VNum 9 /\
  exists s', set_ demo_host 4 (so_cell r.1) (VNum 5) (sw_store w2) = Some s' /\
             same_value (value s' l) (VNum 10) = true.
Proof.
  intros r l w2.
  assert (targets_bounded (sw_store r.2)) as H1.
  { intros y fn t Hin. vm_compute in Hin.
    destruct y as [|y]; [|destruct y]; by apply elem_of_nil in Hin. }
  assert (so_cell r.1 < length (cells (sw_store r.2))) as H2
    by (vm_compute; lia).
  assert (so_var r.1 < length (sw_vars r.2)) as H3 by (vm_compute; lia).
  destruct (lens_views_value_not_state demo_host double r.1 (VNum 9) r.2
              H1 H2 H3) as (_ & Hx & Hv & _ & Hset).
  split; [exact Hv|]. split; [exact Hx|].
  assert (exists s', set_ demo_host 4 (so_cell r.1) (VNum 5) (sw_store w2)
                     = Some s') as [s' Hs'] by (vm_compute; by eexists).
  exists s'. split; [exact Hs'|].
  pose proof (Hset 4 (VNum 5) s' Hs') as H.
  vm_compute in Hs'. injection Hs' as <-. exact H.
Defined.

(* ===================================================================== *)
(** ** The utility [delay(ms, value)]                                     *)
(* ===================================================================== *)

(** X28: the result of the utility [delay(ms, value)] holds [value] from
    the moment it is created and at every later time; its one timer sets it
    to [value] again, which calls no observer unless [value] is [NaN], the
    one value that differs from itself. *)
Theorem delay_of_value_is_constant (host : Host) (n gas : nat) (ms : Z)
    (v : Val) (tag : nat) (deadline : Z) (s : Store) :
  0 < gas ->
  let d := (delay_of_value ms v s).1 in
  let s1 := subscribe (dl_cell d) (SubLog tag) (delay_of_value ms v s).2 in
  value s1 (dl_cell d) = v /\
  exists d3 s3,
    delay_advance host (S (S (S n))) gas deadline d s1 = Some (d3, s3) /\
    value s3 (dl_cell d) = v /\
    (strict_neq v v = false -> trace s3 = trace s) /\
    (strict_neq v v = true -> (now s + ms <= deadline)%Z ->
     trace s3 = (tag, v) :: trace s) /\
    ((now s + ms <= deadline)%Z -> dl_timers d3 = []).
Proof.
  intros Hgas d s1.
  set (b := length (cells s)). set (c := S b).
  set (sb := (signal v s).2).
  assert (d = mkDelay b c ms [mkDlTimer (now s + ms) DRead]) as Hd.
  { unfold d, delay_of_value, delay, time, effect.
    rewrite signal_pair, (signal_pair _ (signal v s).2).
    cbn [fst snd]. by rewrite length_signal. }
  assert (s1 = subscribe c (SubLog tag) (signal v sb).2) as Hs1.
  { unfold s1. rewrite Hd. cbn [dl_cell].
    unfold delay_of_value, delay, time, effect.
    rewrite signal_pair, (signal_pair _ (signal v s).2). cbn [fst snd].
    by rewrite value_signal, decide_True. }
  assert (length (cells sb) = c) as Hlen by (unfold sb; by rewrite length_signal).
  assert (value s1 c = v /\ value s1 b = v /\
          subscribers s1 c = [SubLog tag] /\ c < length (cells s1) /\
          trace s1 = trace s) as (Hvc & Hvb & Hsub & Hc & Htr).
  { rewrite Hs1.
    rewrite !value_subscribe, !value_signal, subscribers_subscribe,
      subscribers_signal, length_subscribe, !length_signal, Hlen.
    rewrite decide_True by done. rewrite decide_False by (unfold c; lia).
    unfold sb. rewrite value_signal, decide_True by done.
    rewrite decide_True by (split; [done|lia]).
    split; [done|]. split; [done|]. split.
    { unfold subscribers. rewrite lookup_ge_None_2; [done|].
      rewrite length_signal. fold b. unfold c. lia. }
    split; [lia|].
    by destruct (same_host_subscribe c (SubLog tag) (signal v (signal v s).2).2)
      as (-> & _). }
  rewrite Hd. cbn [dl_cell]. split; [done|].
  destruct gas as [|g]; [lia|].
  cbn [delay_advance dl_timers dl_pop dl_due dl_act dl_base dl_cell].
  destruct (Z.leb_spec (now s + ms) deadline) as [Hdue|Hdue].
  - set (s0 := set_now s1 (Z.max (now s1) (now s + ms))).
    change (value s0 b) with (value s1 b). rewrite Hvb.
    rewrite (set_one_observer_exact host n c tag v s0 Hsub Hc).
    cbn [mbind option_bind].
    change (value s0 c) with (value s1 c). rewrite Hvc.
    assert (forall st, delay_advance host (S (S (S n))) g deadline
                         (mkDelay b c ms []) st =
                       Some (mkDelay b c ms [],
                             set_now st (Z.max (now st) deadline))) as ->
      by (intros st; by destruct g).
    eexists _, _. split; [done|].
    change (value (set_now ?a _) c) with (value a c).
    change (trace (set_now ?a _)) with (trace a).
    destruct (strict_neq v v).
    + change (value (set_trace ?a _) c) with (value a c).
      change (trace (set_trace ?a ?t)) with t.
      rewrite value_write, !decide_True by done.
      change (trace s0) with (trace s1). rewrite Htr.
      split; [done|]. split; [done|]. by split.
    + change (value s0 c) with (value s1 c).
      change (trace s0) with (trace s1). rewrite Htr, Hvc.
      split; [done|]. split; [done|]. by split.
  - eexists _, _. split; [done|].
    change (value (set_now ?a _) c) with (value a c).
    change (trace (set_now ?a _)) with (trace a). rewrite Hvc, Htr.
    split; [done|]. split; [done|]. split; intros; lia.
Qed.

(** [delay(100, 5)] with one observer, watched until 1000: the result holds
    5 throughout and the observer is never called. *)
Lemma delay_of_value_is_constant_witness :
  let d := (delay_of_value 100 (VNum 5) empty_store).1 in
  let s1 := subscribe (dl_cell d) (SubLog 0)
              (delay_of_value 100 (VNum 5) empty_store).2 in
  value s1 (dl_cell d) = VNum 5 /\
  exists d3 s3,
    delay_advance demo_host 3 1 1000 d s1 = Some (d3, s3) /\
    value s3 (dl_cell d) = VNum 5 /\ trace s3 = [] /\ dl_timers d3 = [].
Proof.
  intros d s1.
  assert (0 < 1) as H0 by lia.
  destruct (delay_of_value_is_constant demo_host 0 1 100 (VNum 5) 0 1000
              empty_store H0)
    as (Hv & d3 & s3 & Hadv & Hv3 & Hsame & _ & Hti).
  split; [exact Hv|]. exists d3, s3.
  split; [exact Hadv|]. split; [exact Hv3|].
  split; [exact (Hsame eq_refl)|].
  apply Hti. vm_compute. discriminate.
Defined.
